(** * MZHV: the EPT paging engine and the VM-exit handlers that drive it

    A shallow embedding of [ept.c], [vmexit.c], [memory.c], [context.h],
    [ept.h], [ia32.h] and [vmexit.h] of the MZHV driver and of the
    prerequisites check of [vmm.c], and the properties of the mapping
    engine, of the set-up of the EPT hierarchy and of the VM-exit handlers
    proved over it.

    Conventions.
    - A [UINT64] is an [N]; C bit-fields are read and written with
      [bitfield] and [set_bitfield], which are [N.land], [N.lor],
      [N.ldiff], [N.shiftl] and [N.shiftr] spelled out.  Where C arithmetic
      can leave 64 bits the wrap-around is written explicitly.
    - Host-physical memory is a finite map from 4 KiB frame numbers to
      pages of 512 quad-words.  [Memory_getVirtualAddress] inverts a
      host-physical address to the page that lives there and bug-checks
      when nothing does.
    - Code that can call [KeBugCheck] returns an [Outcome]. *)

From Stdlib Require Import NArith ZArith Lia.
From stdpp Require Import base numbers option list gmap.

Local Open Scope N_scope.

(** ** Bit-fields of a 64-bit word *)

Module Bits.

Definition bitfield (lo w x : N) : N :=
  N.land (N.shiftr x lo) (N.ones w).

Definition set_bitfield (lo w v x : N) : N :=
  N.lor (N.ldiff x (N.shiftl (N.ones w) lo))
        (N.shiftl (N.land v (N.ones w)) lo).

Definition bool_to_N (b : bool) : N := if b then 1 else 0.

End Bits.

Import Bits.

(** ** Constants of [context.h], [ept.h], [ia32.h], [bsod.h] and [ntstatus.h] *)

Definition CONTEXT_EPT_NO_SPLITS : N := 32.
Definition CONTEXT_EPT_MAX_MAPPINGS : N := 32.
Definition EPT_PT_ENTRIES : N := 512.

Definition BSOD_MEMORY_VA_CONVERSION : N := 0x1000.
Definition BSOD_VMEXIT_EPT_NO_MAPPING : N := 0x1002.
Definition BSOD_VMEXIT_EPT_UNKNOWN : N := 0x1003.

(** An [NTSTATUS] is kept as the 32-bit pattern of the signed [LONG];
    [NT_SUCCESS] tests its sign bit. *)
Definition STATUS_SUCCESS : N := 0.
Definition STATUS_UNSUCCESSFUL : N := 0xC0000001.
Definition NT_SUCCESS (ntStatus : N) : bool := negb (N.testbit ntStatus 31).

(** The conversion [(UINT64)ntStatus] performed when a status is stored
    into [RAX]: sign extension from 32 to 64 bits. *)
Definition NTSTATUS_to_UINT64 (ntStatus : N) : N :=
  if N.testbit ntStatus 31 then N.lor ntStatus 0xFFFFFFFF00000000 else ntStatus.

(** ** Results of code that may bug-check *)

Inductive Outcome (A : Type) : Type :=
| Returns (a : A)
| BugCheck (code : N).
Arguments Returns {A} a.
Arguments BugCheck {A} code.

#[global] Instance Outcome_ret : MRet Outcome := @Returns.
#[global] Instance Outcome_bind : MBind Outcome := λ A B f m,
  match m with
  | Returns a => f a
  | BugCheck code => BugCheck code
  end.

(** ** [EPT_Address]: the decomposition of a 64-bit address *)

Module EPT_Address.
Definition offset (address : N) : N := bitfield 0 12 address.
Definition ptEntry (address : N) : N := bitfield 12 9 address.
Definition pdEntry (address : N) : N := bitfield 21 9 address.
Definition pdptEntry (address : N) : N := bitfield 30 9 address.
Definition pml4Entry (address : N) : N := bitfield 39 9 address.
Definition pageFrameNumber4KB (address : N) : N := bitfield 12 52 address.
Definition pageFrameNumber2MB (address : N) : N := bitfield 21 43 address.
(** [(EPT_Address){ .pageFrameNumber4KB = pfn }.address] *)
Definition of_pageFrameNumber4KB (pfn : N) : N := set_bitfield 12 52 pfn 0.
(** [(EPT_Address){ .pageFrameNumber2MB = pfn }.address] *)
Definition of_pageFrameNumber2MB (pfn : N) : N := set_bitfield 21 43 pfn 0.
(** [exitAddr.offset = 0] *)
Definition clear_offset (address : N) : N := set_bitfield 0 12 0 address.
End EPT_Address.

(** ** EPT entries *)

(** [EPT_PagingStructure]: the directory layout shared by PML4, PDPT and
    (as [EPT_PdE.standard]) PD entries. *)
Module EPT_PagingStructure.
Definition readAccess (e : N) : N := bitfield 0 1 e.
Definition writeAccess (e : N) : N := bitfield 1 1 e.
Definition fetchAccess (e : N) : N := bitfield 2 1 e.
Definition pageFrameNumber (e : N) : N := bitfield 12 40 e.
(** The compound literal with the three access bits and the frame. *)
Definition make (readAccess writeAccess fetchAccess : bool) (pageFrameNumber : N) : N :=
    set_bitfield 12 40 pageFrameNumber
      (set_bitfield 2 1 (bool_to_N fetchAccess)
        (set_bitfield 1 1 (bool_to_N writeAccess)
          (set_bitfield 0 1 (bool_to_N readAccess) 0))).
End EPT_PagingStructure.

(** [EPT_PdE2MB]: a PD entry mapping a 2 MiB page ([EPT_PdE.largePage]). *)
Module EPT_PdE2MB.
Definition readAccess (e : N) : N := bitfield 0 1 e.
Definition writeAccess (e : N) : N := bitfield 1 1 e.
Definition fetchAccess (e : N) : N := bitfield 2 1 e.
Definition memoryType (e : N) : N := bitfield 3 3 e.
Definition isLargePage (e : N) : N := bitfield 7 1 e.
Definition pageFrameNumber (e : N) : N := bitfield 21 31 e.
Definition set_memoryType (v e : N) : N := set_bitfield 3 3 v e.
Definition make (readAccess writeAccess fetchAccess isLargePage : bool)
      (memoryType pageFrameNumber : N) : N :=
    set_bitfield 21 31 pageFrameNumber
      (set_bitfield 7 1 (bool_to_N isLargePage)
        (set_bitfield 3 3 memoryType
          (set_bitfield 2 1 (bool_to_N fetchAccess)
            (set_bitfield 1 1 (bool_to_N writeAccess)
              (set_bitfield 0 1 (bool_to_N readAccess) 0))))).
End EPT_PdE2MB.

(** [EPT_PtE]: a PT entry mapping a 4 KiB page. *)
Module EPT_PtE.
Definition readAccess (e : N) : N := bitfield 0 1 e.
Definition writeAccess (e : N) : N := bitfield 1 1 e.
Definition fetchAccess (e : N) : N := bitfield 2 1 e.
Definition memoryType (e : N) : N := bitfield 3 3 e.
Definition pageFrameNumber (e : N) : N := bitfield 12 40 e.
Definition set_readAccess (b : bool) (e : N) : N := set_bitfield 0 1 (bool_to_N b) e.
Definition set_writeAccess (b : bool) (e : N) : N := set_bitfield 1 1 (bool_to_N b) e.
Definition set_fetchAccess (b : bool) (e : N) : N := set_bitfield 2 1 (bool_to_N b) e.
Definition set_memoryType (v e : N) : N := set_bitfield 3 3 v e.
Definition set_pageFrameNumber (v e : N) : N := set_bitfield 12 40 v e.
Definition make (readAccess writeAccess fetchAccess : bool)
      (memoryType pageFrameNumber : N) : N :=
    set_bitfield 12 40 pageFrameNumber
      (set_bitfield 3 3 memoryType
        (set_bitfield 2 1 (bool_to_N fetchAccess)
          (set_bitfield 1 1 (bool_to_N writeAccess)
            (set_bitfield 0 1 (bool_to_N readAccess) 0)))).
End EPT_PtE.

(** [EPT_EptP]: the extended-page-table pointer. *)
Module EPT_EptP.
Definition pageFrameNumber (bits : N) : N := bitfield 12 40 bits.
End EPT_EptP.

(** [VMEXIT_EptViolation]: the exit qualification of an EPT violation. *)
Module VMEXIT_EptViolation.
Definition dataRead (bits : N) : N := bitfield 0 1 bits.
Definition dataWrite (bits : N) : N := bitfield 1 1 bits.
Definition instructionFetch (bits : N) : N := bitfield 2 1 bits.
End VMEXIT_EptViolation.

(** ** Host-physical memory and the per-core context *)

(** A page of paging-structure memory is an array of 512 quad-words; a
    pointer to such a page is modelled by the number of the host-physical
    frame it occupies. *)
Definition readq (mem : gmap N (list N)) (page index : N) : N :=
  default 0 (mem !! page ≫= λ p, p !! N.to_nat index).

Definition writeq (mem : gmap N (list N)) (page index value : N) : gmap N (list N) :=
  alter (λ p, <[N.to_nat index := value]> p) page mem.

(** [memory.c]: [MmGetVirtualForPhysical] returning [NULL] is fatal. *)
Definition Memory_getVirtualAddress (mem : gmap N (list N)) (physicalAddress : N)
  : Outcome N :=
  let frame := EPT_Address.pageFrameNumber4KB physicalAddress in
  match mem !! frame with
  | Some _ => Returns frame
  | None => BugCheck BSOD_MEMORY_VA_CONVERSION
  end.

Record Context_EptChangedMapping : Type := {
  guestAddress : N;
  hostRwAddress : N;
  hostFetchAddress : N;
  valid : bool
}.

(** [(Context_EptChangedMapping){ 0 }] *)
Definition Context_EptChangedMapping_zero : Context_EptChangedMapping :=
  {| guestAddress := 0; hostRwAddress := 0; hostFetchAddress := 0; valid := false |}.

(** The part of [Context_LogicalCore] the mapping engine works on
    ([eptMappingData] and [eptp]), together with the host-physical memory
    that holds this core's paging structures.  [splitBuffer] lists, slot by
    slot, what [Memory_getPhysicalAddress] returns for the 32 pages of the
    split arena; the contents of the slots live in [memory]. *)
Record Context_LogicalCore : Type := {
  memory : gmap N (list N);
  splitBuffer : list N;
  noOfUsedSplits : N;
  changedMappings : list Context_EptChangedMapping;
  eptp : N
}.

Definition set_memory (mem : gmap N (list N)) (c : Context_LogicalCore) :=
  {| memory := mem; splitBuffer := splitBuffer c;
     noOfUsedSplits := noOfUsedSplits c;
     changedMappings := changedMappings c; eptp := eptp c |}.

Definition set_changedMappings (l : list Context_EptChangedMapping)
    (c : Context_LogicalCore) :=
  {| memory := memory c; splitBuffer := splitBuffer c;
     noOfUsedSplits := noOfUsedSplits c;
     changedMappings := l; eptp := eptp c |}.

(** ** [ept.c] *)

(** The 512 entries [splitPage] writes into a fresh page table. *)
Definition splitPage_table (memoryType pageFrameNumber : N) : list N :=
  (λ ptEntryIndex : nat,
     EPT_PtE.make true true true memoryType
       (EPT_PT_ENTRIES * pageFrameNumber + N.of_nat ptEntryIndex))
  <$> seq 0 (N.to_nat EPT_PT_ENTRIES).

(** [splitPage(pde)] with [pde = &pd[pdEntryIndex]]. *)
Definition splitPage (c : Context_LogicalCore) (pd pdEntryIndex : N)
  : N * Context_LogicalCore :=
  if CONTEXT_EPT_NO_SPLITS <=? noOfUsedSplits c then (STATUS_UNSUCCESSFUL, c)
  else
    let pte := EPT_Address.pageFrameNumber4KB
                 (splitBuffer c !!! N.to_nat (noOfUsedSplits c)) in
    let pde := readq (memory c) pd pdEntryIndex in
    let memoryType := EPT_PdE2MB.memoryType pde in
    let pageFrameNumber := EPT_PdE2MB.pageFrameNumber pde in
    let mem1 := <[pte := splitPage_table memoryType pageFrameNumber]> (memory c) in
    let mem2 := writeq mem1 pd pdEntryIndex
                  (EPT_PagingStructure.make true true true pte) in
    (STATUS_SUCCESS,
     {| memory := mem2; splitBuffer := splitBuffer c;
        noOfUsedSplits := noOfUsedSplits c + 1;
        changedMappings := changedMappings c; eptp := eptp c |}).

(** The walk PML4 -> PDPT -> PD at the head of [EPT_changeMapping]; the
    result is the page directory covering [sourceAddress]. *)
Definition EPT_pageDirectory (c : Context_LogicalCore) (sourceAddress : N)
  : Outcome N :=
  pml4 ← Memory_getVirtualAddress (memory c)
    (EPT_Address.of_pageFrameNumber4KB (EPT_EptP.pageFrameNumber (eptp c)));
  pdpt ← Memory_getVirtualAddress (memory c)
    (EPT_Address.of_pageFrameNumber4KB
       (EPT_PagingStructure.pageFrameNumber
          (readq (memory c) pml4 (EPT_Address.pml4Entry sourceAddress))));
  Memory_getVirtualAddress (memory c)
    (EPT_Address.of_pageFrameNumber4KB
       (EPT_PagingStructure.pageFrameNumber
          (readq (memory c) pdpt (EPT_Address.pdptEntry sourceAddress)))).

(** The walk followed by the split of a large page: what [EPT_changeMapping]
    does before it touches the leaf.  Returns the status, the core and the
    page directory. *)
Definition EPT_traverse (c : Context_LogicalCore) (sourceAddress : N)
  : Outcome (N * Context_LogicalCore * N) :=
  pd ← EPT_pageDirectory c sourceAddress;
  let pdEntry := EPT_Address.pdEntry sourceAddress in
  if EPT_PdE2MB.isLargePage (readq (memory c) pd pdEntry) =? 1
  then let '(ntStatus, c1) := splitPage c pd pdEntry in mret (ntStatus, c1, pd)
  else mret (STATUS_SUCCESS, c, pd).

Definition EPT_changeMapping (c : Context_LogicalCore)
    (sourceAddress targetAddress : N) (rw fetch : bool)
  : Outcome (N * Context_LogicalCore) :=
  '(ntStatus, c1, pd) ← EPT_traverse c sourceAddress;
  if negb (NT_SUCCESS ntStatus) then mret (ntStatus, c1)
  else
    pt ← Memory_getVirtualAddress (memory c1)
      (EPT_Address.of_pageFrameNumber4KB
         (EPT_PagingStructure.pageFrameNumber
            (readq (memory c1) pd (EPT_Address.pdEntry sourceAddress))));
    let ptEntry := EPT_Address.ptEntry sourceAddress in
    let pte := readq (memory c1) pt ptEntry in
    let pte := EPT_PtE.set_pageFrameNumber
                 (EPT_Address.pageFrameNumber4KB targetAddress) pte in
    let pte := EPT_PtE.set_readAccess rw pte in
    let pte := EPT_PtE.set_writeAccess rw pte in
    let pte := EPT_PtE.set_fetchAccess fetch pte in
    mret (STATUS_SUCCESS, set_memory (writeq (memory c1) pt ptEntry pte) c1).

(** ** [vmexit.c] *)

(** [currentMapping->valid && currentMapping->guestAddress == address] *)
Definition mapsGuestAddress (address : N)
    (currentMapping : Context_EptChangedMapping) : bool :=
  valid currentMapping && (guestAddress currentMapping =? address).

(** The search loop of [eptViolationHandler] and [vmCallUnmapPage]: the
    first slot, among [CONTEXT_EPT_MAX_MAPPINGS], holding a valid record
    for [address]. *)
Definition findMapping (changedMappings : list Context_EptChangedMapping)
    (address : N) : option (nat * Context_EptChangedMapping) :=
  list_find (λ m, mapsGuestAddress address m = true)
    (take (N.to_nat CONTEXT_EPT_MAX_MAPPINGS) changedMappings).

(** The rejection test in the first loop of [vmCallMapPage]. *)
Definition mappingCollides (guest hostRw hostFetch : N)
    (currentMapping : Context_EptChangedMapping) : bool :=
  valid currentMapping &&
  ((guestAddress currentMapping =? guest) ||
   (hostFetchAddress currentMapping =? guest) ||
   (hostRwAddress currentMapping =? guest) ||
   (guestAddress currentMapping =? hostRw) ||
   (guestAddress currentMapping =? hostFetch)).

(** The [while] loop of [vmCallMapPage]: the first slot that is not valid. *)
Definition selectIndex (changedMappings : list Context_EptChangedMapping)
  : option (nat * Context_EptChangedMapping) :=
  list_find (λ m, valid m = false)
    (take (N.to_nat CONTEXT_EPT_MAX_MAPPINGS) changedMappings).

(** [vmCallMapPage]: the arguments are the guest's [RDX], [R8] and [R9];
    the first component of the result is the value left in [RAX]. *)
Definition vmCallMapPage (c : Context_LogicalCore) (RDX R8 R9 : N)
  : Outcome (N * Context_LogicalCore) :=
  if negb ((EPT_Address.offset RDX =? 0) && (EPT_Address.offset R8 =? 0)
           && (EPT_Address.offset R9 =? 0))
  then mret (NTSTATUS_to_UINT64 STATUS_UNSUCCESSFUL, c)
  else if existsb (mappingCollides RDX R8 R9)
            (take (N.to_nat CONTEXT_EPT_MAX_MAPPINGS) (changedMappings c))
  then mret (NTSTATUS_to_UINT64 STATUS_UNSUCCESSFUL, c)
  else match selectIndex (changedMappings c) with
  | None => mret (NTSTATUS_to_UINT64 STATUS_UNSUCCESSFUL, c)
  | Some (selectedIndex, _) =>
    '(ntStatus, c1) ← EPT_changeMapping c RDX RDX false false;
    if negb (NT_SUCCESS ntStatus) then mret (NTSTATUS_to_UINT64 ntStatus, c1)
    else
      mret (NTSTATUS_to_UINT64 STATUS_SUCCESS,
            set_changedMappings
              (<[selectedIndex :=
                   {| guestAddress := RDX; hostRwAddress := R8;
                      hostFetchAddress := R9; valid := true |}]>
                 (changedMappings c1)) c1)
  end.

(** [vmCallUnmapPage]: the argument is the guest's [RDX]. *)
Definition vmCallUnmapPage (c : Context_LogicalCore) (RDX : N)
  : Outcome (N * Context_LogicalCore) :=
  match findMapping (changedMappings c) RDX with
  | None => mret (NTSTATUS_to_UINT64 STATUS_UNSUCCESSFUL, c)
  | Some (foundMapping, _) =>
    '(ntStatus, c1) ← EPT_changeMapping c RDX RDX true true;
    if negb (NT_SUCCESS ntStatus) then mret (NTSTATUS_to_UINT64 ntStatus, c1)
    else
      mret (NTSTATUS_to_UINT64 STATUS_SUCCESS,
            set_changedMappings
              (<[foundMapping := Context_EptChangedMapping_zero]>
                 (changedMappings c1)) c1)
  end.

(** [eptViolationHandler]: the arguments are the VMCS fields
    [VMCS_EXIT_QUALIFICATION] and [VMCS_GUEST_PHYSICAL_ADDRESS_FULL].  The
    status of [EPT_changeMapping] is dropped, as in the source. *)
Definition eptViolationHandler (c : Context_LogicalCore)
    (exitQualification guestPhysicalAddress : N) : Outcome Context_LogicalCore :=
  let exitAddr := EPT_Address.clear_offset guestPhysicalAddress in
  match findMapping (changedMappings c) exitAddr with
  | None => BugCheck BSOD_VMEXIT_EPT_NO_MAPPING
  | Some (_, foundMapping) =>
    if (VMEXIT_EptViolation.dataRead exitQualification =? 1)
       || (VMEXIT_EptViolation.dataWrite exitQualification =? 1)
    then
      '(_, c1) ← EPT_changeMapping c (guestAddress foundMapping)
                   (hostRwAddress foundMapping) true false;
      mret c1
    else if VMEXIT_EptViolation.instructionFetch exitQualification =? 1
    then
      '(_, c1) ← EPT_changeMapping c (guestAddress foundMapping)
                   (hostFetchAddress foundMapping) false true;
      mret c1
    else BugCheck BSOD_VMEXIT_EPT_UNKNOWN
  end.

(** The 4 KiB leaf the hardware walk reaches for [address], when the page
    directory entry on the way is not a large page. *)
Definition EPT_leaf (c : Context_LogicalCore) (address : N) : option N :=
  match EPT_pageDirectory c address with
  | Returns pd =>
    let pde := readq (memory c) pd (EPT_Address.pdEntry address) in
    if EPT_PdE2MB.isLargePage pde =? 1 then None
    else
      page ← memory c !! EPT_PagingStructure.pageFrameNumber pde;
      page !! N.to_nat (EPT_Address.ptEntry address)
  | BugCheck _ => None
  end.

(** ** The MTRR resolver of [ept.c] *)

Definition IA32_MTRR_PHYSBASE0 : N := 0x200.
Definition IA32_MTRR_PHYSMASK0 : N := 0x201.
Definition IA32_MTRR_PHYSBASE0_INC : N := 2.
Definition IA32_MTRR_PHYSMASK0_INC : N := 2.
Definition IA32_MTRR_MEMORY_TYPE_UC : N := 0x0.
Definition IA32_MTRR_MEMORY_TYPE_WC : N := 0x1.
Definition IA32_MTRR_MEMORY_TYPE_WT : N := 0x4.
Definition IA32_MTRR_MEMORY_TYPE_WP : N := 0x5.
Definition IA32_MTRR_MEMORY_TYPE_WB : N := 0x6.
Definition IA32_MTRR_MEMORY_TYPE_ERR : N := 0xFFFF.

Module IA32_MtrrPhysbase.
Definition memoryType (bits : N) : N := bitfield 0 8 bits.
Definition physBase (bits : N) : N := bitfield 12 52 bits.
End IA32_MtrrPhysbase.

Module IA32_MtrrPhysmask.
Definition valid (bits : N) : N := bitfield 11 1 bits.
Definition physMask (bits : N) : N := bitfield 12 52 bits.
End IA32_MtrrPhysmask.

Module EPT_VariableMtrr.
Record t : Type := {
  baseAddress : N;
  length : N;
  memoryType : N;
  valid : bool
}.
(** An element of the zero-initialised cache array. *)
Definition zero : t :=
  {| baseAddress := 0; length := 0; memoryType := 0; valid := false |}.
End EPT_VariableMtrr.

Module EPT_FoundMemoryTypes.
Record t : Type := {
  uncacheable : bool;
  writeCombining : bool;
  writeThrough : bool;
  writeProtected : bool;
  writeback : bool
}.
Definition zero : t :=
  {| uncacheable := false; writeCombining := false; writeThrough := false;
     writeProtected := false; writeback := false |}.
(** The sum of the five one-bit fields that [searchVariableMtrrs] tests. *)
Definition count (f : t) : N :=
  bool_to_N (uncacheable f) + bool_to_N (writeCombining f)
  + bool_to_N (writeThrough f) + bool_to_N (writeProtected f)
  + bool_to_N (writeback f).
End EPT_FoundMemoryTypes.

(** The intrinsic [_BitScanForward64]: the index of the lowest set bit of
    a 64-bit mask, or nothing when the mask is zero. *)
Definition BitScanForward64 (mask : N) : option N :=
  (λ found : nat * nat, N.of_nat found.1)
  <$> list_find (λ index, N.testbit mask (N.of_nat index) = true) (seq 0 64).

(** One iteration of the loop of [fillVariableMtrrsCache]; [readmsr] is the
    machine's MSR file. *)
Definition fillVariableMtrr (readmsr : N → N)
    (variableMtrrs : list EPT_VariableMtrr.t) (mtrrIndex : nat)
  : list EPT_VariableMtrr.t :=
  let physbase := readmsr (IA32_MTRR_PHYSBASE0 + IA32_MTRR_PHYSBASE0_INC * N.of_nat mtrrIndex) in
  let physmask := readmsr (IA32_MTRR_PHYSMASK0 + IA32_MTRR_PHYSMASK0_INC * N.of_nat mtrrIndex) in
  if IA32_MtrrPhysmask.valid physmask =? 0 then variableMtrrs
  else
    match BitScanForward64
            (EPT_Address.of_pageFrameNumber4KB (IA32_MtrrPhysmask.physMask physmask)) with
    | None => variableMtrrs
    | Some firstOneIndex =>
      <[mtrrIndex :=
          {| EPT_VariableMtrr.baseAddress :=
               EPT_Address.of_pageFrameNumber4KB (IA32_MtrrPhysbase.physBase physbase);
             EPT_VariableMtrr.length := N.shiftl 1 firstOneIndex mod 2 ^ 64;
             EPT_VariableMtrr.memoryType := IA32_MtrrPhysbase.memoryType physbase;
             EPT_VariableMtrr.valid := true |}]> variableMtrrs
    end.

Definition fillVariableMtrrsCache (readmsr : N → N)
    (noOfVariableRangeRegisters : N) (variableMtrrs : list EPT_VariableMtrr.t)
  : list EPT_VariableMtrr.t :=
  foldl (fillVariableMtrr readmsr) variableMtrrs
    (seq 0 (N.to_nat noOfVariableRangeRegisters)).

(** The range test of [searchVariableMtrrs]; the sum is a [UINT64]. *)
Definition mtrrContains (currentMtrr : EPT_VariableMtrr.t) (physicalAddress : N) : bool :=
  (EPT_VariableMtrr.baseAddress currentMtrr <=? physicalAddress)
  && (physicalAddress <?
      (EPT_VariableMtrr.baseAddress currentMtrr + EPT_VariableMtrr.length currentMtrr)
        mod 2 ^ 64).

(** The [switch] of [searchVariableMtrrs]; [None] is the [default] case. *)
Definition recordMemoryType (memoryType : N) (foundTypes : EPT_FoundMemoryTypes.t)
  : option EPT_FoundMemoryTypes.t :=
  let '{| EPT_FoundMemoryTypes.uncacheable := uc;
          EPT_FoundMemoryTypes.writeCombining := wc;
          EPT_FoundMemoryTypes.writeThrough := wt;
          EPT_FoundMemoryTypes.writeProtected := wp;
          EPT_FoundMemoryTypes.writeback := wb |} := foundTypes in
  if memoryType =? IA32_MTRR_MEMORY_TYPE_UC
  then Some (EPT_FoundMemoryTypes.Build_t true wc wt wp wb)
  else if memoryType =? IA32_MTRR_MEMORY_TYPE_WC
  then Some (EPT_FoundMemoryTypes.Build_t uc true wt wp wb)
  else if memoryType =? IA32_MTRR_MEMORY_TYPE_WT
  then Some (EPT_FoundMemoryTypes.Build_t uc wc true wp wb)
  else if memoryType =? IA32_MTRR_MEMORY_TYPE_WP
  then Some (EPT_FoundMemoryTypes.Build_t uc wc wt true wb)
  else if memoryType =? IA32_MTRR_MEMORY_TYPE_WB
  then Some (EPT_FoundMemoryTypes.Build_t uc wc wt wp true)
  else None.

(** The loop of [searchVariableMtrrs]; [None] is the early return of
    [IA32_MTRR_MEMORY_TYPE_ERR]. *)
Fixpoint collectMemoryTypes (variableMtrrs : list EPT_VariableMtrr.t)
    (physicalAddress : N) (foundTypes : EPT_FoundMemoryTypes.t)
  : option EPT_FoundMemoryTypes.t :=
  match variableMtrrs with
  | [] => Some foundTypes
  | currentMtrr :: rest =>
    if negb (EPT_VariableMtrr.valid currentMtrr)
    then collectMemoryTypes rest physicalAddress foundTypes
    else if negb (mtrrContains currentMtrr physicalAddress)
    then collectMemoryTypes rest physicalAddress foundTypes
    else
      match recordMemoryType (EPT_VariableMtrr.memoryType currentMtrr) foundTypes with
      | Some foundTypes1 => collectMemoryTypes rest physicalAddress foundTypes1
      | None => None
      end
  end.

(** The precedence rules at the tail of [searchVariableMtrrs]. *)
Definition resolveMemoryType (foundTypes : EPT_FoundMemoryTypes.t)
    (defaultMemoryType : N) : N :=
  let uc := EPT_FoundMemoryTypes.uncacheable foundTypes in
  let wc := EPT_FoundMemoryTypes.writeCombining foundTypes in
  let wt := EPT_FoundMemoryTypes.writeThrough foundTypes in
  let wp := EPT_FoundMemoryTypes.writeProtected foundTypes in
  let wb := EPT_FoundMemoryTypes.writeback foundTypes in
  if (EPT_FoundMemoryTypes.count foundTypes =? 1) && uc then IA32_MTRR_MEMORY_TYPE_UC
  else if (EPT_FoundMemoryTypes.count foundTypes =? 1) && wc then IA32_MTRR_MEMORY_TYPE_WC
  else if (EPT_FoundMemoryTypes.count foundTypes =? 1) && wt then IA32_MTRR_MEMORY_TYPE_WT
  else if (EPT_FoundMemoryTypes.count foundTypes =? 1) && wp then IA32_MTRR_MEMORY_TYPE_WP
  else if (EPT_FoundMemoryTypes.count foundTypes =? 1) && wb then IA32_MTRR_MEMORY_TYPE_WB
  else if uc then IA32_MTRR_MEMORY_TYPE_UC
  else if wt && wb && (bool_to_N uc + bool_to_N wc + bool_to_N wp =? 0)
  then IA32_MTRR_MEMORY_TYPE_WT
  else if negb (EPT_FoundMemoryTypes.count foundTypes =? 0)
  then IA32_MTRR_MEMORY_TYPE_ERR
  else defaultMemoryType.

Definition searchVariableMtrrs (noOfVariableMtrrs : N)
    (variableMtrrs : list EPT_VariableMtrr.t)
    (defaultMemoryType physicalAddress : N) : N :=
  match collectMemoryTypes (take (N.to_nat noOfVariableMtrrs) variableMtrrs)
          physicalAddress EPT_FoundMemoryTypes.zero with
  | None => IA32_MTRR_MEMORY_TYPE_ERR
  | Some foundTypes => resolveMemoryType foundTypes defaultMemoryType
  end.

(** The body of the inner loop of [adjustPml4WithVariableMtrrs]: the
    resolved type is stored into the 3-bit field [largePage.memoryType] and
    that field is then compared with [IA32_MTRR_MEMORY_TYPE_ERR]. *)
Definition adjustPdEntry (noOfVariableRangeRegisters : N)
    (variableMtrrs : list EPT_VariableMtrr.t) (defaultMemoryType : N)
    (mem : gmap N (list N)) (pd : N) (pdEntryIndex : nat)
  : N * gmap N (list N) :=
  let pde := readq mem pd (N.of_nat pdEntryIndex) in
  let address := EPT_Address.of_pageFrameNumber2MB (EPT_PdE2MB.pageFrameNumber pde) in
  let mem1 := writeq mem pd (N.of_nat pdEntryIndex)
                (EPT_PdE2MB.set_memoryType
                   (searchVariableMtrrs noOfVariableRangeRegisters variableMtrrs
                      defaultMemoryType address) pde) in
  if EPT_PdE2MB.memoryType (readq mem1 pd (N.of_nat pdEntryIndex))
     =? IA32_MTRR_MEMORY_TYPE_ERR
  then (STATUS_UNSUCCESSFUL, mem1)
  else (STATUS_SUCCESS, mem1).

(** The inner loop, over the entries of one page directory. *)
Fixpoint adjustPd (noOfVariableRangeRegisters : N)
    (variableMtrrs : list EPT_VariableMtrr.t) (defaultMemoryType : N)
    (mem : gmap N (list N)) (pd : N) (pdEntryIndices : list nat)
  : N * gmap N (list N) :=
  match pdEntryIndices with
  | [] => (STATUS_SUCCESS, mem)
  | pdEntryIndex :: rest =>
    let '(ntStatus, mem1) :=
      adjustPdEntry noOfVariableRangeRegisters variableMtrrs defaultMemoryType
        mem pd pdEntryIndex in
    if NT_SUCCESS ntStatus
    then adjustPd noOfVariableRangeRegisters variableMtrrs defaultMemoryType
           mem1 pd rest
    else (ntStatus, mem1)
  end.

(** The outer loop, over the entries of the PDPT. *)
Fixpoint adjustPdpt (noOfVariableRangeRegisters : N)
    (variableMtrrs : list EPT_VariableMtrr.t) (defaultMemoryType : N)
    (mem : gmap N (list N)) (pdpt : N) (pdptEntryIndices : list nat)
  : Outcome (N * gmap N (list N)) :=
  match pdptEntryIndices with
  | [] => mret (STATUS_SUCCESS, mem)
  | pdptEntryIndex :: rest =>
    pd ← Memory_getVirtualAddress mem
      (EPT_Address.of_pageFrameNumber4KB
         (EPT_PagingStructure.pageFrameNumber
            (readq mem pdpt (N.of_nat pdptEntryIndex))));
    let '(ntStatus, mem1) :=
      adjustPd noOfVariableRangeRegisters variableMtrrs defaultMemoryType
        mem pd (seq 0 512) in
    if NT_SUCCESS ntStatus
    then adjustPdpt noOfVariableRangeRegisters variableMtrrs defaultMemoryType
           mem1 pdpt rest
    else mret (ntStatus, mem1)
  end.

Definition adjustPml4WithVariableMtrrs (noOfVariableRangeRegisters : N)
    (variableMtrrs : list EPT_VariableMtrr.t) (defaultMemoryType : N)
    (mem : gmap N (list N)) (pml4e : N)
  : Outcome (N * gmap N (list N)) :=
  pdpt ← Memory_getVirtualAddress mem
    (EPT_Address.of_pageFrameNumber4KB (EPT_PagingStructure.pageFrameNumber pml4e));
  adjustPdpt noOfVariableRangeRegisters variableMtrrs defaultMemoryType
    mem pdpt (seq 0 512).

(** The record [vmCallMapPage] stores. *)
Definition newMapping (RDX R8 R9 : N) : Context_EptChangedMapping :=
  {| guestAddress := RDX; hostRwAddress := R8; hostFetchAddress := R9;
     valid := true |}.

(** The leaf [EPT_changeMapping] stores in place of [pte]. *)
Definition changedPte (targetAddress : N) (rw fetch : bool) (pte : N) : N :=
  EPT_PtE.set_fetchAccess fetch
    (EPT_PtE.set_writeAccess rw
      (EPT_PtE.set_readAccess rw
        (EPT_PtE.set_pageFrameNumber
           (EPT_Address.pageFrameNumber4KB targetAddress) pte))).

(** The frame of [address] as the 40 bits of [EPT_PtE.pageFrameNumber]
    hold it; for an address below 2^52 this is the address divided by the
    page size. *)
Definition frameOf (address : N) : N :=
  N.land (EPT_Address.pageFrameNumber4KB address) (N.ones 40).

(** The memory types of the valid variable MTRRs whose range
    [[baseAddress, baseAddress + length)] contains [physicalAddress]. *)
Definition hitTypes (variableMtrrs : list EPT_VariableMtrr.t)
    (physicalAddress : N) : list N :=
  EPT_VariableMtrr.memoryType
  <$> filter (λ m, EPT_VariableMtrr.valid m = true
                   ∧ EPT_VariableMtrr.baseAddress m <= physicalAddress
                   ∧ physicalAddress
                     < EPT_VariableMtrr.baseAddress m + EPT_VariableMtrr.length m)
        variableMtrrs.

(** The five memory types an MTRR can hold. *)
Definition definedMemoryType (memoryType : N) : Prop :=
  memoryType = IA32_MTRR_MEMORY_TYPE_UC ∨ memoryType = IA32_MTRR_MEMORY_TYPE_WC
  ∨ memoryType = IA32_MTRR_MEMORY_TYPE_WT ∨ memoryType = IA32_MTRR_MEMORY_TYPE_WP
  ∨ memoryType = IA32_MTRR_MEMORY_TYPE_WB.

(** Two variable MTRRs over the first 2 MiB, one WC and one WB. *)
Definition demo_mtrrs : list EPT_VariableMtrr.t :=
  [ {| EPT_VariableMtrr.baseAddress := 0; EPT_VariableMtrr.length := 0x200000;
       EPT_VariableMtrr.memoryType := IA32_MTRR_MEMORY_TYPE_WC;
       EPT_VariableMtrr.valid := true |};
    {| EPT_VariableMtrr.baseAddress := 0; EPT_VariableMtrr.length := 0x40000000;
       EPT_VariableMtrr.memoryType := IA32_MTRR_MEMORY_TYPE_WB;
       EPT_VariableMtrr.valid := true |} ].

(** An MSR file with one variable MTRR: base 0x80000000, type UC, and the
    mask of a 512 MiB range below 2^36 with its valid bit set. *)
Definition demo_readmsr (msr : N) : N :=
  if msr =? 0x200 then 0x80000000
  else if msr =? 0x201 then 0xFE0000800
  else 0.

(** ** Well-formed per-core states *)

(** The frame of the PML4 page and the frames of the arena pages. *)
Definition pml4Frame (c : Context_LogicalCore) : N :=
  EPT_EptP.pageFrameNumber (eptp c).

Definition arenaFrames (c : Context_LogicalCore) : list N :=
  EPT_Address.pageFrameNumber4KB <$> splitBuffer c.

(** The arena pages [splitPage] has handed out so far. *)
Definition usedFrames (c : Context_LogicalCore) : list N :=
  take (N.to_nat (noOfUsedSplits c)) (arenaFrames c).

(** An entry of a PML4 or PDPT page either points at a page of the next
    level or at nothing [Memory_getVirtualAddress] can invert. *)
Definition directoryEntry_ok (mem : gmap N (list N)) (next : list N) (e : N) : Prop :=
  EPT_PagingStructure.pageFrameNumber e ∈ next
  ∨ mem !! EPT_PagingStructure.pageFrameNumber e = None.

(** The frames that hold or may come to hold the page tables of a core:
    its arena pages and the page tables [pts] that lie elsewhere.  The
    set-up takes the page table for the first 2 MiB of a hierarchy from the
    arena of the processor that runs it, which for every other core is a
    page outside its own arena. *)
Definition tableFrames (pts : list N) (c : Context_LogicalCore) : list N :=
  pts ++ arenaFrames c.

(** Those that hold a page table now. *)
Definition usedTables (pts : list N) (c : Context_LogicalCore) : list N :=
  pts ++ usedFrames c.

(** An entry of a PD page is a 2 MiB leaf or points at a page table. *)
Definition pdEntry_ok (pts : list N) (c : Context_LogicalCore) (e : N) : Prop :=
  EPT_PdE2MB.isLargePage e = 1
  ∨ EPT_PagingStructure.pageFrameNumber e ∈ usedTables pts c.

(** The page at [frame] exists, has 512 entries and they all satisfy [P]. *)
Definition page_ok (mem : gmap N (list N)) (P : N → Prop) (frame : N) : Prop :=
  match mem !! frame with
  | Some page => length page = 512%nat ∧ Forall P page
  | None => False
  end.

(** The conditions on entries and pages can be decided by evaluation. *)
#[global] Instance directoryEntry_ok_dec (mem : gmap N (list N)) (next : list N)
    (e : N) : Decision (directoryEntry_ok mem next e).
Proof. unfold directoryEntry_ok. apply _. Defined.

#[global] Instance pdEntry_ok_dec (pts : list N) (c : Context_LogicalCore) (e : N) :
  Decision (pdEntry_ok pts c e).
Proof. unfold pdEntry_ok. apply _. Defined.

#[global] Instance page_ok_dec (mem : gmap N (list N)) (P : N → Prop)
    `{∀ e, Decision (P e)} (frame : N) : Decision (page_ok mem P frame).
Proof. unfold page_ok. destruct (mem !! frame); apply _. Defined.

(** The paging structures of a core form a proper hierarchy: the PML4
    page, the PDPT pages [pdpts], the PD pages [pds], the page tables
    [pts] outside the arena and the arena pages occupy pairwise distinct
    frames, and every entry points one level down. *)
Record EPT_wf (pdpts pds pts : list N) (c : Context_LogicalCore) : Prop := {
  wf_splitBuffer_length : length (splitBuffer c) = 32%nat;
  wf_noOfUsedSplits : noOfUsedSplits c <= CONTEXT_EPT_NO_SPLITS;
  wf_arena_fits : Forall (λ frame, frame < 2 ^ 40) (tableFrames pts c);
  wf_arena_pages :
    Forall (λ frame, length <$> memory c !! frame = Some 512%nat)
      (tableFrames pts c);
  wf_separate : NoDup (pml4Frame c :: pdpts ++ pds ++ tableFrames pts c);
  wf_pml4 : page_ok (memory c) (directoryEntry_ok (memory c) pdpts) (pml4Frame c);
  wf_pdpts : Forall (page_ok (memory c) (directoryEntry_ok (memory c) pds)) pdpts;
  wf_pds : Forall (page_ok (memory c) (pdEntry_ok pts c)) pds
}.

(** The walk for [address] reaches a page directory whose entry for it has
    already been split into a page table. *)
Definition mapped (c : Context_LogicalCore) (address : N) : Prop :=
  match EPT_pageDirectory c address with
  | Returns pd =>
    EPT_PdE2MB.isLargePage (readq (memory c) pd (EPT_Address.pdEntry address)) ≠ 1
  | BugCheck _ => False
  end.

(** Every valid record of the mapping table is for a split page. *)
Definition mappings_mapped (c : Context_LogicalCore) : Prop :=
  Forall (λ m, valid m = true → mapped c (guestAddress m)) (changedMappings c).

(** Invariant 1 of the mapping table, between distinct slots. *)
Definition mappings_unique (l : list Context_EptChangedMapping) : Prop :=
  ∀ i j m n, l !! i = Some m → l !! j = Some n → i ≠ j →
    valid m = true → valid n = true →
    guestAddress m ≠ guestAddress n
    ∧ guestAddress m ≠ hostRwAddress n
    ∧ guestAddress m ≠ hostFetchAddress n.

(** The same invariant read without "other": no valid record at all,
    the record itself included, has the key of a valid record as a
    target. *)
Definition mappings_key_never_target (l : list Context_EptChangedMapping) : Prop :=
  ∀ m n, m ∈ l → n ∈ l → valid m = true → valid n = true →
    guestAddress m ≠ hostRwAddress n ∧ guestAddress m ≠ hostFetchAddress n.

(** The invariant of the mapping table: its 32 slots and the uniqueness of
    the guest keys. *)
Record table_inv (l : list Context_EptChangedMapping) : Prop := {
  table_length : length l = 32%nat;
  table_unique : mappings_unique l
}.

Record Core_inv (pdpts pds pts : list N) (c : Context_LogicalCore) : Prop := {
  inv_ept : EPT_wf pdpts pds pts c;
  inv_length : length (changedMappings c) = 32%nat;
  inv_mapped : mappings_mapped c;
  inv_unique : mappings_unique (changedMappings c)
}.

(** The page directory the hardware walk reaches for [address] from the
    PML4 page in frame [pml4], when every page on the way exists. *)
Definition walk (mem : gmap N (list N)) (pml4 address : N) : option N :=
  _ ← mem !! pml4;
  let pdpt := EPT_PagingStructure.pageFrameNumber
                (readq mem pml4 (EPT_Address.pml4Entry address)) in
  _ ← mem !! pdpt;
  let pd := EPT_PagingStructure.pageFrameNumber
              (readq mem pdpt (EPT_Address.pdptEntry address)) in
  _ ← mem !! pd;
  Some pd.

(** How a later state of a core relates to an earlier one: the PML4 and
    PDPT pages are the same, no page appears or disappears, the arena
    counter does not decrease and a PD entry that has been split stays as
    it is. *)
Record evolves (pdpts pds : list N) (c c' : Context_LogicalCore) : Prop := {
  ev_eptp : eptp c' = eptp c;
  ev_splitBuffer : splitBuffer c' = splitBuffer c;
  ev_used : noOfUsedSplits c <= noOfUsedSplits c';
  ev_dom : ∀ frame, memory c' !! frame = None ↔ memory c !! frame = None;
  ev_pml4 : memory c' !! pml4Frame c = memory c !! pml4Frame c;
  ev_pdpts : ∀ frame, frame ∈ pdpts → memory c' !! frame = memory c !! frame;
  ev_pds : ∀ pd index, pd ∈ pds →
    EPT_PdE2MB.isLargePage (readq (memory c) pd index) ≠ 1 →
    readq (memory c') pd index = readq (memory c) pd index
}.

(** What a successful [EPT_changeMapping] does on a well-formed hierarchy:
    [cs] is the core as [EPT_traverse] leaves it, [pd] the page directory
    and [pt] the page table on the way to the leaf, [pte0] the leaf before
    the change and [c'] the core after it. *)
Record changed (pdpts pds pts : list N) (c : Context_LogicalCore)
    (address targetAddress : N) (rw fetch : bool)
    (c' cs : Context_LogicalCore) (pd pt pte0 : N) : Prop := {
  ch_traverse : EPT_traverse c address = Returns (STATUS_SUCCESS, cs, pd);
  ch_pd : EPT_pageDirectory cs address = Returns pd;
  ch_pd_in : pd ∈ pds;
  ch_pt : pt = EPT_PagingStructure.pageFrameNumber
                 (readq (memory cs) pd (EPT_Address.pdEntry address));
  ch_pt_arena : pt ∈ tableFrames pts cs;
  ch_pte0 : pte0 = readq (memory cs) pt (EPT_Address.ptEntry address);
  ch_result :
    c' = set_memory
           (writeq (memory cs) pt (EPT_Address.ptEntry address)
              (changedPte targetAddress rw fetch pte0)) cs;
  ch_wf_s : EPT_wf pdpts pds pts cs;
  ch_wf : EPT_wf pdpts pds pts c';
  ch_ev_s : evolves pdpts pds c cs;
  ch_ev : evolves pdpts pds c c';
  ch_mapped : mapped c' address;
  ch_pd' : EPT_pageDirectory c' address = Returns pd;
  ch_pde' : readq (memory c') pd (EPT_Address.pdEntry address)
            = readq (memory cs) pd (EPT_Address.pdEntry address);
  ch_leaf_s : EPT_leaf cs address = Some pte0;
  ch_leaf : EPT_leaf c' address = Some (changedPte targetAddress rw fetch pte0);
  ch_table : changedMappings cs = changedMappings c
}.

(** ** The identity map *)

(** The leaf of [address] maps it to itself with every access allowed. *)
Definition identityLeaf (address pte : N) : Prop :=
  EPT_PtE.pageFrameNumber pte = frameOf address
  ∧ EPT_PtE.readAccess pte = 1 ∧ EPT_PtE.writeAccess pte = 1
  ∧ EPT_PtE.fetchAccess pte = 1.

(** Some valid record among the slots of the table is for the page of
    [address]. *)
Definition recorded (l : list Context_EptChangedMapping) (address : N) : Prop :=
  ∃ m, m ∈ take (N.to_nat CONTEXT_EPT_MAX_MAPPINGS) l ∧ valid m = true
       ∧ guestAddress m = EPT_Address.clear_offset address.

(** The guest-physical addresses a four-level walk tells apart are those
    below 2^48.  Among them: distinct 1 GiB regions have distinct page
    directories, *)
Definition directories_injective (c : Context_LogicalCore) : Prop :=
  ∀ a b pd, a < 2 ^ 48 → b < 2 ^ 48 →
    EPT_pageDirectory c a = Returns pd → EPT_pageDirectory c b = Returns pd →
    EPT_Address.pml4Entry a = EPT_Address.pml4Entry b
    ∧ EPT_Address.pdptEntry a = EPT_Address.pdptEntry b.

(** distinct 2 MiB regions that have been split have distinct page tables, *)
Definition tables_injective (c : Context_LogicalCore) : Prop :=
  ∀ a b pda pdb, a < 2 ^ 48 → b < 2 ^ 48 →
    EPT_pageDirectory c a = Returns pda → EPT_pageDirectory c b = Returns pdb →
    EPT_PdE2MB.isLargePage (readq (memory c) pda (EPT_Address.pdEntry a)) ≠ 1 →
    EPT_PdE2MB.isLargePage (readq (memory c) pdb (EPT_Address.pdEntry b)) ≠ 1 →
    EPT_PagingStructure.pageFrameNumber
      (readq (memory c) pda (EPT_Address.pdEntry a))
    = EPT_PagingStructure.pageFrameNumber
        (readq (memory c) pdb (EPT_Address.pdEntry b)) →
    pda = pdb ∧ EPT_Address.pdEntry a = EPT_Address.pdEntry b.

(** a 2 MiB leaf maps its own frame, *)
Definition large_pages_identity (c : Context_LogicalCore) : Prop :=
  ∀ a pd, a < 2 ^ 48 → EPT_pageDirectory c a = Returns pd →
    EPT_PdE2MB.isLargePage (readq (memory c) pd (EPT_Address.pdEntry a)) = 1 →
    EPT_PdE2MB.pageFrameNumber (readq (memory c) pd (EPT_Address.pdEntry a))
    = EPT_Address.pageFrameNumber2MB a.

(** and a 4 KiB leaf is the identity leaf unless its page has a record. *)
Definition leaves_identity (c : Context_LogicalCore) : Prop :=
  ∀ a pte, a < 2 ^ 48 → EPT_leaf c a = Some pte →
    identityLeaf a pte ∨ recorded (changedMappings c) a.

(** The guest keys are page-aligned addresses below 2^48. *)
Definition keys_in_range (l : list Context_EptChangedMapping) : Prop :=
  Forall (λ m, valid m = true →
               guestAddress m < 2 ^ 48 ∧ EPT_Address.offset (guestAddress m) = 0)
    (take (N.to_nat CONTEXT_EPT_MAX_MAPPINGS) l).

(** The hierarchy is the identity map of the guest-physical addresses below
    2^48, except on the pages that have a record. *)
Record EPT_identity (c : Context_LogicalCore) : Prop := {
  id_directories : directories_injective c;
  id_tables : tables_injective c;
  id_large : large_pages_identity c;
  id_leaves : leaves_identity c;
  id_keys : keys_in_range (changedMappings c)
}.

(** ** Histories of a core *)

(** One VM exit handled by the mapping engine. *)
Inductive step : Context_LogicalCore → Context_LogicalCore → Prop :=
| step_map c RDX R8 R9 RAX c' :
    vmCallMapPage c RDX R8 R9 = Returns (RAX, c') → step c c'
| step_unmap c RDX RAX c' :
    vmCallUnmapPage c RDX = Returns (RAX, c') → step c c'
| step_violation c exitQualification guestPhysicalAddress c' :
    eptViolationHandler c exitQualification guestPhysicalAddress = Returns c' →
    step c c'.

(** A VM exit of a guest that installs mappings for addresses below 2^48
    only. *)
Inductive step_in_range : Context_LogicalCore → Context_LogicalCore → Prop :=
| step_in_range_map c RDX R8 R9 RAX c' :
    RDX < 2 ^ 48 →
    vmCallMapPage c RDX R8 R9 = Returns (RAX, c') → step_in_range c c'
| step_in_range_unmap c RDX RAX c' :
    vmCallUnmapPage c RDX = Returns (RAX, c') → step_in_range c c'
| step_in_range_violation c exitQualification guestPhysicalAddress c' :
    eptViolationHandler c exitQualification guestPhysicalAddress = Returns c' →
    step_in_range c c'.

(** [splits n c c']: [c'] is [c] after [n] successful calls of [splitPage]
    and nothing else. *)
Inductive splits : nat → Context_LogicalCore → Context_LogicalCore → Prop :=
| splits_O c : splits 0 c c
| splits_S n c pd pdEntryIndex c1 c2 :
    splitPage c pd pdEntryIndex = (STATUS_SUCCESS, c1) →
    splits n c1 c2 →
    splits (S n) c c2.

(** [installs n c c']: [c'] is [c] after [n] successful calls of
    [vmCallMapPage] and nothing else. *)
Inductive installs : nat → Context_LogicalCore → Context_LogicalCore → Prop :=
| installs_O c : installs 0 c c
| installs_S n c c1 c2 RDX R8 R9 :
    vmCallMapPage c RDX R8 R9 = Returns (NTSTATUS_to_UINT64 STATUS_SUCCESS, c1) →
    installs n c1 c2 →
    installs (S n) c c2.

(** [violations address c c']: [c'] is [c] after EPT violations that all
    fall on the page [address], and nothing else. *)
Inductive violations (address : N)
  : Context_LogicalCore → Context_LogicalCore → Prop :=
| violations_O c : violations address c c
| violations_S c exitQualification guestPhysicalAddress c1 c2 :
    EPT_Address.clear_offset guestPhysicalAddress = address →
    eptViolationHandler c exitQualification guestPhysicalAddress = Returns c1 →
    violations address c1 c2 →
    violations address c c2.

(** The number of valid records of a mapping table. *)
Definition validCount (l : list Context_EptChangedMapping) : nat :=
  length (filter (λ m, valid m = true) l).

(** A freshly allocated context: [ExAllocatePool2] hands out zeroed
    memory, so no slot of the mapping table is valid. *)
Definition fresh (c : Context_LogicalCore) : Prop :=
  changedMappings c = replicate 32 Context_EptChangedMapping_zero.

(** ** Concrete cores used to exercise the theorems *)

(** A small hierarchy: the PML4 page in frame 1, one PDPT page in frame 2,
    one PD page in frame 3 whose 512 entries identity-map 2 MiB pages with
    memory type WB, and the arena in frames 16 to 47. *)
Definition demo_memory : gmap N (list N) :=
  <[1 := <[0%nat := EPT_PagingStructure.make true true true 2]> (replicate 512 0)]>
  (<[2 := <[0%nat := EPT_PagingStructure.make true true true 3]> (replicate 512 0)]>
  (<[3 := (λ i : nat, EPT_PdE2MB.make true true true true 6 (N.of_nat i)) <$> seq 0 512]>
  (list_to_map ((λ k : nat, (16 + N.of_nat k, replicate 512 0)) <$> seq 0 32)))).

Definition demo_core : Context_LogicalCore :=
  {| memory := demo_memory;
     splitBuffer := (λ k : nat, (16 + N.of_nat k) * 4096) <$> seq 0 32;
     noOfUsedSplits := 0;
     changedMappings := replicate 32 Context_EptChangedMapping_zero;
     eptp := 0x101E |}.

(** The core an outcome leaves behind ([c] itself after a bug check). *)
Definition core_after (c : Context_LogicalCore)
    (o : Outcome (N * Context_LogicalCore)) : Context_LogicalCore :=
  match o with
  | Returns (_, c') => c'
  | BugCheck _ => c
  end.

(** [demo_core] after [install(0x1000, rw = 0x2000, fetch = 0x1000)]. *)
Definition demo_core_A : Context_LogicalCore :=
  core_after demo_core (vmCallMapPage demo_core 0x1000 0x2000 0x1000).

(** The hierarchy of [demo_core] as the set-up leaves it for a core other
    than the one it ran on, when the fixed-range MTRRs are enabled: the
    first 2 MiB are split already, into a page table in frame 9, which is
    no page of the arena of the core. *)
Definition demo_memory_B : gmap N (list N) :=
  <[9 := (λ i : nat, EPT_PtE.make true true true 6 (N.of_nat i)) <$> seq 0 512]>
    (writeq demo_memory 3 0 (EPT_PagingStructure.make true true true 9)).

Definition demo_core_B : Context_LogicalCore := set_memory demo_memory_B demo_core.

(** That core with the mapping of [demo_core_A]. *)
Definition demo_core_BA : Context_LogicalCore :=
  core_after demo_core_B (vmCallMapPage demo_core_B 0x1000 0x2000 0x1000).

(** [demo_core_A] after a data read at 0x1234 has been refused. *)
Definition demo_core_V : Context_LogicalCore :=
  match eptViolationHandler demo_core_A 1 0x1234 with
  | Returns c' => c'
  | BugCheck _ => demo_core_A
  end.

(** A core whose 32 slots all hold valid records, for pages 1 to 32. *)
Definition demo_core_full : Context_LogicalCore :=
  set_changedMappings
    ((λ k : nat,
        {| guestAddress := (1 + N.of_nat k) * 4096;
           hostRwAddress := (101 + N.of_nat k) * 4096;
           hostFetchAddress := (201 + N.of_nat k) * 4096;
           valid := true |}) <$> seq 0 32)
    demo_core.

(** The core after installing the mappings of [l] one after the other;
    [None] when one of the installs does not return [STATUS_SUCCESS]. *)
Fixpoint install_all (c : Context_LogicalCore) (l : list (N * N * N))
  : option Context_LogicalCore :=
  match l with
  | [] => Some c
  | (guest, hostRw, hostFetch) :: l' =>
    match vmCallMapPage c guest hostRw hostFetch with
    | Returns (RAX, c') =>
      if RAX =? NTSTATUS_to_UINT64 STATUS_SUCCESS then install_all c' l' else None
    | BugCheck _ => None
    end
  end.

(** Mappings for the pages 1 to 32, and [demo_core] after installing them. *)
Definition demo_mappings : list (N * N * N) :=
  (λ k : nat, ((1 + N.of_nat k) * 4096, (101 + N.of_nat k) * 4096,
               (201 + N.of_nat k) * 4096)) <$> seq 0 32.

Definition demo_core_32 : Context_LogicalCore :=
  default demo_core (install_all demo_core demo_mappings).

(** ** [vmexit.c]: the dispatcher and the CPUID and VMCALL handlers *)

(** Exit reasons and hypercall codes of [vmexit.h], the VMCS fields of
    [vmcs.h] the dispatcher touches, and the CPUID leaves of [ia32.h]. *)
Definition VMEXIT_CPUID : N := 10.
Definition VMEXIT_VMCALL : N := 18.
Definition VMEXIT_EPT_VIOLATION : N := 48.
Definition VMEXIT_VMCALL_INITIATE_SHUTDOWN : N := 0xFFFFFFFF00000000.
Definition VMEXIT_VMCALL_MAP_PAGE : N := 0xF1337.
Definition VMEXIT_VMCALL_UNMAP_PAGE : N := 0xF2137.
Definition BSOD_VMEXIT_UNKNOWN : N := 0x1001.
Definition VMCS_GUEST_PHYSICAL_ADDRESS_FULL : N := 0x2400.
Definition VMCS_EXIT_REASON : N := 0x4402.
Definition VMCS_VM_EXIT_INSTRUCTION_LENGTH : N := 0x440C.
Definition VMCS_EXIT_QUALIFICATION : N := 0x6400.
Definition VMCS_GUEST_RSP : N := 0x681C.
Definition VMCS_GUEST_RIP : N := 0x681E.
Definition IA32_CPUID_BASIC_INFORMATION_0 : N := 0x0.
Definition IA32_CPUID_BASIC_INFORMATION_1 : N := 0x1.

(** [VMEXIT_Registers]: the guest's general purpose registers as the
    assembly stub saves them. *)
Record VMEXIT_Registers : Type := {
  R15 : N; R14 : N; R13 : N; R12 : N; R11 : N; R10 : N; R9 : N; R8 : N;
  RDI : N; RSI : N; RSP : N; RBP : N; RDX : N; RCX : N; RBX : N; RAX : N
}.

Definition set_RAX (v : N) (r : VMEXIT_Registers) : VMEXIT_Registers :=
  {| R15 := R15 r; R14 := R14 r; R13 := R13 r; R12 := R12 r; R11 := R11 r;
     R10 := R10 r; R9 := R9 r; R8 := R8 r; RDI := RDI r; RSI := RSI r;
     RSP := RSP r; RBP := RBP r; RDX := RDX r; RCX := RCX r; RBX := RBX r;
     RAX := v |}.

Definition set_RSP (v : N) (r : VMEXIT_Registers) : VMEXIT_Registers :=
  {| R15 := R15 r; R14 := R14 r; R13 := R13 r; R12 := R12 r; R11 := R11 r;
     R10 := R10 r; R9 := R9 r; R8 := R8 r; RDI := RDI r; RSI := RSI r;
     RSP := v; RBP := RBP r; RDX := RDX r; RCX := RCX r; RBX := RBX r;
     RAX := RAX r |}.

(** The conversion [(INT32)x] of a [UINT64] keeps the low 32 bits; an
    [INT32] is kept as that 32-bit pattern.  Storing an [INT32] into a
    [UINT64] extends its sign bit. *)
Definition UINT64_to_INT32 (x : N) : N := x mod 2 ^ 32.

Definition INT32_to_UINT64 (x : N) : N :=
  if N.testbit x 31 then N.lor x 0xFFFFFFFF00000000 else x.

(** The multi-character constants ['covA'], ['Ioda'] and ['letn']: the
    compiler packs the characters with the first one in the most
    significant byte. *)
Definition multichar (a b c d : N) : N := ((a * 256 + b) * 256 + c) * 256 + d.
Definition vendor_covA : N := multichar 99 111 118 65.
Definition vendor_Ioda : N := multichar 73 111 100 97.
Definition vendor_letn : N := multichar 108 101 116 110.

(** [cpuidHandler]; [cpuidex] is the instruction: it maps the leaf and the
    subleaf to the values of EAX, EBX, ECX and EDX.
    [IA32_CpuidBasicInformation0] overlays [vendor1], [vendor3], [vendor2]
    on [registers[1..3]], and [hypervisorPresentBit] is bit 31 of
    [registers[2]]. *)
Definition cpuidHandler (cpuidex : N → N → N * N * N * N)
    (registers : VMEXIT_Registers) : VMEXIT_Registers :=
  let cpuidFunction := UINT64_to_INT32 (RAX registers) in
  let cpuidSubleaf := UINT64_to_INT32 (RCX registers) in
  let '(cpuid0, cpuid1, cpuid2, cpuid3) := cpuidex cpuidFunction cpuidSubleaf in
  let '(cpuid1, cpuid2, cpuid3) :=
    if cpuidFunction =? IA32_CPUID_BASIC_INFORMATION_0
    then (vendor_covA, vendor_letn, vendor_Ioda)
    else (cpuid1, cpuid2, cpuid3) in
  let cpuid2 :=
    if cpuidFunction =? IA32_CPUID_BASIC_INFORMATION_1
    then set_bitfield 31 1 1 cpuid2
    else cpuid2 in
  {| R15 := R15 registers; R14 := R14 registers; R13 := R13 registers;
     R12 := R12 registers; R11 := R11 registers; R10 := R10 registers;
     R9 := R9 registers; R8 := R8 registers; RDI := RDI registers;
     RSI := RSI registers; RSP := RSP registers; RBP := RBP registers;
     RDX := INT32_to_UINT64 cpuid3; RCX := INT32_to_UINT64 cpuid2;
     RBX := INT32_to_UINT64 cpuid1; RAX := INT32_to_UINT64 cpuid0 |}.

(** [vmCallHandler]: the result carries the registers, the core and
    [*initiateShutdown]. *)
Definition vmCallHandler (registers : VMEXIT_Registers) (c : Context_LogicalCore)
  : Outcome (VMEXIT_Registers * Context_LogicalCore * bool) :=
  let vmCallCode := RCX registers in
  if vmCallCode =? VMEXIT_VMCALL_INITIATE_SHUTDOWN
  then mret (set_RAX STATUS_SUCCESS registers, c, true)
  else if vmCallCode =? VMEXIT_VMCALL_MAP_PAGE
  then '(rax, c1) ← vmCallMapPage c (RDX registers) (R8 registers) (R9 registers);
       mret (set_RAX rax registers, c1, false)
  else if vmCallCode =? VMEXIT_VMCALL_UNMAP_PAGE
  then '(rax, c1) ← vmCallUnmapPage c (RDX registers);
       mret (set_RAX rax registers, c1, false)
  else mret (registers, c, false).

(** What the handler works on: the saved registers, the current VMCS as a
    map from field encodings to values, and the context of the core. *)
Record VMEXIT_State : Type := {
  registers : VMEXIT_Registers;
  vmcs : gmap N N;
  core : Context_LogicalCore
}.

(** [__vmx_vmread(field, &target)]: a failed read leaves the target as it
    was. *)
Definition vmread (vmcs : gmap N N) (field target : N) : N :=
  default target (vmcs !! field).

(** The locals [instructionLength] and [rip] of [VMEXIT_handler] are
    declared [const] and initialised to 0, and the code hands their
    addresses to [__vmx_vmread] to have them written.  C leaves a write to
    a [const] object undefined, and what the code reads from the local
    afterwards depends on the compiler: the value the instruction stored,
    or the initialiser, which an optimising compiler is free to use in its
    place.  A [ConstLocal] is that choice: it gives the value read from
    such a local, from its initialiser and the value stored into it.
    Nothing is assumed of it. *)
Definition ConstLocal : Type := N → N → N.

(** The two choices compilers are seen to make. *)
Definition constLocal_stored : ConstLocal := λ initial stored, stored.
Definition constLocal_initial : ConstLocal := λ initial stored, initial.

(** [VMEXIT_handler]: the result is the value it returns, [TRUE] when the
    VM is to be shut down, and the state it leaves. *)
Definition VMEXIT_handler (cpuidex : N → N → N * N * N * N)
    (constLocal : ConstLocal) (s : VMEXIT_State)
  : Outcome (bool * VMEXIT_State) :=
  let registers0 :=
    set_RSP (vmread (vmcs s) VMCS_GUEST_RSP (RSP (registers s))) (registers s) in
  let exitReason := vmread (vmcs s) VMCS_EXIT_REASON 0 in
  let basicExitReason := bitfield 0 16 exitReason in
  '(registers1, c1, initiateShutdown, incrementRIP) ←
    (if basicExitReason =? VMEXIT_CPUID
     then mret (cpuidHandler cpuidex registers0, core s, false, true)
     else if basicExitReason =? VMEXIT_VMCALL
     then '(registers1, c1, initiateShutdown) ← vmCallHandler registers0 (core s);
          mret (registers1, c1, initiateShutdown, true)
     else if basicExitReason =? VMEXIT_EPT_VIOLATION
     then c1 ← eptViolationHandler (core s)
                 (vmread (vmcs s) VMCS_EXIT_QUALIFICATION 0)
                 (vmread (vmcs s) VMCS_GUEST_PHYSICAL_ADDRESS_FULL 0);
          mret (registers0, c1, false, false)
     else BugCheck BSOD_VMEXIT_UNKNOWN);
  let vmcs1 :=
    if incrementRIP : bool
    then
      let instructionLength :=
        constLocal 0 (vmread (vmcs s) VMCS_VM_EXIT_INSTRUCTION_LENGTH 0) in
      let rip := constLocal 0 (vmread (vmcs s) VMCS_GUEST_RIP 0) in
      <[VMCS_GUEST_RIP := (rip + instructionLength) mod 2 ^ 64]> (vmcs s)
    else vmcs s in
  let vmcs2 := <[VMCS_GUEST_RSP := RSP registers1]> vmcs1 in
  mret (initiateShutdown,
        {| registers := registers1; vmcs := vmcs2; core := c1 |}).

(** The exit reason the dispatcher switches on. *)
Definition basicExitReason_of (s : VMEXIT_State) : N :=
  bitfield 0 16 (vmread (vmcs s) VMCS_EXIT_REASON 0).

(** The registers after the dispatcher has loaded the guest's stack
    pointer from the VMCS. *)
Definition registers_in (s : VMEXIT_State) : VMEXIT_Registers :=
  set_RSP (vmread (vmcs s) VMCS_GUEST_RSP (RSP (registers s))) (registers s).

(** The value the dispatcher stores into the guest's instruction pointer
    after a CPUID or VMCALL exit: the sum of what it reads from its locals
    [rip] and [instructionLength]. *)
Definition nextRIP (constLocal : ConstLocal) (s : VMEXIT_State) : N :=
  (constLocal 0 (vmread (vmcs s) VMCS_GUEST_RIP 0)
   + constLocal 0 (vmread (vmcs s) VMCS_VM_EXIT_INSTRUCTION_LENGTH 0)) mod 2 ^ 64.

(** The instruction returns 32-bit values. *)
Definition cpuid_32bit (cpuidex : N → N → N * N * N * N) : Prop :=
  ∀ function subleaf,
    let '(eax, ebx, ecx, edx) := cpuidex function subleaf in
    eax < 2 ^ 32 ∧ ebx < 2 ^ 32 ∧ ecx < 2 ^ 32 ∧ edx < 2 ^ 32.

(** The registers no handler writes. *)
Definition untouched (r : VMEXIT_Registers) : list N :=
  [R15 r; R14 r; R13 r; R12 r; R11 r; R10 r; R9 r; R8 r; RDI r; RSI r; RBP r].

(** The bytes of a 32-bit value as they lie in memory, lowest first. *)
Definition bytes_of_INT32 (x : N) : list N :=
  [x mod 256; (x / 256) mod 256; (x / 65536) mod 256; (x / 16777216) mod 256].

(** The processor identification string a guest assembles from the low
    halves of RBX, RDX and RCX after CPUID leaf 0. *)
Definition vendorString (r : VMEXIT_Registers) : list N :=
  bytes_of_INT32 (RBX r mod 2 ^ 32) ++ bytes_of_INT32 (RDX r mod 2 ^ 32)
  ++ bytes_of_INT32 (RCX r mod 2 ^ 32).

(** Guest registers at an exit, with the given RAX and RCX. *)
Definition demo_registers (rax rcx : N) : VMEXIT_Registers :=
  {| R15 := 15; R14 := 14; R13 := 13; R12 := 12; R11 := 11; R10 := 10;
     R9 := 0x1000; R8 := 0x2000; RDI := 7; RSI := 6; RSP := 0; RBP := 5;
     RDX := 0x1000; RCX := rcx; RBX := 3; RAX := rax |}.

Definition demo_cpuidex (function subleaf : N) : N * N * N * N :=
  if function =? 0 then (0x16, 0x756E6547, 0x6C65746E, 0x49656E69)
  else if function =? 1 then (0x906EA, 0x100800, 0x7FFAFBFF, 0xBFEBFBFF)
  else (0, 0, 0, 0).

Definition demo_vmcs (exitReason : N) : gmap N N :=
  <[VMCS_EXIT_REASON := exitReason]>
  (<[VMCS_GUEST_RSP := 0xFFFF800000001000]>
  (<[VMCS_GUEST_RIP := 0xFFFFF80000002000]>
  (<[VMCS_VM_EXIT_INSTRUCTION_LENGTH := 2]>
  (<[VMCS_EXIT_QUALIFICATION := 1]>
  (<[VMCS_GUEST_PHYSICAL_ADDRESS_FULL := 0x1234]> ∅))))).

Definition demo_state (rax rcx exitReason : N) (c : Context_LogicalCore)
  : VMEXIT_State :=
  {| registers := demo_registers rax rcx; vmcs := demo_vmcs exitReason; core := c |}.

(** The state an outcome of the dispatcher leaves behind ([s] itself after a
    bug check). *)
Definition state_after (s : VMEXIT_State) (o : Outcome (bool * VMEXIT_State))
  : VMEXIT_State :=
  match o with
  | Returns (_, s') => s'
  | BugCheck _ => s
  end.

(** ** Conditions under which the hypercalls succeed *)

(** Some valid record among the 32 slots has [address] as its guest key. *)
Definition hasRecord (l : list Context_EptChangedMapping) (address : N) : Prop :=
  ∃ i m, (i < 32)%nat ∧ l !! i = Some m ∧ valid m = true
         ∧ guestAddress m = address.

(** The three addresses are page aligned, no valid record collides with
    them, a slot of the table is free, and the 2 MiB page of [RDX] is
    already split or the arena has a page left; [pd] is the page directory
    covering [RDX]. *)
Definition installable (c : Context_LogicalCore) (RDX R8 R9 pd : N) : Prop :=
  EPT_Address.offset RDX = 0 ∧ EPT_Address.offset R8 = 0
  ∧ EPT_Address.offset R9 = 0
  ∧ existsb (mappingCollides RDX R8 R9)
      (take (N.to_nat CONTEXT_EPT_MAX_MAPPINGS) (changedMappings c)) = false
  ∧ (∃ i m, (i < 32)%nat ∧ changedMappings c !! i = Some m ∧ valid m = false)
  ∧ (EPT_PdE2MB.isLargePage (readq (memory c) pd (EPT_Address.pdEntry RDX)) = 1 →
     noOfUsedSplits c < CONTEXT_EPT_NO_SPLITS).

(** Mappings for the first page of each of the 2 MiB pages 1 to 32, and
    [demo_core] after installing them: the arena is used up. *)
Definition demo_mappings_regions : list (N * N * N) :=
  (λ k : nat, ((1 + N.of_nat k) * 0x200000, (101 + N.of_nat k) * 4096,
               (201 + N.of_nat k) * 4096)) <$> seq 0 32.

Definition demo_core_exhausted : Context_LogicalCore :=
  default demo_core (install_all demo_core demo_mappings_regions).

(** What the walk of the hardware yields for [address]: the frame, the
    read, write and fetch bits and the memory type, taken from the 2 MiB
    leaf or from the 4 KiB leaf under a directory entry. *)
Definition EPT_translation (c : Context_LogicalCore) (address : N)
  : option (N * N * N * N * N) :=
  match EPT_pageDirectory c address with
  | Returns pd =>
    let pde := readq (memory c) pd (EPT_Address.pdEntry address) in
    if EPT_PdE2MB.isLargePage pde =? 1
    then Some (EPT_PT_ENTRIES * EPT_PdE2MB.pageFrameNumber pde
                 + EPT_Address.ptEntry address,
               EPT_PdE2MB.readAccess pde, EPT_PdE2MB.writeAccess pde,
               EPT_PdE2MB.fetchAccess pde, EPT_PdE2MB.memoryType pde)
    else
      pte ← EPT_leaf c address;
      Some (EPT_PtE.pageFrameNumber pte, EPT_PtE.readAccess pte,
            EPT_PtE.writeAccess pte, EPT_PtE.fetchAccess pte,
            EPT_PtE.memoryType pte)
  | BugCheck _ => None
  end.

(** ** Building the hierarchy: [memory.c] and the set-up code of [ept.c] *)

Definition PAGE_SIZE : N := 4096.
Definition EPT_PML4_ENTRIES : N := 512.
Definition EPT_PDPT_ENTRIES : N := 512.
Definition EPT_PD_ENTRIES : N := 512.
Definition EPT_WINDOWS_MAX_PML4_COUNT : N := 4.
Definition EPT_PAGING_STRUCTURE_MEMORY_TYPE_WB : N := 6.
Definition EPT_PAGE_WALK_LEN : N := 4.
Definition IA32_CPUID_ADDRESS_BITS : N := 0x80000008.
Definition IA32_MTRRCAP : N := 0xFE.
Definition IA32_MTRR_FIX64K_00000 : N := 0x250.
Definition IA32_MTRR_FIX16K_80000 : N := 0x258.
Definition IA32_MTRR_FIX16K_A0000 : N := 0x259.
Definition IA32_MTRR_FIX4K_C0000 : N := 0x268.
Definition IA32_MTRR_FIX4K_C8000 : N := 0x269.
Definition IA32_MTRR_FIX4K_D0000 : N := 0x26A.
Definition IA32_MTRR_FIX4K_D8000 : N := 0x26B.
Definition IA32_MTRR_FIX4K_E0000 : N := 0x26C.
Definition IA32_MTRR_FIX4K_E8000 : N := 0x26D.
Definition IA32_MTRR_FIX4K_F0000 : N := 0x26E.
Definition IA32_MTRR_FIX4K_F8000 : N := 0x26F.
Definition IA32_MTRR_DEF_TYPE : N := 0x2FF.
Definition IA32_MTRR_DISABLED_DEFAULT_TYPE : N := IA32_MTRR_MEMORY_TYPE_UC.
Definition IA32_MTRR_MAX_VMTRR_COUNT : N := 256.

(** [IA32_CpuidAddressBits]: [INT32 physicalAddressBits : 8] is a signed
    field of the first register. *)
Module IA32_CpuidAddressBits.
Definition physicalAddressBits (registers : N * N * N * N) : Z :=
  let field := bitfield 0 8 registers.1.1.1 in
  if N.testbit field 7 then (Z.of_N field - 256)%Z else Z.of_N field.
End IA32_CpuidAddressBits.

(** [IA32_CpuidBasicInformation1]: [vmx] is bit 5 of the third register
    and [mtrr] is bit 12 of the fourth. *)
Module IA32_CpuidBasicInformation1.
Definition vmx (registers : N * N * N * N) : N := bitfield 5 1 registers.1.2.
Definition mtrr (registers : N * N * N * N) : N := bitfield 12 1 registers.2.
End IA32_CpuidBasicInformation1.

Module IA32_Mtrrcap.
Definition variableRangeRegistersCount (bits : N) : N := bitfield 0 8 bits.
Definition fixedRangeRegistersSupported (bits : N) : N := bitfield 8 1 bits.
End IA32_Mtrrcap.

Module IA32_MtrrDefType.
Definition defaultMemoryType (bits : N) : N := bitfield 0 3 bits.
Definition fixedRangeMtrrEnable (bits : N) : N := bitfield 10 1 bits.
Definition mtrrEnable (bits : N) : N := bitfield 11 1 bits.
End IA32_MtrrDefType.

(** The compound literal [(EPT_EptP){ .memoryType, .oneLessPageWalkLen,
    .pageFrameNumber }]. *)
Definition EPT_EptP_make (memoryType oneLessPageWalkLen pageFrameNumber : N) : N :=
  set_bitfield 12 40 pageFrameNumber
    (set_bitfield 3 3 oneLessPageWalkLen (set_bitfield 0 3 memoryType 0)).

(** The compound literal [(EPT_Address){ .pml4Entry, .pdptEntry, .pdEntry }]. *)
Definition EPT_Address_make (pml4Entry pdptEntry pdEntry : N) : N :=
  set_bitfield 21 9 pdEntry
    (set_bitfield 30 9 pdptEntry (set_bitfield 39 9 pml4Entry 0)).

(** [getPml4Count]; [cpuidex] is the instruction, [__cpuid] runs it with
    subleaf 0.  [max] compares two [int]s, the result becomes a [UINT64];
    [1U << shiftValue] is a 32-bit shift, whose count the processor takes
    modulo 32 (C leaves a count of 32 or more undefined); [min] compares
    the unsigned result with 4. *)
Definition getPml4Count (cpuidex : N → N → N * N * N * N) : N :=
  let cpuid := cpuidex IA32_CPUID_ADDRESS_BITS 0 in
  let shiftValue :=
    Z.to_N (Z.max (IA32_CpuidAddressBits.physicalAddressBits cpuid - 39) 0) in
  N.min (N.shiftl 1 (shiftValue mod 32) mod 2 ^ 32) EPT_WINDOWS_MAX_PML4_COUNT.

(** The pool allocator and the memory it manages.  [logicalCore] is what
    [Context_getLogicalCore] returns, with the host memory; [allocations]
    are the live blocks of the pool, each under the frame of its first
    page; [ExAllocatePool2] lists what the next calls of that routine will
    return: nothing, or the frames of the pages of the block, page by
    page (a block is contiguous in virtual memory only). *)
Record EPT_Host : Type := {
  logicalCore : Context_LogicalCore;
  allocations : gmap N (list N);
  ExAllocatePool2 : list (option (nat → N))
}.

Definition set_logicalCore (c : Context_LogicalCore) (h : EPT_Host) : EPT_Host :=
  {| logicalCore := c; allocations := allocations h;
     ExAllocatePool2 := ExAllocatePool2 h |}.

Definition host_writeq (h : EPT_Host) (page index value : N) : EPT_Host :=
  set_logicalCore
    (set_memory (writeq (memory (logicalCore h)) page index value) (logicalCore h))
    h.

(** A pointer to a page is its frame number, so: *)
Definition Memory_getPhysicalAddress (virtualAddress : N) : N :=
  virtualAddress * PAGE_SIZE.

(** [Memory_allocate(noOfBytes, aligned)]: the pages of the block, zeroed
    by [ExAllocatePool2].  A block that fails the alignment test is freed
    at once and so is the same as no block. *)
Definition Memory_allocate (h : EPT_Host) (noOfBytes : N) (aligned : bool)
  : option (list N) * EPT_Host :=
  let noOfBytesToAllocate :=
    if (noOfBytes <? PAGE_SIZE) && aligned then PAGE_SIZE else noOfBytes in
  match ExAllocatePool2 h with
  | [] => (None, h)
  | None :: rest =>
    (None, {| logicalCore := logicalCore h; allocations := allocations h;
              ExAllocatePool2 := rest |})
  | Some frameOf :: rest =>
    let frames :=
      frameOf <$> seq 0 (N.to_nat ((noOfBytesToAllocate + PAGE_SIZE - 1) / PAGE_SIZE)) in
    (Some frames,
     {| logicalCore :=
          set_memory
            (foldr (λ frame, <[frame := replicate 512 0]>)
               (memory (logicalCore h)) frames)
            (logicalCore h);
        allocations := <[frameOf 0%nat := frames]> (allocations h);
        ExAllocatePool2 := rest |})
  end.

(** [Memory_free(address)] *)
Definition Memory_free (h : EPT_Host) (address : N) : EPT_Host :=
  {| logicalCore := logicalCore h; allocations := delete address (allocations h);
     ExAllocatePool2 := ExAllocatePool2 h |}.

(** The body of the inner loop of [setupPml4Entry]. *)
Definition setupPdEntry (pml4EntryIndex pdptEntryIndex pd : N)
    (mem : gmap N (list N)) (pdEntryIndex : nat) : gmap N (list N) :=
  let address :=
    EPT_Address_make pml4EntryIndex pdptEntryIndex (N.of_nat pdEntryIndex) in
  writeq mem pd (N.of_nat pdEntryIndex)
    (EPT_PdE2MB.make true true true true IA32_MTRR_DISABLED_DEFAULT_TYPE
       (EPT_Address.pageFrameNumber2MB address)).

(** The body of its outer loop; [pdArray] lists the frames of the 512 page
    directories. *)
Definition setupPdptEntry (pml4EntryIndex pdpt : N) (pdArray : list N)
    (mem : gmap N (list N)) (pdptEntryIndex : nat) : gmap N (list N) :=
  let pd := pdArray !!! pdptEntryIndex in
  let mem1 :=
    writeq mem pdpt (N.of_nat pdptEntryIndex)
      (EPT_PagingStructure.make true true true
         (EPT_Address.pageFrameNumber4KB (Memory_getPhysicalAddress pd))) in
  foldl (setupPdEntry pml4EntryIndex (N.of_nat pdptEntryIndex) pd) mem1
    (seq 0 (N.to_nat EPT_PD_ENTRIES)).

(** [setupPml4Entry(pml4EntryIndex, &pml4[pml4EntryIndex])] *)
Definition setupPml4Entry (h : EPT_Host) (pml4 pml4EntryIndex : N)
  : N * EPT_Host :=
  match Memory_allocate h (EPT_PDPT_ENTRIES * 8) true with
  | (None, h1) => (STATUS_UNSUCCESSFUL, h1)
  | (Some pdptPages, h1) =>
    let pdpt := pdptPages !!! 0%nat in
    let h2 :=
      host_writeq h1 pml4 pml4EntryIndex
        (EPT_PagingStructure.make true true true
           (EPT_Address.pageFrameNumber4KB (Memory_getPhysicalAddress pdpt))) in
    match Memory_allocate h2 (EPT_PDPT_ENTRIES * (EPT_PD_ENTRIES * 8)) true with
    | (None, h3) => (STATUS_UNSUCCESSFUL, Memory_free h3 pdpt)
    | (Some pdArray, h3) =>
      (STATUS_SUCCESS,
       set_logicalCore
         (set_memory
            (foldl (setupPdptEntry pml4EntryIndex pdpt pdArray)
               (memory (logicalCore h3)) (seq 0 (N.to_nat EPT_PDPT_ENTRIES)))
            (logicalCore h3))
         h3)
    end
  end.

(** The body of the loop of [destroyPml4]. *)
Definition destroyPml4Entry (pml4 : N) (h : EPT_Host) (pml4EntryIndex : nat)
  : Outcome EPT_Host :=
  let mem := memory (logicalCore h) in
  pdpt ← Memory_getVirtualAddress mem
    (EPT_Address.of_pageFrameNumber4KB
       (EPT_PagingStructure.pageFrameNumber
          (readq mem pml4 (N.of_nat pml4EntryIndex))));
  pdArray ← Memory_getVirtualAddress mem
    (EPT_Address.of_pageFrameNumber4KB
       (EPT_PagingStructure.pageFrameNumber (readq mem pdpt 0)));
  mret (Memory_free (Memory_free h pdArray) pdpt).

Fixpoint destroyPml4Entries (pml4 : N) (h : EPT_Host) (pml4EntryIndices : list nat)
  : Outcome EPT_Host :=
  match pml4EntryIndices with
  | [] => mret h
  | pml4EntryIndex :: rest =>
    h1 ← destroyPml4Entry pml4 h pml4EntryIndex;
    destroyPml4Entries pml4 h1 rest
  end.

(** [destroyPml4(noOfPml4Entries, pml4)] *)
Definition destroyPml4 (h : EPT_Host) (noOfPml4Entries pml4 : N)
  : Outcome EPT_Host :=
  h1 ← destroyPml4Entries pml4 h (seq 0 (N.to_nat noOfPml4Entries));
  mret (Memory_free h1 pml4).

(** [EPT_destroyEPTStructure(eptpBits)] *)
Definition EPT_destroyEPTStructure (cpuidex : N → N → N * N * N * N)
    (h : EPT_Host) (eptpBits : N) : Outcome EPT_Host :=
  pml4 ← Memory_getVirtualAddress (memory (logicalCore h))
    (EPT_Address.of_pageFrameNumber4KB (EPT_EptP.pageFrameNumber eptpBits));
  destroyPml4 h (getPml4Count cpuidex) pml4.

(** The inner loop of [fillFixedMtrr]: the iterator is the page table and
    the index of the entry it points at. *)
Fixpoint fillFixedMtrrPages (memoryType : N) (mappedPages : nat)
    (mem : gmap N (list N)) (pt : N) (ptIterator : nat)
  : gmap N (list N) * nat :=
  match mappedPages with
  | O => (mem, ptIterator)
  | S mappedPages' =>
    fillFixedMtrrPages memoryType mappedPages'
      (writeq mem pt (N.of_nat ptIterator)
         (EPT_PtE.set_memoryType memoryType (readq mem pt (N.of_nat ptIterator))))
      pt (S ptIterator)
  end.

(** [fillFixedMtrr(msrIndex, sizeInKBytes, &ptIterator)] *)
Definition fillFixedMtrr (readmsr : N → N) (msrIndex sizeInKBytes : N)
    (pt : N) (state : gmap N (list N) * nat) : gmap N (list N) * nat :=
  let msr := readmsr msrIndex in
  foldl (λ (state : gmap N (list N) * nat) (msrByteIndex : nat),
           let memoryType :=
             N.land (N.shiftr msr (N.of_nat msrByteIndex * 8)) 0xFF in
           fillFixedMtrrPages memoryType (N.to_nat (sizeInKBytes / 4))
             state.1 pt state.2)
        state (seq 0 8).

(** [overrideFirstPml4EntryWithFixedMtrrs(pml4)]; the large page is split
    with the arena of the logical core the code runs on. *)
Definition overrideFirstPml4EntryWithFixedMtrrs (readmsr : N → N)
    (c : Context_LogicalCore) (pml4 : N) : Outcome (N * Context_LogicalCore) :=
  pdpt ← Memory_getVirtualAddress (memory c)
    (EPT_Address.of_pageFrameNumber4KB
       (EPT_PagingStructure.pageFrameNumber (readq (memory c) pml4 0)));
  pd ← Memory_getVirtualAddress (memory c)
    (EPT_Address.of_pageFrameNumber4KB
       (EPT_PagingStructure.pageFrameNumber (readq (memory c) pdpt 0)));
  let '(ntStatus, c1) := splitPage c pd 0 in
  if negb (NT_SUCCESS ntStatus) then mret (ntStatus, c1)
  else
    pt ← Memory_getVirtualAddress (memory c1)
      (EPT_Address.of_pageFrameNumber4KB
         (EPT_PagingStructure.pageFrameNumber (readq (memory c1) pd 0)));
    let state := (memory c1, 0%nat) in
    let state := fillFixedMtrr readmsr IA32_MTRR_FIX64K_00000 64 pt state in
    let state := fillFixedMtrr readmsr IA32_MTRR_FIX16K_80000 16 pt state in
    let state := fillFixedMtrr readmsr IA32_MTRR_FIX16K_A0000 16 pt state in
    let state := fillFixedMtrr readmsr IA32_MTRR_FIX4K_C0000 4 pt state in
    let state := fillFixedMtrr readmsr IA32_MTRR_FIX4K_C8000 4 pt state in
    let state := fillFixedMtrr readmsr IA32_MTRR_FIX4K_D0000 4 pt state in
    let state := fillFixedMtrr readmsr IA32_MTRR_FIX4K_D8000 4 pt state in
    let state := fillFixedMtrr readmsr IA32_MTRR_FIX4K_E0000 4 pt state in
    let state := fillFixedMtrr readmsr IA32_MTRR_FIX4K_E8000 4 pt state in
    let state := fillFixedMtrr readmsr IA32_MTRR_FIX4K_F0000 4 pt state in
    let state := fillFixedMtrr readmsr IA32_MTRR_FIX4K_F8000 4 pt state in
    mret (STATUS_SUCCESS, set_memory state.1 c1).

(** The first loop of [EPT_setupDefaltStructures]. *)
Fixpoint setupPml4Entries (h : EPT_Host) (pml4 : N) (pml4Indices : list nat)
  : Outcome (N * EPT_Host) :=
  match pml4Indices with
  | [] => mret (STATUS_SUCCESS, h)
  | pml4Index :: rest =>
    let '(ntStatus, h1) := setupPml4Entry h pml4 (N.of_nat pml4Index) in
    if negb (NT_SUCCESS ntStatus)
    then h2 ← destroyPml4 h1 (N.of_nat pml4Index) pml4; mret (ntStatus, h2)
    else setupPml4Entries h1 pml4 rest
  end.

(** Its second loop, over the entries of the PML4 that are in use. *)
Fixpoint adjustPml4Entries (noOfVariableRangeRegisters : N)
    (variableMtrrs : list EPT_VariableMtrr.t) (defaultMemoryType : N)
    (mem : gmap N (list N)) (pml4 : N) (pml4EntryIndices : list nat)
  : Outcome (N * gmap N (list N)) :=
  match pml4EntryIndices with
  | [] => mret (STATUS_SUCCESS, mem)
  | pml4EntryIndex :: rest =>
    '(ntStatus, mem1) ←
      adjustPml4WithVariableMtrrs noOfVariableRangeRegisters variableMtrrs
        defaultMemoryType mem (readq mem pml4 (N.of_nat pml4EntryIndex));
    if negb (NT_SUCCESS ntStatus) then mret (ntStatus, mem1)
    else adjustPml4Entries noOfVariableRangeRegisters variableMtrrs
           defaultMemoryType mem1 pml4 rest
  end.

(** The part of [EPT_setupDefaltStructures] under [if (cpuid.mtrr)]: the
    status and the host; after a failure the hierarchy is destroyed. *)
Definition setupMemoryTypes (cpuidex : N → N → N * N * N * N) (readmsr : N → N)
    (h : EPT_Host) (pml4 pml4Count : N) : Outcome (N * EPT_Host) :=
  let cpuid := cpuidex IA32_CPUID_BASIC_INFORMATION_1 0 in
  if IA32_CpuidBasicInformation1.mtrr cpuid =? 0 then mret (STATUS_SUCCESS, h)
  else
    let mtrrDefType := readmsr IA32_MTRR_DEF_TYPE in
    if IA32_MtrrDefType.mtrrEnable mtrrDefType =? 0 then mret (STATUS_SUCCESS, h)
    else
      let mtrrCap := readmsr IA32_MTRRCAP in
      let variableMtrrs :=
        fillVariableMtrrsCache readmsr
          (IA32_Mtrrcap.variableRangeRegistersCount mtrrCap)
          (replicate (N.to_nat IA32_MTRR_MAX_VMTRR_COUNT) EPT_VariableMtrr.zero) in
      '(ntStatus, mem1) ←
        adjustPml4Entries (IA32_Mtrrcap.variableRangeRegistersCount mtrrCap)
          variableMtrrs (IA32_MtrrDefType.defaultMemoryType mtrrDefType)
          (memory (logicalCore h)) pml4 (seq 0 (N.to_nat pml4Count));
      let h1 := set_logicalCore (set_memory mem1 (logicalCore h)) h in
      if negb (NT_SUCCESS ntStatus)
      then h2 ← destroyPml4 h1 pml4Count pml4; mret (ntStatus, h2)
      else if negb (IA32_Mtrrcap.fixedRangeRegistersSupported mtrrCap =? 0)
              && negb (IA32_MtrrDefType.fixedRangeMtrrEnable mtrrDefType =? 0)
      then
        '(ntStatus, c2) ←
          overrideFirstPml4EntryWithFixedMtrrs readmsr (logicalCore h1) pml4;
        let h2 := set_logicalCore c2 h1 in
        if negb (NT_SUCCESS ntStatus)
        then h3 ← destroyPml4 h2 pml4Count pml4; mret (ntStatus, h3)
        else mret (STATUS_SUCCESS, h2)
      else mret (STATUS_SUCCESS, h1).

(** [EPT_setupDefaltStructures(&eptpBits)]: the status, the host and the
    value of [*eptpBits] afterwards. *)
Definition EPT_setupDefaltStructures (cpuidex : N → N → N * N * N * N)
    (readmsr : N → N) (h : EPT_Host) (eptpBits : N)
  : Outcome (N * EPT_Host * N) :=
  match Memory_allocate h (EPT_PML4_ENTRIES * 8) true with
  | (None, h1) => mret (STATUS_UNSUCCESSFUL, h1, eptpBits)
  | (Some pml4Pages, h1) =>
    let pml4 := pml4Pages !!! 0%nat in
    let pml4Count := getPml4Count cpuidex in
    '(ntStatus, h2) ← setupPml4Entries h1 pml4 (seq 0 (N.to_nat pml4Count));
    if negb (NT_SUCCESS ntStatus) then mret (ntStatus, h2, eptpBits)
    else
      '(ntStatus, h3) ← setupMemoryTypes cpuidex readmsr h2 pml4 pml4Count;
      if negb (NT_SUCCESS ntStatus) then mret (ntStatus, h3, eptpBits)
      else
        mret (STATUS_SUCCESS, h3,
              EPT_EptP_make EPT_PAGING_STRUCTURE_MEMORY_TYPE_WB
                (EPT_PAGE_WALK_LEN - 1)
                (EPT_Address.pageFrameNumber4KB (Memory_getPhysicalAddress pml4)))
  end.

(** What the set-up code writes.  The entry of a PML4 or PDPT page for
    the page in frame [frame]; the page directory for the 1 GiB region
    [pdptEntry] of the 512 GiB region [pml4Entry], whose 2 MiB leaves have
    the memory types [memoryTypes] gives for their addresses. *)
Definition directoryEntryFor (frame : N) : N :=
  EPT_PagingStructure.make true true true
    (EPT_Address.pageFrameNumber4KB (Memory_getPhysicalAddress frame)).

Definition pdPage (memoryTypes : N → N) (pml4Entry pdptEntry : N) : list N :=
  (λ pdEntry : nat,
     let address := EPT_Address_make pml4Entry pdptEntry (N.of_nat pdEntry) in
     EPT_PdE2MB.make true true true true (memoryTypes address)
       (EPT_Address.pageFrameNumber2MB address))
  <$> seq 0 512.

(** The frames the pending results of [ExAllocatePool2] are made of. *)
Definition pool_frames (pool : list (option (nat → N))) : list N :=
  pool ≫= λ result,
    match result with
    | Some frameOf => frameOf <$> seq 0 512
    | None => []
    end.

(** The allocator hands out pages that are not in use: the frames of its
    pending results are pairwise distinct, below 2^40, not frame 0, and
    neither mapped nor part of a live block. *)
Record Host_ok (h : EPT_Host) : Prop := {
  ok_distinct : NoDup (pool_frames (ExAllocatePool2 h));
  ok_unused : ∀ frame, frame ∈ pool_frames (ExAllocatePool2 h) →
    memory (logicalCore h) !! frame = None ∧ allocations h !! frame = None
    ∧ frame < 2 ^ 40 ∧ frame ≠ 0
}.

(** A hierarchy under construction: the frame of the PML4 page, the frames
    [pdpts] of the PDPT pages of its first entries and, for each of them,
    the frames of its 512 page directories. *)
Definition hierarchy_frames (pml4 : N) (pdpts : list N)
    (pdArrays : list (list N)) : list N :=
  pml4 :: pdpts ++ mjoin pdArrays.

(** The pointers [Memory_free] is given for them. *)
Definition hierarchy_blocks (pml4 : N) (pdpts : list N)
    (pdArrays : list (list N)) : list N :=
  pml4 :: pdpts ++ ((λ pdArray : list N, pdArray !!! 0%nat) <$> pdArrays).

(** The directory levels are in place: the first entries of the PML4 page
    point at the PDPT pages and the entries of these at the page
    directories. *)
Record EPT_directories (mem : gmap N (list N)) (pml4 : N) (pdpts : list N)
    (pdArrays : list (list N)) : Prop := {
  dir_length : length pdArrays = length pdpts;
  dir_count : (length pdpts ≤ 512)%nat;
  dir_distinct : NoDup (hierarchy_frames pml4 pdpts pdArrays);
  dir_fit : Forall (λ frame, frame < 2 ^ 40 ∧ frame ≠ 0)
              (hierarchy_frames pml4 pdpts pdArrays);
  dir_pml4 : ∃ page, mem !! pml4 = Some page ∧ length page = 512%nat
             ∧ ∀ i pdpt, pdpts !! i = Some pdpt →
                 page !! i = Some (directoryEntryFor pdpt);
  dir_pdpt : ∀ i pdpt pdArray, pdpts !! i = Some pdpt →
             pdArrays !! i = Some pdArray →
             mem !! pdpt = Some (directoryEntryFor <$> pdArray);
  dir_pdArray : Forall (λ pdArray : list N, length pdArray = 512%nat) pdArrays;
  dir_pd : ∀ pd, pd ∈ mjoin pdArrays →
           ∃ page, mem !! pd = Some page ∧ length page = 512%nat
}.

(** The hierarchy is complete: the other entries of the PML4 page are
    zero, every entry of a page directory is a 2 MiB leaf that maps its own
    address with every access allowed and the memory type [memoryTypes]
    gives, and no page lives in frame 0. *)
Record EPT_built (mem : gmap N (list N)) (pml4 : N) (pdpts : list N)
    (pdArrays : list (list N)) (memoryTypes : N → N) : Prop := {
  built_directories : EPT_directories mem pml4 pdpts pdArrays;
  built_pml4 : mem !! pml4
               = Some ((directoryEntryFor <$> pdpts)
                       ++ replicate (512 - length pdpts) 0);
  built_pd : ∀ i j pdArray pd, pdArrays !! i = Some pdArray →
             pdArray !! j = Some pd →
             mem !! pd = Some (pdPage memoryTypes (N.of_nat i) (N.of_nat j));
  built_unmapped : mem !! 0 = None
}.

(** The live blocks of the pool are those of [before] and the blocks of
    the hierarchy, which are new. *)
Record live_blocks (before live : gmap N (list N)) (pml4 : N) (pdpts : list N)
    (pdArrays : list (list N)) : Prop := {
  live_pml4 : live !! pml4 = Some [pml4];
  live_pdpt : ∀ pdpt, pdpt ∈ pdpts → live !! pdpt = Some [pdpt];
  live_pdArray : ∀ pdArray, pdArray ∈ pdArrays →
                 live !! (pdArray !!! 0%nat) = Some pdArray;
  live_others : ∀ pointer, pointer ∉ hierarchy_blocks pml4 pdpts pdArrays →
                live !! pointer = before !! pointer;
  live_new : ∀ frame, frame ∈ hierarchy_frames pml4 pdpts pdArrays →
             before !! frame = None
}.

(** A processor whose CPUID leaf 0x80000008 reports [bits] in the low byte
    of EAX and whose leaf 1 reports [edx]. *)
Definition demo_cpuidex_setup (bits edx : N) (function subleaf : N)
  : N * N * N * N :=
  if function =? IA32_CPUID_ADDRESS_BITS then (0x3000 + bits, 0, 0, 0)
  else if function =? IA32_CPUID_BASIC_INFORMATION_1 then (0x906EA, 0x100800, 0x7FFAFBFF, edx)
  else (0, 0, 0, 0).

(** The split arena of a logical core: its 32 pages exist, in pairwise
    distinct frames below 2^40, and at most 32 are handed out. *)
Record Arena_ok (c : Context_LogicalCore) : Prop := {
  arena_length : length (splitBuffer c) = 32%nat;
  arena_used : noOfUsedSplits c <= CONTEXT_EPT_NO_SPLITS;
  arena_fits : Forall (λ frame, frame < 2 ^ 40) (arenaFrames c);
  arena_pages :
    Forall (λ frame, length <$> memory c !! frame = Some 512%nat) (arenaFrames c);
  arena_distinct : NoDup (arenaFrames c)
}.

Definition set_eptp (eptpBits : N) (c : Context_LogicalCore) : Context_LogicalCore :=
  {| memory := memory c; splitBuffer := splitBuffer c;
     noOfUsedSplits := noOfUsedSplits c;
     changedMappings := changedMappings c; eptp := eptpBits |}.

(** A page table whose first entries have been given the memory types
    [memoryTypes], one after the other. *)
Definition retyped (memoryTypes : list N) (page : list N) : list N :=
  imap (λ index entry,
          match memoryTypes !! index with
          | Some memoryType => EPT_PtE.set_memoryType memoryType entry
          | None => entry
          end) page.

(** The memory types one call of [fillFixedMtrr] hands out, page by page,
    and those of the eleven calls of
    [overrideFirstPml4EntryWithFixedMtrrs]. *)
Definition fixedMtrrBytes (readmsr : N → N) (msrIndex sizeInKBytes : N) : list N :=
  seq 0 8 ≫= λ msrByteIndex,
    replicate (N.to_nat (sizeInKBytes / 4))
      (N.land (N.shiftr (readmsr msrIndex) (N.of_nat msrByteIndex * 8)) 0xFF).

Definition fixedMtrrTypes (readmsr : N → N) : list N :=
  fixedMtrrBytes readmsr IA32_MTRR_FIX64K_00000 64
  ++ fixedMtrrBytes readmsr IA32_MTRR_FIX16K_80000 16
  ++ fixedMtrrBytes readmsr IA32_MTRR_FIX16K_A0000 16
  ++ fixedMtrrBytes readmsr IA32_MTRR_FIX4K_C0000 4
  ++ fixedMtrrBytes readmsr IA32_MTRR_FIX4K_C8000 4
  ++ fixedMtrrBytes readmsr IA32_MTRR_FIX4K_D0000 4
  ++ fixedMtrrBytes readmsr IA32_MTRR_FIX4K_D8000 4
  ++ fixedMtrrBytes readmsr IA32_MTRR_FIX4K_E0000 4
  ++ fixedMtrrBytes readmsr IA32_MTRR_FIX4K_E8000 4
  ++ fixedMtrrBytes readmsr IA32_MTRR_FIX4K_F0000 4
  ++ fixedMtrrBytes readmsr IA32_MTRR_FIX4K_F8000 4.

(** Whether [EPT_setupDefaltStructures] consults the MTRRs, and the fixed
    ones among them. *)
Definition mtrrsEnabled (cpuidex : N → N → N * N * N * N) (readmsr : N → N) : bool :=
  negb (IA32_CpuidBasicInformation1.mtrr
          (cpuidex IA32_CPUID_BASIC_INFORMATION_1 0) =? 0)
  && negb (IA32_MtrrDefType.mtrrEnable (readmsr IA32_MTRR_DEF_TYPE) =? 0).

Definition fixedMtrrsEnabled (cpuidex : N → N → N * N * N * N) (readmsr : N → N)
  : bool :=
  mtrrsEnabled cpuidex readmsr
  && negb (IA32_Mtrrcap.fixedRangeRegistersSupported (readmsr IA32_MTRRCAP) =? 0)
  && negb (IA32_MtrrDefType.fixedRangeMtrrEnable (readmsr IA32_MTRR_DEF_TYPE) =? 0).

(** The cache of variable MTRRs [EPT_setupDefaltStructures] works with. *)
Definition variableMtrrsCache (readmsr : N → N) : list EPT_VariableMtrr.t :=
  fillVariableMtrrsCache readmsr
    (IA32_Mtrrcap.variableRangeRegistersCount (readmsr IA32_MTRRCAP))
    (replicate (N.to_nat IA32_MTRR_MAX_VMTRR_COUNT) EPT_VariableMtrr.zero).

(** The memory type the set-up code computes for an address, before it
    is cut to the three bits of a leaf: UC without MTRRs, the fixed-range
    type below 1 MiB when the fixed MTRRs are on, and otherwise what
    [searchVariableMtrrs] finds for the first byte of the 2 MiB page. *)
Definition EPT_memoryType (cpuidex : N → N → N * N * N * N) (readmsr : N → N)
    (address : N) : N :=
  if negb (mtrrsEnabled cpuidex readmsr) then IA32_MTRR_DISABLED_DEFAULT_TYPE
  else if fixedMtrrsEnabled cpuidex readmsr && (address <? 2 ^ 20)
  then fixedMtrrTypes readmsr !!! N.to_nat (address / PAGE_SIZE)
  else searchVariableMtrrs
         (IA32_Mtrrcap.variableRangeRegistersCount (readmsr IA32_MTRRCAP))
         (variableMtrrsCache readmsr)
         (IA32_MtrrDefType.defaultMemoryType (readmsr IA32_MTRR_DEF_TYPE))
         (EPT_Address.of_pageFrameNumber2MB
            (EPT_Address.pageFrameNumber2MB address)).

(** What [EPT_setupDefaltStructures] has built when it succeeds, [h] being
    the host before the memory types are set and [h'] the host at the end:
    no block is allocated or freed after the hierarchy is complete, the
    fixed-range override takes one page of the arena, and the hierarchy,
    read with the new EPTP, is well formed, an identity map, and gives
    every address under an entry in use its own frame, all accesses and the
    memory type of [EPT_memoryType]. *)
Definition EPT_typed (cpuidex : N → N → N * N * N * N) (readmsr : N → N)
    (h : EPT_Host) (eptpBits pml4 : N) (pdpts : list N)
    (pdArrays : list (list N)) (h' : EPT_Host) : Prop :=
  allocations h' = allocations h
  ∧ noOfUsedSplits (logicalCore h')
    = noOfUsedSplits (logicalCore h)
      + (if fixedMtrrsEnabled cpuidex readmsr then 1 else 0)
  ∧ EPT_directories (memory (logicalCore h')) pml4 pdpts pdArrays
  ∧ EPT_wf pdpts (mjoin pdArrays) [] (set_eptp eptpBits (logicalCore h'))
  ∧ (keys_in_range (changedMappings (logicalCore h)) →
     EPT_identity (set_eptp eptpBits (logicalCore h')))
  ∧ (∀ a, a < 2 ^ 48 →
       EPT_translation (set_eptp eptpBits (logicalCore h')) a
       = if decide (N.to_nat (EPT_Address.pml4Entry a) < length pdpts)%nat
         then Some (a / PAGE_SIZE, 1, 1, 1,
                    N.land (EPT_memoryType cpuidex readmsr a) (N.ones 3))
         else None).

(** The next [n] results of [ExAllocatePool2] are blocks. *)
Definition pool_serves (n : nat) (pool : list (option (nat → N))) : Prop :=
  ∃ blocks rest, pool = (Some <$> blocks) ++ rest ∧ length blocks = n.

(** The fixed-range MTRRs as their names describe them: the register, the
    first address of its range, and the size in KiB of each of the eight
    sub-ranges its bytes stand for. *)
Definition fixedMtrrRanges : list (N * N * N) :=
  [ (IA32_MTRR_FIX64K_00000, 0x00000, 64);
    (IA32_MTRR_FIX16K_80000, 0x80000, 16);
    (IA32_MTRR_FIX16K_A0000, 0xA0000, 16);
    (IA32_MTRR_FIX4K_C0000, 0xC0000, 4);
    (IA32_MTRR_FIX4K_C8000, 0xC8000, 4);
    (IA32_MTRR_FIX4K_D0000, 0xD0000, 4);
    (IA32_MTRR_FIX4K_D8000, 0xD8000, 4);
    (IA32_MTRR_FIX4K_E0000, 0xE0000, 4);
    (IA32_MTRR_FIX4K_E8000, 0xE8000, 4);
    (IA32_MTRR_FIX4K_F0000, 0xF0000, 4);
    (IA32_MTRR_FIX4K_F8000, 0xF8000, 4) ].

(** [setups n h h']: [h'] is the host [h] after [n] successful calls of
    [EPT_setupDefaltStructures] that run on the same core, one after the
    other, as in the loop of [VMM_enable]. *)
Inductive setups (cpuidex : N → N → N * N * N * N) (readmsr : N → N)
  : nat → EPT_Host → EPT_Host → Prop :=
| setups_O h : setups cpuidex readmsr 0 h h
| setups_S n h eptpBits h1 e1 h2 :
    EPT_setupDefaltStructures cpuidex readmsr h eptpBits
    = Returns (STATUS_SUCCESS, h1, e1) →
    setups cpuidex readmsr n h1 h2 →
    setups cpuidex readmsr (S n) h h2.

(** A host to exercise the set-up: the core of [demo_core], no live block,
    and an allocator that has three blocks at hand, in the frames from
    1000, 2000 and 3000 on; a processor with 39 physical address bits and
    MTRRs; an MSR file with the MTRRs and the fixed ranges enabled, default
    type WB, one variable range (UC, from [demo_readmsr]) and fixed ranges
    that are WB below 512 KiB, WP from 0xC0000 to 0xC7FFF and UC
    elsewhere. *)
Definition demo_host : EPT_Host :=
  {| logicalCore := demo_core;
     allocations := ∅;
     ExAllocatePool2 :=
       [ Some (λ page : nat, 1000 + N.of_nat page);
         Some (λ page : nat, 2000 + N.of_nat page);
         Some (λ page : nat, 3000 + N.of_nat page) ] |}.

Definition demo_readmsr_setup (msr : N) : N :=
  if msr =? IA32_MTRRCAP then 0x501
  else if msr =? IA32_MTRR_DEF_TYPE then 0xC06
  else if msr =? IA32_MTRR_FIX64K_00000 then 0x0606060606060606
  else if msr =? IA32_MTRR_FIX4K_C0000 then 0x0505050505050505
  else demo_readmsr msr.

(** ** [vmm.c]: the prerequisites of virtualization *)

Definition IA32_FEATURE_CONTROL : N := 0x3A.
Definition IA32_VMX_BASIC : N := 0x480.
Definition IA32_VMX_CR0_FIXED0 : N := 0x486.
Definition IA32_VMX_CR0_FIXED1 : N := 0x487.
Definition IA32_VMX_CR4_FIXED0 : N := 0x488.
Definition IA32_VMX_CR4_FIXED1 : N := 0x489.

Module IA32_VmxBasic.
Definition trueControls (bits : N) : N := bitfield 55 1 bits.
End IA32_VmxBasic.

Module IA32_FeatureControl.
Definition lockBit (bits : N) : N := bitfield 0 1 bits.
Definition enableVmxOutsideSmx (bits : N) : N := bitfield 2 1 bits.
Definition set_lockBit (v bits : N) : N := set_bitfield 0 1 v bits.
Definition set_enableVmxOutsideSmx (v bits : N) : N := set_bitfield 2 1 v bits.
End IA32_FeatureControl.

Module IA32_Cr4.
Definition vmxEnableBit (bits : N) : N := bitfield 13 1 bits.
Definition set_vmxEnableBit (v bits : N) : N := set_bitfield 13 1 v bits.
End IA32_Cr4.

(** [RtlCompareMemory(source1, source2, length)]: the number of bytes that
    are equal, up to the first difference.  A buffer is the list of its
    bytes; both buffers are at least [length] bytes long where the driver
    calls it. *)
Fixpoint RtlCompareMemory (source1 source2 : list N) (length : nat) : nat :=
  match length, source1, source2 with
  | S length', byte1 :: rest1, byte2 :: rest2 =>
    if byte1 =? byte2 then S (RtlCompareMemory rest1 rest2 length') else 0%nat
  | _, _, _ => 0%nat
  end.

(** [Memory_compare(source1, source2, length)] of [memory.c] *)
Definition Memory_compare (source1 source2 : list N) (length : nat) : bool :=
  Nat.eqb (RtlCompareMemory source1 source2 length) length.

(** The thirteen bytes of the string literal [GenuineIntel], its
    terminating zero included. *)
Definition GenuineIntel : list N :=
  [71; 101; 110; 117; 105; 110; 101; 73; 110; 116; 101; 108; 0].

(** [isVmxCpuidSupported]; [__cpuid] runs the instruction with subleaf 0.
    [vendorString] has 13 bytes, the last of which stays zero. *)
Definition isVmxCpuidSupported (cpuidex : N → N → N * N * N * N) : bool :=
  let '(_, vendor1, vendor3, vendor2) := cpuidex IA32_CPUID_BASIC_INFORMATION_0 0 in
  let vendorString :=
    bytes_of_INT32 vendor1 ++ bytes_of_INT32 vendor2 ++ bytes_of_INT32 vendor3
    ++ [0] in
  if negb (Memory_compare vendorString GenuineIntel 13) then false
  else
    negb (IA32_CpuidBasicInformation1.vmx
            (cpuidex IA32_CPUID_BASIC_INFORMATION_1 0) =? 0).

(** [checkPrerequisites] *)
Definition checkPrerequisites (cpuidex : N → N → N * N * N * N) (readmsr : N → N)
  : N :=
  if negb (isVmxCpuidSupported cpuidex) then STATUS_UNSUCCESSFUL
  else if IA32_VmxBasic.trueControls (readmsr IA32_VMX_BASIC) =? 0
  then STATUS_UNSUCCESSFUL
  else STATUS_SUCCESS.

(** The registers [setControlRegisterBits] reads and writes: the MSRs,
    CR0 and CR4; and the record [wrmsr] of the WRMSR instructions that
    have been executed, the oldest first, each with the MSR and the value
    written. *)
Record VMM_Registers : Type := {
  msrs : N → N;
  cr0 : N;
  cr4 : N;
  wrmsr : list (N * N)
}.

(** [__writemsr(msr, value)] *)
Definition writemsr (msr value : N) (s : VMM_Registers) : VMM_Registers :=
  {| msrs := λ index, if index =? msr then value else msrs s index;
     cr0 := cr0 s; cr4 := cr4 s;
     wrmsr := wrmsr s ++ [(msr, value)] |}.

(** [setControlRegisterBits]: the status and the registers afterwards. *)
Definition setControlRegisterBits (s : VMM_Registers) : N * VMM_Registers :=
  let featureControl := msrs s IA32_FEATURE_CONTROL in
  if negb (IA32_FeatureControl.lockBit featureControl =? 0)
     && (IA32_FeatureControl.enableVmxOutsideSmx featureControl =? 0)
  then (STATUS_UNSUCCESSFUL, s)
  else
    let s1 :=
      if IA32_FeatureControl.lockBit featureControl =? 0
      then
        writemsr IA32_FEATURE_CONTROL
          (IA32_FeatureControl.set_lockBit 1
             (IA32_FeatureControl.set_enableVmxOutsideSmx 1 featureControl))
          s
      else s in
    let cr4Fixed0 := msrs s1 IA32_VMX_CR4_FIXED0 in
    let cr4Fixed1 := msrs s1 IA32_VMX_CR4_FIXED1 in
    let cr4Bits :=
      N.land (N.lor (IA32_Cr4.set_vmxEnableBit 1 (cr4 s1)) cr4Fixed0) cr4Fixed1 in
    let cr0Fixed0 := msrs s1 IA32_VMX_CR0_FIXED0 in
    let cr0Fixed1 := msrs s1 IA32_VMX_CR0_FIXED1 in
    let cr0Bits := N.land (N.lor (cr0 s1) cr0Fixed0) cr0Fixed1 in
    (STATUS_SUCCESS,
     {| msrs := msrs s1; cr0 := cr0Bits; cr4 := cr4Bits; wrmsr := wrmsr s1 |}).

(** What the instruction CPUID gives a guest of this hypervisor: the exit
    is handled by [cpuidHandler], and the instruction delivers the low
    halves of RAX, RBX, RCX and RDX. *)
Definition guest_cpuidex (cpuidex : N → N → N * N * N * N)
    (registers : VMEXIT_Registers) (function subleaf : N) : N * N * N * N :=
  let exit :=
    {| R15 := R15 registers; R14 := R14 registers; R13 := R13 registers;
       R12 := R12 registers; R11 := R11 registers; R10 := R10 registers;
       R9 := R9 registers; R8 := R8 registers; RDI := RDI registers;
       RSI := RSI registers; RSP := RSP registers; RBP := RBP registers;
       RDX := RDX registers; RCX := subleaf; RBX := RBX registers;
       RAX := function |} in
  let result := cpuidHandler cpuidex exit in
  (UINT64_to_INT32 (RAX result), UINT64_to_INT32 (RBX result),
   UINT64_to_INT32 (RCX result), UINT64_to_INT32 (RDX result)).

(** A processor in the state the firmware usually leaves it in. *)
Definition demo_registers_vmm : VMM_Registers :=
  {| msrs := λ index,
       if index =? IA32_FEATURE_CONTROL then 0x5
       else if index =? IA32_VMX_CR0_FIXED0 then 0x80000021
       else if index =? IA32_VMX_CR0_FIXED1 then 0xFFFFFFFF
       else if index =? IA32_VMX_CR4_FIXED0 then 0x2000
       else if index =? IA32_VMX_CR4_FIXED1 then 0x3767FF
       else 0;
     cr0 := 0x80050033;
     cr4 := 0x350EF8;
     wrmsr := [] |}.

(** * Properties *)

(** ** Bit-fields *)

Section BitFields.
Import Bits.

Lemma ones_testbit (w i : N) : N.testbit (N.ones w) i = (i <? w).
Proof.
  destruct (N.ltb_spec i w).
  - now apply N.ones_spec_low.
  - now apply N.ones_spec_high.
Qed.

Lemma bitfield_testbit (lo w x i : N) :
  N.testbit (bitfield lo w x) i = N.testbit x (i + lo) && (i <? w).
Proof.
  unfold bitfield.
  now rewrite N.land_spec, N.shiftr_spec', ones_testbit.
Qed.

Lemma mask_testbit (lo w i : N) :
  N.testbit (N.shiftl (N.ones w) lo) i = (lo <=? i) && (i <? lo + w).
Proof.
  destruct (N.leb_spec lo i) as [Hle|Hlt]; simpl.
  - rewrite N.shiftl_spec_high' by assumption.
    rewrite ones_testbit.
    destruct (N.ltb_spec (i - lo) w), (N.ltb_spec i (lo + w)); trivial; lia.
  - now apply N.shiftl_spec_low.
Qed.

Lemma set_bitfield_testbit (lo w v x i : N) :
  N.testbit (set_bitfield lo w v x) i =
  if (lo <=? i) && (i <? lo + w) then N.testbit v (i - lo) else N.testbit x i.
Proof.
  unfold set_bitfield.
  rewrite N.lor_spec, N.ldiff_spec, mask_testbit.
  destruct (N.leb_spec lo i) as [Hle|Hlt]; simpl.
  - rewrite N.shiftl_spec_high' by assumption.
    rewrite N.land_spec, ones_testbit.
    destruct (N.ltb_spec i (lo + w)), (N.ltb_spec (i - lo) w); try lia; simpl.
    + now rewrite Bool.andb_false_r, Bool.andb_true_r.
    + now rewrite Bool.andb_true_r, Bool.andb_false_r, Bool.orb_false_r.
  - rewrite N.shiftl_spec_low by assumption.
    now rewrite Bool.andb_true_r, Bool.orb_false_r.
Qed.

Lemma bitfield_set_same (lo w v x : N) :
  bitfield lo w (set_bitfield lo w v x) = N.land v (N.ones w).
Proof.
  apply N.bits_inj; intro i.
  rewrite bitfield_testbit, set_bitfield_testbit, N.land_spec, ones_testbit.
  destruct (N.ltb_spec i w); simpl.
  - replace (lo <=? i + lo) with true by (symmetry; apply N.leb_le; lia).
    replace (i + lo <? lo + w) with true by (symmetry; apply N.ltb_lt; lia).
    simpl. replace (i + lo - lo) with i by lia.
    now rewrite Bool.andb_true_r.
  - now rewrite !Bool.andb_false_r.
Qed.

Lemma bitfield_set_other (lo w v x lo2 w2 : N) :
  lo2 + w2 <= lo \/ lo + w <= lo2 ->
  bitfield lo2 w2 (set_bitfield lo w v x) = bitfield lo2 w2 x.
Proof.
  intros Hdisj. apply N.bits_inj; intro i.
  rewrite !bitfield_testbit, set_bitfield_testbit.
  destruct (N.ltb_spec i w2); simpl; [|now rewrite !Bool.andb_false_r].
  destruct (N.leb_spec lo (i + lo2)), (N.ltb_spec (i + lo2) (lo + w));
    simpl; trivial; lia.
Qed.

Lemma land_ones_small (v w : N) : v < 2 ^ w -> N.land v (N.ones w) = v.
Proof. intros H. rewrite N.land_ones. now apply N.mod_small. Qed.

Lemma bitfield_lt (lo w x : N) : bitfield lo w x < 2 ^ w.
Proof.
  unfold bitfield. rewrite N.land_ones.
  apply N.mod_upper_bound, N.pow_nonzero. discriminate.
Qed.

Lemma bitfield_div_mod (lo w x : N) : bitfield lo w x = (x / 2 ^ lo) mod 2 ^ w.
Proof. unfold bitfield. now rewrite N.land_ones, N.shiftr_div_pow2. Qed.

Lemma bitfield_0 (lo w : N) : bitfield lo w 0 = 0.
Proof. unfold bitfield. now rewrite N.shiftr_0_l, N.land_0_l. Qed.


Lemma bitfield_small (lo w x : N) : x < 2 ^ lo -> bitfield lo w x = 0.
Proof.
  intros H. rewrite bitfield_div_mod, N.div_small by assumption.
  apply N.Div0.mod_0_l.
Qed.

Lemma bitfield_bool (lo x : N) : bitfield lo 1 x = 0 ∨ bitfield lo 1 x = 1.
Proof. pose proof (bitfield_lt lo 1 x) as H. change (2 ^ 1) with 2 in H. lia. Qed.

(** Writing a field with the value it already holds changes nothing. *)
Lemma set_bitfield_id (lo w v x : N) :
  bitfield lo w x = N.land v (N.ones w) -> set_bitfield lo w v x = x.
Proof.
  intros H. apply N.bits_inj; intro i.
  rewrite set_bitfield_testbit.
  destruct (N.leb_spec lo i) as [Hle|Hlt]; simpl; [|reflexivity].
  destruct (N.ltb_spec i (lo + w)) as [Hlt|Hge]; [|reflexivity].
  assert (E : N.testbit (bitfield lo w x) (i - lo)
              = N.testbit (N.land v (N.ones w)) (i - lo)) by now rewrite H.
  rewrite bitfield_testbit, N.land_spec, ones_testbit in E.
  replace (i - lo + lo) with i in E by lia.
  replace (i - lo <? w) with true in E by (symmetry; apply N.ltb_lt; lia).
  now rewrite !Bool.andb_true_r in E.
Qed.

End BitFields.

(** ** Outcomes and statuses *)

Lemma bind_Returns {A B : Type} (m : Outcome A) (f : A → Outcome B) (b : B) :
  m ≫= f = Returns b → ∃ a, m = Returns a ∧ f a = Returns b.
Proof. destruct m as [a|code]; simpl; [eauto | discriminate]. Qed.

Lemma NT_SUCCESS_STATUS_SUCCESS : NT_SUCCESS STATUS_SUCCESS = true.
Proof. reflexivity. Qed.

Lemma NT_SUCCESS_STATUS_UNSUCCESSFUL : NT_SUCCESS STATUS_UNSUCCESSFUL = false.
Proof. reflexivity. Qed.

Lemma RAX_STATUS_SUCCESS : NTSTATUS_to_UINT64 STATUS_SUCCESS = 0.
Proof. reflexivity. Qed.

Lemma RAX_STATUS_UNSUCCESSFUL :
  NTSTATUS_to_UINT64 STATUS_UNSUCCESSFUL = 0xFFFFFFFFC0000001.
Proof. reflexivity. Qed.

(** ** What the operations return, case by case *)

Lemma splitPage_cases (c : Context_LogicalCore) (pd pdEntryIndex st : N)
    (c' : Context_LogicalCore) :
  splitPage c pd pdEntryIndex = (st, c') →
  (st = STATUS_UNSUCCESSFUL ∧ c' = c ∧ CONTEXT_EPT_NO_SPLITS <= noOfUsedSplits c)
  ∨ (st = STATUS_SUCCESS ∧ noOfUsedSplits c < CONTEXT_EPT_NO_SPLITS
     ∧ noOfUsedSplits c' = noOfUsedSplits c + 1).
Proof.
  unfold splitPage.
  destruct (N.leb_spec CONTEXT_EPT_NO_SPLITS (noOfUsedSplits c));
    intros [= <- <-]; [left | right]; auto.
Qed.

Lemma EPT_traverse_cases (c : Context_LogicalCore) (a st : N)
    (c1 : Context_LogicalCore) (pd : N) :
  EPT_traverse c a = Returns (st, c1, pd) →
  EPT_pageDirectory c a = Returns pd
  ∧ ((st = STATUS_UNSUCCESSFUL ∧ c1 = c) ∨ st = STATUS_SUCCESS).
Proof.
  unfold EPT_traverse. intros H.
  apply bind_Returns in H as (pd' & Hpd & H).
  destruct (_ =? 1).
  - destruct (splitPage c pd' (EPT_Address.pdEntry a)) as [st' c'] eqn:Hs.
    injection H as <- <- <-. split; [assumption|].
    apply splitPage_cases in Hs as [(-> & -> & _)|(-> & _)]; auto.
  - injection H as <- <- <-. auto.
Qed.

Lemma EPT_changeMapping_cases (c : Context_LogicalCore)
    (sourceAddress targetAddress : N) (rw fetch : bool) (st : N)
    (c' : Context_LogicalCore) :
  EPT_changeMapping c sourceAddress targetAddress rw fetch = Returns (st, c') →
  (st = STATUS_UNSUCCESSFUL ∧ c' = c) ∨ st = STATUS_SUCCESS.
Proof.
  unfold EPT_changeMapping. intros H.
  apply bind_Returns in H as ([[st1 c1] pd] & Ht & H).
  apply EPT_traverse_cases in Ht as [_ [[-> ->]| ->]]; simpl in H.
  - injection H as <- <-. auto.
  - apply bind_Returns in H as (pt & _ & H). injection H as <- _. auto.
Qed.

Lemma EPT_changeMapping_changedMappings (c : Context_LogicalCore)
    (sourceAddress targetAddress : N) (rw fetch : bool) (st : N)
    (c' : Context_LogicalCore) :
  EPT_changeMapping c sourceAddress targetAddress rw fetch = Returns (st, c') →
  changedMappings c' = changedMappings c.
Proof.
  unfold EPT_changeMapping, EPT_traverse. intros H.
  apply bind_Returns in H as ([[st1 c1] pd] & Ht & H).
  apply bind_Returns in Ht as (pd' & _ & Ht).
  assert (changedMappings c1 = changedMappings c) as E.
  { destruct (_ =? 1).
    - unfold splitPage in Ht. destruct (_ <=? _); now injection Ht as _ <- _.
    - now injection Ht as _ <- _. }
  destruct (negb (NT_SUCCESS st1)).
  - now injection H as _ <-.
  - apply bind_Returns in H as (pt & _ & H). now injection H as _ <-.
Qed.

Lemma vmCallMapPage_cases (c : Context_LogicalCore) (RDX R8 R9 RAX : N)
    (c' : Context_LogicalCore) :
  vmCallMapPage c RDX R8 R9 = Returns (RAX, c') →
  (RAX = NTSTATUS_to_UINT64 STATUS_UNSUCCESSFUL ∧ c' = c)
  ∨ (RAX = 0
     ∧ EPT_Address.offset RDX = 0 ∧ EPT_Address.offset R8 = 0
     ∧ EPT_Address.offset R9 = 0
     ∧ existsb (mappingCollides RDX R8 R9)
         (take (N.to_nat CONTEXT_EPT_MAX_MAPPINGS) (changedMappings c)) = false
     ∧ ∃ selectedIndex m0 c1,
         selectIndex (changedMappings c) = Some (selectedIndex, m0)
         ∧ EPT_changeMapping c RDX RDX false false = Returns (STATUS_SUCCESS, c1)
         ∧ c' = set_changedMappings
                  (<[selectedIndex := newMapping RDX R8 R9]> (changedMappings c)) c1).
Proof.
  unfold vmCallMapPage. intros H.
  destruct (EPT_Address.offset RDX =? 0) eqn:E1; simpl in H;
    [|injection H as <- <-; auto].
  destruct (EPT_Address.offset R8 =? 0) eqn:E2; simpl in H;
    [|injection H as <- <-; auto].
  destruct (EPT_Address.offset R9 =? 0) eqn:E3; simpl in H;
    [|injection H as <- <-; auto].
  destruct (existsb _ _) eqn:Ecol; [injection H as <- <-; auto|].
  destruct (selectIndex (changedMappings c)) as [[i m0]|] eqn:Esel;
    [|injection H as <- <-; auto].
  apply bind_Returns in H as ([st c1] & Hcm & H).
  pose proof (EPT_changeMapping_changedMappings _ _ _ _ _ _ _ Hcm) as Etab.
  apply EPT_changeMapping_cases in Hcm as Hst.
  destruct Hst as [[-> ->]| ->]; simpl in H; injection H as <- <-; [auto|].
  right. apply N.eqb_eq in E1, E2, E3. repeat (split; [assumption || reflexivity|]).
  exists i, m0, c1. rewrite Etab. auto.
Qed.

Lemma vmCallUnmapPage_cases (c : Context_LogicalCore) (RDX RAX : N)
    (c' : Context_LogicalCore) :
  vmCallUnmapPage c RDX = Returns (RAX, c') →
  (RAX = NTSTATUS_to_UINT64 STATUS_UNSUCCESSFUL ∧ c' = c)
  ∨ (RAX = 0
     ∧ ∃ foundMapping m c1,
         findMapping (changedMappings c) RDX = Some (foundMapping, m)
         ∧ EPT_changeMapping c RDX RDX true true = Returns (STATUS_SUCCESS, c1)
         ∧ c' = set_changedMappings
                  (<[foundMapping := Context_EptChangedMapping_zero]>
                     (changedMappings c)) c1).
Proof.
  unfold vmCallUnmapPage. intros H.
  destruct (findMapping (changedMappings c) RDX) as [[i m]|] eqn:Efind;
    [|injection H as <- <-; auto].
  apply bind_Returns in H as ([st c1] & Hcm & H).
  pose proof (EPT_changeMapping_changedMappings _ _ _ _ _ _ _ Hcm) as Etab.
  apply EPT_changeMapping_cases in Hcm as Hst.
  destruct Hst as [[-> ->]| ->]; simpl in H; injection H as <- <-; [auto|].
  right. split; [reflexivity|]. exists i, m, c1. rewrite Etab. auto.
Qed.

Lemma eptViolationHandler_cases (c : Context_LogicalCore)
    (exitQualification guestPhysicalAddress : N) (c' : Context_LogicalCore) :
  eptViolationHandler c exitQualification guestPhysicalAddress = Returns c' →
  ∃ foundIndex foundMapping targetAddress rw fetch st,
    findMapping (changedMappings c) (EPT_Address.clear_offset guestPhysicalAddress)
      = Some (foundIndex, foundMapping)
    ∧ EPT_changeMapping c (guestAddress foundMapping) targetAddress rw fetch
      = Returns (st, c').
Proof.
  unfold eptViolationHandler. intros H.
  destruct (findMapping _ _) as [[i m]|]; [|discriminate].
  destruct (_ || _).
  - apply bind_Returns in H as ([st c1] & Hcm & [= <-]).
    exists i, m. eauto 10.
  - destruct (_ =? 1); [|discriminate].
    apply bind_Returns in H as ([st c1] & Hcm & [= <-]).
    exists i, m. eauto 10.
Qed.

(** ** The mapping table *)

Lemma existsb_false {A : Type} (f : A → bool) (l : list A) (x : A) :
  existsb f l = false → x ∈ l → f x = false.
Proof.
  induction l as [|y l IH]; simpl; intros H Hin.
  - inversion Hin.
  - apply Bool.orb_false_iff in H as [Hy Hl].
    apply elem_of_cons in Hin as [->|Hin]; auto.
Qed.

Lemma mappingCollides_false (RDX R8 R9 : N) (n : Context_EptChangedMapping) :
  mappingCollides RDX R8 R9 n = false → valid n = true →
  guestAddress n ≠ RDX ∧ hostFetchAddress n ≠ RDX ∧ hostRwAddress n ≠ RDX
  ∧ guestAddress n ≠ R8 ∧ guestAddress n ≠ R9.
Proof.
  unfold mappingCollides. intros H Hv. rewrite Hv in H. simpl in H.
  repeat (apply Bool.orb_false_iff in H as [H ?]).
  repeat split; now apply N.eqb_neq.
Qed.

Lemma mappingCollides_true (RDX R8 R9 : N) (m : Context_EptChangedMapping) :
  valid m = true →
  guestAddress m = RDX ∨ hostFetchAddress m = RDX ∨ hostRwAddress m = RDX
  ∨ guestAddress m = R8 ∨ guestAddress m = R9 →
  mappingCollides RDX R8 R9 m = true.
Proof.
  unfold mappingCollides. intros -> H. simpl.
  repeat rewrite Bool.orb_true_iff. rewrite !N.eqb_eq. tauto.
Qed.

Lemma selectIndex_Some (l : list Context_EptChangedMapping) (i : nat)
    (m0 : Context_EptChangedMapping) :
  selectIndex l = Some (i, m0) →
  (i < 32)%nat ∧ l !! i = Some m0 ∧ valid m0 = false
  ∧ ∀ j m, (j < i)%nat → l !! j = Some m → valid m = true.
Proof.
  unfold selectIndex. intros H.
  apply list_find_Some in H as (Hi & Hv & Hfirst).
  apply lookup_take_Some in Hi as [Hi Hlt].
  repeat split; try assumption.
  intros j m Hj Hm.
  specialize (Hfirst j m). rewrite lookup_take_lt in Hfirst by (simpl in *; lia).
  specialize (Hfirst Hm Hj). now destruct (valid m).
Qed.

Lemma selectIndex_None (l : list Context_EptChangedMapping) :
  Forall (λ m, valid m = true) l → selectIndex l = None.
Proof.
  intros H. unfold selectIndex. apply list_find_None.
  apply Forall_take with (n := N.to_nat CONTEXT_EPT_MAX_MAPPINGS) in H.
  eapply Forall_impl; [exact H|]. simpl. intros m ->. discriminate.
Qed.

Lemma findMapping_Some (l : list Context_EptChangedMapping) (address : N)
    (i : nat) (m : Context_EptChangedMapping) :
  findMapping l address = Some (i, m) →
  (i < 32)%nat ∧ l !! i = Some m ∧ valid m = true ∧ guestAddress m = address.
Proof.
  unfold findMapping. intros H.
  apply list_find_Some in H as (Hi & Hv & _).
  apply lookup_take_Some in Hi as [Hi Hlt].
  unfold mapsGuestAddress in Hv. apply andb_prop in Hv as [Hv Hg].
  apply N.eqb_eq in Hg. auto.
Qed.

(** A valid record within the table is found, though possibly in an
    earlier slot. *)
Lemma findMapping_is_Some (l : list Context_EptChangedMapping) (i : nat)
    (m : Context_EptChangedMapping) :
  (i < 32)%nat → l !! i = Some m → valid m = true →
  is_Some (findMapping l (guestAddress m)).
Proof.
  intros Hi Hm Hv. unfold findMapping.
  destruct (list_find _ _) as [p|] eqn:E; [eauto|].
  rewrite list_find_None, Forall_forall in E.
  exfalso. apply (E m).
  - apply list_elem_of_lookup. exists i. now rewrite lookup_take_lt.
  - unfold mapsGuestAddress. now rewrite Hv, N.eqb_refl.
Qed.

(** When keys are unique the record found is the record asked for. *)
Lemma findMapping_unique (l : list Context_EptChangedMapping) (i : nat)
    (m : Context_EptChangedMapping) :
  mappings_unique l → (i < 32)%nat → l !! i = Some m → valid m = true →
  findMapping l (guestAddress m) = Some (i, m).
Proof.
  intros Hu Hi Hm Hv.
  destruct (findMapping_is_Some l i m Hi Hm Hv) as [[j n] E].
  pose proof (findMapping_Some _ _ _ _ E) as (Hj & Hn & Hnv & Hg).
  destruct (decide (i = j)) as [<-|Hne]; [congruence|].
  destruct (Hu i j m n Hm Hn Hne Hv Hnv) as [Hk _]. congruence.
Qed.

Lemma table_inv_fresh (c : Context_LogicalCore) :
  fresh c → table_inv (changedMappings c).
Proof.
  unfold fresh. intros ->. split; [reflexivity|].
  intros i j m n Hm _ _ Hv _.
  apply lookup_replicate in Hm as [-> _]. discriminate.
Qed.

Lemma table_inv_insert (l : list Context_EptChangedMapping) (RDX R8 R9 : N)
    (i : nat) :
  table_inv l →
  existsb (mappingCollides RDX R8 R9)
    (take (N.to_nat CONTEXT_EPT_MAX_MAPPINGS) l) = false →
  table_inv (<[i := newMapping RDX R8 R9]> l).
Proof.
  intros [Hlen Hu] Hcol. split; [now rewrite length_insert|].
  assert (Hfree : ∀ j n, l !! j = Some n → valid n = true →
            guestAddress n ≠ RDX ∧ hostFetchAddress n ≠ RDX
            ∧ hostRwAddress n ≠ RDX ∧ guestAddress n ≠ R8 ∧ guestAddress n ≠ R9).
  { intros j n Hn Hv. apply mappingCollides_false; [|assumption].
    eapply existsb_false; [exact Hcol|].
    apply list_elem_of_lookup. exists j. rewrite lookup_take_lt; [assumption|].
    apply lookup_lt_Some in Hn.
    change (N.to_nat CONTEXT_EPT_MAX_MAPPINGS) with 32%nat. lia. }
  intros a b m n Hm Hn Hab Hvm Hvn.
  apply list_lookup_insert_Some in Hm as [(<- & <- & _)|[Hai Hm]];
    apply list_lookup_insert_Some in Hn as [(<- & <- & _)|[Hbi Hn]].
  - congruence.
  - destruct (Hfree b n Hn Hvn) as (? & ? & ? & ? & ?). simpl. auto.
  - destruct (Hfree a m Hm Hvm) as (? & ? & ? & ? & ?). simpl. auto.
  - eauto.
Qed.

Lemma table_inv_clear (l : list Context_EptChangedMapping) (i : nat) :
  table_inv l → table_inv (<[i := Context_EptChangedMapping_zero]> l).
Proof.
  intros [Hlen Hu]. split; [now rewrite length_insert|].
  intros a b m n Hm Hn Hab Hvm Hvn.
  apply list_lookup_insert_Some in Hm as [(_ & <- & _)|[_ Hm]]; [discriminate|].
  apply list_lookup_insert_Some in Hn as [(_ & <- & _)|[_ Hn]]; [discriminate|].
  eauto.
Qed.

Lemma step_table_inv (c c' : Context_LogicalCore) :
  step c c' → table_inv (changedMappings c) → table_inv (changedMappings c').
Proof.
  intros Hstep Hinv. destruct Hstep as [c g r f RAX c' H|c g RAX c' H|c q a c' H].
  - apply vmCallMapPage_cases in H
      as [[_ ->]|(_ & _ & _ & _ & Hcol & i & m0 & c1 & _ & _ & ->)];
      [assumption|].
    simpl. now apply table_inv_insert.
  - apply vmCallUnmapPage_cases in H as [[_ ->]|(_ & i & m & c1 & _ & _ & ->)];
      [assumption|].
    simpl. now apply table_inv_clear.
  - apply eptViolationHandler_cases in H as (i & m & t & rw & fe & st & _ & H).
    apply EPT_changeMapping_changedMappings in H. now rewrite H.
Qed.

Lemma rtc_step_table_inv (c0 c : Context_LogicalCore) :
  rtc step c0 c → table_inv (changedMappings c0) → table_inv (changedMappings c).
Proof. induction 1; eauto using step_table_inv. Qed.

(** C2, as amended: in every state a fresh core reaches through installs,
    removes and EPT violations, the guest key of a valid record is neither
    the guest key nor the rw-target nor the fetch-target of any other valid
    record. *)
Theorem C2_keys_unique (c0 c : Context_LogicalCore) :
  fresh c0 → rtc step c0 c → mappings_unique (changedMappings c).
Proof.
  intros Hfresh Hreach.
  apply table_unique. eapply rtc_step_table_inv; [exact Hreach|].
  now apply table_inv_fresh.
Qed.

Lemma demo_core_A_step : step demo_core demo_core_A.
Proof. now apply (step_map demo_core 0x1000 0x2000 0x1000 0). Qed.

Lemma C2_keys_unique_witness : mappings_unique (changedMappings demo_core_A).
Proof.
  apply (C2_keys_unique demo_core demo_core_A).
  - reflexivity.
  - apply rtc_once, demo_core_A_step.
Defined.

(** C2 as stated fails: after [install(A, rw = B, fetch = A)] on a fresh
    core the guest key [A] of the valid record is the fetch-target of a
    valid record, namely of itself. *)
Lemma C2_counterexample :
  fresh demo_core ∧ rtc step demo_core demo_core_A
  ∧ ¬ mappings_key_never_target (changedMappings demo_core_A).
Proof.
  split; [reflexivity|]. split; [apply rtc_once, demo_core_A_step|].
  intros H.
  destruct (H (newMapping 0x1000 0x2000 0x1000) (newMapping 0x1000 0x2000 0x1000))
    as [_ Hfetch]; try reflexivity; try (now left).
  now apply Hfetch.
Qed.

(** C3, as amended: [vmCallMapPage] returns [STATUS_UNSUCCESSFUL] and
    leaves the core as it was whenever a valid record has one of the three
    given frames as its guest key, or has the given guest frame as its
    rw-target or fetch-target. *)
Theorem C3_install_rejects_collision (c : Context_LogicalCore) (RDX R8 R9 : N)
    (i : nat) (m : Context_EptChangedMapping) :
  (i < 32)%nat → changedMappings c !! i = Some m → valid m = true →
  guestAddress m = RDX ∨ guestAddress m = R8 ∨ guestAddress m = R9
  ∨ hostRwAddress m = RDX ∨ hostFetchAddress m = RDX →
  vmCallMapPage c RDX R8 R9 = Returns (NTSTATUS_to_UINT64 STATUS_UNSUCCESSFUL, c).
Proof.
  intros Hi Hm Hv Huse. unfold vmCallMapPage.
  destruct (negb _); [reflexivity|].
  assert (existsb (mappingCollides RDX R8 R9)
            (take (N.to_nat CONTEXT_EPT_MAX_MAPPINGS) (changedMappings c)) = true)
    as ->; [|reflexivity].
  apply existsb_exists. exists m. split.
  - apply list_elem_of_In, list_elem_of_lookup. exists i.
    now rewrite lookup_take_lt.
  - apply mappingCollides_true; tauto.
Qed.

Lemma C3_install_rejects_collision_witness :
  vmCallMapPage demo_core_A 0x2000 0x3000 0x3000
  = Returns (NTSTATUS_to_UINT64 STATUS_UNSUCCESSFUL, demo_core_A).
Proof.
  apply (C3_install_rejects_collision demo_core_A 0x2000 0x3000 0x3000 0
           (newMapping 0x1000 0x2000 0x1000)).
  - lia.
  - reflexivity.
  - reflexivity.
  - right. right. right. left. reflexivity.
Defined.

(** C3 as stated fails: with [install(A, rw = B, fetch = A)] in place,
    [install(C, rw = B, fetch = C)] succeeds and stores its record although
    [B] is already the rw-target of a valid record. *)
Lemma C3_counterexample :
  changedMappings demo_core_A !! 0%nat = Some (newMapping 0x1000 0x2000 0x1000)
  ∧ ∃ c', vmCallMapPage demo_core_A 0x3000 0x2000 0x3000
            = Returns (NTSTATUS_to_UINT64 STATUS_SUCCESS, c')
          ∧ changedMappings c' !! 1%nat = Some (newMapping 0x3000 0x2000 0x3000).
Proof.
  split; [reflexivity|].
  exists (core_after demo_core_A (vmCallMapPage demo_core_A 0x3000 0x2000 0x3000)).
  split; vm_compute; reflexivity.
Qed.

(** C6: a failure status from [vmCallMapPage] or [vmCallUnmapPage] comes
    with the core it was called on: mapping table, split arena and paging
    structures are as before. *)
Theorem C6_failure_leaves_state (c c' : Context_LogicalCore)
    (RDX R8 R9 RAX : N) :
  vmCallMapPage c RDX R8 R9 = Returns (RAX, c')
  ∨ vmCallUnmapPage c RDX = Returns (RAX, c') →
  RAX ≠ NTSTATUS_to_UINT64 STATUS_SUCCESS →
  c' = c.
Proof.
  intros [H|H] Hfail.
  - apply vmCallMapPage_cases in H as [[_ ->]|[-> _]]; [reflexivity|].
    now contradiction Hfail.
  - apply vmCallUnmapPage_cases in H as [[_ ->]|[-> _]]; [reflexivity|].
    now contradiction Hfail.
Qed.

Lemma C6_failure_leaves_state_witness :
  core_after demo_core_A (vmCallUnmapPage demo_core_A 0x5000) = demo_core_A.
Proof.
  apply (C6_failure_leaves_state demo_core_A _ 0x5000 0 0 0xFFFFFFFFC0000001).
  - right. vm_compute. reflexivity.
  - discriminate.
Defined.

(** ** Host-physical memory *)

Lemma readq_lookup (mem : gmap N (list N)) (frame index : N) (page : list N) :
  mem !! frame = Some page → readq mem frame index = default 0 (page !! N.to_nat index).
Proof. unfold readq. now intros ->. Qed.

Lemma readq_elem_of (mem : gmap N (list N)) (frame index : N) (page : list N) :
  mem !! frame = Some page → (N.to_nat index < length page)%nat →
  readq mem frame index ∈ page.
Proof.
  intros Hp Hi. rewrite (readq_lookup _ _ _ _ Hp).
  apply lookup_lt_is_Some in Hi as [e He]. rewrite He. simpl.
  apply list_elem_of_lookup. eauto.
Qed.

Lemma lookup_writeq (mem : gmap N (list N)) (frame index value other : N) :
  writeq mem frame index value !! other
  = if decide (frame = other)
    then (λ p, <[N.to_nat index := value]> p) <$> mem !! other
    else mem !! other.
Proof.
  unfold writeq. rewrite lookup_alter.
  destruct (decide (frame = other)) as [->|Hne]; reflexivity.
Qed.

Lemma lookup_writeq_ne (mem : gmap N (list N)) (frame index value other : N) :
  frame ≠ other → writeq mem frame index value !! other = mem !! other.
Proof. intros H. rewrite lookup_writeq. now destruct (decide _). Qed.

Lemma lookup_writeq_None (mem : gmap N (list N)) (frame index value other : N) :
  writeq mem frame index value !! other = None ↔ mem !! other = None.
Proof.
  rewrite lookup_writeq. destruct (decide _); [|reflexivity].
  apply fmap_None.
Qed.

Lemma readq_writeq_ne_frame (mem : gmap N (list N)) (frame index value other j : N) :
  frame ≠ other → readq (writeq mem frame index value) other j = readq mem other j.
Proof. intros H. unfold readq. now rewrite lookup_writeq_ne. Qed.

Lemma readq_writeq_ne_index (mem : gmap N (list N)) (frame index value j : N) :
  index ≠ j → readq (writeq mem frame index value) frame j = readq mem frame j.
Proof.
  intros H. unfold readq. rewrite lookup_writeq.
  destruct (decide _); [|congruence].
  destruct (mem !! frame) as [page|]; simpl; [|reflexivity].
  rewrite list_lookup_insert_ne; [reflexivity|]. lia.
Qed.

Lemma readq_writeq_eq (mem : gmap N (list N)) (frame index value : N) (page : list N) :
  mem !! frame = Some page → (N.to_nat index < length page)%nat →
  readq (writeq mem frame index value) frame index = value.
Proof.
  intros Hp Hi. unfold readq. rewrite lookup_writeq.
  destruct (decide _); [|congruence].
  rewrite Hp. simpl. now rewrite list_lookup_insert_eq.
Qed.

(** Storing the word a cell already holds leaves memory as it was. *)
Lemma writeq_readq (mem : gmap N (list N)) (frame index : N) (page : list N) :
  mem !! frame = Some page → (N.to_nat index < length page)%nat →
  writeq mem frame index (readq mem frame index) = mem.
Proof.
  intros Hp Hi. apply map_eq. intros other. rewrite lookup_writeq.
  destruct (decide _) as [<-|]; [|reflexivity].
  rewrite (readq_lookup _ _ _ _ Hp), Hp. simpl. f_equal.
  apply lookup_lt_is_Some in Hi as [e He]. rewrite He. simpl.
  now apply list_insert_id.
Qed.

Lemma pageFrameNumber4KB_of_pageFrameNumber4KB (pfn : N) :
  pfn < 2 ^ 52 →
  EPT_Address.pageFrameNumber4KB (EPT_Address.of_pageFrameNumber4KB pfn) = pfn.
Proof.
  intros H. unfold EPT_Address.pageFrameNumber4KB, EPT_Address.of_pageFrameNumber4KB.
  rewrite bitfield_set_same. now apply land_ones_small.
Qed.

Lemma field40_lt_52 (e : N) : bitfield 12 40 e < 2 ^ 52.
Proof.
  pose proof (bitfield_lt 12 40 e) as H.
  eapply N.lt_trans; [exact H|]. reflexivity.
Qed.

(** Inverting the address formed from a 40-bit frame field looks the
    frame up. *)
Lemma Memory_getVirtualAddress_field (mem : gmap N (list N)) (e : N) :
  Memory_getVirtualAddress mem (EPT_Address.of_pageFrameNumber4KB (bitfield 12 40 e))
  = match mem !! bitfield 12 40 e with
    | Some _ => Returns (bitfield 12 40 e)
    | None => BugCheck BSOD_MEMORY_VA_CONVERSION
    end.
Proof.
  unfold Memory_getVirtualAddress.
  now rewrite pageFrameNumber4KB_of_pageFrameNumber4KB by apply field40_lt_52.
Qed.

Lemma EPT_pageDirectory_walk (c : Context_LogicalCore) (address : N) :
  EPT_pageDirectory c address
  = match walk (memory c) (pml4Frame c) address with
    | Some pd => Returns pd
    | None => BugCheck BSOD_MEMORY_VA_CONVERSION
    end.
Proof.
  unfold EPT_pageDirectory, walk, pml4Frame, EPT_EptP.pageFrameNumber,
    EPT_PagingStructure.pageFrameNumber.
  rewrite Memory_getVirtualAddress_field.
  destruct (memory c !! bitfield 12 40 (eptp c)); simpl; [|reflexivity].
  rewrite Memory_getVirtualAddress_field.
  destruct (memory c !! bitfield 12 40 _); simpl; [|reflexivity].
  rewrite Memory_getVirtualAddress_field.
  destruct (memory c !! bitfield 12 40 _); reflexivity.
Qed.

Lemma EPT_pageDirectory_Returns (c : Context_LogicalCore) (address pd : N) :
  EPT_pageDirectory c address = Returns pd
  ↔ walk (memory c) (pml4Frame c) address = Some pd.
Proof.
  rewrite EPT_pageDirectory_walk.
  destruct (walk _ _ _); split; intros H; congruence.
Qed.

Lemma index9_lt (lo a : N) : (N.to_nat (bitfield lo 9 a) < 512)%nat.
Proof. pose proof (bitfield_lt lo 9 a) as H. change (2 ^ 9) with 512 in H. lia. Qed.

(** ** Well-formed hierarchies *)

Lemma page_ok_Some (mem : gmap N (list N)) (P : N → Prop) (frame : N) :
  page_ok mem P frame →
  ∃ page, mem !! frame = Some page ∧ length page = 512%nat ∧ Forall P page.
Proof. unfold page_ok. destruct (mem !! frame); [eauto | tauto]. Qed.

Lemma page_ok_ext (mem mem' : gmap N (list N)) (P P' : N → Prop) (frame : N) :
  mem' !! frame = mem !! frame → (∀ e, P e → P' e) →
  page_ok mem P frame → page_ok mem' P' frame.
Proof.
  unfold page_ok. intros -> HP. destruct (mem !! frame); [|tauto].
  intros [Hlen Hall]. split; [assumption|]. eapply Forall_impl; eauto.
Qed.

Section WellFormed.
Context (pdpts pds pts : list N) (c : Context_LogicalCore).
Hypothesis Hwf : EPT_wf pdpts pds pts c.

Lemma wf_arena_separate (frame : N) :
  frame ∈ tableFrames pts c →
  frame ≠ pml4Frame c ∧ (frame ∉ pdpts) ∧ (frame ∉ pds).
Proof.
  intros Hin. pose proof (wf_separate _ _ _ _ Hwf) as Hnd.
  apply NoDup_cons in Hnd as [Hp4 Hnd].
  apply NoDup_app in Hnd as (_ & H3 & Hnd).
  apply NoDup_app in Hnd as (_ & H2 & _).
  repeat split.
  - intros ->. apply Hp4. rewrite !elem_of_app. auto.
  - intros H. apply (H3 _ H). rewrite elem_of_app. auto.
  - intros H. now apply (H2 _ H).
Qed.

Lemma wf_pds_separate (pd : N) :
  pd ∈ pds → pd ≠ pml4Frame c ∧ (pd ∉ pdpts).
Proof.
  intros Hin. pose proof (wf_separate _ _ _ _ Hwf) as Hnd.
  apply NoDup_cons in Hnd as [Hp4 Hnd].
  apply NoDup_app in Hnd as (_ & H3 & _).
  split.
  - intros ->. apply Hp4. rewrite !elem_of_app. auto.
  - intros H. apply (H3 _ H). rewrite elem_of_app. auto.
Qed.

Lemma wf_arena_page (frame : N) :
  frame ∈ tableFrames pts c →
  frame < 2 ^ 40 ∧ ∃ page, memory c !! frame = Some page ∧ length page = 512%nat.
Proof.
  intros Hin. split.
  - pose proof (wf_arena_fits _ _ _ _ Hwf) as H. rewrite Forall_forall in H. auto.
  - pose proof (wf_arena_pages _ _ _ _ Hwf) as H. rewrite Forall_forall in H.
    specialize (H _ Hin). destruct (memory c !! frame) as [page|]; [|discriminate].
    injection H as H. eauto.
Qed.

Lemma arenaFrames_tableFrames (frame : N) :
  frame ∈ arenaFrames c → frame ∈ tableFrames pts c.
Proof. intros H. apply elem_of_app. now right. Qed.

Lemma usedFrames_arena (frame : N) :
  frame ∈ usedTables pts c → frame ∈ tableFrames pts c.
Proof.
  unfold usedTables, tableFrames, usedFrames. rewrite !elem_of_app.
  intros [H|H]; [now left|right].
  apply list_elem_of_lookup in H as [i H].
  apply lookup_take_Some in H as [H _]. apply list_elem_of_lookup. eauto.
Qed.

Lemma wf_pd_page (pd : N) :
  pd ∈ pds →
  ∃ page, memory c !! pd = Some page ∧ length page = 512%nat
          ∧ Forall (pdEntry_ok pts c) page.
Proof.
  intros Hin. pose proof (wf_pds _ _ _ _ Hwf) as H. rewrite Forall_forall in H.
  now apply page_ok_Some, H.
Qed.

Lemma wf_pml4_entry (index : N) :
  index < 512 →
  is_Some (memory c !! EPT_PagingStructure.pageFrameNumber
                         (readq (memory c) (pml4Frame c) index)) →
  EPT_PagingStructure.pageFrameNumber (readq (memory c) (pml4Frame c) index) ∈ pdpts.
Proof.
  intros Hi [p3 Hp3].
  destruct (page_ok_Some _ _ _ (wf_pml4 _ _ _ _ Hwf)) as (p4 & Hp4 & Hlen4 & Hall4).
  rewrite Forall_forall in Hall4.
  destruct (Hall4 (readq (memory c) (pml4Frame c) index)) as [H|H];
    [|assumption|congruence].
  apply readq_elem_of; [assumption|]. rewrite Hlen4. lia.
Qed.

Lemma wf_pdpt_entry (pdpt index : N) :
  pdpt ∈ pdpts → index < 512 →
  is_Some (memory c !! EPT_PagingStructure.pageFrameNumber
                         (readq (memory c) pdpt index)) →
  EPT_PagingStructure.pageFrameNumber (readq (memory c) pdpt index) ∈ pds.
Proof.
  intros Hin Hi [p2 Hp2].
  pose proof (wf_pdpts _ _ _ _ Hwf) as H3. rewrite Forall_forall in H3.
  destruct (page_ok_Some _ _ _ (H3 _ Hin)) as (p3 & Hp3 & Hlen3 & Hall3).
  rewrite Forall_forall in Hall3.
  destruct (Hall3 (readq (memory c) pdpt index)) as [H|H];
    [|assumption|congruence].
  apply readq_elem_of; [assumption|]. rewrite Hlen3. lia.
Qed.

Lemma index9_lt_512 (lo a : N) : bitfield lo 9 a < 512.
Proof. apply (bitfield_lt lo 9 a). Qed.

(** The walk of a well-formed hierarchy ends in one of its PD pages,
    through one of its PDPT pages. *)
Lemma walk_wf (address pd : N) :
  walk (memory c) (pml4Frame c) address = Some pd →
  pd ∈ pds
  ∧ EPT_PagingStructure.pageFrameNumber
      (readq (memory c) (pml4Frame c) (EPT_Address.pml4Entry address)) ∈ pdpts.
Proof.
  unfold walk.
  destruct (memory c !! pml4Frame c) as [p4|]; simpl; [|discriminate].
  remember (EPT_PagingStructure.pageFrameNumber
              (readq (memory c) (pml4Frame c) (EPT_Address.pml4Entry address)))
    as pdpt eqn:Epdpt.
  destruct (memory c !! pdpt) as [p3|] eqn:Hp3; simpl; [|discriminate].
  assert (Hpdpt : pdpt ∈ pdpts).
  { subst pdpt. apply wf_pml4_entry; [apply index9_lt_512|eauto]. }
  remember (EPT_PagingStructure.pageFrameNumber
              (readq (memory c) pdpt (EPT_Address.pdptEntry address)))
    as pd' eqn:Epd.
  destruct (memory c !! pd') as [p2|] eqn:Hp2; simpl; [|discriminate].
  intros [= <-]. split; [|assumption].
  subst pd'. apply wf_pdpt_entry; [assumption|apply index9_lt_512|eauto].
Qed.

Section Evolves.
Context (c' : Context_LogicalCore).
Hypothesis Hev : evolves pdpts pds c c'.

Lemma pml4Frame_evolves : pml4Frame c' = pml4Frame c.
Proof. unfold pml4Frame. now rewrite (ev_eptp _ _ _ _ Hev). Qed.

Lemma walk_evolves (address : N) :
  walk (memory c') (pml4Frame c') address = walk (memory c) (pml4Frame c) address.
Proof.
  rewrite pml4Frame_evolves. unfold walk.
  pose proof (ev_pml4 _ _ _ _ Hev) as E4m.
  assert (E4 : readq (memory c') (pml4Frame c) (EPT_Address.pml4Entry address)
               = readq (memory c) (pml4Frame c) (EPT_Address.pml4Entry address))
    by (unfold readq; now rewrite E4m).
  rewrite E4m, E4.
  destruct (memory c !! pml4Frame c) as [p4|] eqn:Hp4; simpl; [|reflexivity].
  remember (EPT_PagingStructure.pageFrameNumber
              (readq (memory c) (pml4Frame c) (EPT_Address.pml4Entry address)))
    as pdpt eqn:Epdpt.
  destruct (memory c !! pdpt) as [p3|] eqn:Hp3.
  2:{ apply (ev_dom _ _ _ _ Hev) in Hp3. now rewrite Hp3. }
  assert (Hpdpt : pdpt ∈ pdpts).
  { subst pdpt. apply wf_pml4_entry; [apply index9_lt_512|eauto]. }
  pose proof (ev_pdpts _ _ _ _ Hev _ Hpdpt) as E3m.
  assert (E3 : readq (memory c') pdpt (EPT_Address.pdptEntry address)
               = readq (memory c) pdpt (EPT_Address.pdptEntry address))
    by (unfold readq; now rewrite E3m).
  rewrite E3m, Hp3, E3. simpl.
  remember (EPT_PagingStructure.pageFrameNumber
              (readq (memory c) pdpt (EPT_Address.pdptEntry address)))
    as pd eqn:Epd.
  destruct (memory c !! pd) eqn:Hp2, (memory c' !! pd) eqn:Hp2'; simpl;
    try reflexivity.
  - apply (ev_dom _ _ _ _ Hev) in Hp2'. congruence.
  - apply (ev_dom _ _ _ _ Hev) in Hp2. congruence.
Qed.

Lemma EPT_pageDirectory_evolves (address : N) :
  EPT_pageDirectory c' address = EPT_pageDirectory c address.
Proof. now rewrite !EPT_pageDirectory_walk, walk_evolves. Qed.

Lemma mapped_evolves (address : N) : mapped c address → mapped c' address.
Proof.
  unfold mapped. rewrite EPT_pageDirectory_evolves.
  destruct (EPT_pageDirectory c address) as [pd|] eqn:Hpd; [|tauto].
  intros Hsplit. apply EPT_pageDirectory_Returns, walk_wf in Hpd as [Hpd _].
  now rewrite (ev_pds _ _ _ _ Hev).
Qed.

End Evolves.
End WellFormed.

Lemma directoryEntry_ok_ext (mem mem' : gmap N (list N)) (next : list N) (e : N) :
  (∀ frame, mem' !! frame = None ↔ mem !! frame = None) →
  directoryEntry_ok mem next e → directoryEntry_ok mem' next e.
Proof. intros Hdom [H|H]; [now left | right; now apply Hdom]. Qed.

Lemma length_lookup_writeq (mem : gmap N (list N)) (frame index value other : N) :
  length <$> writeq mem frame index value !! other = length <$> mem !! other.
Proof.
  rewrite lookup_writeq. destruct (decide _); [|reflexivity].
  destruct (mem !! other); simpl; [|reflexivity]. now rewrite length_insert.
Qed.

(** *** Rewriting a word of an arena page *)

Section LeafWrite.
Context (pdpts pds pts : list N) (c : Context_LogicalCore).
Hypothesis Hwf : EPT_wf pdpts pds pts c.
Context (pt index value : N).
Hypothesis Hpt : pt ∈ tableFrames pts c.

Lemma leaf_write_evolves :
  evolves pdpts pds c (set_memory (writeq (memory c) pt index value) c).
Proof.
  destruct (wf_arena_separate _ _ _ _ Hwf _ Hpt) as (Hp4 & H3 & H2).
  split; simpl; try reflexivity.
  - intros frame. apply lookup_writeq_None.
  - now apply lookup_writeq_ne.
  - intros frame Hin. apply lookup_writeq_ne. congruence.
  - intros pd j Hin _. apply readq_writeq_ne_frame. congruence.
Qed.

Lemma leaf_write_wf :
  EPT_wf pdpts pds pts (set_memory (writeq (memory c) pt index value) c).
Proof.
  destruct (wf_arena_separate _ _ _ _ Hwf _ Hpt) as (Hp4 & H3 & H2).
  assert (Hdom : ∀ frame, writeq (memory c) pt index value !! frame = None
                          ↔ memory c !! frame = None)
    by (intros; apply lookup_writeq_None).
  destruct Hwf as [Hlen Hused Hfits Hpages Hsep Hpml4 Hpdpts Hpds].
  split; simpl; try assumption.
  - eapply Forall_impl; [exact Hpages|]. simpl. intros frame H.
    now rewrite length_lookup_writeq.
  - eapply page_ok_ext; [| |exact Hpml4].
    + now apply lookup_writeq_ne.
    + intros e. now apply directoryEntry_ok_ext.
  - rewrite Forall_forall in *. intros frame Hin.
    eapply page_ok_ext; [| |exact (Hpdpts _ Hin)].
    + apply lookup_writeq_ne. congruence.
    + intros e. now apply directoryEntry_ok_ext.
  - rewrite Forall_forall in *. intros frame Hin.
    eapply page_ok_ext; [| |exact (Hpds _ Hin)].
    + apply lookup_writeq_ne. congruence.
    + auto.
Qed.

End LeafWrite.

(** *** Splitting a 2 MiB page *)

Lemma splitPage_success (c : Context_LogicalCore) (pd pdEntryIndex : N) :
  noOfUsedSplits c < CONTEXT_EPT_NO_SPLITS →
  splitPage c pd pdEntryIndex
  = (STATUS_SUCCESS,
     {| memory :=
          writeq
            (<[EPT_Address.pageFrameNumber4KB
                 (splitBuffer c !!! N.to_nat (noOfUsedSplits c)) :=
                 splitPage_table
                   (EPT_PdE2MB.memoryType (readq (memory c) pd pdEntryIndex))
                   (EPT_PdE2MB.pageFrameNumber (readq (memory c) pd pdEntryIndex))]>
               (memory c))
            pd pdEntryIndex
            (EPT_PagingStructure.make true true true
               (EPT_Address.pageFrameNumber4KB
                  (splitBuffer c !!! N.to_nat (noOfUsedSplits c))));
        splitBuffer := splitBuffer c;
        noOfUsedSplits := noOfUsedSplits c + 1;
        changedMappings := changedMappings c;
        eptp := eptp c |}).
Proof.
  intros H. unfold splitPage.
  destruct (N.leb_spec CONTEXT_EPT_NO_SPLITS (noOfUsedSplits c)); [lia|reflexivity].
Qed.

Lemma splitPage_failure (c : Context_LogicalCore) (pd pdEntryIndex : N) :
  CONTEXT_EPT_NO_SPLITS <= noOfUsedSplits c →
  splitPage c pd pdEntryIndex = (STATUS_UNSUCCESSFUL, c).
Proof.
  intros H. unfold splitPage.
  destruct (N.leb_spec CONTEXT_EPT_NO_SPLITS (noOfUsedSplits c)); [reflexivity|lia].
Qed.

Lemma length_splitPage_table (memoryType pageFrameNumber : N) :
  length (splitPage_table memoryType pageFrameNumber) = 512%nat.
Proof. unfold splitPage_table. now rewrite length_fmap, length_seq. Qed.

Lemma lookup_splitPage_table (memoryType pageFrameNumber : N) (i : nat) :
  (i < 512)%nat →
  splitPage_table memoryType pageFrameNumber !! i
  = Some (EPT_PtE.make true true true memoryType
            (EPT_PT_ENTRIES * pageFrameNumber + N.of_nat i)).
Proof.
  intros H. unfold splitPage_table.
  rewrite list_lookup_fmap, lookup_seq_lt by assumption. reflexivity.
Qed.

(** The fields of the entries [splitPage] builds. *)
Lemma PagingStructure_make_pageFrameNumber (r w f : bool) (pfn : N) :
  pfn < 2 ^ 40 →
  EPT_PagingStructure.pageFrameNumber (EPT_PagingStructure.make r w f pfn) = pfn.
Proof.
  intros H. unfold EPT_PagingStructure.pageFrameNumber, EPT_PagingStructure.make.
  rewrite bitfield_set_same. now apply land_ones_small.
Qed.

Lemma PagingStructure_make_isLargePage (r w f : bool) (pfn : N) :
  EPT_PdE2MB.isLargePage (EPT_PagingStructure.make r w f pfn) = 0.
Proof.
  unfold EPT_PdE2MB.isLargePage, EPT_PagingStructure.make.
  repeat rewrite bitfield_set_other by lia. apply bitfield_0.
Qed.

Lemma PagingStructure_make_access (r w f : bool) (pfn : N) :
  EPT_PagingStructure.readAccess (EPT_PagingStructure.make r w f pfn) = bool_to_N r
  ∧ EPT_PagingStructure.writeAccess (EPT_PagingStructure.make r w f pfn) = bool_to_N w
  ∧ EPT_PagingStructure.fetchAccess (EPT_PagingStructure.make r w f pfn) = bool_to_N f.
Proof.
  unfold EPT_PagingStructure.readAccess, EPT_PagingStructure.writeAccess,
    EPT_PagingStructure.fetchAccess, EPT_PagingStructure.make.
  repeat split; repeat rewrite bitfield_set_other by lia;
    rewrite bitfield_set_same; now destruct r, w, f.
Qed.

Lemma PtE_make_fields (r w f : bool) (memoryType pfn : N) :
  EPT_PtE.readAccess (EPT_PtE.make r w f memoryType pfn) = bool_to_N r
  ∧ EPT_PtE.writeAccess (EPT_PtE.make r w f memoryType pfn) = bool_to_N w
  ∧ EPT_PtE.fetchAccess (EPT_PtE.make r w f memoryType pfn) = bool_to_N f
  ∧ EPT_PtE.memoryType (EPT_PtE.make r w f memoryType pfn)
    = N.land memoryType (N.ones 3)
  ∧ EPT_PtE.pageFrameNumber (EPT_PtE.make r w f memoryType pfn)
    = N.land pfn (N.ones 40).
Proof.
  unfold EPT_PtE.readAccess, EPT_PtE.writeAccess, EPT_PtE.fetchAccess,
    EPT_PtE.memoryType, EPT_PtE.pageFrameNumber, EPT_PtE.make.
  repeat split; repeat rewrite bitfield_set_other by lia;
    rewrite bitfield_set_same; try reflexivity; now destruct r, w, f.
Qed.

Section Split.
Context (pdpts pds pts : list N) (c c' : Context_LogicalCore).
Hypothesis Hwf : EPT_wf pdpts pds pts c.
Context (pd pdEntryIndex : N).
Hypothesis Hpd : pd ∈ pds.
Hypothesis Hsplit : splitPage c pd pdEntryIndex = (STATUS_SUCCESS, c').

Lemma split_free : noOfUsedSplits c < CONTEXT_EPT_NO_SPLITS.
Proof.
  destruct (splitPage_cases _ _ _ _ _ Hsplit) as [(E & _)|(_ & H & _)];
    [discriminate|assumption].
Qed.

Lemma split_slot_lookup :
  arenaFrames c !! N.to_nat (noOfUsedSplits c)
  = Some (EPT_Address.pageFrameNumber4KB
            (splitBuffer c !!! N.to_nat (noOfUsedSplits c))).
Proof.
  pose proof split_free as Hfree. unfold CONTEXT_EPT_NO_SPLITS in Hfree.
  unfold arenaFrames. rewrite list_lookup_fmap.
  rewrite (list_lookup_lookup_total_lt (splitBuffer c)); [reflexivity|].
  rewrite (wf_splitBuffer_length _ _ _ _ Hwf). lia.
Qed.

Lemma split_slot_arena :
  EPT_Address.pageFrameNumber4KB (splitBuffer c !!! N.to_nat (noOfUsedSplits c))
  ∈ tableFrames pts c.
Proof.
  apply elem_of_app. right. apply list_elem_of_lookup. eexists.
  apply split_slot_lookup.
Qed.

Lemma split_result :
  c' = {| memory :=
            writeq
              (<[EPT_Address.pageFrameNumber4KB
                   (splitBuffer c !!! N.to_nat (noOfUsedSplits c)) :=
                   splitPage_table
                     (EPT_PdE2MB.memoryType (readq (memory c) pd pdEntryIndex))
                     (EPT_PdE2MB.pageFrameNumber (readq (memory c) pd pdEntryIndex))]>
                 (memory c))
              pd pdEntryIndex
              (EPT_PagingStructure.make true true true
                 (EPT_Address.pageFrameNumber4KB
                    (splitBuffer c !!! N.to_nat (noOfUsedSplits c))));
          splitBuffer := splitBuffer c;
          noOfUsedSplits := noOfUsedSplits c + 1;
          changedMappings := changedMappings c;
          eptp := eptp c |}.
Proof.
  pose proof Hsplit as H. rewrite splitPage_success in H by apply split_free.
  now injection H as <-.
Qed.

Lemma split_usedFrames :
  usedFrames c'
  = usedFrames c
    ++ [EPT_Address.pageFrameNumber4KB
          (splitBuffer c !!! N.to_nat (noOfUsedSplits c))].
Proof.
  rewrite split_result. unfold usedFrames, arenaFrames. simpl.
  replace (N.to_nat (noOfUsedSplits c + 1)) with (S (N.to_nat (noOfUsedSplits c)))
    by lia.
  apply take_S_r, split_slot_lookup.
Qed.

Lemma split_usedTables :
  usedTables pts c'
  = usedTables pts c
    ++ [EPT_Address.pageFrameNumber4KB
          (splitBuffer c !!! N.to_nat (noOfUsedSplits c))].
Proof. unfold usedTables. now rewrite split_usedFrames, app_assoc. Qed.

Lemma split_lookup_ne (frame : N) :
  frame ≠ pd →
  frame ≠ EPT_Address.pageFrameNumber4KB
            (splitBuffer c !!! N.to_nat (noOfUsedSplits c)) →
  memory c' !! frame = memory c !! frame.
Proof.
  intros H1 H2. rewrite split_result. simpl.
  rewrite lookup_writeq_ne by congruence. now rewrite lookup_insert_ne by congruence.
Qed.

Lemma split_lookup_None (frame : N) :
  memory c' !! frame = None ↔ memory c !! frame = None.
Proof.
  rewrite split_result. simpl. rewrite lookup_writeq_None.
  destruct (wf_arena_page _ _ _ _ Hwf _ split_slot_arena) as (_ & page & Hpage & _).
  rewrite lookup_insert. destruct (decide _) as [<-|]; [|reflexivity].
  split; intros H; congruence.
Qed.

Lemma split_lookup_pd (page : list N) :
  memory c !! pd = Some page →
  memory c' !! pd
  = Some (<[N.to_nat pdEntryIndex :=
              EPT_PagingStructure.make true true true
                (EPT_Address.pageFrameNumber4KB
                   (splitBuffer c !!! N.to_nat (noOfUsedSplits c)))]> page).
Proof.
  intros Hpage. rewrite split_result. simpl.
  destruct (wf_arena_separate _ _ _ _ Hwf _ split_slot_arena) as (_ & _ & H2).
  rewrite lookup_writeq. destruct (decide _); [|congruence].
  rewrite lookup_insert_ne by congruence. now rewrite Hpage.
Qed.

Lemma split_lookup_slot :
  memory c' !! EPT_Address.pageFrameNumber4KB
                 (splitBuffer c !!! N.to_nat (noOfUsedSplits c))
  = Some (splitPage_table
            (EPT_PdE2MB.memoryType (readq (memory c) pd pdEntryIndex))
            (EPT_PdE2MB.pageFrameNumber (readq (memory c) pd pdEntryIndex))).
Proof.
  rewrite split_result. simpl.
  destruct (wf_arena_separate _ _ _ _ Hwf _ split_slot_arena) as (_ & _ & H2).
  rewrite lookup_writeq_ne by congruence. apply lookup_insert_eq.
Qed.

Lemma split_pdEntry_ok (e : N) : pdEntry_ok pts c e → pdEntry_ok pts c' e.
Proof.
  intros [H|H]; [now left|right].
  rewrite split_usedTables, elem_of_app. now left.
Qed.

Lemma split_wf : EPT_wf pdpts pds pts c'.
Proof.
  pose proof split_slot_arena as Hslot.
  destruct (wf_arena_separate _ _ _ _ Hwf _ Hslot) as (Hs4 & Hs3 & Hs2).
  destruct (wf_pds_separate _ _ _ _ Hwf _ Hpd) as (Hp4 & Hp3).
  destruct (wf_arena_page _ _ _ _ Hwf _ Hslot) as (Hfit & _).
  pose proof split_free as Hfree. unfold CONTEXT_EPT_NO_SPLITS in Hfree.
  assert (Hsame : splitBuffer c' = splitBuffer c ∧ eptp c' = eptp c
                  ∧ noOfUsedSplits c' = noOfUsedSplits c + 1)
    by (rewrite split_result; auto).
  destruct Hsame as (Esb & Eeptp & Eused).
  assert (Earena : tableFrames pts c' = tableFrames pts c)
    by (unfold tableFrames, arenaFrames; now rewrite Esb).
  assert (Epml4 : pml4Frame c' = pml4Frame c)
    by (unfold pml4Frame; now rewrite Eeptp).
  destruct Hwf as [Hlen Hused Hfits Hpages Hsep Hpml4 Hpdpts Hpds].
  split.
  - now rewrite Esb.
  - rewrite Eused. unfold CONTEXT_EPT_NO_SPLITS. lia.
  - now rewrite Earena.
  - rewrite Earena. rewrite Forall_forall in *. intros frame Hin.
    destruct (decide (frame = EPT_Address.pageFrameNumber4KB
                (splitBuffer c !!! N.to_nat (noOfUsedSplits c)))) as [->|Hne].
    + rewrite split_lookup_slot. apply fmap_Some. eexists. split; [reflexivity|].
      now rewrite length_splitPage_table.
    + rewrite split_lookup_ne; [auto| |assumption].
      intros ->. now apply (proj2 (proj2 (wf_arena_separate _ _ _ _ Hwf _ Hin))).
  - now rewrite Epml4, Earena.
  - rewrite Epml4. eapply page_ok_ext; [| |exact Hpml4].
    + apply split_lookup_ne; congruence.
    + intros e. apply directoryEntry_ok_ext, split_lookup_None.
  - rewrite Forall_forall in *. intros frame Hin.
    eapply page_ok_ext; [| |exact (Hpdpts _ Hin)].
    + apply split_lookup_ne; congruence.
    + intros e. apply directoryEntry_ok_ext, split_lookup_None.
  - rewrite Forall_forall in *. intros frame Hin.
    destruct (page_ok_Some _ _ _ (Hpds _ Hin)) as (page & Hpage & Hplen & Hall).
    unfold page_ok.
    destruct (decide (frame = pd)) as [->|Hne].
    + rewrite (split_lookup_pd _ Hpage). rewrite length_insert.
      split; [assumption|]. apply Forall_insert.
      * eapply Forall_impl; [exact Hall|]. apply split_pdEntry_ok.
      * right. rewrite PagingStructure_make_pageFrameNumber by assumption.
        rewrite split_usedTables, elem_of_app. right. now left.
    + rewrite split_lookup_ne, Hpage; [|assumption|congruence].
      split; [assumption|].
      eapply Forall_impl; [exact Hall|]. apply split_pdEntry_ok.
Qed.

Lemma split_readq_pde (index : N) :
  index ≠ pdEntryIndex → readq (memory c') pd index = readq (memory c) pd index.
Proof.
  intros Hne. rewrite split_result. simpl.
  destruct (wf_arena_separate _ _ _ _ Hwf _ split_slot_arena) as (_ & _ & H2).
  rewrite readq_writeq_ne_index by congruence.
  unfold readq. now rewrite lookup_insert_ne by congruence.
Qed.

Lemma split_readq_new :
  pdEntryIndex < 512 →
  readq (memory c') pd pdEntryIndex
  = EPT_PagingStructure.make true true true
      (EPT_Address.pageFrameNumber4KB
         (splitBuffer c !!! N.to_nat (noOfUsedSplits c))).
Proof.
  intros Hi.
  destruct (wf_pd_page _ _ _ _ Hwf _ Hpd) as (page & Hpage & Hplen & _).
  unfold readq. rewrite (split_lookup_pd _ Hpage). simpl.
  rewrite list_lookup_insert_eq; [reflexivity|]. rewrite Hplen. lia.
Qed.

Hypothesis Hlarge :
  EPT_PdE2MB.isLargePage (readq (memory c) pd pdEntryIndex) = 1.

Lemma split_evolves : evolves pdpts pds c c'.
Proof.
  pose proof split_slot_arena as Hslot.
  destruct (wf_arena_separate _ _ _ _ Hwf _ Hslot) as (Hs4 & Hs3 & Hs2).
  destruct (wf_pds_separate _ _ _ _ Hwf _ Hpd) as (Hp4 & Hp3).
  split.
  - rewrite split_result. reflexivity.
  - rewrite split_result. reflexivity.
  - rewrite split_result. simpl. lia.
  - apply split_lookup_None.
  - apply split_lookup_ne; congruence.
  - intros frame Hin. apply split_lookup_ne; congruence.
  - intros pd' index Hin Hsmall.
    destruct (decide (pd' = pd)) as [->|Hne].
    + apply split_readq_pde. intros ->. contradiction.
    + unfold readq. rewrite split_lookup_ne; [reflexivity|assumption|congruence].
Qed.

End Split.

(** *** [EPT_changeMapping] on a well-formed hierarchy *)

Lemma evolves_refl (pdpts pds : list N) (c : Context_LogicalCore) :
  evolves pdpts pds c c.
Proof. split; try reflexivity. Qed.

Lemma evolves_trans (pdpts pds : list N) (c1 c2 c3 : Context_LogicalCore) :
  evolves pdpts pds c1 c2 → evolves pdpts pds c2 c3 → evolves pdpts pds c1 c3.
Proof.
  intros H12 H23.
  assert (E : pml4Frame c2 = pml4Frame c1)
    by (unfold pml4Frame; now rewrite (ev_eptp _ _ _ _ H12)).
  split.
  - now rewrite (ev_eptp _ _ _ _ H23), (ev_eptp _ _ _ _ H12).
  - now rewrite (ev_splitBuffer _ _ _ _ H23), (ev_splitBuffer _ _ _ _ H12).
  - pose proof (ev_used _ _ _ _ H12). pose proof (ev_used _ _ _ _ H23). lia.
  - intros frame. now rewrite (ev_dom _ _ _ _ H23), (ev_dom _ _ _ _ H12).
  - rewrite <- E, (ev_pml4 _ _ _ _ H23), E. apply (ev_pml4 _ _ _ _ H12).
  - intros frame Hin.
    now rewrite (ev_pdpts _ _ _ _ H23), (ev_pdpts _ _ _ _ H12).
  - intros pd index Hin Hsmall.
    rewrite (ev_pds _ _ _ _ H23), (ev_pds _ _ _ _ H12); try assumption.
    + reflexivity.
    + now rewrite (ev_pds _ _ _ _ H12).
Qed.

Lemma changedPte_fields (targetAddress : N) (rw fetch : bool) (pte : N) :
  EPT_PtE.pageFrameNumber (changedPte targetAddress rw fetch pte)
  = N.land (EPT_Address.pageFrameNumber4KB targetAddress) (N.ones 40)
  ∧ EPT_PtE.readAccess (changedPte targetAddress rw fetch pte) = bool_to_N rw
  ∧ EPT_PtE.writeAccess (changedPte targetAddress rw fetch pte) = bool_to_N rw
  ∧ EPT_PtE.fetchAccess (changedPte targetAddress rw fetch pte) = bool_to_N fetch
  ∧ EPT_PtE.memoryType (changedPte targetAddress rw fetch pte)
    = EPT_PtE.memoryType pte.
Proof.
  unfold changedPte, EPT_PtE.pageFrameNumber, EPT_PtE.readAccess,
    EPT_PtE.writeAccess, EPT_PtE.fetchAccess, EPT_PtE.memoryType,
    EPT_PtE.set_fetchAccess, EPT_PtE.set_writeAccess, EPT_PtE.set_readAccess,
    EPT_PtE.set_pageFrameNumber.
  repeat split; repeat rewrite bitfield_set_other by lia;
    try rewrite bitfield_set_same; try reflexivity; now destruct rw, fetch.
Qed.

(** A leaf that already holds the frame and the access bits is left as it
    is. *)
Lemma changedPte_id (targetAddress : N) (rw fetch : bool) (pte : N) :
  EPT_PtE.pageFrameNumber pte
  = N.land (EPT_Address.pageFrameNumber4KB targetAddress) (N.ones 40) →
  EPT_PtE.readAccess pte = bool_to_N rw →
  EPT_PtE.writeAccess pte = bool_to_N rw →
  EPT_PtE.fetchAccess pte = bool_to_N fetch →
  changedPte targetAddress rw fetch pte = pte.
Proof.
  unfold changedPte, EPT_PtE.pageFrameNumber, EPT_PtE.readAccess,
    EPT_PtE.writeAccess, EPT_PtE.fetchAccess,
    EPT_PtE.set_fetchAccess, EPT_PtE.set_writeAccess, EPT_PtE.set_readAccess,
    EPT_PtE.set_pageFrameNumber.
  intros Hp Hr Hw Hf.
  rewrite (set_bitfield_id 12 40) by assumption.
  rewrite (set_bitfield_id 0 1) by (rewrite Hr; now destruct rw).
  rewrite (set_bitfield_id 1 1) by (rewrite Hw; now destruct rw).
  apply set_bitfield_id. rewrite Hf. now destruct fetch.
Qed.

Section ChangeMapping.
Context (pdpts pds pts : list N) (c : Context_LogicalCore).
Hypothesis Hwf : EPT_wf pdpts pds pts c.

(** The page table a split entry points at is a used arena page. *)
Lemma mapped_pt (address pd : N) :
  EPT_pageDirectory c address = Returns pd →
  EPT_PdE2MB.isLargePage (readq (memory c) pd (EPT_Address.pdEntry address)) ≠ 1 →
  pd ∈ pds
  ∧ EPT_PagingStructure.pageFrameNumber
      (readq (memory c) pd (EPT_Address.pdEntry address)) ∈ usedTables pts c.
Proof.
  intros Hpd Hsmall.
  apply EPT_pageDirectory_Returns, (walk_wf _ _ _ _ Hwf) in Hpd as [Hpd _].
  split; [assumption|].
  destruct (wf_pd_page _ _ _ _ Hwf _ Hpd) as (page & Hpage & Hplen & Hall).
  rewrite Forall_forall in Hall.
  destruct (Hall (readq (memory c) pd (EPT_Address.pdEntry address)))
    as [H|H]; [|contradiction|assumption].
  apply readq_elem_of; [assumption|]. rewrite Hplen. apply index9_lt.
Qed.

Lemma EPT_leaf_mapped (address pd : N) :
  EPT_pageDirectory c address = Returns pd →
  EPT_PdE2MB.isLargePage (readq (memory c) pd (EPT_Address.pdEntry address)) ≠ 1 →
  EPT_leaf c address
  = Some (readq (memory c)
            (EPT_PagingStructure.pageFrameNumber
               (readq (memory c) pd (EPT_Address.pdEntry address)))
            (EPT_Address.ptEntry address)).
Proof.
  intros Hpd Hsmall. destruct (mapped_pt _ _ Hpd Hsmall) as [_ Hpt].
  apply usedFrames_arena, (wf_arena_page _ _ _ _ Hwf) in Hpt
    as (_ & page & Hpage & Hplen).
  unfold EPT_leaf. rewrite Hpd.
  destruct (N.eqb_spec (EPT_PdE2MB.isLargePage
    (readq (memory c) pd (EPT_Address.pdEntry address))) 1); [contradiction|].
  rewrite Hpage. simpl. rewrite (readq_lookup _ _ _ _ Hpage).
  destruct (lookup_lt_is_Some_2 page (N.to_nat (EPT_Address.ptEntry address)))
    as [e He]; [rewrite Hplen; apply index9_lt|].
  now rewrite He.
Qed.

(** On a page that is already split [EPT_traverse] changes nothing. *)
Lemma EPT_traverse_mapped (address : N) :
  mapped c address →
  ∃ pd, EPT_pageDirectory c address = Returns pd
        ∧ EPT_PdE2MB.isLargePage (readq (memory c) pd (EPT_Address.pdEntry address)) ≠ 1
        ∧ EPT_traverse c address = Returns (STATUS_SUCCESS, c, pd).
Proof.
  unfold mapped, EPT_traverse.
  destruct (EPT_pageDirectory c address) as [pd|]; [|tauto].
  intros Hsmall. exists pd. repeat split; [assumption|]. simpl.
  destruct (N.eqb_spec (EPT_PdE2MB.isLargePage
    (readq (memory c) pd (EPT_Address.pdEntry address))) 1); [contradiction|].
  reflexivity.
Qed.

Lemma EPT_traverse_wf (address : N) (c1 : Context_LogicalCore) (pd : N) :
  EPT_traverse c address = Returns (STATUS_SUCCESS, c1, pd) →
  EPT_wf pdpts pds pts c1 ∧ evolves pdpts pds c c1
  ∧ EPT_pageDirectory c1 address = Returns pd
  ∧ EPT_PdE2MB.isLargePage (readq (memory c1) pd (EPT_Address.pdEntry address)) ≠ 1.
Proof.
  unfold EPT_traverse. intros H.
  apply bind_Returns in H as (pd' & Hpd & H).
  destruct (N.eqb_spec (EPT_PdE2MB.isLargePage
    (readq (memory c) pd' (EPT_Address.pdEntry address))) 1) as [Hlarge|Hsmall].
  - destruct (splitPage c pd' (EPT_Address.pdEntry address)) as [st c2] eqn:Hs.
    injection H as -> -> ->.
    pose proof Hpd as Hin.
    apply EPT_pageDirectory_Returns, (walk_wf _ _ _ _ Hwf) in Hin as [Hin _].
    pose proof (split_wf _ _ _ _ _ Hwf _ _ Hin Hs) as Hwf1.
    pose proof (split_evolves _ _ _ _ _ Hwf _ _ Hin Hs Hlarge) as Hev.
    split; [assumption|]. split; [assumption|]. split.
    + now rewrite (EPT_pageDirectory_evolves _ _ _ _ Hwf _ Hev).
    + rewrite (split_readq_new _ _ _ _ _ Hwf _ _ Hin Hs) by apply index9_lt_512.
      rewrite PagingStructure_make_isLargePage. discriminate.
  - injection H as <- <-.
    split; [assumption|]. split; [apply evolves_refl|]. now split.
Qed.

Lemma EPT_changeMapping_success (address targetAddress : N) (rw fetch : bool)
    (c' : Context_LogicalCore) :
  EPT_changeMapping c address targetAddress rw fetch = Returns (STATUS_SUCCESS, c') →
  ∃ c1 pd,
    EPT_traverse c address = Returns (STATUS_SUCCESS, c1, pd)
    ∧ c' = set_memory
             (writeq (memory c1)
                (EPT_PagingStructure.pageFrameNumber
                   (readq (memory c1) pd (EPT_Address.pdEntry address)))
                (EPT_Address.ptEntry address)
                (changedPte targetAddress rw fetch
                   (readq (memory c1)
                      (EPT_PagingStructure.pageFrameNumber
                         (readq (memory c1) pd (EPT_Address.pdEntry address)))
                      (EPT_Address.ptEntry address)))) c1.
Proof.
  unfold EPT_changeMapping. intros H.
  apply bind_Returns in H as ([[st1 c1] pd] & Ht & H).
  destruct (EPT_traverse_cases _ _ _ _ _ Ht) as [_ [[-> ->]| ->]]; simpl in H.
  - discriminate.
  - exists c1, pd. split; [assumption|].
    unfold EPT_PagingStructure.pageFrameNumber in *.
    rewrite Memory_getVirtualAddress_field in H.
    destruct (memory c1 !! _); simpl in H; [|discriminate].
    now injection H as <-.
Qed.

End ChangeMapping.

(** When the walk goes through, [EPT_changeMapping] returns. *)
Lemma EPT_changeMapping_returns (pdpts pds pts : list N) (c : Context_LogicalCore)
    (address targetAddress : N) (rw fetch : bool)
    (c1 : Context_LogicalCore) (pd : N) :
  EPT_wf pdpts pds pts c →
  EPT_traverse c address = Returns (STATUS_SUCCESS, c1, pd) →
  EPT_changeMapping c address targetAddress rw fetch
  = Returns (STATUS_SUCCESS,
      set_memory
        (writeq (memory c1)
           (EPT_PagingStructure.pageFrameNumber
              (readq (memory c1) pd (EPT_Address.pdEntry address)))
           (EPT_Address.ptEntry address)
           (changedPte targetAddress rw fetch
              (readq (memory c1)
                 (EPT_PagingStructure.pageFrameNumber
                    (readq (memory c1) pd (EPT_Address.pdEntry address)))
                 (EPT_Address.ptEntry address)))) c1).
Proof.
  intros Hwf Ht.
  destruct (EPT_traverse_wf _ _ _ _ Hwf _ _ _ Ht) as (Hwf1 & _ & Hpd & Hsmall).
  destruct (mapped_pt _ _ _ _ Hwf1 _ _ Hpd Hsmall) as [_ Hpt].
  apply usedFrames_arena, (wf_arena_page _ _ _ _ Hwf1) in Hpt
    as (_ & page & Hpage & _).
  unfold EPT_changeMapping. rewrite Ht. simpl.
  unfold EPT_PagingStructure.pageFrameNumber in *.
  rewrite Memory_getVirtualAddress_field, Hpage. reflexivity.
Qed.

Lemma frameOf_exact (address : N) :
  address < 2 ^ 52 → frameOf address = address / 4096.
Proof.
  intros H. unfold frameOf, EPT_Address.pageFrameNumber4KB.
  rewrite bitfield_div_mod. change (2 ^ 12) with 4096.
  assert (address / 4096 < 2 ^ 40).
  { apply N.Div0.div_lt_upper_bound. exact H. }
  rewrite land_ones_small.
  - apply N.mod_small. eapply N.lt_trans; [eassumption|reflexivity].
  - rewrite N.mod_small; [assumption|].
    eapply N.lt_trans; [eassumption|reflexivity].
Qed.

Lemma mapped_iff (c : Context_LogicalCore) (address : N) :
  mapped c address
  ↔ ∃ pd, EPT_pageDirectory c address = Returns pd
          ∧ EPT_PdE2MB.isLargePage
              (readq (memory c) pd (EPT_Address.pdEntry address)) ≠ 1.
Proof.
  unfold mapped. destruct (EPT_pageDirectory c address) as [pd|code].
  - split; [eauto|]. now intros (pd' & [= <-] & H).
  - split; [tauto|]. now intros (pd' & [=] & _).
Qed.

Lemma EPT_traverse_changedMappings (c : Context_LogicalCore) (address st : N)
    (c1 : Context_LogicalCore) (pd : N) :
  EPT_traverse c address = Returns (st, c1, pd) →
  changedMappings c1 = changedMappings c.
Proof.
  unfold EPT_traverse. intros H. apply bind_Returns in H as (pd0 & _ & H).
  destruct (_ =? 1).
  - unfold splitPage in H. destruct (_ <=? _); now injection H as _ <- _.
  - now injection H as _ <- _.
Qed.

(** What a successful [EPT_changeMapping] leaves behind. *)
Lemma EPT_changeMapping_wf (pdpts pds pts : list N) (c : Context_LogicalCore)
    (address targetAddress : N) (rw fetch : bool) (c' : Context_LogicalCore) :
  EPT_wf pdpts pds pts c →
  EPT_changeMapping c address targetAddress rw fetch = Returns (STATUS_SUCCESS, c') →
  ∃ cs pd pt pte0,
    changed pdpts pds pts c address targetAddress rw fetch c' cs pd pt pte0.
Proof.
  intros Hwf H.
  apply EPT_changeMapping_success in H as (c1 & pd & Ht & ->).
  destruct (EPT_traverse_wf _ _ _ _ Hwf _ _ _ Ht) as (Hwf1 & Hev1 & Hpd & Hsmall).
  destruct (mapped_pt _ _ _ _ Hwf1 _ _ Hpd Hsmall) as [Hin Hpt].
  apply usedFrames_arena in Hpt.
  set (pt := EPT_PagingStructure.pageFrameNumber
               (readq (memory c1) pd (EPT_Address.pdEntry address))) in *.
  set (v := changedPte targetAddress rw fetch
              (readq (memory c1) pt (EPT_Address.ptEntry address))).
  pose proof (leaf_write_wf _ _ _ _ Hwf1 pt (EPT_Address.ptEntry address) v Hpt) as Hwf'.
  pose proof (leaf_write_evolves _ _ _ _ Hwf1 pt (EPT_Address.ptEntry address) v Hpt)
    as Hev'.
  set (c' := set_memory (writeq (memory c1) pt (EPT_Address.ptEntry address) v) c1)
    in *.
  assert (Hpd' : EPT_pageDirectory c' address = Returns pd)
    by now rewrite (EPT_pageDirectory_evolves _ _ _ _ Hwf1 _ Hev').
  assert (Hpde : readq (memory c') pd (EPT_Address.pdEntry address)
                 = readq (memory c1) pd (EPT_Address.pdEntry address))
    by now apply (ev_pds _ _ _ _ Hev').
  exists c1, pd, pt, (readq (memory c1) pt (EPT_Address.ptEntry address)).
  split; try assumption; try reflexivity.
  - eapply evolves_trans; eassumption.
  - apply mapped_iff. exists pd. now rewrite Hpde.
  - now apply (EPT_leaf_mapped _ _ _ _ Hwf1).
  - rewrite (EPT_leaf_mapped _ _ _ _ Hwf' _ _ Hpd') by now rewrite Hpde.
    rewrite Hpde. fold pt. f_equal.
    destruct (wf_arena_page _ _ _ _ Hwf1 _ Hpt) as (_ & page & Hpage & Hplen).
    apply (readq_writeq_eq _ _ _ _ page); [assumption|].
    rewrite Hplen. apply index9_lt.
  - eapply EPT_traverse_changedMappings; eassumption.
Qed.

(** On a page that is already split [EPT_changeMapping] succeeds, takes no
    arena page and rewrites only the leaf. *)
Lemma EPT_changeMapping_mapped (pdpts pds pts : list N) (c : Context_LogicalCore)
    (address targetAddress : N) (rw fetch : bool) :
  EPT_wf pdpts pds pts c → mapped c address →
  ∃ pd pt,
    EPT_pageDirectory c address = Returns pd
    ∧ pt = EPT_PagingStructure.pageFrameNumber
             (readq (memory c) pd (EPT_Address.pdEntry address))
    ∧ pt ∈ tableFrames pts c
    ∧ EPT_leaf c address = Some (readq (memory c) pt (EPT_Address.ptEntry address))
    ∧ EPT_changeMapping c address targetAddress rw fetch
      = Returns (STATUS_SUCCESS,
          set_memory
            (writeq (memory c) pt (EPT_Address.ptEntry address)
               (changedPte targetAddress rw fetch
                  (readq (memory c) pt (EPT_Address.ptEntry address)))) c).
Proof.
  intros Hwf Hm.
  destruct (EPT_traverse_mapped c address Hm) as (pd & Hpd & Hsmall & Ht).
  exists pd, (EPT_PagingStructure.pageFrameNumber
                (readq (memory c) pd (EPT_Address.pdEntry address))).
  split; [assumption|]. split; [reflexivity|]. split.
  - eapply usedFrames_arena, mapped_pt; eassumption.
  - split.
    + exact (EPT_leaf_mapped _ _ _ _ Hwf _ _ Hpd Hsmall).
    + exact (EPT_changeMapping_returns _ _ _ _ _ _ _ _ _ _ Hwf Ht).
Qed.

(** ** Histories preserve well-formedness *)

Lemma EPT_wf_set_changedMappings (pdpts pds pts : list N)
    (l : list Context_EptChangedMapping) (c : Context_LogicalCore) :
  EPT_wf pdpts pds pts c → EPT_wf pdpts pds pts (set_changedMappings l c).
Proof. intros []. now split. Qed.

Lemma evolves_set_changedMappings (pdpts pds : list N)
    (l : list Context_EptChangedMapping) (c c1 : Context_LogicalCore) :
  evolves pdpts pds c c1 → evolves pdpts pds c (set_changedMappings l c1).
Proof. intros []. now split. Qed.

Lemma step_EPT_wf (pdpts pds pts : list N) (c c' : Context_LogicalCore) :
  EPT_wf pdpts pds pts c → step c c' →
  EPT_wf pdpts pds pts c' ∧ evolves pdpts pds c c'.
Proof.
  intros Hwf Hstep.
  destruct Hstep as [c g r f RAX c' H|c g RAX c' H|c q a c' H].
  - apply vmCallMapPage_cases in H
      as [[_ ->]|(_ & _ & _ & _ & _ & i & m0 & c1 & _ & Hcm & ->)].
    + split; [assumption|apply evolves_refl].
    + apply (EPT_changeMapping_wf _ _ _ _ _ _ _ _ _ Hwf) in Hcm
        as (cs & pd & pt & pte0 & Hch).
      pose proof (ch_wf _ _ _ _ _ _ _ _ _ _ _ _ _ Hch) as Hwf'.
      pose proof (ch_ev _ _ _ _ _ _ _ _ _ _ _ _ _ Hch) as Hev.
      split; [now apply EPT_wf_set_changedMappings
             |now apply evolves_set_changedMappings].
  - apply vmCallUnmapPage_cases in H as [[_ ->]|(_ & i & m & c1 & _ & Hcm & ->)].
    + split; [assumption|apply evolves_refl].
    + apply (EPT_changeMapping_wf _ _ _ _ _ _ _ _ _ Hwf) in Hcm
        as (cs & pd & pt & pte0 & Hch).
      pose proof (ch_wf _ _ _ _ _ _ _ _ _ _ _ _ _ Hch) as Hwf'.
      pose proof (ch_ev _ _ _ _ _ _ _ _ _ _ _ _ _ Hch) as Hev.
      split; [now apply EPT_wf_set_changedMappings
             |now apply evolves_set_changedMappings].
  - apply eptViolationHandler_cases in H as (i & m & t & rw & fe & st & _ & Hcm).
    destruct (EPT_changeMapping_cases _ _ _ _ _ _ _ Hcm) as [[_ ->]| ->].
    + split; [assumption|apply evolves_refl].
    + apply (EPT_changeMapping_wf _ _ _ _ _ _ _ _ _ Hwf) in Hcm
        as (cs & pd & pt & pte0 & Hch).
      pose proof (ch_wf _ _ _ _ _ _ _ _ _ _ _ _ _ Hch) as Hwf'.
      pose proof (ch_ev _ _ _ _ _ _ _ _ _ _ _ _ _ Hch) as Hev.
      now split.
Qed.

Lemma rtc_step_EPT_wf (pdpts pds pts : list N) (c c' : Context_LogicalCore) :
  rtc step c c' → EPT_wf pdpts pds pts c →
  EPT_wf pdpts pds pts c' ∧ evolves pdpts pds c c'.
Proof.
  induction 1 as [c|c c1 c2 Hstep _ IH]; intros Hwf.
  - split; [assumption|apply evolves_refl].
  - destruct (step_EPT_wf _ _ _ _ _ Hwf Hstep) as [Hwf1 Hev1].
    destruct (IH Hwf1) as [Hwf2 Hev2].
    split; [assumption|eapply evolves_trans; eassumption].
Qed.

Lemma mappings_mapped_evolves (pdpts pds pts : list N) (c c' : Context_LogicalCore) :
  EPT_wf pdpts pds pts c → evolves pdpts pds c c' →
  changedMappings c' = changedMappings c →
  mappings_mapped c → mappings_mapped c'.
Proof.
  unfold mappings_mapped. intros Hwf Hev -> H.
  eapply Forall_impl; [exact H|]. simpl. intros m Hm Hv.
  eapply mapped_evolves; eauto.
Qed.

Lemma step_Core_inv (pdpts pds pts : list N) (c c' : Context_LogicalCore) :
  Core_inv pdpts pds pts c → step c c' → Core_inv pdpts pds pts c'.
Proof.
  intros [Hwf Hlen Hmap Huniq] Hstep.
  destruct (step_EPT_wf _ _ _ _ _ Hwf Hstep) as [Hwf' Hev].
  destruct (step_table_inv _ _ Hstep (Build_table_inv _ Hlen Huniq))
    as [Hlen' Huniq'].
  split; try assumption.
  destruct Hstep as [c g r f RAX c' H|c g RAX c' H|c q a c' H].
  - apply vmCallMapPage_cases in H
      as [[_ ->]|(_ & _ & _ & _ & _ & i & m0 & c1 & _ & Hcm & ->)];
      [assumption|].
    destruct (EPT_changeMapping_wf _ _ _ _ _ _ _ _ _ Hwf Hcm)
      as (cs & pd & pt & pte0 & Hch).
    pose proof (ch_wf _ _ _ _ _ _ _ _ _ _ _ _ _ Hch) as Hwf1.
    pose proof (ch_ev _ _ _ _ _ _ _ _ _ _ _ _ _ Hch) as Hev1.
    pose proof (ch_mapped _ _ _ _ _ _ _ _ _ _ _ _ _ Hch) as Hg.
    unfold mappings_mapped. simpl. apply Forall_insert.
    + eapply Forall_impl; [exact Hmap|]. simpl. intros m Hm Hv.
      exact (mapped_evolves _ _ _ _ Hwf _ Hev1 _ (Hm Hv)).
    + intros _. exact Hg.
  - apply vmCallUnmapPage_cases in H as [[_ ->]|(_ & i & m & c1 & _ & Hcm & ->)];
      [assumption|].
    destruct (EPT_changeMapping_wf _ _ _ _ _ _ _ _ _ Hwf Hcm)
      as (cs & pd & pt & pte0 & Hch).
    pose proof (ch_wf _ _ _ _ _ _ _ _ _ _ _ _ _ Hch) as Hwf1.
    pose proof (ch_ev _ _ _ _ _ _ _ _ _ _ _ _ _ Hch) as Hev1.
    unfold mappings_mapped. simpl. apply Forall_insert.
    + eapply Forall_impl; [exact Hmap|]. simpl. intros m' Hm Hv.
      exact (mapped_evolves _ _ _ _ Hwf _ Hev1 _ (Hm Hv)).
    + discriminate.
  - apply eptViolationHandler_cases in H as (i & m & t & rw & fe & st & _ & Hcm).
    apply (mappings_mapped_evolves pdpts pds pts c c' Hwf Hev); [|assumption].
    now apply EPT_changeMapping_changedMappings in Hcm.
Qed.

Lemma rtc_step_Core_inv (pdpts pds pts : list N) (c c' : Context_LogicalCore) :
  rtc step c c' → Core_inv pdpts pds pts c → Core_inv pdpts pds pts c'.
Proof. induction 1; eauto using step_Core_inv. Qed.

(** A fresh core over a well-formed hierarchy satisfies the invariant. *)
Lemma Core_inv_fresh (pdpts pds pts : list N) (c : Context_LogicalCore) :
  EPT_wf pdpts pds pts c → fresh c → Core_inv pdpts pds pts c.
Proof.
  intros Hwf Hfresh. destruct (table_inv_fresh _ Hfresh) as [Hlen Hu].
  split; try assumption.
  unfold mappings_mapped. rewrite Hfresh. apply Forall_forall.
  intros m Hm%elem_of_replicate. destruct Hm as [-> _]. discriminate.
Qed.

(** ** The concrete cores are well-formed *)

Lemma demo_core_wf : EPT_wf [2] [3] [] demo_core.
Proof.
  split.
  - reflexivity.
  - vm_compute. discriminate.
  - apply (bool_decide_unpack _); vm_compute; exact I.
  - apply (bool_decide_unpack _); vm_compute; exact I.
  - apply (bool_decide_unpack _); vm_compute; exact I.
  - apply (bool_decide_unpack _); vm_compute; exact I.
  - apply (bool_decide_unpack _); vm_compute; exact I.
  - apply (bool_decide_unpack _); vm_compute; exact I.
Qed.

Lemma demo_core_inv : Core_inv [2] [3] [] demo_core.
Proof. apply Core_inv_fresh; [apply demo_core_wf|reflexivity]. Qed.

Lemma demo_core_A_inv : Core_inv [2] [3] [] demo_core_A.
Proof. eapply step_Core_inv; [apply demo_core_inv|apply demo_core_A_step]. Qed.

Lemma demo_core_B_wf : EPT_wf [2] [3] [9] demo_core_B.
Proof.
  split.
  - reflexivity.
  - vm_compute. discriminate.
  - apply (bool_decide_unpack _); vm_compute; exact I.
  - apply (bool_decide_unpack _); vm_compute; exact I.
  - apply (bool_decide_unpack _); vm_compute; exact I.
  - apply (bool_decide_unpack _); vm_compute; exact I.
  - apply (bool_decide_unpack _); vm_compute; exact I.
  - apply (bool_decide_unpack _); vm_compute; exact I.
Qed.

Lemma demo_core_B_inv : Core_inv [2] [3] [9] demo_core_B.
Proof. apply Core_inv_fresh; [apply demo_core_B_wf|reflexivity]. Qed.

Lemma demo_core_BA_step : step demo_core_B demo_core_BA.
Proof. now apply (step_map demo_core_B 0x1000 0x2000 0x1000 0). Qed.

Lemma demo_core_BA_inv : Core_inv [2] [3] [9] demo_core_BA.
Proof. eapply step_Core_inv; [apply demo_core_B_inv|apply demo_core_BA_step]. Qed.

(** ** A mapped page stays split *)

Lemma isLargePage_not_1 (e : N) :
  EPT_PdE2MB.isLargePage e ≠ 1 ↔ EPT_PdE2MB.isLargePage e = 0.
Proof.
  unfold EPT_PdE2MB.isLargePage. destruct (bitfield_bool 7 e) as [H|H];
    rewrite H; split; congruence.
Qed.

Lemma vmCallMapPage_mapped (pdpts pds pts : list N) (c c' : Context_LogicalCore)
    (RDX R8 R9 : N) :
  EPT_wf pdpts pds pts c →
  vmCallMapPage c RDX R8 R9 = Returns (NTSTATUS_to_UINT64 STATUS_SUCCESS, c') →
  EPT_wf pdpts pds pts c' ∧ mapped c' RDX.
Proof.
  intros Hwf H.
  apply vmCallMapPage_cases in H
    as [[[=] _]|(_ & _ & _ & _ & _ & i & m0 & c1 & _ & Hcm & ->)].
  destruct (EPT_changeMapping_wf _ _ _ _ _ _ _ _ _ Hwf Hcm)
    as (cs & pd & pt & pte0 & Hch).
  pose proof (ch_wf _ _ _ _ _ _ _ _ _ _ _ _ _ Hch) as Hwf1.
  pose proof (ch_mapped _ _ _ _ _ _ _ _ _ _ _ _ _ Hch) as Hg.
  split; [now apply EPT_wf_set_changedMappings|exact Hg].
Qed.

(** C10: once [vmCallMapPage] has succeeded for a guest page, in every
    later state of the core the PD entry covering the page is a directory
    entry and not a large page; [EPT_changeMapping] for the page then
    returns [STATUS_SUCCESS] without taking an arena page, so
    [vmCallUnmapPage] never returns through its branch after the restore
    and the status [eptViolationHandler] drops is always success. *)
Theorem C10_mapped_page_stays_split (pdpts pds pts : list N)
    (c0 c1 c : Context_LogicalCore) (RDX R8 R9 : N) :
  EPT_wf pdpts pds pts c0 →
  vmCallMapPage c0 RDX R8 R9 = Returns (NTSTATUS_to_UINT64 STATUS_SUCCESS, c1) →
  rtc step c1 c →
  (∃ pd, EPT_pageDirectory c RDX = Returns pd
         ∧ EPT_PdE2MB.isLargePage
             (readq (memory c) pd (EPT_Address.pdEntry RDX)) = 0)
  ∧ (∀ targetAddress rw fetch,
       ∃ c', EPT_changeMapping c RDX targetAddress rw fetch
               = Returns (STATUS_SUCCESS, c')
             ∧ noOfUsedSplits c' = noOfUsedSplits c)
  ∧ (∀ found, findMapping (changedMappings c) RDX = Some found →
       ∃ c', vmCallUnmapPage c RDX
               = Returns (NTSTATUS_to_UINT64 STATUS_SUCCESS, c'))
  ∧ (∀ exitQualification guestPhysicalAddress c',
       EPT_Address.clear_offset guestPhysicalAddress = RDX →
       eptViolationHandler c exitQualification guestPhysicalAddress = Returns c' →
       ∃ found targetAddress rw fetch,
         findMapping (changedMappings c) RDX = Some found
         ∧ EPT_changeMapping c RDX targetAddress rw fetch
           = Returns (STATUS_SUCCESS, c')
         ∧ noOfUsedSplits c' = noOfUsedSplits c).
Proof.
  intros Hwf0 Hmap Hreach.
  destruct (vmCallMapPage_mapped _ _ _ _ _ _ _ _ Hwf0 Hmap) as [Hwf1 Hm1].
  destruct (rtc_step_EPT_wf _ _ _ _ _ Hreach Hwf1) as [Hwf Hev].
  pose proof (mapped_evolves _ _ _ _ Hwf1 _ Hev _ Hm1) as Hm.
  assert (Hcm : ∀ targetAddress rw fetch,
       ∃ c', EPT_changeMapping c RDX targetAddress rw fetch
               = Returns (STATUS_SUCCESS, c')
             ∧ noOfUsedSplits c' = noOfUsedSplits c).
  { intros t rw fe.
    destruct (EPT_changeMapping_mapped _ _ _ _ RDX t rw fe Hwf Hm)
      as (pd & pt & _ & _ & _ & _ & H).
    eexists. split; [exact H|reflexivity]. }
  split; [|split; [exact Hcm|split]].
  - apply mapped_iff in Hm as (pd & Hpd & Hsmall).
    exists pd. split; [assumption|]. now apply isLargePage_not_1.
  - intros [i m] Hfind. destruct (Hcm RDX true true) as (c' & H & _).
    unfold vmCallUnmapPage. rewrite Hfind, H. simpl. eauto.
  - intros q gpa c' Hgpa H. unfold eptViolationHandler in H.
    rewrite Hgpa in H.
    destruct (findMapping (changedMappings c) RDX) as [[i m]|] eqn:Hfind;
      [|discriminate].
    destruct (findMapping_Some _ _ _ _ Hfind) as (_ & _ & _ & Hg).
    rewrite Hg in H. exists (i, m).
    destruct (_ || _).
    + destruct (Hcm (hostRwAddress m) true false) as (c2 & Hc2 & Hn).
      rewrite Hc2 in H. injection H as <-. eauto 10.
    + destruct (_ =? 1); [|discriminate].
      destruct (Hcm (hostFetchAddress m) false true) as (c2 & Hc2 & Hn).
      rewrite Hc2 in H. injection H as <-. eauto 10.
Qed.

Lemma C10_mapped_page_stays_split_witness :
  noOfUsedSplits demo_core_BA = 0
  ∧ ∃ pd, EPT_pageDirectory demo_core_BA 0x1000 = Returns pd
          ∧ EPT_PdE2MB.isLargePage
              (readq (memory demo_core_BA) pd (EPT_Address.pdEntry 0x1000)) = 0.
Proof.
  split; [reflexivity|].
  apply (C10_mapped_page_stays_split [2] [3] [9] demo_core_B demo_core_BA
           demo_core_BA 0x1000 0x2000 0x1000).
  - apply demo_core_B_wf.
  - reflexivity.
  - apply rtc_refl.
Defined.

(** ** The flip on an EPT violation *)

Lemma clear_offset_indices (address : N) :
  EPT_Address.pml4Entry (EPT_Address.clear_offset address) = EPT_Address.pml4Entry address
  ∧ EPT_Address.pdptEntry (EPT_Address.clear_offset address) = EPT_Address.pdptEntry address
  ∧ EPT_Address.pdEntry (EPT_Address.clear_offset address) = EPT_Address.pdEntry address
  ∧ EPT_Address.ptEntry (EPT_Address.clear_offset address) = EPT_Address.ptEntry address.
Proof.
  unfold EPT_Address.pml4Entry, EPT_Address.pdptEntry, EPT_Address.pdEntry,
    EPT_Address.ptEntry, EPT_Address.clear_offset.
  repeat split; apply bitfield_set_other; lia.
Qed.

(** The leaf of an address is the leaf of its page. *)
Lemma EPT_leaf_clear_offset (c : Context_LogicalCore) (address : N) :
  EPT_leaf c (EPT_Address.clear_offset address) = EPT_leaf c address.
Proof.
  destruct (clear_offset_indices address) as (E4 & E3 & E2 & E1).
  unfold EPT_leaf, EPT_pageDirectory. now rewrite E4, E3, E2, E1.
Qed.

Lemma EPT_changeMapping_leaf (pdpts pds pts : list N) (c : Context_LogicalCore)
    (address targetAddress : N) (rw fetch : bool) :
  EPT_wf pdpts pds pts c → mapped c address →
  ∃ c' pte,
    EPT_changeMapping c address targetAddress rw fetch = Returns (STATUS_SUCCESS, c')
    ∧ EPT_leaf c address = Some pte
    ∧ EPT_leaf c' address = Some (changedPte targetAddress rw fetch pte)
    ∧ noOfUsedSplits c' = noOfUsedSplits c
    ∧ changedMappings c' = changedMappings c.
Proof.
  intros Hwf Hm.
  destruct (EPT_changeMapping_mapped _ _ _ _ address targetAddress rw fetch Hwf Hm)
    as (pd0 & pt0 & _ & _ & _ & _ & H).
  destruct (EPT_changeMapping_wf _ _ _ _ _ _ _ _ _ Hwf H)
    as (cs & pd & pt & pte0 & Hch).
  destruct (EPT_traverse_mapped c address Hm) as (pd1 & _ & _ & Ht1).
  pose proof (ch_traverse _ _ _ _ _ _ _ _ _ _ _ _ _ Hch) as Ht.
  rewrite Ht1 in Ht. injection Ht as <- <-.
  eexists _, pte0. split; [exact H|].
  split; [exact (ch_leaf_s _ _ _ _ _ _ _ _ _ _ _ _ _ Hch)|].
  split; [exact (ch_leaf _ _ _ _ _ _ _ _ _ _ _ _ _ Hch)|].
  split; reflexivity.
Qed.

(** C1: in a state that satisfies the invariant of the core, an EPT
    violation on a page with a valid record rewrites the 4 KiB leaf of the
    page: a data read or write installs the rw-target with read and write
    allowed and fetch denied, an instruction fetch installs the
    fetch-target with fetch allowed and read and write denied; either way
    exactly one of read/write and fetch is allowed afterwards. *)
Theorem C1_violation_flips_leaf (pdpts pds pts : list N) (c : Context_LogicalCore)
    (i : nat) (m : Context_EptChangedMapping)
    (exitQualification guestPhysicalAddress : N) :
  Core_inv pdpts pds pts c →
  (i < 32)%nat → changedMappings c !! i = Some m → valid m = true →
  guestAddress m = EPT_Address.clear_offset guestPhysicalAddress →
  (VMEXIT_EptViolation.dataRead exitQualification = 1
   ∨ VMEXIT_EptViolation.dataWrite exitQualification = 1 →
   ∃ c' pte,
     eptViolationHandler c exitQualification guestPhysicalAddress = Returns c'
     ∧ EPT_leaf c' guestPhysicalAddress = Some pte
     ∧ EPT_PtE.pageFrameNumber pte = frameOf (hostRwAddress m)
     ∧ EPT_PtE.readAccess pte = 1 ∧ EPT_PtE.writeAccess pte = 1
     ∧ EPT_PtE.fetchAccess pte = 0)
  ∧ (VMEXIT_EptViolation.dataRead exitQualification = 0 →
     VMEXIT_EptViolation.dataWrite exitQualification = 0 →
     VMEXIT_EptViolation.instructionFetch exitQualification = 1 →
     ∃ c' pte,
       eptViolationHandler c exitQualification guestPhysicalAddress = Returns c'
       ∧ EPT_leaf c' guestPhysicalAddress = Some pte
       ∧ EPT_PtE.pageFrameNumber pte = frameOf (hostFetchAddress m)
       ∧ EPT_PtE.readAccess pte = 0 ∧ EPT_PtE.writeAccess pte = 0
       ∧ EPT_PtE.fetchAccess pte = 1)
  ∧ (∀ c',
       eptViolationHandler c exitQualification guestPhysicalAddress = Returns c' →
       ∃ pte,
         EPT_leaf c' guestPhysicalAddress = Some pte
         ∧ EPT_PtE.readAccess pte = EPT_PtE.writeAccess pte
         ∧ EPT_PtE.readAccess pte + EPT_PtE.fetchAccess pte = 1).
Proof.
  intros [Hwf Hlen Hmap Huniq] Hi Hm Hv Hg.
  assert (Hfind : findMapping (changedMappings c)
                    (EPT_Address.clear_offset guestPhysicalAddress) = Some (i, m))
    by (rewrite <- Hg; now apply findMapping_unique).
  assert (Hmapped : mapped c (guestAddress m)).
  { unfold mappings_mapped in Hmap. rewrite Forall_forall in Hmap.
    apply Hmap; [|assumption]. apply list_elem_of_lookup. eauto. }
  assert (Hleaf : ∀ c', EPT_leaf c' guestPhysicalAddress = EPT_leaf c' (guestAddress m))
    by (intros; now rewrite Hg, EPT_leaf_clear_offset).
  destruct (EPT_changeMapping_leaf _ _ _ _ (guestAddress m) (hostRwAddress m)
              true false Hwf Hmapped) as (crw & old & Hrw & _ & Hlrw & _).
  destruct (EPT_changeMapping_leaf _ _ _ _ (guestAddress m) (hostFetchAddress m)
              false true Hwf Hmapped) as (cf & old' & Hf & _ & Hlf & _).
  destruct (changedPte_fields (hostRwAddress m) true false old)
    as (Prw & Rrw & Wrw & Frw & _).
  destruct (changedPte_fields (hostFetchAddress m) false true old')
    as (Pf & Rf & Wf & Ff & _).
  unfold eptViolationHandler. rewrite Hfind.
  split; [|split].
  - intros Hdata.
    assert ((VMEXIT_EptViolation.dataRead exitQualification =? 1)
            || (VMEXIT_EptViolation.dataWrite exitQualification =? 1) = true) as ->
      by (apply Bool.orb_true_iff; rewrite !N.eqb_eq; exact Hdata).
    rewrite Hrw. simpl. eexists _, _. split; [reflexivity|].
    rewrite Hleaf, Hlrw. auto 10.
  - intros -> -> ->. simpl. rewrite Hf. simpl. eexists _, _.
    split; [reflexivity|]. rewrite Hleaf, Hlf. auto 10.
  - intros c'. destruct (_ || _).
    + rewrite Hrw. simpl. intros [= <-]. eexists.
      rewrite Hleaf, Hlrw. split; [reflexivity|]. now rewrite Rrw, Wrw, Frw.
    + destruct (_ =? 1); [|discriminate].
      rewrite Hf. simpl. intros [= <-]. eexists.
      rewrite Hleaf, Hlf. split; [reflexivity|]. now rewrite Rf, Wf, Ff.
Qed.

Lemma C1_violation_flips_leaf_witness :
  ∃ c' pte,
    eptViolationHandler demo_core_BA 1 0x1234 = Returns c'
    ∧ EPT_leaf c' 0x1234 = Some pte
    ∧ EPT_PtE.pageFrameNumber pte = frameOf 0x2000
    ∧ EPT_PtE.readAccess pte = 1 ∧ EPT_PtE.writeAccess pte = 1
    ∧ EPT_PtE.fetchAccess pte = 0.
Proof.
  apply (C1_violation_flips_leaf [2] [3] [9] demo_core_BA 0
           (newMapping 0x1000 0x2000 0x1000) 1 0x1234).
  - apply demo_core_BA_inv.
  - lia.
  - reflexivity.
  - reflexivity.
  - reflexivity.
  - left. reflexivity.
Defined.

(** ** Installing a mapping *)

Lemma validCount_insert (l : list Context_EptChangedMapping) (i : nat)
    (m0 m : Context_EptChangedMapping) :
  l !! i = Some m0 → valid m0 = false → valid m = true →
  validCount (<[i := m]> l) = S (validCount l).
Proof.
  unfold validCount. revert i. induction l as [|x l IH]; intros i Hi H0 Hm.
  - discriminate.
  - destruct i as [|i]; simpl in *.
    + injection Hi as ->. rewrite filter_cons_True by assumption.
      rewrite filter_cons_False by congruence. reflexivity.
    + destruct (decide (valid x = true)) as [Hx|Hx].
      * rewrite !filter_cons_True by assumption. simpl. f_equal. eauto.
      * rewrite !filter_cons_False by assumption. eauto.
Qed.

Lemma validCount_full (l : list Context_EptChangedMapping) :
  validCount l = length l → Forall (λ m, valid m = true) l.
Proof.
  unfold validCount. induction l as [|x l IH]; intros H; [constructor|].
  destruct (decide (valid x = true)) as [Hx|Hx].
  - rewrite filter_cons_True in H by assumption. simpl in H.
    constructor; [assumption|]. apply IH. lia.
  - rewrite filter_cons_False in H by assumption. simpl in H.
    pose proof (length_filter (λ m, valid m = true) l). lia.
Qed.

Lemma installs_validCount (n : nat) (c c' : Context_LogicalCore) :
  installs n c c' →
  length (changedMappings c') = length (changedMappings c)
  ∧ validCount (changedMappings c') = (n + validCount (changedMappings c))%nat.
Proof.
  induction 1 as [c|n c c1 c2 g r f Hmap _ [IHlen IHcount]]; [auto|].
  apply vmCallMapPage_cases in Hmap
    as [[[=] _]|(_ & _ & _ & _ & _ & i & m0 & c1' & Hsel & _ & ->)].
  simpl in *. rewrite length_insert in IHlen.
  apply selectIndex_Some in Hsel as (_ & Hi & Hv & _).
  rewrite (validCount_insert _ _ m0) in IHcount by (assumption || reflexivity).
  split; [assumption|lia].
Qed.

Lemma install_all_installs (l : list (N * N * N)) (c c' : Context_LogicalCore) :
  install_all c l = Some c' → installs (length l) c c'.
Proof.
  revert c. induction l as [|[[guest hostRw] hostFetch] l IH]; intros c H.
  - injection H as <-. constructor.
  - simpl in H.
    destruct (vmCallMapPage c guest hostRw hostFetch) as [[RAX c1]|] eqn:Hmap;
      [|discriminate].
    destruct (N.eqb_spec RAX (NTSTATUS_to_UINT64 STATUS_SUCCESS)) as [->|];
      [|discriminate].
    exact (installs_S _ _ _ _ _ _ _ Hmap (IH _ H)).
Qed.

Lemma installs_rtc (n : nat) (c c' : Context_LogicalCore) :
  installs n c c' → rtc step c c'.
Proof.
  induction 1 as [c|n c c1 c2 RDX R8 R9 Hmap _ IH]; [constructor|].
  exact (rtc_l _ _ _ _ (step_map _ _ _ _ _ _ Hmap) IH).
Qed.

(** Thirty-two installs do succeed on the demonstration core. *)
Lemma demo_installs : installs 32 demo_core demo_core_32.
Proof.
  apply (install_all_installs demo_mappings). vm_compute. reflexivity.
Qed.

(** C5: a successful [vmCallMapPage] stores its record in the first slot
    of the table that is not valid and leaves the 4 KiB leaf of the guest
    page with the frame of the guest page and read, write and fetch all
    denied; it fails when every slot is valid, which is the case after 32
    successful installs on a fresh core. *)
Theorem C5_install_slot_and_leaf (pdpts pds pts : list N) (c : Context_LogicalCore)
    (RDX R8 R9 : N) :
  EPT_wf pdpts pds pts c →
  (∀ c',
     vmCallMapPage c RDX R8 R9 = Returns (NTSTATUS_to_UINT64 STATUS_SUCCESS, c') →
     ∃ selectedIndex m0 pte,
       (selectedIndex < 32)%nat
       ∧ changedMappings c !! selectedIndex = Some m0 ∧ valid m0 = false
       ∧ (∀ j m, (j < selectedIndex)%nat → changedMappings c !! j = Some m →
                 valid m = true)
       ∧ changedMappings c'
         = <[selectedIndex := newMapping RDX R8 R9]> (changedMappings c)
       ∧ EPT_leaf c' RDX = Some pte
       ∧ EPT_PtE.pageFrameNumber pte = frameOf RDX
       ∧ EPT_PtE.readAccess pte = 0 ∧ EPT_PtE.writeAccess pte = 0
       ∧ EPT_PtE.fetchAccess pte = 0)
  ∧ (Forall (λ m, valid m = true) (changedMappings c) →
     vmCallMapPage c RDX R8 R9
     = Returns (NTSTATUS_to_UINT64 STATUS_UNSUCCESSFUL, c))
  ∧ (∀ c0, fresh c0 → installs 32 c0 c →
     vmCallMapPage c RDX R8 R9
     = Returns (NTSTATUS_to_UINT64 STATUS_UNSUCCESSFUL, c)).
Proof.
  intros Hwf.
  assert (Hfull : Forall (λ m, valid m = true) (changedMappings c) →
     vmCallMapPage c RDX R8 R9
     = Returns (NTSTATUS_to_UINT64 STATUS_UNSUCCESSFUL, c)).
  { intros Hall. unfold vmCallMapPage.
    destruct (negb _); [reflexivity|].
    destruct (existsb _ _); [reflexivity|].
    now rewrite selectIndex_None. }
  split; [|split; [exact Hfull|]].
  - intros c' H.
    apply vmCallMapPage_cases in H
      as [[[=] _]|(_ & _ & _ & _ & _ & i & m0 & c1 & Hsel & Hcm & ->)].
    apply selectIndex_Some in Hsel as (Hi & Hm0 & Hv0 & Hfirst).
    destruct (EPT_changeMapping_wf _ _ _ _ _ _ _ _ _ Hwf Hcm)
      as (cs & pd & pt & pte0 & Hch).
    pose proof (ch_leaf _ _ _ _ _ _ _ _ _ _ _ _ _ Hch) as Hleaf.
    destruct (changedPte_fields RDX false false pte0) as (Hp & Hr & Hw & Hf & _).
    exists i, m0. eexists. split; [assumption|]. split; [assumption|].
    split; [assumption|]. split; [assumption|]. split; [reflexivity|].
    split; [exact Hleaf|]. auto.
  - intros c0 Hfresh Hins. apply Hfull, validCount_full.
    destruct (installs_validCount _ _ _ Hins) as [Hlen Hcount].
    rewrite Hlen, Hcount, Hfresh. reflexivity.
Qed.

Lemma C5_install_slot_and_leaf_witness :
  (∃ selectedIndex m0 pte,
    (selectedIndex < 32)%nat
    ∧ changedMappings demo_core_BA !! selectedIndex = Some m0 ∧ valid m0 = false
    ∧ (∀ j m, (j < selectedIndex)%nat → changedMappings demo_core_BA !! j = Some m →
              valid m = true)
    ∧ changedMappings
        (core_after demo_core_BA (vmCallMapPage demo_core_BA 0x3000 0x4000 0x5000))
      = <[selectedIndex := newMapping 0x3000 0x4000 0x5000]>
          (changedMappings demo_core_BA)
    ∧ EPT_leaf
        (core_after demo_core_BA (vmCallMapPage demo_core_BA 0x3000 0x4000 0x5000))
        0x3000 = Some pte
    ∧ EPT_PtE.pageFrameNumber pte = frameOf 0x3000
    ∧ EPT_PtE.readAccess pte = 0 ∧ EPT_PtE.writeAccess pte = 0
    ∧ EPT_PtE.fetchAccess pte = 0)
  ∧ vmCallMapPage demo_core_32 0x30000 0x40000 0x50000
    = Returns (NTSTATUS_to_UINT64 STATUS_UNSUCCESSFUL, demo_core_32).
Proof.
  split.
  - apply (C5_install_slot_and_leaf [2] [3] [9] demo_core_BA 0x3000 0x4000 0x5000).
    + apply demo_core_BA_inv.
    + vm_compute. reflexivity.
  - apply (C5_install_slot_and_leaf [2] [3] [] demo_core_32 0x30000 0x40000 0x50000)
      with (c0 := demo_core).
    + exact (proj1 (rtc_step_EPT_wf _ _ _ _ _ (installs_rtc _ _ _ demo_installs)
                      demo_core_wf)).
    + reflexivity.
    + exact demo_installs.
Defined.

(** ** The identity map is kept by the operations *)

(** *** Addresses and their pages *)

Lemma clear_offset_testbit (a i : N) :
  N.testbit (EPT_Address.clear_offset a) i = (12 <=? i) && N.testbit a i.
Proof.
  unfold EPT_Address.clear_offset. rewrite set_bitfield_testbit.
  change (0 + 12) with 12. rewrite N.bits_0.
  replace (0 <=? i) with true by (symmetry; apply N.leb_le; lia).
  destruct (N.leb_spec 12 i), (N.ltb_spec i 12); simpl; try lia; reflexivity.
Qed.

Lemma testbit_high (a i : N) : a < 2 ^ 48 → 48 <= i → N.testbit a i = false.
Proof.
  intros Ha Hi. destruct (N.eq_dec a 0) as [->|Hne]; [apply N.bits_0|].
  apply N.bits_above_log2. apply N.log2_lt_pow2; [lia|].
  eapply N.lt_le_trans; [exact Ha|]. apply N.pow_le_mono_r; lia.
Qed.

Lemma field_testbit (lo a b i : N) :
  bitfield lo 9 a = bitfield lo 9 b → lo <= i → i < lo + 9 →
  N.testbit a i = N.testbit b i.
Proof.
  intros E Hlo Hhi.
  assert (H : N.testbit (bitfield lo 9 a) (i - lo)
              = N.testbit (bitfield lo 9 b) (i - lo)) by now rewrite E.
  rewrite !bitfield_testbit in H.
  replace (i - lo + lo) with i in H by lia.
  replace (i - lo <? 9) with true in H by (symmetry; apply N.ltb_lt; lia).
  now rewrite !Bool.andb_true_r in H.
Qed.

(** Below 2^48 the four indices of the walk name the page. *)
Lemma same_page (a b : N) :
  a < 2 ^ 48 → b < 2 ^ 48 →
  EPT_Address.pml4Entry a = EPT_Address.pml4Entry b →
  EPT_Address.pdptEntry a = EPT_Address.pdptEntry b →
  EPT_Address.pdEntry a = EPT_Address.pdEntry b →
  EPT_Address.ptEntry a = EPT_Address.ptEntry b →
  EPT_Address.clear_offset a = EPT_Address.clear_offset b.
Proof.
  unfold EPT_Address.pml4Entry, EPT_Address.pdptEntry, EPT_Address.pdEntry,
    EPT_Address.ptEntry.
  intros Ha Hb E4 E3 E2 E1. apply N.bits_inj; intro i.
  rewrite !clear_offset_testbit.
  destruct (N.leb_spec 12 i) as [H12|H12]; simpl; [|reflexivity].
  destruct (N.lt_ge_cases i 21); [now apply (field_testbit 12)|].
  destruct (N.lt_ge_cases i 30); [now apply (field_testbit 21)|].
  destruct (N.lt_ge_cases i 39); [now apply (field_testbit 30)|].
  destruct (N.lt_ge_cases i 48); [now apply (field_testbit 39)|].
  now rewrite !testbit_high.
Qed.

Lemma clear_offset_aligned (a : N) :
  EPT_Address.offset a = 0 → EPT_Address.clear_offset a = a.
Proof.
  intros H. apply N.bits_inj; intro i. rewrite clear_offset_testbit.
  destruct (N.leb_spec 12 i); simpl; [reflexivity|].
  assert (E : N.testbit (EPT_Address.offset a) i = N.testbit 0 i) by now rewrite H.
  unfold EPT_Address.offset in E. rewrite bitfield_testbit, N.bits_0 in E.
  replace (i + 0) with i in E by lia.
  replace (i <? 12) with true in E by (symmetry; apply N.ltb_lt; lia).
  now rewrite Bool.andb_true_r in E.
Qed.

Lemma frameOf_clear_offset (a : N) : frameOf (EPT_Address.clear_offset a) = frameOf a.
Proof.
  unfold frameOf, EPT_Address.pageFrameNumber4KB, EPT_Address.clear_offset.
  now rewrite bitfield_set_other by lia.
Qed.

(** The frame of a 4 KiB page within its 2 MiB page. *)
Lemma pageFrameNumber_split (a : N) :
  a < 2 ^ 48 →
  N.land (EPT_PT_ENTRIES * EPT_Address.pageFrameNumber2MB a
          + N.of_nat (N.to_nat (EPT_Address.ptEntry a))) (N.ones 40)
  = frameOf a.
Proof.
  intros Ha. rewrite N2Nat.id.
  unfold frameOf, EPT_Address.pageFrameNumber2MB, EPT_Address.pageFrameNumber4KB,
    EPT_Address.ptEntry, EPT_PT_ENTRIES.
  f_equal. rewrite !bitfield_div_mod.
  change (2 ^ 21) with (2 ^ 12 * 512). change (2 ^ 9) with 512.
  rewrite <- N.Div0.div_div.
  set (x := a / 2 ^ 12).
  assert (Hx : x < 2 ^ 36).
  { unfold x. apply N.Div0.div_lt_upper_bound. exact Ha. }
  assert (Hq : x / 512 <= x) by (apply N.Div0.div_le_upper_bound; lia).
  assert (H43 : 2 ^ 36 < 2 ^ 43) by reflexivity.
  assert (H52 : 2 ^ 36 < 2 ^ 52) by reflexivity.
  rewrite (N.mod_small (x / 512)) by lia.
  rewrite (N.mod_small x (2 ^ 52)) by lia.
  rewrite (N.div_mod x 512) at 3 by discriminate. reflexivity.
Qed.

Lemma frameOf_same_page (a b : N) :
  EPT_Address.clear_offset a = EPT_Address.clear_offset b → frameOf a = frameOf b.
Proof.
  intros E. rewrite <- (frameOf_clear_offset a), <- (frameOf_clear_offset b).
  now rewrite E.
Qed.

Lemma pageFrameNumber2MB_testbit (a i : N) :
  N.testbit (EPT_Address.pageFrameNumber2MB a) i = N.testbit a (i + 21) && (i <? 43).
Proof. apply bitfield_testbit. Qed.

(** Below 2^48 the three upper indices name the 2 MiB page. *)
Lemma same_large_page (a b : N) :
  a < 2 ^ 48 → b < 2 ^ 48 →
  EPT_Address.pml4Entry a = EPT_Address.pml4Entry b →
  EPT_Address.pdptEntry a = EPT_Address.pdptEntry b →
  EPT_Address.pdEntry a = EPT_Address.pdEntry b →
  EPT_Address.pageFrameNumber2MB a = EPT_Address.pageFrameNumber2MB b.
Proof.
  unfold EPT_Address.pml4Entry, EPT_Address.pdptEntry, EPT_Address.pdEntry.
  intros Ha Hb E4 E3 E2. apply N.bits_inj; intro i.
  rewrite !pageFrameNumber2MB_testbit. f_equal.
  destruct (N.lt_ge_cases (i + 21) 30); [apply (field_testbit 21); [assumption|lia..]|].
  destruct (N.lt_ge_cases (i + 21) 39); [now apply (field_testbit 30)|].
  destruct (N.lt_ge_cases (i + 21) 48); [now apply (field_testbit 39)|].
  now rewrite !testbit_high.
Qed.

(** The walk to the page directory looks at the two upper indices only. *)
Lemma EPT_pageDirectory_indices (c : Context_LogicalCore) (a b : N) :
  EPT_Address.pml4Entry a = EPT_Address.pml4Entry b →
  EPT_Address.pdptEntry a = EPT_Address.pdptEntry b →
  EPT_pageDirectory c a = EPT_pageDirectory c b.
Proof. unfold EPT_pageDirectory. now intros -> ->. Qed.

Lemma EPT_leaf_unfold (c : Context_LogicalCore) (a pd : N) :
  EPT_pageDirectory c a = Returns pd →
  EPT_leaf c a
  = if EPT_PdE2MB.isLargePage (readq (memory c) pd (EPT_Address.pdEntry a)) =? 1
    then None
    else page ← memory c !! EPT_PagingStructure.pageFrameNumber
                   (readq (memory c) pd (EPT_Address.pdEntry a));
         page !! N.to_nat (EPT_Address.ptEntry a).
Proof. unfold EPT_leaf. now intros ->. Qed.

Lemma EPT_leaf_Some (c : Context_LogicalCore) (a pte : N) :
  EPT_leaf c a = Some pte →
  ∃ pd page,
    EPT_pageDirectory c a = Returns pd
    ∧ EPT_PdE2MB.isLargePage (readq (memory c) pd (EPT_Address.pdEntry a)) ≠ 1
    ∧ memory c !! EPT_PagingStructure.pageFrameNumber
                    (readq (memory c) pd (EPT_Address.pdEntry a)) = Some page
    ∧ page !! N.to_nat (EPT_Address.ptEntry a) = Some pte.
Proof.
  unfold EPT_leaf. destruct (EPT_pageDirectory c a) as [pd|]; [|discriminate].
  destruct (N.eqb_spec (EPT_PdE2MB.isLargePage
    (readq (memory c) pd (EPT_Address.pdEntry a))) 1) as [|Hsmall]; [discriminate|].
  intros H. apply bind_Some in H as (page & Hpage & Hpte).
  exists pd, page. split; [reflexivity|]. split; [assumption|].
  split; assumption.
Qed.

Lemma recorded_same_page (l : list Context_EptChangedMapping) (a b : N) :
  EPT_Address.clear_offset a = EPT_Address.clear_offset b →
  recorded l a → recorded l b.
Proof. intros E (m & Hin & Hv & Hg). exists m. now rewrite <- E. Qed.

Lemma identityLeaf_same_page (a b pte : N) :
  EPT_Address.clear_offset a = EPT_Address.clear_offset b →
  identityLeaf a pte → identityLeaf b pte.
Proof.
  intros E (Hp & Hr). split; [|assumption].
  now rewrite <- (frameOf_same_page a b E).
Qed.

(** *** Leaves, splits and steps *)

Lemma EPT_pageDirectory_in (pdpts pds pts : list N) (c : Context_LogicalCore)
    (a pd : N) :
  EPT_wf pdpts pds pts c → EPT_pageDirectory c a = Returns pd → pd ∈ pds.
Proof.
  intros Hwf H. apply EPT_pageDirectory_Returns in H.
  now apply (walk_wf _ _ _ _ Hwf) in H.
Qed.

(** The properties of the directories look at the walk and at the entries
    of the page directories only. *)
Lemma directories_ext (c c' : Context_LogicalCore) :
  (∀ a, EPT_pageDirectory c' a = EPT_pageDirectory c a) →
  (∀ a pd, EPT_pageDirectory c a = Returns pd →
     readq (memory c') pd (EPT_Address.pdEntry a)
     = readq (memory c) pd (EPT_Address.pdEntry a)) →
  directories_injective c → tables_injective c → large_pages_identity c →
  directories_injective c' ∧ tables_injective c' ∧ large_pages_identity c'.
Proof.
  intros Hpd Hpde H1 H2 H3. split; [|split].
  - intros a b pd Ha Hb Hpa Hpb. rewrite Hpd in Hpa, Hpb.
    exact (H1 a b pd Ha Hb Hpa Hpb).
  - intros a b pda pdb Ha Hb Hpa Hpb. rewrite Hpd in Hpa, Hpb.
    rewrite (Hpde _ _ Hpa), (Hpde _ _ Hpb). apply H2; assumption.
  - intros a pd Ha Hpa. rewrite Hpd in Hpa. rewrite (Hpde _ _ Hpa).
    now apply H3.
Qed.

Section IdentityKept.
Context (pdpts pds pts : list N) (c : Context_LogicalCore).
Hypothesis Hwf : EPT_wf pdpts pds pts c.
Hypothesis Hid : EPT_identity c.

(** Two addresses below 2^48 that reach the same slot of the same page
    table are in the same page. *)
Lemma same_leaf_same_page (a b pda pdb : N) :
  a < 2 ^ 48 → b < 2 ^ 48 →
  EPT_pageDirectory c a = Returns pda → EPT_pageDirectory c b = Returns pdb →
  EPT_PdE2MB.isLargePage (readq (memory c) pda (EPT_Address.pdEntry a)) ≠ 1 →
  EPT_PdE2MB.isLargePage (readq (memory c) pdb (EPT_Address.pdEntry b)) ≠ 1 →
  EPT_PagingStructure.pageFrameNumber
    (readq (memory c) pda (EPT_Address.pdEntry a))
  = EPT_PagingStructure.pageFrameNumber
      (readq (memory c) pdb (EPT_Address.pdEntry b)) →
  EPT_Address.ptEntry a = EPT_Address.ptEntry b →
  EPT_Address.clear_offset a = EPT_Address.clear_offset b.
Proof.
  intros Ha Hb Hpa Hpb Hsa Hsb Ept E1.
  destruct (id_tables _ Hid a b pda pdb Ha Hb Hpa Hpb Hsa Hsb Ept) as [<- E2].
  destruct (id_directories _ Hid a b pda Ha Hb Hpa Hpb) as [E4 E3].
  now apply same_page.
Qed.

(** Storing a leaf for [a], together with a change of the table that
    accounts for it. *)
Lemma leaf_write_identity (a pd value : N) (l : list Context_EptChangedMapping) :
  a < 2 ^ 48 →
  EPT_pageDirectory c a = Returns pd →
  EPT_PdE2MB.isLargePage (readq (memory c) pd (EPT_Address.pdEntry a)) ≠ 1 →
  identityLeaf a value ∨ recorded l a →
  (∀ b, recorded (changedMappings c) b →
        EPT_Address.clear_offset b ≠ EPT_Address.clear_offset a → recorded l b) →
  keys_in_range l →
  EPT_identity
    (set_changedMappings l
       (set_memory
          (writeq (memory c)
             (EPT_PagingStructure.pageFrameNumber
                (readq (memory c) pd (EPT_Address.pdEntry a)))
             (EPT_Address.ptEntry a) value) c)).
Proof.
  intros Ha Hpa Hsa Hvalue Hkeep Hkeys.
  set (pt := EPT_PagingStructure.pageFrameNumber
               (readq (memory c) pd (EPT_Address.pdEntry a))).
  set (mem' := writeq (memory c) pt (EPT_Address.ptEntry a) value).
  destruct (mapped_pt _ _ _ _ Hwf _ _ Hpa Hsa) as [Hpdin Hused].
  pose proof (usedFrames_arena _ _ _ Hused) as Hpt. fold pt in Hpt.
  destruct (wf_arena_separate _ _ _ _ Hwf _ Hpt) as (_ & _ & Hptpd).
  assert (Hpd : ∀ b, EPT_pageDirectory
                       (set_changedMappings l (set_memory mem' c)) b
                     = EPT_pageDirectory c b).
  { intros b.
    change (EPT_pageDirectory (set_changedMappings l (set_memory mem' c)) b)
      with (EPT_pageDirectory (set_memory mem' c) b).
    apply (EPT_pageDirectory_evolves pdpts pds pts c Hwf).
    now apply (leaf_write_evolves pdpts pds pts). }
  assert (Hpde : ∀ b pdb, EPT_pageDirectory c b = Returns pdb →
            readq mem' pdb (EPT_Address.pdEntry b)
            = readq (memory c) pdb (EPT_Address.pdEntry b)).
  { intros b pdb Hpb. apply readq_writeq_ne_frame.
    intros E. apply Hptpd. rewrite E.
    exact (EPT_pageDirectory_in _ _ _ _ _ _ Hwf Hpb). }
  destruct (directories_ext c (set_changedMappings l (set_memory mem' c)) Hpd Hpde
              (id_directories _ Hid) (id_tables _ Hid) (id_large _ Hid))
    as (H1 & H2 & H3).
  split; try assumption.
  intros b pte Hb Hleaf. simpl.
  destruct (decide (EPT_Address.clear_offset b = EPT_Address.clear_offset a))
    as [Esame|Hother].
  - (* the leaf that was stored *)
    assert (Hv : pte = value).
    { rewrite <- EPT_leaf_clear_offset, Esame, EPT_leaf_clear_offset in Hleaf.
      rewrite (EPT_leaf_unfold _ _ pd) in Hleaf by (now rewrite Hpd).
      change (memory (set_changedMappings l (set_memory mem' c))) with mem'
        in Hleaf.
      rewrite (Hpde _ _ Hpa) in Hleaf.
      destruct (N.eqb_spec (EPT_PdE2MB.isLargePage
        (readq (memory c) pd (EPT_Address.pdEntry a))) 1); [contradiction|].
      fold pt in Hleaf. unfold mem' in Hleaf.
      rewrite lookup_writeq in Hleaf. destruct (decide (pt = pt)); [|congruence].
      destruct (wf_arena_page _ _ _ _ Hwf _ Hpt) as (_ & page & Hpage & Hplen).
      rewrite Hpage in Hleaf. simpl in Hleaf.
      rewrite list_lookup_insert_eq in Hleaf
        by (rewrite Hplen; apply index9_lt).
      congruence. }
    subst pte.
    destruct Hvalue as [Hident|Hrec].
    + left. now apply (identityLeaf_same_page a b).
    + right. now apply (recorded_same_page l a b).
  - (* another leaf *)
    destruct (EPT_leaf_Some _ _ _ Hleaf) as (pdb & page & Hpb & Hsb & Hpage & Hpte).
    rewrite Hpd in Hpb.
    change (memory (set_changedMappings l (set_memory mem' c))) with mem'
      in Hsb, Hpage.
    rewrite (Hpde _ _ Hpb) in Hsb, Hpage.
    assert (Hold : EPT_leaf c b = Some pte).
    { rewrite (EPT_leaf_unfold _ _ pdb Hpb).
      destruct (N.eqb_spec (EPT_PdE2MB.isLargePage
        (readq (memory c) pdb (EPT_Address.pdEntry b))) 1); [contradiction|].
      unfold mem' in Hpage. rewrite lookup_writeq in Hpage.
      destruct (decide _) as [Ept|_]; [|now rewrite Hpage].
      destruct (memory c !! EPT_PagingStructure.pageFrameNumber
                  (readq (memory c) pdb (EPT_Address.pdEntry b)))
        as [page0|] eqn:Hpage0; [|discriminate].
      simpl in Hpage. injection Hpage as <-. simpl.
      rewrite list_lookup_insert_ne in Hpte; [assumption|].
      intros E. apply Hother. symmetry.
      apply (same_leaf_same_page a b pd pdb); try assumption.
      now apply N2Nat.inj. }
    destruct (id_leaves _ Hid b pte Hb Hold) as [Hident|Hrec]; [now left|right].
    now apply Hkeep.
Qed.

End IdentityKept.

Section SplitIdentity.
Context (pdpts pds pts : list N) (c c' : Context_LogicalCore).
Hypothesis Hwf : EPT_wf pdpts pds pts c.
Hypothesis Hid : EPT_identity c.
Context (a pd : N).
Hypothesis Ha : a < 2 ^ 48.
Hypothesis Hpa : EPT_pageDirectory c a = Returns pd.
Hypothesis Hlarge :
  EPT_PdE2MB.isLargePage (readq (memory c) pd (EPT_Address.pdEntry a)) = 1.
Hypothesis Hsplit : splitPage c pd (EPT_Address.pdEntry a) = (STATUS_SUCCESS, c').

Local Abbreviation slot :=
  (EPT_Address.pageFrameNumber4KB (splitBuffer c !!! N.to_nat (noOfUsedSplits c))).

Lemma split_slot_unused : slot ∉ usedTables pts c.
Proof.
  pose proof (wf_separate _ _ _ _ Hwf) as Hnd.
  apply NoDup_cons in Hnd as [_ Hnd].
  apply NoDup_app in Hnd as (_ & _ & Hnd).
  apply NoDup_app in Hnd as (_ & _ & Hnd).
  unfold tableFrames in Hnd.
  apply NoDup_app in Hnd as (_ & Hdisjoint & Hnd).
  pose proof (split_slot_lookup _ _ _ _ _ Hwf _ _ Hsplit) as Hslot.
  unfold usedTables. intros Hin. apply elem_of_app in Hin as [Hin|Hin].
  - apply (Hdisjoint _ Hin). now apply list_elem_of_lookup_2 in Hslot.
  - apply list_elem_of_lookup in Hin as [j Hj].
    apply lookup_take_Some in Hj as [Hj Hlt].
    pose proof (NoDup_lookup _ _ _ _ Hnd Hj Hslot). lia.
Qed.

Lemma split_pd_in : pd ∈ pds.
Proof. exact (EPT_pageDirectory_in _ _ _ _ _ _ Hwf Hpa). Qed.

Lemma split_pageDirectory (b : N) :
  EPT_pageDirectory c' b = EPT_pageDirectory c b.
Proof.
  apply (EPT_pageDirectory_evolves pdpts pds pts c Hwf).
  exact (split_evolves _ _ _ _ _ Hwf _ _ split_pd_in Hsplit Hlarge).
Qed.

(** The entries of the page directories after the split. *)
Lemma split_pde (b pdb : N) :
  EPT_pageDirectory c b = Returns pdb →
  (pdb = pd ∧ EPT_Address.pdEntry b = EPT_Address.pdEntry a
   ∧ readq (memory c') pdb (EPT_Address.pdEntry b)
     = EPT_PagingStructure.make true true true slot)
  ∨ ((pdb ≠ pd ∨ EPT_Address.pdEntry b ≠ EPT_Address.pdEntry a)
     ∧ readq (memory c') pdb (EPT_Address.pdEntry b)
       = readq (memory c) pdb (EPT_Address.pdEntry b)).
Proof.
  intros Hpb.
  pose proof (EPT_pageDirectory_in _ _ _ _ _ _ Hwf Hpb) as Hin.
  pose proof (split_slot_arena _ _ _ _ _ Hwf _ _ Hsplit) as Hslot.
  destruct (wf_arena_separate _ _ _ _ Hwf _ Hslot) as (_ & _ & Hs2).
  destruct (decide (pdb = pd)) as [->|Hne].
  - destruct (decide (EPT_Address.pdEntry b = EPT_Address.pdEntry a)) as [E|Hi].
    + left. split; [reflexivity|]. split; [assumption|]. rewrite E.
      apply (split_readq_new _ _ _ _ _ Hwf _ _ Hin Hsplit).
      apply index9_lt_512.
    + right. split; [now right|].
      now apply (split_readq_pde _ _ _ _ _ Hwf _ _ Hin Hsplit).
  - right. split; [now left|]. unfold readq.
    rewrite (split_lookup_ne _ _ _ _ Hsplit); [reflexivity|assumption|].
    congruence.
Qed.

Lemma split_slot_fits : slot < 2 ^ 40.
Proof.
  exact (proj1 (wf_arena_page _ _ _ _ Hwf _ (split_slot_arena _ _ _ _ _ Hwf _ _ Hsplit))).
Qed.

Lemma split_identity : EPT_identity c'.
Proof.
  pose proof split_slot_unused as Hunused.
  pose proof split_slot_fits as Hfits.
  assert (Hcm : changedMappings c' = changedMappings c)
    by (rewrite (split_result _ _ _ _ Hsplit); reflexivity).
  split.
  - intros x y pdx Hx Hy Hpx Hpy. rewrite split_pageDirectory in Hpx, Hpy.
    exact (id_directories _ Hid x y pdx Hx Hy Hpx Hpy).
  - intros x y pdx pdy Hx Hy Hpx Hpy. rewrite split_pageDirectory in Hpx, Hpy.
    destruct (split_pde x pdx Hpx) as [(-> & Ex & ->)|(Hox & ->)],
             (split_pde y pdy Hpy) as [(-> & Ey & ->)|(Hoy & ->)].
    + intros _ _ _. split; [reflexivity|congruence].
    + intros _ Hsy E. exfalso. apply Hunused.
      rewrite PagingStructure_make_pageFrameNumber in E by assumption.
      rewrite E. exact (proj2 (mapped_pt _ _ _ _ Hwf _ _ Hpy Hsy)).
    + intros Hsx _ E. exfalso. apply Hunused.
      rewrite PagingStructure_make_pageFrameNumber in E by assumption.
      rewrite <- E. exact (proj2 (mapped_pt _ _ _ _ Hwf _ _ Hpx Hsx)).
    + now apply (id_tables _ Hid).
  - intros x pdx Hx Hpx. rewrite split_pageDirectory in Hpx.
    destruct (split_pde x pdx Hpx) as [(-> & Ex & ->)|(Hox & ->)].
    + rewrite PagingStructure_make_isLargePage. discriminate.
    + now apply (id_large _ Hid).
  - intros x pte Hx Hleaf. rewrite Hcm.
    destruct (EPT_leaf_Some _ _ _ Hleaf) as (pdx & page & Hpx & Hsx & Hpage & Hpte).
    rewrite split_pageDirectory in Hpx.
    destruct (split_pde x pdx Hpx) as [(-> & Ex & E)|(Hox & E)];
      rewrite E in Hsx, Hpage.
    + (* a leaf of the new page table *)
      left.
      rewrite PagingStructure_make_pageFrameNumber in Hpage by assumption.
      rewrite (split_lookup_slot _ _ _ _ _ Hwf _ _ split_pd_in Hsplit) in Hpage.
      injection Hpage as <-.
      rewrite lookup_splitPage_table in Hpte by apply index9_lt.
      injection Hpte as <-.
      destruct (PtE_make_fields true true true
                  (EPT_PdE2MB.memoryType
                     (readq (memory c) pd (EPT_Address.pdEntry a)))
                  (EPT_PT_ENTRIES
                   * EPT_PdE2MB.pageFrameNumber
                       (readq (memory c) pd (EPT_Address.pdEntry a))
                   + N.of_nat (N.to_nat (EPT_Address.ptEntry x))))
        as (Fr & Fw & Ff & _ & Fp).
      split; [|now repeat split].
      rewrite Fp, (id_large _ Hid a pd Ha Hpa Hlarge).
      destruct (id_directories _ Hid x a pd Hx Ha Hpx Hpa) as [E4 E3].
      rewrite <- (same_large_page x a Hx Ha E4 E3 Ex).
      now apply pageFrameNumber_split.
    + (* a leaf that was there before *)
      destruct (mapped_pt _ _ _ _ Hwf _ _ Hpx Hsx) as [Hpdx Hused].
      rewrite (split_lookup_ne _ _ _ _ Hsplit) in Hpage.
      * apply (id_leaves _ Hid x pte Hx).
        rewrite (EPT_leaf_unfold _ _ pdx Hpx).
        destruct (N.eqb_spec (EPT_PdE2MB.isLargePage
          (readq (memory c) pdx (EPT_Address.pdEntry x))) 1); [contradiction|].
        rewrite Hpage. exact Hpte.
      * intros Epd.
        destruct (wf_arena_separate _ _ _ _ Hwf _ (usedFrames_arena _ _ _ Hused))
          as (_ & _ & H2).
        apply H2. rewrite Epd. exact split_pd_in.
      * intros Eslot. apply Hunused. now rewrite <- Eslot.
  - rewrite Hcm. exact (id_keys _ Hid).
Qed.

End SplitIdentity.

Lemma EPT_traverse_identity (pdpts pds pts : list N) (c : Context_LogicalCore)
    (a : N) (cs : Context_LogicalCore) (pd : N) :
  EPT_wf pdpts pds pts c → EPT_identity c → a < 2 ^ 48 →
  EPT_traverse c a = Returns (STATUS_SUCCESS, cs, pd) →
  EPT_identity cs.
Proof.
  intros Hwf Hid Ha Ht. unfold EPT_traverse in Ht.
  apply bind_Returns in Ht as (pd' & Hpa & Ht).
  destruct (N.eqb_spec (EPT_PdE2MB.isLargePage
    (readq (memory c) pd' (EPT_Address.pdEntry a))) 1) as [Hlarge|Hsmall].
  - destruct (splitPage c pd' (EPT_Address.pdEntry a)) as [st c1] eqn:Hsplit.
    injection Ht as -> -> ->.
    exact (split_identity pdpts pds pts c cs Hwf Hid a pd Ha Hpa Hlarge Hsplit).
  - now injection Ht as <- <-.
Qed.

(** [EPT_changeMapping] for [a], followed by a change of the table that
    accounts for the leaf it stores. *)
Lemma EPT_changeMapping_identity (pdpts pds pts : list N) (c : Context_LogicalCore)
    (a targetAddress : N) (rw fetch : bool) (c' : Context_LogicalCore)
    (l : list Context_EptChangedMapping) :
  EPT_wf pdpts pds pts c → EPT_identity c → a < 2 ^ 48 →
  EPT_changeMapping c a targetAddress rw fetch = Returns (STATUS_SUCCESS, c') →
  (targetAddress = a ∧ rw = true ∧ fetch = true) ∨ recorded l a →
  (∀ b, recorded (changedMappings c) b →
        EPT_Address.clear_offset b ≠ EPT_Address.clear_offset a → recorded l b) →
  keys_in_range l →
  EPT_identity (set_changedMappings l c').
Proof.
  intros Hwf Hid Ha Hcm Hvalue Hkeep Hkeys.
  destruct (EPT_changeMapping_wf _ _ _ _ _ _ _ _ _ Hwf Hcm)
    as (cs & pd & pt & pte0 & Hch).
  destruct Hch as [Ht Hpd _ -> _ _ -> Hwfs _ _ _ _ _ _ Hleafs _ Htable].
  pose proof (EPT_traverse_identity _ _ _ _ _ _ _ Hwf Hid Ha Ht) as Hids.
  destruct (EPT_leaf_Some _ _ _ Hleafs) as (pd' & _ & Hpd' & Hsmall & _).
  rewrite Hpd in Hpd'. injection Hpd' as <-.
  apply (leaf_write_identity pdpts pds pts cs Hwfs Hids); try assumption.
  - destruct Hvalue as [(-> & -> & ->)|Hrec]; [left|now right].
    destruct (changedPte_fields a true true pte0) as (Pp & Pr & Pw & Pf & _).
    split; [exact Pp|]. now repeat split.
  - now rewrite Htable.
Qed.

Lemma set_changedMappings_id (c : Context_LogicalCore) :
  set_changedMappings (changedMappings c) c = c.
Proof. now destruct c. Qed.

Lemma recorded_lookup (l : list Context_EptChangedMapping) (a : N) :
  recorded l a
  ↔ ∃ j m, (j < 32)%nat ∧ l !! j = Some m ∧ valid m = true
           ∧ guestAddress m = EPT_Address.clear_offset a.
Proof.
  unfold recorded. change (N.to_nat CONTEXT_EPT_MAX_MAPPINGS) with 32%nat.
  split.
  - intros (m & Hin & Hv & Hg). apply list_elem_of_lookup in Hin as [j Hj].
    apply lookup_take_Some in Hj as [Hj Hlt]. now exists j, m.
  - intros (j & m & Hlt & Hj & Hv & Hg). exists m. split; [|now split].
    apply list_elem_of_lookup. exists j. now rewrite lookup_take_lt.
Qed.

Lemma keys_in_range_lookup (l : list Context_EptChangedMapping) :
  keys_in_range l
  ↔ ∀ j m, (j < 32)%nat → l !! j = Some m → valid m = true →
           guestAddress m < 2 ^ 48 ∧ EPT_Address.offset (guestAddress m) = 0.
Proof.
  unfold keys_in_range. change (N.to_nat CONTEXT_EPT_MAX_MAPPINGS) with 32%nat.
  rewrite Forall_lookup. split.
  - intros H j m Hlt Hj. apply (H j). now rewrite lookup_take_lt.
  - intros H j m Hj. apply lookup_take_Some in Hj as [Hj Hlt]. now apply (H j).
Qed.

(** The identity map is kept by every step of a guest whose installs are
    for addresses below 2^48. *)
Lemma step_in_range_identity (pdpts pds pts : list N) (c c' : Context_LogicalCore) :
  EPT_wf pdpts pds pts c → EPT_identity c → step_in_range c c' → EPT_identity c'.
Proof.
  intros Hwf Hid Hstep.
  pose proof (proj1 (keys_in_range_lookup _) (id_keys _ Hid)) as Hkeys.
  destruct Hstep as [c RDX R8 R9 RAX c' Hlt H|c RDX RAX c' H|c q gpa c' H].
  - apply vmCallMapPage_cases in H
      as [[_ ->]|(_ & Ho & _ & _ & _ & i & m0 & c1 & Hsel & Hcm & ->)];
      [assumption|].
    apply selectIndex_Some in Hsel as (Hi & Hm0 & Hv0 & _).
    apply (EPT_changeMapping_identity pdpts pds pts c RDX RDX false false);
      try assumption.
    + right. apply recorded_lookup. exists i, (newMapping RDX R8 R9).
      split; [assumption|]. split.
      { apply list_lookup_insert_eq. exact (lookup_lt_Some _ _ _ Hm0). }
      split; [reflexivity|]. simpl. symmetry. now apply clear_offset_aligned.
    + intros b Hrec _. apply recorded_lookup in Hrec as (j & m & Hj & Hm & Hv & Hg).
      apply recorded_lookup. exists j, m. split; [assumption|].
      split; [|now split].
      rewrite list_lookup_insert_ne; [assumption|]. intros <-. congruence.
    + apply keys_in_range_lookup. intros j m Hj Hm Hv.
      apply list_lookup_insert_Some in Hm as [(_ & <- & _)|[_ Hm]].
      * now split.
      * now apply (Hkeys j).
  - apply vmCallUnmapPage_cases in H
      as [[_ ->]|(_ & i & m & c1 & Hfind & Hcm & ->)]; [assumption|].
    apply findMapping_Some in Hfind as (Hi & Hm & Hv & Hg).
    destruct (Hkeys i m Hi Hm Hv) as [Hrange Haligned]. rewrite Hg in *.
    apply (EPT_changeMapping_identity pdpts pds pts c RDX RDX true true);
      try assumption.
    + now left.
    + intros b Hrec Hother.
      apply recorded_lookup in Hrec as (j & n & Hj & Hn & Hvn & Hgn).
      apply recorded_lookup. exists j, n. split; [assumption|].
      split; [|now split].
      rewrite list_lookup_insert_ne; [assumption|]. intros <-.
      apply Hother. rewrite <- Hgn.
      rewrite Hm in Hn. injection Hn as <-.
      rewrite Hg. symmetry. now apply clear_offset_aligned.
    + apply keys_in_range_lookup. intros j n Hj Hn Hvn.
      apply list_lookup_insert_Some in Hn as [(_ & <- & _)|[_ Hn]].
      * discriminate.
      * now apply (Hkeys j).
  - apply eptViolationHandler_cases in H
      as (i & m & target & rw & fetch & st & Hfind & Hcm).
    apply findMapping_Some in Hfind as (Hi & Hm & Hv & Hg).
    destruct (Hkeys i m Hi Hm Hv) as [Hrange Haligned].
    destruct (EPT_changeMapping_cases _ _ _ _ _ _ _ Hcm) as [[_ ->]| ->];
      [assumption|].
    rewrite <- (set_changedMappings_id c').
    rewrite (EPT_changeMapping_changedMappings _ _ _ _ _ _ _ Hcm).
    apply (EPT_changeMapping_identity pdpts pds pts c (guestAddress m) target rw fetch);
      try assumption.
    + right. apply recorded_lookup. exists i, m.
      split; [assumption|]. split; [assumption|]. split; [assumption|].
      symmetry. now apply clear_offset_aligned.
    + now intros b Hrec _.
    + exact (id_keys _ Hid).
Qed.

Lemma step_in_range_step (c c' : Context_LogicalCore) :
  step_in_range c c' → step c c'.
Proof.
  intros [c0 RDX R8 R9 RAX c1 _ H|c0 RDX RAX c1 H|c0 q gpa c1 H].
  - exact (step_map _ _ _ _ _ _ H).
  - exact (step_unmap _ _ _ _ H).
  - exact (step_violation _ _ _ _ H).
Qed.

Lemma rtc_step_in_range_identity (pdpts pds pts : list N)
    (c c' : Context_LogicalCore) :
  rtc step_in_range c c' → EPT_wf pdpts pds pts c → EPT_identity c →
  EPT_wf pdpts pds pts c' ∧ EPT_identity c'.
Proof.
  induction 1 as [c|c c1 c2 Hstep _ IH]; intros Hwf Hid; [now split|].
  apply IH.
  - exact (proj1 (step_EPT_wf _ _ _ _ _ Hwf (step_in_range_step _ _ Hstep))).
  - exact (step_in_range_identity _ _ _ _ _ Hwf Hid Hstep).
Qed.

(** *** The demonstration core is an identity map *)

Lemma field_zero_testbit (lo a i : N) :
  bitfield lo 9 a = 0 → lo <= i → i < lo + 9 → N.testbit a i = false.
Proof.
  intros E Hlo Hhi. rewrite (field_testbit lo a 0 i); [apply N.bits_0| |lia|lia].
  now rewrite bitfield_0.
Qed.

(** In the first 1 GiB the frame of a 2 MiB page is its index in the page
    directory. *)
Lemma pageFrameNumber2MB_first (a : N) :
  a < 2 ^ 48 → EPT_Address.pml4Entry a = 0 → EPT_Address.pdptEntry a = 0 →
  EPT_Address.pageFrameNumber2MB a = EPT_Address.pdEntry a.
Proof.
  unfold EPT_Address.pml4Entry, EPT_Address.pdptEntry.
  intros Ha E4 E3. apply N.bits_inj; intro i.
  rewrite pageFrameNumber2MB_testbit. unfold EPT_Address.pdEntry.
  rewrite bitfield_testbit.
  destruct (N.ltb_spec i 9) as [H9|H9].
  - replace (i <? 43) with true by (symmetry; apply N.ltb_lt; lia). reflexivity.
  - rewrite Bool.andb_false_r.
    assert (Hbit : N.testbit a (i + 21) = false).
    { destruct (N.lt_ge_cases (i + 21) 39);
        [apply (field_zero_testbit 30); [assumption|lia..]|].
      destruct (N.lt_ge_cases (i + 21) 48);
        [apply (field_zero_testbit 39); [assumption|lia..]|].
      now apply testbit_high. }
    now rewrite Hbit.
Qed.

Lemma demo_pml4 :
  demo_memory !! 1
  = Some (<[0%nat := EPT_PagingStructure.make true true true 2]> (replicate 512 0)).
Proof. vm_compute. reflexivity. Qed.

Lemma demo_pdpt :
  demo_memory !! 2
  = Some (<[0%nat := EPT_PagingStructure.make true true true 3]> (replicate 512 0)).
Proof. vm_compute. reflexivity. Qed.

Lemma demo_pd :
  demo_memory !! 3
  = Some ((λ i : nat, EPT_PdE2MB.make true true true true 6 (N.of_nat i))
          <$> seq 0 512).
Proof. vm_compute. reflexivity. Qed.

(** A directory page with one entry, read at [index]. *)
Lemma readq_single (mem : gmap N (list N)) (frame e index : N) :
  mem !! frame = Some (<[0%nat := e]> (replicate 512 0)) →
  readq mem frame index = if decide (index = 0) then e else 0.
Proof.
  intros H. rewrite (readq_lookup _ _ _ _ H).
  destruct (decide (index = 0)) as [->|Hne]; [reflexivity|].
  rewrite list_lookup_insert_ne by lia.
  destruct (replicate 512 0 !! N.to_nat index) as [x|] eqn:E; [|reflexivity].
  now apply lookup_replicate in E as [-> _].
Qed.

Lemma demo_pageDirectory (a pd : N) :
  EPT_pageDirectory demo_core a = Returns pd →
  pd = 3 ∧ EPT_Address.pml4Entry a = 0 ∧ EPT_Address.pdptEntry a = 0.
Proof.
  intros H. apply EPT_pageDirectory_Returns in H. unfold walk in H.
  change (memory demo_core) with demo_memory in H.
  change (pml4Frame demo_core) with 1 in H.
  rewrite demo_pml4, (readq_single _ _ _ _ demo_pml4) in H.
  destruct (decide (EPT_Address.pml4Entry a = 0)) as [E4|_]; [|discriminate].
  change (EPT_PagingStructure.pageFrameNumber
            (EPT_PagingStructure.make true true true 2)) with 2 in H.
  rewrite demo_pdpt, (readq_single _ _ _ _ demo_pdpt) in H.
  destruct (decide (EPT_Address.pdptEntry a = 0)) as [E3|_]; [|discriminate].
  change (EPT_PagingStructure.pageFrameNumber
            (EPT_PagingStructure.make true true true 3)) with 3 in H.
  rewrite demo_pd in H. injection H as <-. auto.
Qed.

Lemma demo_pde (index : N) :
  index < 512 →
  readq demo_memory 3 index = EPT_PdE2MB.make true true true true 6 index.
Proof.
  intros Hi. rewrite (readq_lookup _ _ _ _ demo_pd), list_lookup_fmap.
  rewrite lookup_seq_lt by lia. simpl. now rewrite N2Nat.id.
Qed.

Lemma PdE2MB_make_fields (r w f large : bool) (memoryType pfn : N) :
  EPT_PdE2MB.isLargePage (EPT_PdE2MB.make r w f large memoryType pfn)
  = bool_to_N large
  ∧ EPT_PdE2MB.pageFrameNumber (EPT_PdE2MB.make r w f large memoryType pfn)
    = N.land pfn (N.ones 31).
Proof.
  unfold EPT_PdE2MB.isLargePage, EPT_PdE2MB.pageFrameNumber, EPT_PdE2MB.make.
  split.
  - rewrite bitfield_set_other by lia. rewrite bitfield_set_same.
    now destruct large.
  - apply bitfield_set_same.
Qed.

Lemma demo_core_identity : EPT_identity demo_core.
Proof.
  split.
  - intros a b pd _ _ Hpa Hpb.
    destruct (demo_pageDirectory _ _ Hpa) as (_ & -> & ->).
    destruct (demo_pageDirectory _ _ Hpb) as (_ & -> & ->). now split.
  - intros a b pda pdb _ _ Hpa _ Hsa. exfalso. apply Hsa.
    destruct (demo_pageDirectory _ _ Hpa) as (-> & _).
    change (memory demo_core) with demo_memory.
    rewrite demo_pde by apply index9_lt_512.
    exact (proj1 (PdE2MB_make_fields true true true true 6 _)).
  - intros a pd Ha Hpa _.
    destruct (demo_pageDirectory _ _ Hpa) as (-> & E4 & E3).
    change (memory demo_core) with demo_memory.
    rewrite demo_pde by apply index9_lt_512.
    rewrite (proj2 (PdE2MB_make_fields true true true true 6 _)).
    rewrite (pageFrameNumber2MB_first a Ha E4 E3).
    apply land_ones_small.
    pose proof (index9_lt_512 21 a) as Hlt.
    eapply N.lt_trans; [exact Hlt|reflexivity].
  - intros a pte _ Hleaf. exfalso.
    destruct (EPT_leaf_Some _ _ _ Hleaf) as (pd & page & Hpa & Hsa & _).
    apply Hsa. destruct (demo_pageDirectory _ _ Hpa) as (-> & _).
    change (memory demo_core) with demo_memory.
    rewrite demo_pde by apply index9_lt_512.
    exact (proj1 (PdE2MB_make_fields true true true true 6 _)).
  - apply keys_in_range_lookup. intros j m _ Hm Hv.
    change (changedMappings demo_core)
      with (replicate 32 Context_EptChangedMapping_zero) in Hm.
    apply lookup_replicate in Hm as [-> _]. discriminate.
Qed.

(** ** Install followed by remove *)

Lemma writeq_writeq (mem : gmap N (list N)) (frame index v1 v2 : N) :
  writeq (writeq mem frame index v1) frame index v2 = writeq mem frame index v2.
Proof.
  apply map_eq. intros other. rewrite !lookup_writeq.
  destruct (decide _); [|reflexivity].
  destruct (mem !! other); simpl; [|reflexivity].
  now rewrite list_insert_insert_eq.
Qed.

Lemma set_bitfield_set_bitfield (lo w v1 v2 x : N) :
  set_bitfield lo w v2 (set_bitfield lo w v1 x) = set_bitfield lo w v2 x.
Proof.
  apply N.bits_inj; intro i. rewrite !set_bitfield_testbit.
  now destruct (_ && _).
Qed.

Lemma set_bitfield_comm (lo1 w1 v1 lo2 w2 v2 x : N) :
  lo1 + w1 <= lo2 ∨ lo2 + w2 <= lo1 →
  set_bitfield lo1 w1 v1 (set_bitfield lo2 w2 v2 x)
  = set_bitfield lo2 w2 v2 (set_bitfield lo1 w1 v1 x).
Proof.
  intros Hdisj. apply N.bits_inj; intro i. rewrite !set_bitfield_testbit.
  destruct (N.leb_spec lo1 i), (N.ltb_spec i (lo1 + w1)),
    (N.leb_spec lo2 i), (N.ltb_spec i (lo2 + w2)); simpl; trivial; lia.
Qed.

(** A second change of a leaf overrides the first. *)
Lemma changedPte_changedPte (t1 t2 : N) (rw1 f1 rw2 f2 : bool) (pte : N) :
  changedPte t2 rw2 f2 (changedPte t1 rw1 f1 pte) = changedPte t2 rw2 f2 pte.
Proof.
  unfold changedPte, EPT_PtE.set_fetchAccess, EPT_PtE.set_writeAccess,
    EPT_PtE.set_readAccess, EPT_PtE.set_pageFrameNumber.
  apply N.bits_inj; intro i. rewrite !set_bitfield_testbit.
  destruct (N.leb_spec 2 i), (N.ltb_spec i (2 + 1)),
    (N.leb_spec 1 i), (N.ltb_spec i (1 + 1)),
    (N.leb_spec 0 i), (N.ltb_spec i (0 + 1)),
    (N.leb_spec 12 i), (N.ltb_spec i (12 + 40)); simpl; trivial; lia.
Qed.

Lemma findMapping_insert_new (l : list Context_EptChangedMapping)
    (RDX R8 R9 : N) (i : nat) (m0 : Context_EptChangedMapping) :
  existsb (mappingCollides RDX R8 R9)
    (take (N.to_nat CONTEXT_EPT_MAX_MAPPINGS) l) = false →
  (i < 32)%nat → l !! i = Some m0 →
  findMapping (<[i := newMapping RDX R8 R9]> l) RDX
  = Some (i, newMapping RDX R8 R9).
Proof.
  intros Hcol Hi Hm0. unfold findMapping. apply list_find_Some.
  change (N.to_nat CONTEXT_EPT_MAX_MAPPINGS) with 32%nat in *.
  split; [|split].
  - rewrite lookup_take_lt by assumption.
    apply list_lookup_insert_eq. now apply lookup_lt_Some in Hm0.
  - unfold mapsGuestAddress. simpl. now rewrite N.eqb_refl.
  - intros j y Hy Hj Hmatch.
    apply lookup_take_Some in Hy as [Hy Hj32].
    rewrite list_lookup_insert_ne in Hy by lia.
    unfold mapsGuestAddress in Hmatch.
    apply andb_prop in Hmatch as [Hv Hg]. apply N.eqb_eq in Hg.
    assert (Hin : y ∈ take 32 l)
      by (apply list_elem_of_lookup; exists j; now rewrite lookup_take_lt).
    pose proof (existsb_false _ _ _ Hcol Hin) as Hno.
    apply mappingCollides_false in Hno as (Hne & _); [|assumption].
    contradiction.
Qed.

Lemma findMapping_cleared (l : list Context_EptChangedMapping)
    (RDX R8 R9 : N) (i : nat) :
  existsb (mappingCollides RDX R8 R9)
    (take (N.to_nat CONTEXT_EPT_MAX_MAPPINGS) l) = false →
  findMapping (<[i := Context_EptChangedMapping_zero]> l) RDX = None.
Proof.
  intros Hcol. unfold findMapping. apply list_find_None, Forall_forall.
  change (N.to_nat CONTEXT_EPT_MAX_MAPPINGS) with 32%nat in *.
  intros y Hy Hmatch.
  apply list_elem_of_lookup in Hy as [j Hy].
  apply lookup_take_Some in Hy as [Hy Hj32].
  unfold mapsGuestAddress in Hmatch.
  apply andb_prop in Hmatch as [Hv Hg]. apply N.eqb_eq in Hg.
  apply list_lookup_insert_Some in Hy as [(_ & <- & _)|[_ Hy]]; [discriminate|].
  assert (Hin : y ∈ take 32 l)
    by (apply list_elem_of_lookup; exists j; now rewrite lookup_take_lt).
  pose proof (existsb_false _ _ _ Hcol Hin) as Hno.
  apply mappingCollides_false in Hno as (Hne & _); [|assumption].
  contradiction.
Qed.

Lemma findMapping_cleared_unique (l : list Context_EptChangedMapping)
    (address : N) (i : nat) (m : Context_EptChangedMapping) :
  mappings_unique l → findMapping l address = Some (i, m) →
  findMapping (<[i := Context_EptChangedMapping_zero]> l) address = None.
Proof.
  intros Hunique Hfind.
  destruct (findMapping_Some _ _ _ _ Hfind) as (Hi & Hm & Hv & Hg).
  unfold findMapping. apply list_find_None, Forall_forall.
  change (N.to_nat CONTEXT_EPT_MAX_MAPPINGS) with 32%nat in *.
  intros y Hy Hmatch.
  apply list_elem_of_lookup in Hy as [j Hy].
  apply lookup_take_Some in Hy as [Hy Hj32].
  unfold mapsGuestAddress in Hmatch.
  apply andb_prop in Hmatch as [Hvy Hgy]. apply N.eqb_eq in Hgy.
  apply list_lookup_insert_Some in Hy as [(_ & <- & _)|[Hne Hy]]; [discriminate|].
  destruct (Hunique i j m y Hm Hy Hne Hv Hvy) as (Hkey & _).
  congruence.
Qed.

(** The states a page goes through while its mapping is installed: the
    core [cs] that the walk and the split leave, but for the leaf of the
    page, which has been given a frame and access bits, and for the
    mapping table. *)
Section LeafState.
Context (pdpts pds pts : list N) (cs : Context_LogicalCore) (address pd : N).
Hypothesis Hwf : EPT_wf pdpts pds pts cs.
Hypothesis Hpd : EPT_pageDirectory cs address = Returns pd.
Hypothesis Hsmall :
  EPT_PdE2MB.isLargePage (readq (memory cs) pd (EPT_Address.pdEntry address)) ≠ 1.

Local Abbreviation pt :=
  (EPT_PagingStructure.pageFrameNumber
     (readq (memory cs) pd (EPT_Address.pdEntry address))).
Local Abbreviation pte0 := (readq (memory cs) pt (EPT_Address.ptEntry address)).
Local Abbreviation leafState l targetAddress rw fetch :=
  (set_changedMappings l
     (set_memory
        (writeq (memory cs) pt (EPT_Address.ptEntry address)
           (changedPte targetAddress rw fetch pte0)) cs)).

Lemma leafState_changeMapping (l : list Context_EptChangedMapping)
    (t t' : N) (rw fetch rw' fetch' : bool) :
  EPT_changeMapping (leafState l t rw fetch) address t' rw' fetch'
  = Returns (STATUS_SUCCESS, leafState l t' rw' fetch').
Proof.
  destruct (mapped_pt _ _ _ _ Hwf _ _ Hpd Hsmall) as [Hpdin Hused].
  pose proof (usedFrames_arena _ _ _ Hused) as Hpt.
  destruct (wf_arena_separate _ _ _ _ Hwf _ Hpt) as (_ & _ & Hptpd).
  destruct (wf_arena_page _ _ _ _ Hwf _ Hpt) as (_ & page & Hpage & Hplen).
  set (mem1 := writeq (memory cs) pt (EPT_Address.ptEntry address)
                 (changedPte t rw fetch pte0)).
  pose proof (leaf_write_wf _ _ _ _ Hwf pt (EPT_Address.ptEntry address)
                (changedPte t rw fetch pte0) Hpt) as Hwf1.
  pose proof (leaf_write_evolves _ _ _ _ Hwf pt (EPT_Address.ptEntry address)
                (changedPte t rw fetch pte0) Hpt) as Hev.
  fold mem1 in Hwf1, Hev.
  assert (HwfX : EPT_wf pdpts pds pts (set_changedMappings l (set_memory mem1 cs)))
    by now apply EPT_wf_set_changedMappings.
  assert (HpdX : EPT_pageDirectory (set_changedMappings l (set_memory mem1 cs)) address
                 = Returns pd).
  { change (EPT_pageDirectory (set_memory mem1 cs) address = Returns pd).
    now rewrite (EPT_pageDirectory_evolves _ _ _ _ Hwf _ Hev). }
  assert (Hpde : readq mem1 pd (EPT_Address.pdEntry address)
                 = readq (memory cs) pd (EPT_Address.pdEntry address)).
  { apply readq_writeq_ne_frame. intros E. apply Hptpd. now rewrite E. }
  assert (Hmapped : mapped (set_changedMappings l (set_memory mem1 cs)) address).
  { unfold mapped. rewrite HpdX.
    change (memory (set_changedMappings l (set_memory mem1 cs))) with mem1.
    now rewrite Hpde. }
  destruct (EPT_changeMapping_mapped _ _ _ _ address t' rw' fetch' HwfX Hmapped)
    as (pd1 & pt1 & Hpd1 & Ept1 & _ & _ & Hcm).
  rewrite HpdX in Hpd1. injection Hpd1 as <-.
  change (memory (set_changedMappings l (set_memory mem1 cs))) with mem1 in *.
  rewrite Hpde in Ept1. subst pt1. rewrite Hcm. do 2 f_equal.
  assert (Hread : readq mem1 pt (EPT_Address.ptEntry address)
                  = changedPte t rw fetch pte0).
  { apply (readq_writeq_eq _ _ _ _ page); [assumption|].
    rewrite Hplen. apply index9_lt. }
  rewrite Hread, changedPte_changedPte. unfold mem1.
  rewrite writeq_writeq. reflexivity.
Qed.

Lemma violations_leafState (l : list Context_EptChangedMapping)
    (c1 c2 : Context_LogicalCore) :
  violations address c1 c2 →
  (∃ t rw fetch, c1 = leafState l t rw fetch) →
  ∃ t rw fetch, c2 = leafState l t rw fetch.
Proof.
  induction 1 as [c|c q gpa c1 c2 Hpage Hrun _ IH]; [trivial|].
  intros (t & rw & fetch & ->). apply IH.
  apply eptViolationHandler_cases in Hrun
    as (i & m & t' & rw' & fetch' & st & Hfind & Hcm).
  destruct (findMapping_Some _ _ _ _ Hfind) as (_ & _ & _ & Hg).
  rewrite Hg, Hpage, leafState_changeMapping in Hcm.
  injection Hcm as _ <-. eauto.
Qed.

End LeafState.

(** C4, as amended: while the record of a successfully installed mapping
    is in the table, whatever VM exits the core has handled since the
    install, [vmCallUnmapPage] for the guest page succeeds; it leaves the
    4 KiB leaf that the walk reaches for the page with the 40-bit frame of
    the given address, with read, write and fetch allowed and with the
    memory type it had, clears the slot of the record, so that no record
    is found for the page afterwards, and changes nothing else.  When the
    exits between the install and the remove were EPT violations on the
    page, the page lies below 2^48 and the hierarchy was an identity map
    before the install ([EPT_identity]), the paging structures and the
    arena after the remove are those that the walk and the split of the
    install left, and the mapping table is the one before the install with
    the slot zeroed. *)
Theorem C4_install_remove (pdpts pds pts : list N) (c c1 c2 : Context_LogicalCore)
    (RDX R8 R9 : N) (foundMapping : nat) (m : Context_EptChangedMapping) :
  Core_inv pdpts pds pts c →
  vmCallMapPage c RDX R8 R9 = Returns (NTSTATUS_to_UINT64 STATUS_SUCCESS, c1) →
  rtc step c1 c2 →
  findMapping (changedMappings c2) RDX = Some (foundMapping, m) →
  ∃ c3 pd pte2 pte,
    vmCallUnmapPage c2 RDX = Returns (NTSTATUS_to_UINT64 STATUS_SUCCESS, c3)
    ∧ EPT_leaf c2 RDX = Some pte2
    ∧ EPT_leaf c3 RDX = Some pte
    ∧ EPT_PtE.pageFrameNumber pte = frameOf RDX
    ∧ EPT_PtE.readAccess pte = 1 ∧ EPT_PtE.writeAccess pte = 1
    ∧ EPT_PtE.fetchAccess pte = 1
    ∧ EPT_PtE.memoryType pte = EPT_PtE.memoryType pte2
    ∧ changedMappings c3
      = <[foundMapping := Context_EptChangedMapping_zero]> (changedMappings c2)
    ∧ changedMappings c3 !! foundMapping = Some Context_EptChangedMapping_zero
    ∧ findMapping (changedMappings c3) RDX = None
    ∧ eptp c3 = eptp c2 ∧ splitBuffer c3 = splitBuffer c2
    ∧ noOfUsedSplits c3 = noOfUsedSplits c2
    ∧ EPT_pageDirectory c2 RDX = Returns pd
    ∧ memory c3
      = writeq (memory c2)
          (EPT_PagingStructure.pageFrameNumber
             (readq (memory c2) pd (EPT_Address.pdEntry RDX)))
          (EPT_Address.ptEntry RDX) pte
    ∧ (violations RDX c1 c2 → EPT_identity c → RDX < 2 ^ 48 →
       ∃ cs m0,
         EPT_traverse c RDX = Returns (STATUS_SUCCESS, cs, pd)
         ∧ memory c3 = memory cs
         ∧ eptp c3 = eptp cs ∧ splitBuffer c3 = splitBuffer cs
         ∧ noOfUsedSplits c3 = noOfUsedSplits cs
         ∧ changedMappings c !! foundMapping = Some m0 ∧ valid m0 = false
         ∧ changedMappings c3
           = <[foundMapping := Context_EptChangedMapping_zero]> (changedMappings c)).
Proof.
  intros Hinv Hmap Hreach Hfind.
  assert (Hinv1 : Core_inv pdpts pds pts c1).
  { eapply step_Core_inv; [exact Hinv|]. eapply step_map. exact Hmap. }
  pose proof (rtc_step_Core_inv _ _ _ _ _ Hreach Hinv1) as Hinv2.
  pose proof (inv_ept _ _ _ _ Hinv2) as Hwf2.
  destruct (findMapping_Some _ _ _ _ Hfind) as (Hi & Hm & Hv & Hg).
  assert (Hmapped : mapped c2 RDX).
  { pose proof (inv_mapped _ _ _ _ Hinv2) as Hall. unfold mappings_mapped in Hall.
    rewrite Forall_lookup in Hall. rewrite <- Hg. exact (Hall _ _ Hm Hv). }
  destruct (EPT_changeMapping_mapped _ _ _ _ RDX RDX true true Hwf2 Hmapped)
    as (pd & pt & Hpd & Ept & Hpt & Hleaf2 & Hcm).
  destruct (EPT_changeMapping_leaf _ _ _ _ RDX RDX true true Hwf2 Hmapped)
    as (c3' & pte2 & Hcm' & Hl2 & Hl3 & _ & _).
  rewrite Hcm in Hcm'. injection Hcm' as <-.
  rewrite Hl2 in Hleaf2. injection Hleaf2 as Epte2.
  rewrite <- Epte2 in Hcm, Hl3.
  destruct (changedPte_fields RDX true true pte2) as (Pp & Pr & Pw & Pf & Pm).
  exists (set_changedMappings
            (<[foundMapping := Context_EptChangedMapping_zero]> (changedMappings c2))
            (set_memory
               (writeq (memory c2) pt (EPT_Address.ptEntry RDX)
                  (changedPte RDX true true pte2)) c2)),
    pd, pte2, (changedPte RDX true true pte2).
  split; [unfold vmCallUnmapPage; rewrite Hfind, Hcm; reflexivity|].
  split; [exact Hl2|]. split; [exact Hl3|].
  do 5 (split; [assumption|]).
  split; [reflexivity|].
  split.
  { simpl. apply list_lookup_insert_eq. now apply lookup_lt_Some in Hm. }
  split.
  { simpl. apply (findMapping_cleared_unique _ _ _ m); [|assumption].
    exact (inv_unique _ _ _ _ Hinv2). }
  do 3 (split; [reflexivity|]).
  split; [exact Hpd|].
  split; [simpl; now rewrite <- Ept|].
  (* the round trip *)
  intros Hflips Hid Hlt.
  pose proof (inv_ept _ _ _ _ Hinv) as Hwf.
  apply vmCallMapPage_cases in Hmap
    as [[[=] _]|(_ & Ho & _ & _ & Hcol & i & m0 & c1' & Hsel & Hcmi & ->)].
  apply selectIndex_Some in Hsel as (Hi32 & Hm0 & Hv0 & _).
  apply EPT_changeMapping_success in Hcmi as (cs & pd0 & Ht & ->).
  destruct (EPT_traverse_wf _ _ _ _ Hwf _ _ _ Ht) as (Hwfs & _ & Hpds & Hsmalls).
  pose proof (EPT_traverse_changedMappings _ _ _ _ _ Ht) as Etable.
  destruct (violations_leafState pdpts pds pts cs RDX pd0 Hwfs Hpds Hsmalls
              (<[i := newMapping RDX R8 R9]> (changedMappings c)) _ _ Hflips)
    as (t & rw & fetch & ->).
  { exists RDX, false, false. reflexivity. }
  simpl in Hfind.
  rewrite (findMapping_insert_new _ _ _ _ _ m0 Hcol Hi32 Hm0) in Hfind.
  injection Hfind as <- <-.
  pose proof (leafState_changeMapping pdpts pds pts cs RDX pd0 Hwfs Hpds Hsmalls
                (<[i := newMapping RDX R8 R9]> (changedMappings c))
                t RDX rw fetch true true) as Hcm2.
  rewrite Hcm in Hcm2. injection Hcm2 as Ec3.
  destruct (mapped_pt _ _ _ _ Hwfs _ _ Hpds Hsmalls) as [_ Hused].
  pose proof (usedFrames_arena _ _ _ Hused) as Hpts.
  destruct (wf_arena_page _ _ _ _ Hwfs _ Hpts) as (_ & page & Hpage & Hplen).
  assert (Hpd0 : pd0 = pd).
  { pose proof (leaf_write_evolves _ _ _ _ Hwfs _ (EPT_Address.ptEntry RDX)
                  (changedPte t rw fetch
                     (readq (memory cs)
                        (EPT_PagingStructure.pageFrameNumber
                           (readq (memory cs) pd0 (EPT_Address.pdEntry RDX)))
                        (EPT_Address.ptEntry RDX))) Hpts) as Hev.
    pose proof (EPT_pageDirectory_evolves _ _ _ _ Hwfs _ Hev RDX) as E.
    rewrite Hpds in E.
    unfold EPT_pageDirectory in Hpd, E. simpl in Hpd, E.
    rewrite E in Hpd. now injection Hpd. }
  subst pd0.
  exists cs, m0. split; [exact Ht|].
  split.
  { simpl. rewrite Ec3.
    assert (Hident : identityLeaf RDX
                       (readq (memory cs)
                          (EPT_PagingStructure.pageFrameNumber
                             (readq (memory cs) pd (EPT_Address.pdEntry RDX)))
                          (EPT_Address.ptEntry RDX))).
    { pose proof (EPT_traverse_identity _ _ _ _ _ _ _ Hwf Hid Hlt Ht) as Hids.
      pose proof (EPT_leaf_mapped _ _ _ _ Hwfs _ _ Hpds Hsmalls) as Hleafs.
      destruct (id_leaves _ Hids RDX _ Hlt Hleafs) as [Hident|Hrec];
        [assumption|exfalso].
      destruct Hrec as (n & Hin & Hvn & Hgn).
      rewrite Etable in Hin.
      pose proof (existsb_false _ _ _ Hcol Hin) as Hno.
      apply mappingCollides_false in Hno as (Hne & _); [|assumption].
      apply Hne. rewrite Hgn. now apply clear_offset_aligned. }
    destruct Hident as (Hp0 & Hr0 & Hw0 & Hf0).
    rewrite changedPte_id by assumption.
    apply (writeq_readq _ _ _ page); [assumption|].
    rewrite Hplen. apply index9_lt. }
  do 3 (split; [reflexivity|]).
  split; [assumption|]. split; [assumption|].
  simpl. apply list_insert_insert_eq.
Qed.

Lemma demo_core_V_flips : violations 0x1000 demo_core_A demo_core_V.
Proof.
  apply (violations_S 0x1000 demo_core_A 1 0x1234 demo_core_V demo_core_V);
    [reflexivity|reflexivity|apply violations_O].
Qed.

Lemma C4_install_remove_witness :
  ∃ c3 pd pte cs,
    vmCallUnmapPage demo_core_V 0x1000
    = Returns (NTSTATUS_to_UINT64 STATUS_SUCCESS, c3)
    ∧ EPT_leaf c3 0x1000 = Some pte
    ∧ EPT_PtE.pageFrameNumber pte = frameOf 0x1000
    ∧ EPT_PtE.readAccess pte = 1 ∧ EPT_PtE.writeAccess pte = 1
    ∧ EPT_PtE.fetchAccess pte = 1
    ∧ findMapping (changedMappings c3) 0x1000 = None
    ∧ EPT_traverse demo_core 0x1000 = Returns (STATUS_SUCCESS, cs, pd)
    ∧ memory c3 = memory cs.
Proof.
  destruct (C4_install_remove [2] [3] [] demo_core demo_core_A
              demo_core_V
              0x1000 0x2000 0x1000 0 (newMapping 0x1000 0x2000 0x1000)
              demo_core_inv eq_refl
              (rtc_once _ _ (step_violation demo_core_A 1 0x1234 demo_core_V eq_refl))
              eq_refl)
    as (c3 & pd & pte2 & pte & H1 & _ & H2 & H3 & H4 & H5 & H6 & _ & _ & _ & H7
        & _ & _ & _ & _ & _ & Hround).
  destruct (Hround demo_core_V_flips demo_core_identity eq_refl)
    as (cs & m0 & Ht & Hmem & _).
  exists c3, pd, pte, cs. auto 10.
Defined.

(** C4 as stated fails for a guest address that is not below 2^48: the
    walk looks at the low 48 bits of the address only, so an install for
    the address 2^48 + 0x1000 on an identity map is accepted and rewrites
    the leaf of the page 0x1000, and the remove leaves that leaf with
    frame 2^36 + 1, the frame of the given address, where the leaf held
    frame 1 before the install: the pre-install state is not restored. *)
Lemma C4_counterexample :
  EPT_identity demo_core
  ∧ ∃ c1 c2 cs pd pte0 pte,
      vmCallMapPage demo_core 0x1000000001000 0x2000 0x3000
      = Returns (NTSTATUS_to_UINT64 STATUS_SUCCESS, c1)
      ∧ vmCallUnmapPage c1 0x1000000001000
        = Returns (NTSTATUS_to_UINT64 STATUS_SUCCESS, c2)
      ∧ EPT_traverse demo_core 0x1000000001000 = Returns (STATUS_SUCCESS, cs, pd)
      ∧ EPT_leaf cs 0x1000 = Some pte0
      ∧ identityLeaf 0x1000 pte0
      ∧ EPT_leaf c2 0x1000 = Some pte
      ∧ EPT_PtE.pageFrameNumber pte = 0x1000000001
      ∧ memory c2 ≠ memory cs.
Proof.
  split; [apply demo_core_identity|].
  set (c1 := core_after demo_core
               (vmCallMapPage demo_core 0x1000000001000 0x2000 0x3000)).
  set (c2 := core_after c1 (vmCallUnmapPage c1 0x1000000001000)).
  set (cs := (splitPage demo_core 3 0).2).
  exists c1, c2, cs, 3,
    (EPT_PtE.make true true true 6 1), (changedPte 0x1000000001000 true true
                                          (EPT_PtE.make true true true 6 1)).
  assert (Hleaf : EPT_leaf c2 0x1000
                  = Some (changedPte 0x1000000001000 true true
                            (EPT_PtE.make true true true 6 1)))
    by (vm_compute; reflexivity).
  assert (Hleafs : EPT_leaf cs 0x1000 = Some (EPT_PtE.make true true true 6 1))
    by (vm_compute; reflexivity).
  split; [vm_compute; reflexivity|].
  split; [vm_compute; reflexivity|].
  split; [vm_compute; reflexivity|].
  split; [exact Hleafs|].
  split; [repeat split; vm_compute; reflexivity|].
  split; [exact Hleaf|].
  split; [vm_compute; reflexivity|].
  intros E.
  assert (E' : EPT_leaf c2 0x1000 = EPT_leaf cs 0x1000).
  { unfold EPT_leaf, EPT_pageDirectory. rewrite E.
    replace (eptp c2) with (eptp cs) by reflexivity. reflexivity. }
  rewrite Hleaf, Hleafs in E'. vm_compute in E'. discriminate.
Qed.

(** ** Splitting a 2 MiB page *)

Lemma splits_noOfUsedSplits (n : nat) (c c' : Context_LogicalCore) :
  splits n c c' → noOfUsedSplits c' = noOfUsedSplits c + N.of_nat n.
Proof.
  induction 1 as [c|n c pd pdEntryIndex c1 c2 Hsplit _ IH]; [simpl; lia|].
  destruct (splitPage_cases _ _ _ _ _ Hsplit) as [([=] & _)|(_ & _ & E)].
  rewrite IH, E. lia.
Qed.

(** As long as the arena has slots left, splits succeed one after the
    other. *)
Lemma splits_possible (n : nat) (c : Context_LogicalCore) (pd pdEntryIndex : N) :
  noOfUsedSplits c + N.of_nat n <= CONTEXT_EPT_NO_SPLITS →
  ∃ c', splits n c c'.
Proof.
  revert c. induction n as [|n IH]; intros c Hroom.
  - exists c. constructor.
  - assert (Hfree : noOfUsedSplits c < CONTEXT_EPT_NO_SPLITS) by lia.
    pose proof (splitPage_success c pd pdEntryIndex Hfree) as Hs.
    destruct (splitPage c pd pdEntryIndex) as [st c1] eqn:Hsplit.
    injection Hs as -> Hc1.
    destruct (IH c1) as [c' Hc']; [rewrite Hc1; simpl; lia|].
    exists c'. exact (splits_S _ _ _ _ _ _ Hsplit Hc').
Qed.

(** C7: [splitPage] on a PD entry takes the next page of the arena of
    the core, fills it with 512 leaves that allow read, write and fetch,
    carry the memory type of the 2 MiB leaf and map frame
    [512 * frame + i] at index [i], and replaces the PD entry by a
    directory entry for that page.  Nothing is asked of the paging
    structures for this: the entry has to lie in a page of the memory and
    the arena page has to be another page than that one.  When the arena
    counter has reached 32, [splitPage] returns [STATUS_UNSUCCESSFUL] and
    changes nothing, which is the case after 32 successful splits on a
    core whose counter was 0. *)
Theorem C7_splitPage (c : Context_LogicalCore) (pd pdEntryIndex : N) :
  (noOfUsedSplits c < CONTEXT_EPT_NO_SPLITS →
   ∀ page slot,
     memory c !! pd = Some page → (N.to_nat pdEntryIndex < length page)%nat →
     arenaFrames c !! N.to_nat (noOfUsedSplits c) = Some slot → slot ≠ pd →
     ∃ c' table,
       splitPage c pd pdEntryIndex = (STATUS_SUCCESS, c')
       ∧ noOfUsedSplits c' = noOfUsedSplits c + 1
       ∧ splitBuffer c' = splitBuffer c ∧ eptp c' = eptp c
       ∧ changedMappings c' = changedMappings c
       ∧ memory c' !! slot = Some table ∧ length table = 512%nat
       ∧ (∀ i pte, table !! i = Some pte →
            EPT_PtE.readAccess pte = 1 ∧ EPT_PtE.writeAccess pte = 1
            ∧ EPT_PtE.fetchAccess pte = 1
            ∧ EPT_PtE.memoryType pte
              = EPT_PdE2MB.memoryType (readq (memory c) pd pdEntryIndex)
            ∧ EPT_PtE.pageFrameNumber pte
              = 512 * EPT_PdE2MB.pageFrameNumber (readq (memory c) pd pdEntryIndex)
                + N.of_nat i)
       ∧ EPT_PdE2MB.isLargePage (readq (memory c') pd pdEntryIndex) = 0
       ∧ EPT_PagingStructure.readAccess (readq (memory c') pd pdEntryIndex) = 1
       ∧ EPT_PagingStructure.writeAccess (readq (memory c') pd pdEntryIndex) = 1
       ∧ EPT_PagingStructure.fetchAccess (readq (memory c') pd pdEntryIndex) = 1
       ∧ EPT_PagingStructure.pageFrameNumber (readq (memory c') pd pdEntryIndex)
         = slot mod 2 ^ 40
       ∧ (∀ index, index ≠ pdEntryIndex →
            readq (memory c') pd index = readq (memory c) pd index)
       ∧ (∀ frame, frame ≠ slot → frame ≠ pd →
            memory c' !! frame = memory c !! frame))
  ∧ (CONTEXT_EPT_NO_SPLITS <= noOfUsedSplits c →
     splitPage c pd pdEntryIndex = (STATUS_UNSUCCESSFUL, c))
  ∧ (∀ c0, noOfUsedSplits c0 = 0 → splits 32 c0 c →
     splitPage c pd pdEntryIndex = (STATUS_UNSUCCESSFUL, c)).
Proof.
  split; [|split; [apply splitPage_failure|]].
  2:{ intros c0 H0 Hsplits. apply splitPage_failure.
      rewrite (splits_noOfUsedSplits _ _ _ Hsplits), H0. reflexivity. }
  intros Hfree page slot Hpage Hidx Hslot Hne.
  assert (Eslot : EPT_Address.pageFrameNumber4KB
                    (splitBuffer c !!! N.to_nat (noOfUsedSplits c)) = slot).
  { unfold arenaFrames in Hslot. rewrite list_lookup_fmap in Hslot.
    destruct (splitBuffer c !! N.to_nat (noOfUsedSplits c)) as [address|] eqn:E;
      [|discriminate].
    injection Hslot as <-. now rewrite (list_lookup_total_correct _ _ _ E). }
  pose proof (splitPage_success c pd pdEntryIndex Hfree) as Hs.
  rewrite Eslot in Hs.
  set (pde := readq (memory c) pd pdEntryIndex) in *.
  set (table := splitPage_table (EPT_PdE2MB.memoryType pde)
                  (EPT_PdE2MB.pageFrameNumber pde)) in *.
  eexists _, table. split; [exact Hs|]. cbn [noOfUsedSplits splitBuffer eptp
    changedMappings memory].
  do 4 (split; [reflexivity|]).
  assert (Hpage1 : <[slot := table]> (memory c) !! pd = Some page)
    by now rewrite lookup_insert_ne.
  split; [rewrite lookup_writeq_ne by congruence; apply lookup_insert_eq|].
  split; [apply length_splitPage_table|].
  split.
  { intros i pte Hpte.
    assert (Hi : (i < 512)%nat).
    { apply lookup_lt_Some in Hpte. unfold table in Hpte.
      now rewrite length_splitPage_table in Hpte. }
    unfold table in Hpte.
    rewrite lookup_splitPage_table in Hpte by assumption. injection Hpte as <-.
    destruct (PtE_make_fields true true true (EPT_PdE2MB.memoryType pde)
                (EPT_PT_ENTRIES * EPT_PdE2MB.pageFrameNumber pde + N.of_nat i))
      as (Hr & Hw & Hf & Hm & Hp).
    rewrite Hr, Hw, Hf, Hm, Hp. repeat split.
    - apply land_ones_small. apply (bitfield_lt 3 3).
    - apply land_ones_small.
      pose proof (bitfield_lt 21 31 pde) as Hlt.
      unfold EPT_PdE2MB.pageFrameNumber, EPT_PT_ENTRIES.
      change (2 ^ 31) with 2147483648 in Hlt.
      change (2 ^ 40) with 1099511627776. lia. }
  rewrite (readq_writeq_eq _ _ _ _ page) by assumption.
  destruct (PagingStructure_make_access true true true slot) as (Hr & Hw & Hf).
  split; [apply PagingStructure_make_isLargePage|].
  do 3 (split; [assumption|]).
  split.
  { unfold EPT_PagingStructure.pageFrameNumber, EPT_PagingStructure.make.
    rewrite bitfield_set_same. apply N.land_ones. }
  split.
  - intros index Hindex. rewrite readq_writeq_ne_index by congruence.
    unfold readq. now rewrite lookup_insert_ne.
  - intros frame Hfs Hfp. rewrite lookup_writeq_ne by congruence.
    now rewrite lookup_insert_ne by congruence.
Qed.

Lemma C7_splitPage_witness :
  ∃ c' table,
    splitPage demo_core 3 5 = (STATUS_SUCCESS, c')
    ∧ noOfUsedSplits c' = noOfUsedSplits demo_core + 1
    ∧ memory c' !! 16 = Some table ∧ length table = 512%nat
    ∧ EPT_PagingStructure.pageFrameNumber (readq (memory c') 3 5) = 16.
Proof.
  destruct (C7_splitPage demo_core 3 5) as [H _].
  destruct (H eq_refl
              ((λ i : nat, EPT_PdE2MB.make true true true true 6 (N.of_nat i))
               <$> seq 0 512) 16)
    as (c' & table & H1 & H2 & _ & _ & _ & H3 & H4 & _ & _ & _ & _ & _ & H5 & _).
  - reflexivity.
  - rewrite length_fmap, length_seq. simpl. lia.
  - reflexivity.
  - discriminate.
  - exists c', table. auto.
Defined.

(** ** The variable MTRR cache *)

Lemma BitScanForward64_Some (mask firstOneIndex : N) :
  BitScanForward64 mask = Some firstOneIndex →
  firstOneIndex < 64 ∧ N.testbit mask firstOneIndex = true
  ∧ ∀ j, j < firstOneIndex → N.testbit mask j = false.
Proof.
  unfold BitScanForward64. intros H.
  apply fmap_Some in H as ([i x] & H & ->). simpl.
  apply list_find_Some in H as (Hi & Hbit & Hmin).
  apply lookup_seq in Hi as [-> Hi]. change (0 + i)%nat with i in *.
  split; [lia|]. split; [assumption|].
  intros j Hj. specialize (Hmin (N.to_nat j) (N.to_nat j)).
  rewrite lookup_seq_lt, N2Nat.id in Hmin by lia.
  destruct (N.testbit mask j); [|reflexivity].
  exfalso. apply Hmin; [reflexivity|lia|reflexivity].
Qed.

Lemma BitScanForward64_None (mask : N) :
  BitScanForward64 mask = None → ∀ j, j < 64 → N.testbit mask j = false.
Proof.
  unfold BitScanForward64. intros H j Hj.
  apply fmap_None, list_find_None in H. rewrite Forall_forall in H.
  specialize (H (N.to_nat j)). rewrite N2Nat.id in H.
  destruct (N.testbit mask j); [|reflexivity].
  exfalso. apply H; [|reflexivity]. apply elem_of_seq. lia.
Qed.

Lemma of_pageFrameNumber4KB_testbit (pfn j : N) :
  N.testbit (EPT_Address.of_pageFrameNumber4KB pfn) j
  = (12 <=? j) && (j <? 64) && N.testbit pfn (j - 12).
Proof.
  unfold EPT_Address.of_pageFrameNumber4KB. rewrite set_bitfield_testbit.
  change (12 + 52) with 64.
  destruct ((12 <=? j) && (j <? 64)); [reflexivity|apply N.bits_0].
Qed.

Lemma of_pageFrameNumber4KB_shiftl (pfn : N) :
  pfn < 2 ^ 52 → EPT_Address.of_pageFrameNumber4KB pfn = N.shiftl pfn 12.
Proof.
  intros H. unfold EPT_Address.of_pageFrameNumber4KB, set_bitfield.
  rewrite N.ldiff_0_l, N.lor_0_l. now rewrite land_ones_small.
Qed.

Lemma length_fillVariableMtrr (readmsr : N → N)
    (variableMtrrs : list EPT_VariableMtrr.t) (mtrrIndex : nat) :
  length (fillVariableMtrr readmsr variableMtrrs mtrrIndex) = length variableMtrrs.
Proof.
  unfold fillVariableMtrr. destruct (_ =? 0); [reflexivity|].
  destruct (BitScanForward64 _); [apply length_insert|reflexivity].
Qed.

Lemma fillVariableMtrr_other (readmsr : N → N)
    (variableMtrrs : list EPT_VariableMtrr.t) (mtrrIndex i : nat) :
  mtrrIndex ≠ i →
  fillVariableMtrr readmsr variableMtrrs mtrrIndex !! i = variableMtrrs !! i.
Proof.
  intros Hne. unfold fillVariableMtrr. destruct (_ =? 0); [reflexivity|].
  destruct (BitScanForward64 _); [now apply list_lookup_insert_ne|reflexivity].
Qed.

Lemma foldl_fillVariableMtrr_other (readmsr : N → N) (indices : list nat)
    (variableMtrrs : list EPT_VariableMtrr.t) (i : nat) :
  i ∉ indices →
  foldl (fillVariableMtrr readmsr) variableMtrrs indices !! i = variableMtrrs !! i
  ∧ length (foldl (fillVariableMtrr readmsr) variableMtrrs indices)
    = length variableMtrrs.
Proof.
  revert variableMtrrs. induction indices as [|j indices IH]; intros l Hnot.
  - auto.
  - simpl. apply not_elem_of_cons in Hnot as [Hne Hnot].
    destruct (IH (fillVariableMtrr readmsr l j) Hnot) as [-> ->].
    split; [apply fillVariableMtrr_other; congruence|apply length_fillVariableMtrr].
Qed.

(** The cache entry of an MTRR is what its own iteration leaves there. *)
Lemma fillVariableMtrrsCache_lookup (readmsr : N → N)
    (noOfVariableRangeRegisters : N)
    (variableMtrrs : list EPT_VariableMtrr.t) (i : nat) :
  (i < N.to_nat noOfVariableRangeRegisters)%nat →
  ∃ l, l !! i = variableMtrrs !! i ∧ length l = length variableMtrrs
       ∧ fillVariableMtrrsCache readmsr noOfVariableRangeRegisters variableMtrrs !! i
         = fillVariableMtrr readmsr l i !! i.
Proof.
  intros Hi. unfold fillVariableMtrrsCache.
  replace (N.to_nat noOfVariableRangeRegisters)
    with (i + S (N.to_nat noOfVariableRangeRegisters - S i))%nat by lia.
  rewrite seq_app, foldl_app. simpl.
  destruct (foldl_fillVariableMtrr_other readmsr (seq 0 i) variableMtrrs i)
    as [Hl Hlen]; [rewrite elem_of_seq; lia|].
  exists (foldl (fillVariableMtrr readmsr) variableMtrrs (seq 0 i)).
  split; [assumption|]. split; [assumption|].
  apply foldl_fillVariableMtrr_other. rewrite elem_of_seq. lia.
Qed.

(** C9: a variable MTRR whose mask has its valid bit set and a non-zero
    frame field is recorded with the frame field of the base MSR shifted
    into an address as its base and [1 << firstOneIndex] as its length,
    where [firstOneIndex] is the position in the mask MSR of the lowest set
    bit of its frame-number portion, bits 12 to 63; an MTRR whose mask has
    its valid bit clear leaves its cache entry as it was. *)
Theorem C9_variable_mtrr_range (readmsr : N → N)
    (noOfVariableRangeRegisters : N)
    (variableMtrrs : list EPT_VariableMtrr.t) (mtrrIndex : nat) :
  (mtrrIndex < N.to_nat noOfVariableRangeRegisters)%nat →
  (mtrrIndex < length variableMtrrs)%nat →
  (IA32_MtrrPhysmask.valid
     (readmsr (IA32_MTRR_PHYSMASK0 + IA32_MTRR_PHYSMASK0_INC * N.of_nat mtrrIndex)) = 1 →
   IA32_MtrrPhysmask.physMask
     (readmsr (IA32_MTRR_PHYSMASK0 + IA32_MTRR_PHYSMASK0_INC * N.of_nat mtrrIndex)) ≠ 0 →
   ∃ firstOneIndex,
     12 <= firstOneIndex < 64
     ∧ N.testbit
         (readmsr (IA32_MTRR_PHYSMASK0 + IA32_MTRR_PHYSMASK0_INC * N.of_nat mtrrIndex))
         firstOneIndex = true
     ∧ (∀ j, 12 <= j < firstOneIndex →
          N.testbit
            (readmsr (IA32_MTRR_PHYSMASK0 + IA32_MTRR_PHYSMASK0_INC * N.of_nat mtrrIndex))
            j = false)
     ∧ fillVariableMtrrsCache readmsr noOfVariableRangeRegisters variableMtrrs
         !! mtrrIndex
       = Some
           {| EPT_VariableMtrr.baseAddress :=
                N.shiftl
                  (IA32_MtrrPhysbase.physBase
                     (readmsr (IA32_MTRR_PHYSBASE0
                               + IA32_MTRR_PHYSBASE0_INC * N.of_nat mtrrIndex)))
                  12;
              EPT_VariableMtrr.length := 2 ^ firstOneIndex;
              EPT_VariableMtrr.memoryType :=
                IA32_MtrrPhysbase.memoryType
                  (readmsr (IA32_MTRR_PHYSBASE0
                            + IA32_MTRR_PHYSBASE0_INC * N.of_nat mtrrIndex));
              EPT_VariableMtrr.valid := true |})
  ∧ (IA32_MtrrPhysmask.valid
       (readmsr (IA32_MTRR_PHYSMASK0 + IA32_MTRR_PHYSMASK0_INC * N.of_nat mtrrIndex)) = 0 →
     fillVariableMtrrsCache readmsr noOfVariableRangeRegisters variableMtrrs
       !! mtrrIndex
     = variableMtrrs !! mtrrIndex).
Proof.
  intros Hn Hlen.
  destruct (fillVariableMtrrsCache_lookup readmsr noOfVariableRangeRegisters
              variableMtrrs mtrrIndex Hn) as (l & Hl & Hllen & ->).
  unfold fillVariableMtrr.
  set (physbase := readmsr (IA32_MTRR_PHYSBASE0
                            + IA32_MTRR_PHYSBASE0_INC * N.of_nat mtrrIndex)).
  set (physmask := readmsr (IA32_MTRR_PHYSMASK0
                            + IA32_MTRR_PHYSMASK0_INC * N.of_nat mtrrIndex)).
  split.
  - intros Hvalid Hfield. rewrite Hvalid. change (1 =? 0) with false. cbv iota.
    destruct (BitScanForward64 _) as [firstOneIndex|] eqn:Hscan.
    + apply BitScanForward64_Some in Hscan as (Hlt & Hbit & Hmin).
      rewrite of_pageFrameNumber4KB_testbit in Hbit.
      apply andb_prop in Hbit as [Hrange Hbit].
      apply andb_prop in Hrange as [Hge _]. apply N.leb_le in Hge.
      unfold IA32_MtrrPhysmask.physMask in Hbit.
      rewrite bitfield_testbit in Hbit. apply andb_prop in Hbit as [Hbit _].
      replace (firstOneIndex - 12 + 12) with firstOneIndex in Hbit by lia.
      exists firstOneIndex. split; [lia|]. split; [assumption|]. split.
      * intros j [Hj12 Hj]. specialize (Hmin j Hj).
        rewrite of_pageFrameNumber4KB_testbit in Hmin.
        unfold IA32_MtrrPhysmask.physMask in Hmin.
        rewrite bitfield_testbit in Hmin.
        replace (j - 12 + 12) with j in Hmin by lia.
        replace (12 <=? j) with true in Hmin by (symmetry; apply N.leb_le; lia).
        replace (j <? 64) with true in Hmin by (symmetry; apply N.ltb_lt; lia).
        replace (j - 12 <? 52) with true in Hmin by (symmetry; apply N.ltb_lt; lia).
        simpl in Hmin. now rewrite Bool.andb_true_r in Hmin.
      * rewrite list_lookup_insert_eq by lia. do 2 f_equal.
        -- apply of_pageFrameNumber4KB_shiftl, (bitfield_lt 12 52).
        -- rewrite N.shiftl_1_l. apply N.mod_small.
           apply N.pow_lt_mono_r; [reflexivity|assumption].
    + exfalso. apply Hfield. apply N.bits_inj_0. intros k.
      unfold IA32_MtrrPhysmask.physMask. rewrite bitfield_testbit.
      destruct (N.ltb_spec k 52) as [Hk|Hk]; [|apply Bool.andb_false_r].
      pose proof (BitScanForward64_None _ Hscan (k + 12)) as Hz.
      rewrite of_pageFrameNumber4KB_testbit in Hz.
      unfold IA32_MtrrPhysmask.physMask in Hz. rewrite bitfield_testbit in Hz.
      replace (k + 12 - 12) with k in Hz by lia.
      replace (12 <=? k + 12) with true in Hz by (symmetry; apply N.leb_le; lia).
      replace (k + 12 <? 64) with true in Hz by (symmetry; apply N.ltb_lt; lia).
      replace (k <? 52) with true in Hz by (symmetry; apply N.ltb_lt; lia).
      simpl in Hz. rewrite Bool.andb_true_r in *. apply Hz. lia.
  - intros ->. simpl. exact Hl.
Qed.

Lemma C9_variable_mtrr_range_witness :
  ∃ firstOneIndex,
    12 <= firstOneIndex < 64
    ∧ N.testbit (demo_readmsr 0x201) firstOneIndex = true
    ∧ (∀ j, 12 <= j < firstOneIndex → N.testbit (demo_readmsr 0x201) j = false)
    ∧ fillVariableMtrrsCache demo_readmsr 1 [EPT_VariableMtrr.zero] !! 0%nat
      = Some
          {| EPT_VariableMtrr.baseAddress := 0x80000000;
             EPT_VariableMtrr.length := 2 ^ firstOneIndex;
             EPT_VariableMtrr.memoryType := IA32_MTRR_MEMORY_TYPE_UC;
             EPT_VariableMtrr.valid := true |}.
Proof.
  apply (C9_variable_mtrr_range demo_readmsr 1 [EPT_VariableMtrr.zero] 0).
  - simpl. lia.
  - simpl. lia.
  - reflexivity.
  - discriminate.
Defined.

(** ** Memory-type resolution *)

Lemma mtrrContains_spec (m : EPT_VariableMtrr.t) (physicalAddress : N) :
  EPT_VariableMtrr.baseAddress m + EPT_VariableMtrr.length m < 2 ^ 64 →
  mtrrContains m physicalAddress = true
  ↔ EPT_VariableMtrr.baseAddress m <= physicalAddress
    ∧ physicalAddress < EPT_VariableMtrr.baseAddress m + EPT_VariableMtrr.length m.
Proof.
  intros H. unfold mtrrContains. rewrite N.mod_small by assumption.
  rewrite Bool.andb_true_iff, N.leb_le, N.ltb_lt. reflexivity.
Qed.

Lemma hitTypes_cons (m : EPT_VariableMtrr.t) (l : list EPT_VariableMtrr.t)
    (physicalAddress : N) :
  EPT_VariableMtrr.baseAddress m + EPT_VariableMtrr.length m < 2 ^ 64 →
  hitTypes (m :: l) physicalAddress
  = if EPT_VariableMtrr.valid m && mtrrContains m physicalAddress
    then EPT_VariableMtrr.memoryType m :: hitTypes l physicalAddress
    else hitTypes l physicalAddress.
Proof.
  intros Hno. unfold hitTypes.
  destruct (EPT_VariableMtrr.valid m) eqn:Hv; simpl.
  - destruct (mtrrContains m physicalAddress) eqn:Hc.
    + rewrite filter_cons_True; [reflexivity|].
      split; [assumption|]. now apply mtrrContains_spec.
    + rewrite filter_cons_False; [reflexivity|].
      intros [_ H]. apply mtrrContains_spec in H; congruence.
  - rewrite filter_cons_False; [reflexivity|]. intros [? _]. congruence.
Qed.

(** The flags [collectMemoryTypes] returns say which types hit. *)
Lemma collectMemoryTypes_spec (l : list EPT_VariableMtrr.t) (physicalAddress : N)
    (f0 : EPT_FoundMemoryTypes.t) :
  Forall (λ m, EPT_VariableMtrr.baseAddress m + EPT_VariableMtrr.length m < 2 ^ 64) l →
  Forall definedMemoryType (hitTypes l physicalAddress) →
  ∃ f,
    collectMemoryTypes l physicalAddress f0 = Some f
    ∧ (EPT_FoundMemoryTypes.uncacheable f = true
       ↔ EPT_FoundMemoryTypes.uncacheable f0 = true
         ∨ IA32_MTRR_MEMORY_TYPE_UC ∈ hitTypes l physicalAddress)
    ∧ (EPT_FoundMemoryTypes.writeCombining f = true
       ↔ EPT_FoundMemoryTypes.writeCombining f0 = true
         ∨ IA32_MTRR_MEMORY_TYPE_WC ∈ hitTypes l physicalAddress)
    ∧ (EPT_FoundMemoryTypes.writeThrough f = true
       ↔ EPT_FoundMemoryTypes.writeThrough f0 = true
         ∨ IA32_MTRR_MEMORY_TYPE_WT ∈ hitTypes l physicalAddress)
    ∧ (EPT_FoundMemoryTypes.writeProtected f = true
       ↔ EPT_FoundMemoryTypes.writeProtected f0 = true
         ∨ IA32_MTRR_MEMORY_TYPE_WP ∈ hitTypes l physicalAddress)
    ∧ (EPT_FoundMemoryTypes.writeback f = true
       ↔ EPT_FoundMemoryTypes.writeback f0 = true
         ∨ IA32_MTRR_MEMORY_TYPE_WB ∈ hitTypes l physicalAddress).
Proof.
  revert f0. induction l as [|m l IH]; intros f0 Hno Hdef.
  - exists f0. split; [reflexivity|].
    unfold hitTypes. simpl. rewrite !elem_of_nil. tauto.
  - apply Forall_cons in Hno as [Hm Hno].
    rewrite hitTypes_cons in * by assumption. simpl.
    destruct (EPT_VariableMtrr.valid m); simpl in *; [|now apply IH].
    destruct (mtrrContains m physicalAddress); simpl in *; [|now apply IH].
    apply Forall_cons in Hdef as [Ht Hdef].
    destruct f0 as [uc wc wt wp wb].
    unfold definedMemoryType in Ht.
    destruct Ht as [E|[E|[E|[E|E]]]]; rewrite E; simpl;
      (edestruct IH as (f & Hf & Huc & Hwc & Hwt & Hwp & Hwb);
       [eassumption|eassumption|]);
      (exists f; split; [exact Hf|]); simpl in *;
      rewrite Huc, Hwc, Hwt, Hwp, Hwb, !elem_of_cons;
      unfold IA32_MTRR_MEMORY_TYPE_UC, IA32_MTRR_MEMORY_TYPE_WC,
        IA32_MTRR_MEMORY_TYPE_WT, IA32_MTRR_MEMORY_TYPE_WP,
        IA32_MTRR_MEMORY_TYPE_WB;
      repeat split; intros; intuition (try discriminate; auto).
Qed.

(** What [searchVariableMtrrs] returns, by the set of types that hit:
    the type when a single type hits, UC whenever UC hits, WT for exactly
    WT and WB, [IA32_MTRR_MEMORY_TYPE_ERR] for every other combination of
    several types, and the default type when nothing hits. *)
Theorem searchVariableMtrrs_resolution (noOfVariableMtrrs : N)
    (variableMtrrs : list EPT_VariableMtrr.t)
    (defaultMemoryType physicalAddress : N) :
  Forall (λ m, EPT_VariableMtrr.baseAddress m + EPT_VariableMtrr.length m < 2 ^ 64)
    (take (N.to_nat noOfVariableMtrrs) variableMtrrs) →
  Forall definedMemoryType
    (hitTypes (take (N.to_nat noOfVariableMtrrs) variableMtrrs) physicalAddress) →
  (∀ t, t ∈ hitTypes (take (N.to_nat noOfVariableMtrrs) variableMtrrs) physicalAddress →
        (∀ x, x ∈ hitTypes (take (N.to_nat noOfVariableMtrrs) variableMtrrs)
                    physicalAddress → x = t) →
        searchVariableMtrrs noOfVariableMtrrs variableMtrrs defaultMemoryType
          physicalAddress = t)
  ∧ (IA32_MTRR_MEMORY_TYPE_UC
       ∈ hitTypes (take (N.to_nat noOfVariableMtrrs) variableMtrrs) physicalAddress →
     searchVariableMtrrs noOfVariableMtrrs variableMtrrs defaultMemoryType
       physicalAddress = IA32_MTRR_MEMORY_TYPE_UC)
  ∧ (IA32_MTRR_MEMORY_TYPE_WT
       ∈ hitTypes (take (N.to_nat noOfVariableMtrrs) variableMtrrs) physicalAddress →
     IA32_MTRR_MEMORY_TYPE_WB
       ∈ hitTypes (take (N.to_nat noOfVariableMtrrs) variableMtrrs) physicalAddress →
     (∀ x, x ∈ hitTypes (take (N.to_nat noOfVariableMtrrs) variableMtrrs)
                 physicalAddress →
           x = IA32_MTRR_MEMORY_TYPE_WT ∨ x = IA32_MTRR_MEMORY_TYPE_WB) →
     searchVariableMtrrs noOfVariableMtrrs variableMtrrs defaultMemoryType
       physicalAddress = IA32_MTRR_MEMORY_TYPE_WT)
  ∧ (∀ x y,
       x ∈ hitTypes (take (N.to_nat noOfVariableMtrrs) variableMtrrs) physicalAddress →
       y ∈ hitTypes (take (N.to_nat noOfVariableMtrrs) variableMtrrs) physicalAddress →
       x ≠ y →
       IA32_MTRR_MEMORY_TYPE_UC
         ∉ hitTypes (take (N.to_nat noOfVariableMtrrs) variableMtrrs) physicalAddress →
       ¬ (x = IA32_MTRR_MEMORY_TYPE_WT ∧ y = IA32_MTRR_MEMORY_TYPE_WB
          ∧ ∀ z, z ∈ hitTypes (take (N.to_nat noOfVariableMtrrs) variableMtrrs)
                       physicalAddress →
                 z = IA32_MTRR_MEMORY_TYPE_WT ∨ z = IA32_MTRR_MEMORY_TYPE_WB) →
       ¬ (x = IA32_MTRR_MEMORY_TYPE_WB ∧ y = IA32_MTRR_MEMORY_TYPE_WT
          ∧ ∀ z, z ∈ hitTypes (take (N.to_nat noOfVariableMtrrs) variableMtrrs)
                       physicalAddress →
                 z = IA32_MTRR_MEMORY_TYPE_WT ∨ z = IA32_MTRR_MEMORY_TYPE_WB) →
       searchVariableMtrrs noOfVariableMtrrs variableMtrrs defaultMemoryType
         physicalAddress = IA32_MTRR_MEMORY_TYPE_ERR)
  ∧ (hitTypes (take (N.to_nat noOfVariableMtrrs) variableMtrrs) physicalAddress = [] →
     searchVariableMtrrs noOfVariableMtrrs variableMtrrs defaultMemoryType
       physicalAddress = defaultMemoryType).
Proof.
  intros Hno Hdef. unfold searchVariableMtrrs.
  set (hits := hitTypes (take (N.to_nat noOfVariableMtrrs) variableMtrrs)
                 physicalAddress) in *.
  destruct (collectMemoryTypes_spec _ physicalAddress EPT_FoundMemoryTypes.zero
              Hno Hdef) as (f & -> & Huc & Hwc & Hwt & Hwp & Hwb).
  fold hits in Huc, Hwc, Hwt, Hwp, Hwb. simpl in Huc, Hwc, Hwt, Hwp, Hwb.
  rewrite Forall_forall in Hdef. unfold definedMemoryType in Hdef.
  assert (Euc : EPT_FoundMemoryTypes.uncacheable f = true
                ↔ IA32_MTRR_MEMORY_TYPE_UC ∈ hits) by (rewrite Huc; intuition discriminate).
  assert (Ewc : EPT_FoundMemoryTypes.writeCombining f = true
                ↔ IA32_MTRR_MEMORY_TYPE_WC ∈ hits) by (rewrite Hwc; intuition discriminate).
  assert (Ewt : EPT_FoundMemoryTypes.writeThrough f = true
                ↔ IA32_MTRR_MEMORY_TYPE_WT ∈ hits) by (rewrite Hwt; intuition discriminate).
  assert (Ewp : EPT_FoundMemoryTypes.writeProtected f = true
                ↔ IA32_MTRR_MEMORY_TYPE_WP ∈ hits) by (rewrite Hwp; intuition discriminate).
  assert (Ewb : EPT_FoundMemoryTypes.writeback f = true
                ↔ IA32_MTRR_MEMORY_TYPE_WB ∈ hits) by (rewrite Hwb; intuition discriminate).
  clear Huc Hwc Hwt Hwp Hwb.
  unfold resolveMemoryType, EPT_FoundMemoryTypes.count.
  destruct f as [uc wc wt wp wb]. simpl in *.
  unfold IA32_MTRR_MEMORY_TYPE_UC, IA32_MTRR_MEMORY_TYPE_WC,
    IA32_MTRR_MEMORY_TYPE_WT, IA32_MTRR_MEMORY_TYPE_WP,
    IA32_MTRR_MEMORY_TYPE_WB, IA32_MTRR_MEMORY_TYPE_ERR in *.
  split; [|split; [|split; [|split]]].
  - intros t Ht Hall.
    assert (Hflag : ∀ b x, (b = true ↔ x ∈ hits) → b = true → x = t)
      by (intros b x Hb Hbt; apply Hall, Hb, Hbt).
    destruct (Hdef t Ht) as [->|[->|[->|[->| ->]]]].
    + apply Euc in Ht as ->.
      destruct wc; [now specialize (Hflag _ _ Ewc eq_refl)|].
      destruct wt; [now specialize (Hflag _ _ Ewt eq_refl)|].
      destruct wp; [now specialize (Hflag _ _ Ewp eq_refl)|].
      destruct wb; [now specialize (Hflag _ _ Ewb eq_refl)|]. reflexivity.
    + apply Ewc in Ht as ->.
      destruct uc; [now specialize (Hflag _ _ Euc eq_refl)|].
      destruct wt; [now specialize (Hflag _ _ Ewt eq_refl)|].
      destruct wp; [now specialize (Hflag _ _ Ewp eq_refl)|].
      destruct wb; [now specialize (Hflag _ _ Ewb eq_refl)|]. reflexivity.
    + apply Ewt in Ht as ->.
      destruct uc; [now specialize (Hflag _ _ Euc eq_refl)|].
      destruct wc; [now specialize (Hflag _ _ Ewc eq_refl)|].
      destruct wp; [now specialize (Hflag _ _ Ewp eq_refl)|].
      destruct wb; [now specialize (Hflag _ _ Ewb eq_refl)|]. reflexivity.
    + apply Ewp in Ht as ->.
      destruct uc; [now specialize (Hflag _ _ Euc eq_refl)|].
      destruct wc; [now specialize (Hflag _ _ Ewc eq_refl)|].
      destruct wt; [now specialize (Hflag _ _ Ewt eq_refl)|].
      destruct wb; [now specialize (Hflag _ _ Ewb eq_refl)|]. reflexivity.
    + apply Ewb in Ht as ->.
      destruct uc; [now specialize (Hflag _ _ Euc eq_refl)|].
      destruct wc; [now specialize (Hflag _ _ Ewc eq_refl)|].
      destruct wt; [now specialize (Hflag _ _ Ewt eq_refl)|].
      destruct wp; [now specialize (Hflag _ _ Ewp eq_refl)|]. reflexivity.
  - intros Ht. apply Euc in Ht as ->. now destruct wc, wt, wp, wb.
  - intros Ht Hb Hall. apply Ewt in Ht as ->. apply Ewb in Hb as ->.
    destruct uc; [destruct (Hall _ (proj1 Euc eq_refl)); discriminate|].
    destruct wc; [destruct (Hall _ (proj1 Ewc eq_refl)); discriminate|].
    destruct wp; [destruct (Hall _ (proj1 Ewp eq_refl)); discriminate|].
    reflexivity.
  - intros x y Hx Hy Hxy Hnuc H1 H2.
    destruct uc; [exfalso; now apply Hnuc, Euc|].
    assert (Hin : ∀ z, z ∈ hits →
              (z = 1 ∧ wc = true) ∨ (z = 4 ∧ wt = true) ∨ (z = 5 ∧ wp = true)
              ∨ (z = 6 ∧ wb = true)).
    { intros z Hz. destruct (Hdef z Hz) as [->|[->|[->|[->| ->]]]].
      - contradiction.
      - left. split; [reflexivity|]. now apply Ewc.
      - right. left. split; [reflexivity|]. now apply Ewt.
      - right. right. left. split; [reflexivity|]. now apply Ewp.
      - right. right. right. split; [reflexivity|]. now apply Ewb. }
    assert (Hall46 : wc = false → wp = false → ∀ z, z ∈ hits → z = 4 ∨ z = 6).
    { intros -> -> z Hz.
      destruct (Hin z Hz) as [[_ ?]|[[? _]|[[_ ?]|[? _]]]];
        try discriminate; auto. }
    pose proof (Hin x Hx) as Hx'. pose proof (Hin y Hy) as Hy'.
    destruct wc, wt, wp, wb; try reflexivity; exfalso;
      destruct Hx' as [[? ?]|[[? ?]|[[? ?]|[? ?]]]]; try discriminate;
      destruct Hy' as [[? ?]|[[? ?]|[[? ?]|[? ?]]]]; try discriminate;
      subst; try congruence;
      first [ apply H1; repeat split; try reflexivity; now apply Hall46
            | apply H2; repeat split; try reflexivity; now apply Hall46 ].
  - intros Hnil. rewrite Hnil in *.
    destruct uc; [exfalso; exact (proj1 (elem_of_nil _) (proj1 Euc eq_refl))|].
    destruct wc; [exfalso; exact (proj1 (elem_of_nil _) (proj1 Ewc eq_refl))|].
    destruct wt; [exfalso; exact (proj1 (elem_of_nil _) (proj1 Ewt eq_refl))|].
    destruct wp; [exfalso; exact (proj1 (elem_of_nil _) (proj1 Ewp eq_refl))|].
    destruct wb; [exfalso; exact (proj1 (elem_of_nil _) (proj1 Ewb eq_refl))|].
    reflexivity.
Qed.

(** ** The error of the resolver is lost in [adjustPml4WithVariableMtrrs] *)

(** A 3-bit field never reads back as [IA32_MTRR_MEMORY_TYPE_ERR]. *)
Lemma memoryType_not_ERR (e : N) :
  (EPT_PdE2MB.memoryType e =? IA32_MTRR_MEMORY_TYPE_ERR) = false.
Proof.
  apply N.eqb_neq. pose proof (bitfield_lt 3 3 e) as H.
  unfold EPT_PdE2MB.memoryType, IA32_MTRR_MEMORY_TYPE_ERR.
  change (2 ^ 3) with 8 in H. lia.
Qed.

Lemma adjustPdEntry_status (n : N) (l : list EPT_VariableMtrr.t) (d : N)
    (mem : gmap N (list N)) (pd : N) (i : nat) :
  (adjustPdEntry n l d mem pd i).1 = STATUS_SUCCESS.
Proof. unfold adjustPdEntry. now rewrite memoryType_not_ERR. Qed.

Lemma adjustPd_cons (n : N) (l : list EPT_VariableMtrr.t) (d : N)
    (i : nat) (indices : list nat) (mem : gmap N (list N)) (pd : N) :
  adjustPd n l d mem pd (i :: indices)
  = let '(ntStatus, mem1) := adjustPdEntry n l d mem pd i in
    if NT_SUCCESS ntStatus then adjustPd n l d mem1 pd indices
    else (ntStatus, mem1).
Proof. reflexivity. Qed.

Lemma adjustPd_status (n : N) (l : list EPT_VariableMtrr.t) (d : N)
    (indices : list nat) (mem : gmap N (list N)) (pd : N) :
  (adjustPd n l d mem pd indices).1 = STATUS_SUCCESS.
Proof.
  revert mem. induction indices as [|i indices IH]; intros mem; [reflexivity|].
  rewrite adjustPd_cons.
  pose proof (adjustPdEntry_status n l d mem pd i) as H.
  destruct (adjustPdEntry n l d mem pd i) as [st mem1].
  cbn [fst] in H. subst st. rewrite NT_SUCCESS_STATUS_SUCCESS. apply IH.
Qed.

Lemma adjustPdpt_cons (n : N) (l : list EPT_VariableMtrr.t) (d : N)
    (i : nat) (indices : list nat) (mem : gmap N (list N)) (pdpt : N) :
  adjustPdpt n l d mem pdpt (i :: indices)
  = pd ← Memory_getVirtualAddress mem
      (EPT_Address.of_pageFrameNumber4KB
         (EPT_PagingStructure.pageFrameNumber (readq mem pdpt (N.of_nat i))));
    let '(ntStatus, mem1) := adjustPd n l d mem pd (seq 0 512) in
    if NT_SUCCESS ntStatus then adjustPdpt n l d mem1 pdpt indices
    else mret (ntStatus, mem1).
Proof. reflexivity. Qed.

Lemma adjustPdpt_status (n : N) (l : list EPT_VariableMtrr.t) (d : N)
    (indices : list nat) (mem : gmap N (list N)) (pdpt st : N)
    (mem' : gmap N (list N)) :
  adjustPdpt n l d mem pdpt indices = Returns (st, mem') → st = STATUS_SUCCESS.
Proof.
  revert mem. induction indices as [|i indices IH]; intros mem H.
  - now injection H as <- _.
  - rewrite adjustPdpt_cons in H. apply bind_Returns in H as (pd & _ & H).
    pose proof (adjustPd_status n l d (seq 0 512) mem pd) as Hs.
    destruct (adjustPd n l d mem pd (seq 0 512)) as [st1 mem1].
    cbn [fst] in Hs. subst st1. rewrite NT_SUCCESS_STATUS_SUCCESS in H.
    exact (IH _ H).
Qed.

(** Whatever the MTRRs are, when [adjustPml4WithVariableMtrrs] returns it
    returns [STATUS_SUCCESS]. *)
Lemma adjustPml4WithVariableMtrrs_status (n : N) (l : list EPT_VariableMtrr.t)
    (d : N) (mem : gmap N (list N)) (pml4e st : N) (mem' : gmap N (list N)) :
  adjustPml4WithVariableMtrrs n l d mem pml4e = Returns (st, mem') →
  st = STATUS_SUCCESS.
Proof.
  unfold adjustPml4WithVariableMtrrs. intros H.
  apply bind_Returns in H as (pdpt & _ & H).
  eapply adjustPdpt_status; eassumption.
Qed.

(** C8, where the code departs from it: with a WC and a WB range over
    address 0 the resolver returns [IA32_MTRR_MEMORY_TYPE_ERR], yet the
    loop over the page directory goes on to the end and returns
    [STATUS_SUCCESS], leaving memory type 7 in the leaf for address 0. *)
Theorem C8_error_is_not_reported :
  hitTypes demo_mtrrs 0 = [IA32_MTRR_MEMORY_TYPE_WC; IA32_MTRR_MEMORY_TYPE_WB]
  ∧ searchVariableMtrrs 2 demo_mtrrs IA32_MTRR_MEMORY_TYPE_WB 0
    = IA32_MTRR_MEMORY_TYPE_ERR
  ∧ (adjustPd 2 demo_mtrrs IA32_MTRR_MEMORY_TYPE_WB demo_memory 3 (seq 0 512)).1
    = STATUS_SUCCESS
  ∧ EPT_PdE2MB.memoryType
      (readq (adjustPd 2 demo_mtrrs IA32_MTRR_MEMORY_TYPE_WB demo_memory 3
                (seq 0 512)).2 3 0) = 7.
Proof.
  split; [|split; [|split]].
  - unfold hitTypes, demo_mtrrs.
    rewrite filter_cons_True
      by (split; [reflexivity|split; [discriminate|reflexivity]]).
    rewrite filter_cons_True
      by (split; [reflexivity|split; [discriminate|reflexivity]]).
    reflexivity.
  - reflexivity.
  - vm_compute. reflexivity.
  - vm_compute. reflexivity.
Qed.

(** ** The VM-exit dispatcher *)

Lemma bind_BugCheck {A B : Type} (m : Outcome A) (f : A → Outcome B) (code : N) :
  m ≫= f = BugCheck code →
  m = BugCheck code ∨ ∃ a, m = Returns a ∧ f a = BugCheck code.
Proof. destruct m as [a|code']; simpl; [eauto|]. intros [= ->]. now left. Qed.

Lemma Memory_getVirtualAddress_BugCheck (mem : gmap N (list N)) (address code : N) :
  Memory_getVirtualAddress mem address = BugCheck code →
  code = BSOD_MEMORY_VA_CONVERSION.
Proof.
  unfold Memory_getVirtualAddress. destruct (mem !! _); [discriminate|].
  now intros [= <-].
Qed.

Lemma EPT_pageDirectory_BugCheck (c : Context_LogicalCore) (address code : N) :
  EPT_pageDirectory c address = BugCheck code → code = BSOD_MEMORY_VA_CONVERSION.
Proof.
  unfold EPT_pageDirectory. intros H.
  apply bind_BugCheck in H as [H|(pml4 & _ & H)];
    [now apply Memory_getVirtualAddress_BugCheck in H|].
  apply bind_BugCheck in H as [H|(pdpt & _ & H)];
    now apply Memory_getVirtualAddress_BugCheck in H.
Qed.

(** The only bug check [EPT_changeMapping] can end in is that of
    [Memory_getVirtualAddress]. *)
Lemma EPT_changeMapping_BugCheck (c : Context_LogicalCore)
    (sourceAddress targetAddress : N) (rw fetch : bool) (code : N) :
  EPT_changeMapping c sourceAddress targetAddress rw fetch = BugCheck code →
  code = BSOD_MEMORY_VA_CONVERSION.
Proof.
  unfold EPT_changeMapping, EPT_traverse. intros H.
  apply bind_BugCheck in H as [H|([[st c1] pd] & _ & H)].
  - apply bind_BugCheck in H as [H|(pd & _ & H)];
      [now apply EPT_pageDirectory_BugCheck in H|].
    destruct (_ =? 1); [|discriminate].
    now destruct (splitPage c pd _).
  - destruct (negb _); [discriminate|].
    apply bind_BugCheck in H as [H|(pt & _ & H)]; [|discriminate].
    now apply Memory_getVirtualAddress_BugCheck in H.
Qed.

Lemma vmCallMapPage_BugCheck (c : Context_LogicalCore) (RDX R8 R9 code : N) :
  vmCallMapPage c RDX R8 R9 = BugCheck code → code = BSOD_MEMORY_VA_CONVERSION.
Proof.
  unfold vmCallMapPage. intros H.
  destruct (negb _); [discriminate|]. destruct (existsb _ _); [discriminate|].
  destruct (selectIndex _) as [[i m]|]; [|discriminate].
  apply bind_BugCheck in H as [H|([st c1] & _ & H)];
    [now apply EPT_changeMapping_BugCheck in H|].
  now destruct (negb _).
Qed.

Lemma vmCallUnmapPage_BugCheck (c : Context_LogicalCore) (RDX code : N) :
  vmCallUnmapPage c RDX = BugCheck code → code = BSOD_MEMORY_VA_CONVERSION.
Proof.
  unfold vmCallUnmapPage. intros H.
  destruct (findMapping _ _) as [[i m]|]; [|discriminate].
  apply bind_BugCheck in H as [H|([st c1] & _ & H)];
    [now apply EPT_changeMapping_BugCheck in H|].
  now destruct (negb _).
Qed.

Lemma eptViolationHandler_BugCheck (c : Context_LogicalCore)
    (exitQualification guestPhysicalAddress code : N) :
  eptViolationHandler c exitQualification guestPhysicalAddress = BugCheck code →
  code = BSOD_VMEXIT_EPT_NO_MAPPING ∨ code = BSOD_VMEXIT_EPT_UNKNOWN
  ∨ code = BSOD_MEMORY_VA_CONVERSION.
Proof.
  unfold eptViolationHandler. intros H.
  destruct (findMapping _ _) as [[i m]|]; [|injection H as <-; now left].
  destruct (_ || _).
  - apply bind_BugCheck in H as [H|([st c1] & _ & H)]; [|discriminate].
    apply EPT_changeMapping_BugCheck in H. auto.
  - destruct (_ =? 1); [|injection H as <-; auto].
    apply bind_BugCheck in H as [H|([st c1] & _ & H)]; [|discriminate].
    apply EPT_changeMapping_BugCheck in H. auto.
Qed.

Lemma vmCallHandler_BugCheck (r : VMEXIT_Registers) (c : Context_LogicalCore)
    (code : N) :
  vmCallHandler r c = BugCheck code → code = BSOD_MEMORY_VA_CONVERSION.
Proof.
  unfold vmCallHandler. intros H.
  destruct (_ =? VMEXIT_VMCALL_INITIATE_SHUTDOWN); [discriminate|].
  destruct (_ =? VMEXIT_VMCALL_MAP_PAGE).
  { apply bind_BugCheck in H as [H|([rax c1] & _ & H)]; [|discriminate].
    now apply vmCallMapPage_BugCheck in H. }
  destruct (_ =? VMEXIT_VMCALL_UNMAP_PAGE); [|discriminate].
  apply bind_BugCheck in H as [H|([rax c1] & _ & H)]; [|discriminate].
  now apply vmCallUnmapPage_BugCheck in H.
Qed.


Lemma vmCallHandler_cases (r r' : VMEXIT_Registers) (c c' : Context_LogicalCore)
    (initiateShutdown : bool) :
  vmCallHandler r c = Returns (r', c', initiateShutdown) →
  (RCX r = VMEXIT_VMCALL_INITIATE_SHUTDOWN
   ∧ r' = set_RAX STATUS_SUCCESS r ∧ c' = c ∧ initiateShutdown = true)
  ∨ (RCX r = VMEXIT_VMCALL_MAP_PAGE ∧ initiateShutdown = false
     ∧ ∃ rax, vmCallMapPage c (RDX r) (R8 r) (R9 r) = Returns (rax, c')
              ∧ r' = set_RAX rax r)
  ∨ (RCX r = VMEXIT_VMCALL_UNMAP_PAGE ∧ initiateShutdown = false
     ∧ ∃ rax, vmCallUnmapPage c (RDX r) = Returns (rax, c')
              ∧ r' = set_RAX rax r)
  ∨ (RCX r ≠ VMEXIT_VMCALL_INITIATE_SHUTDOWN ∧ RCX r ≠ VMEXIT_VMCALL_MAP_PAGE
     ∧ RCX r ≠ VMEXIT_VMCALL_UNMAP_PAGE
     ∧ r' = r ∧ c' = c ∧ initiateShutdown = false).
Proof.
  unfold vmCallHandler. intros H.
  destruct (N.eqb_spec (RCX r) VMEXIT_VMCALL_INITIATE_SHUTDOWN) as [E1|N1].
  { injection H as <- <- <-. now left. }
  destruct (N.eqb_spec (RCX r) VMEXIT_VMCALL_MAP_PAGE) as [E2|N2].
  { apply bind_Returns in H as ([rax c1] & Hmap & [= <- <- <-]).
    right. left. eauto. }
  destruct (N.eqb_spec (RCX r) VMEXIT_VMCALL_UNMAP_PAGE) as [E3|N3].
  { apply bind_Returns in H as ([rax c1] & Hmap & [= <- <- <-]).
    right. right. left. eauto. }
  injection H as <- <- <-. right. right. right. auto 10.
Qed.

Lemma VMEXIT_handler_cases (cpuidex : N → N → N * N * N * N)
    (constLocal : ConstLocal)
    (s s' : VMEXIT_State) (initiateShutdown : bool) :
  VMEXIT_handler cpuidex constLocal s = Returns (initiateShutdown, s') →
  (basicExitReason_of s = VMEXIT_CPUID ∧ initiateShutdown = false
   ∧ registers s' = cpuidHandler cpuidex (registers_in s) ∧ core s' = core s
   ∧ vmcs s' = <[VMCS_GUEST_RSP := RSP (registers s')]>
                 (<[VMCS_GUEST_RIP := nextRIP constLocal s]> (vmcs s)))
  ∨ (basicExitReason_of s = VMEXIT_VMCALL
     ∧ vmCallHandler (registers_in s) (core s)
       = Returns (registers s', core s', initiateShutdown)
     ∧ vmcs s' = <[VMCS_GUEST_RSP := RSP (registers s')]>
                   (<[VMCS_GUEST_RIP := nextRIP constLocal s]> (vmcs s)))
  ∨ (basicExitReason_of s = VMEXIT_EPT_VIOLATION ∧ initiateShutdown = false
     ∧ registers s' = registers_in s
     ∧ eptViolationHandler (core s) (vmread (vmcs s) VMCS_EXIT_QUALIFICATION 0)
         (vmread (vmcs s) VMCS_GUEST_PHYSICAL_ADDRESS_FULL 0) = Returns (core s')
     ∧ vmcs s' = <[VMCS_GUEST_RSP := RSP (registers s')]> (vmcs s)).
Proof.
  unfold VMEXIT_handler. fold (basicExitReason_of s). fold (registers_in s).
  intros H.
  apply bind_Returns in H as ([[[r1 c1] sh] inc] & Hd & H).
  destruct (N.eqb_spec (basicExitReason_of s) VMEXIT_CPUID) as [E1|N1].
  { injection Hd as <- <- <- <-. injection H as <- <-. left. auto 10. }
  destruct (N.eqb_spec (basicExitReason_of s) VMEXIT_VMCALL) as [E2|N2].
  { apply bind_Returns in Hd as ([[r2 c2] sh2] & Hv & [= <- <- <- <-]).
    injection H as <- <-. right. left. auto. }
  destruct (N.eqb_spec (basicExitReason_of s) VMEXIT_EPT_VIOLATION) as [E3|N3];
    [|discriminate].
  apply bind_Returns in Hd as (c2 & Hv & [= <- <- <- <-]).
  injection H as <- <-. right. right. auto 10.
Qed.

(** X1: the dispatcher ends in the bug check [BSOD_VMEXIT_UNKNOWN] exactly
    when the low 16 bits of the exit reason are none of CPUID, VMCALL and
    EPT violation; no handler it calls raises that code. *)
Theorem VMEXIT_handler_unknown_reason (cpuidex : N → N → N * N * N * N)
    (constLocal : ConstLocal)
    (s : VMEXIT_State) :
  VMEXIT_handler cpuidex constLocal s = BugCheck BSOD_VMEXIT_UNKNOWN
  ↔ basicExitReason_of s ≠ VMEXIT_CPUID ∧ basicExitReason_of s ≠ VMEXIT_VMCALL
    ∧ basicExitReason_of s ≠ VMEXIT_EPT_VIOLATION.
Proof.
  unfold VMEXIT_handler. fold (basicExitReason_of s). fold (registers_in s).
  destruct (N.eqb_spec (basicExitReason_of s) VMEXIT_CPUID) as [E1|N1].
  { split; [discriminate|]. intros (H & _). contradiction. }
  destruct (N.eqb_spec (basicExitReason_of s) VMEXIT_VMCALL) as [E2|N2].
  { split; [|intros (_ & H & _); contradiction].
    intros H. exfalso.
    apply bind_BugCheck in H as [H|([[[r1 c1] sh] inc] & _ & H)]; [|discriminate].
    apply bind_BugCheck in H as [H|([[r2 c2] sh2] & _ & H)]; [|discriminate].
    apply vmCallHandler_BugCheck in H. discriminate. }
  destruct (N.eqb_spec (basicExitReason_of s) VMEXIT_EPT_VIOLATION) as [E3|N3].
  { split; [|intros (_ & _ & H); contradiction].
    intros H. exfalso.
    apply bind_BugCheck in H as [H|([[[r1 c1] sh] inc] & _ & H)]; [|discriminate].
    apply bind_BugCheck in H as [H|(c2 & _ & H)]; [|discriminate].
    apply eptViolationHandler_BugCheck in H as [H|[H|H]]; discriminate. }
  split; [auto|reflexivity].
Qed.

Lemma VMEXIT_handler_unknown_reason_witness :
  VMEXIT_handler demo_cpuidex constLocal_stored (demo_state 1 0 0x8000000C demo_core)
  = BugCheck BSOD_VMEXIT_UNKNOWN.
Proof.
  apply (proj2 (VMEXIT_handler_unknown_reason demo_cpuidex constLocal_stored
                  (demo_state 1 0 0x8000000C demo_core))).
  vm_compute. repeat split; discriminate.
Defined.

(** X2: an EPT-violation exit that returns leaves the guest's instruction
    pointer where it was, so the access is tried again.  After a CPUID or
    VMCALL exit the dispatcher writes the instruction pointer with the sum,
    modulo 2^64, of what it reads from its locals [rip] and
    [instructionLength]; these are [const] locals written through
    [__vmx_vmread], so the sum is the old instruction pointer plus the
    instruction length in a build that reads the stored values back, and
    it is 0 in a build that reads the initialisers. *)
Theorem VMEXIT_handler_guest_RIP (cpuidex : N → N → N * N * N * N)
    (constLocal : ConstLocal)
    (s s' : VMEXIT_State) (initiateShutdown : bool) :
  VMEXIT_handler cpuidex constLocal s = Returns (initiateShutdown, s') →
  vmcs s' !! VMCS_GUEST_RIP
  = (if basicExitReason_of s =? VMEXIT_EPT_VIOLATION
     then vmcs s !! VMCS_GUEST_RIP
     else Some ((constLocal 0 (vmread (vmcs s) VMCS_GUEST_RIP 0)
                 + constLocal 0 (vmread (vmcs s) VMCS_VM_EXIT_INSTRUCTION_LENGTH 0))
                mod 2 ^ 64))
  ∧ nextRIP constLocal_stored s
    = (vmread (vmcs s) VMCS_GUEST_RIP 0
       + vmread (vmcs s) VMCS_VM_EXIT_INSTRUCTION_LENGTH 0) mod 2 ^ 64
  ∧ nextRIP constLocal_initial s = 0.
Proof.
  intros H. split; [|split; reflexivity]. fold (nextRIP constLocal s).
  apply VMEXIT_handler_cases in H
    as [(E & _ & _ & _ & ->)|[(E & _ & ->)|(E & _ & _ & _ & ->)]];
    rewrite E; simpl;
    rewrite lookup_insert_ne by discriminate;
    [now rewrite lookup_insert_eq..|reflexivity].
Qed.

Lemma VMEXIT_handler_guest_RIP_witness :
  vmcs (state_after (demo_state 1 0 VMEXIT_CPUID demo_core)
          (VMEXIT_handler demo_cpuidex constLocal_initial
             (demo_state 1 0 VMEXIT_CPUID demo_core)))
    !! VMCS_GUEST_RIP
  = Some 0
  ∧ vmcs (state_after (demo_state 1 0 VMEXIT_CPUID demo_core)
            (VMEXIT_handler demo_cpuidex constLocal_stored
               (demo_state 1 0 VMEXIT_CPUID demo_core)))
      !! VMCS_GUEST_RIP
    = Some 0xFFFFF80000002002.
Proof.
  split.
  - refine (eq_trans
              (proj1 (VMEXIT_handler_guest_RIP demo_cpuidex constLocal_initial
                        (demo_state 1 0 VMEXIT_CPUID demo_core) _ false _)) _);
      [vm_compute; reflexivity|reflexivity].
  - refine (eq_trans
              (proj1 (VMEXIT_handler_guest_RIP demo_cpuidex constLocal_stored
                        (demo_state 1 0 VMEXIT_CPUID demo_core) _ false _)) _);
      [vm_compute; reflexivity|reflexivity].
Defined.

(** X3: the dispatcher asks for the shutdown of the VM exactly on a VMCALL
    exit whose RCX is [VMEXIT_VMCALL_INITIATE_SHUTDOWN]; it then reports
    [STATUS_SUCCESS] in RAX and leaves the core's context as it was. *)
Theorem VMEXIT_handler_shutdown (cpuidex : N → N → N * N * N * N)
    (constLocal : ConstLocal)
    (s s' : VMEXIT_State) (initiateShutdown : bool) :
  VMEXIT_handler cpuidex constLocal s = Returns (initiateShutdown, s') →
  (initiateShutdown = true
   ↔ basicExitReason_of s = VMEXIT_VMCALL
     ∧ RCX (registers s) = VMEXIT_VMCALL_INITIATE_SHUTDOWN)
  ∧ (initiateShutdown = true →
     RAX (registers s') = STATUS_SUCCESS ∧ core s' = core s).
Proof.
  intros H.
  apply VMEXIT_handler_cases in H
    as [(E & -> & _)|[(E & Hv & _)|(E & -> & _)]].
  - split; [|discriminate]. split; [discriminate|]. intros [H _].
    rewrite E in H. discriminate.
  - change (RCX (registers s)) with (RCX (registers_in s)).
    apply vmCallHandler_cases in Hv
      as [(Ec & -> & -> & ->)|[(Ec & -> & _)|[(Ec & -> & _)|(N1 & _ & _ & _ & _ & ->)]]].
    + split; [|now intros _]. split; [now intros _|now split].
    + split; [|discriminate]. split; [discriminate|]. intros [_ H].
      rewrite H in Ec. discriminate.
    + split; [|discriminate]. split; [discriminate|]. intros [_ H].
      rewrite H in Ec. discriminate.
    + split; [|discriminate]. split; [discriminate|]. now intros [_ H].
  - split; [|discriminate]. split; [discriminate|]. intros [H _].
    rewrite E in H. discriminate.
Qed.

Lemma VMEXIT_handler_shutdown_witness :
  RAX (registers
         (state_after
            (demo_state 5 VMEXIT_VMCALL_INITIATE_SHUTDOWN VMEXIT_VMCALL demo_core)
            (VMEXIT_handler demo_cpuidex constLocal_stored
               (demo_state 5 VMEXIT_VMCALL_INITIATE_SHUTDOWN VMEXIT_VMCALL
                  demo_core))))
  = STATUS_SUCCESS.
Proof.
  refine (proj1 (proj2 (VMEXIT_handler_shutdown demo_cpuidex constLocal_stored
                          (demo_state 5 VMEXIT_VMCALL_INITIATE_SHUTDOWN
                             VMEXIT_VMCALL demo_core) _ true _) eq_refl)).
  vm_compute. reflexivity.
Defined.

(** X4: what the dispatcher never does.  On every exit that returns, the
    registers R8 to R15, RDI, RSI and RBP keep their values; RSP is the
    guest stack pointer of the VMCS and is written back to it; no VMCS
    field other than the guest RIP and RSP changes; and the context of the
    core is changed by nothing but a MAP_PAGE or UNMAP_PAGE hypercall or
    an EPT violation. *)
Theorem VMEXIT_handler_preserves (cpuidex : N → N → N * N * N * N)
    (constLocal : ConstLocal)
    (s s' : VMEXIT_State) (initiateShutdown : bool) :
  VMEXIT_handler cpuidex constLocal s = Returns (initiateShutdown, s') →
  untouched (registers s') = untouched (registers s)
  ∧ RSP (registers s') = vmread (vmcs s) VMCS_GUEST_RSP (RSP (registers s))
  ∧ vmcs s' !! VMCS_GUEST_RSP = Some (RSP (registers s'))
  ∧ (∀ field, field ≠ VMCS_GUEST_RIP → field ≠ VMCS_GUEST_RSP →
       vmcs s' !! field = vmcs s !! field)
  ∧ (core s' ≠ core s →
     basicExitReason_of s = VMEXIT_EPT_VIOLATION
     ∨ (basicExitReason_of s = VMEXIT_VMCALL
        ∧ (RCX (registers s) = VMEXIT_VMCALL_MAP_PAGE
           ∨ RCX (registers s) = VMEXIT_VMCALL_UNMAP_PAGE))).
Proof.
  intros H.
  apply VMEXIT_handler_cases in H
    as [(E & _ & Er & Ec & Ev)|[(E & Hv & Ev)|(E & _ & Er & Hv & Ev)]].
  - rewrite Ev, Er, Ec.
    split; [unfold cpuidHandler;
            now destruct (cpuidex _ _) as [[[? ?] ?] ?], (_ =? _)|].
    split; [unfold cpuidHandler;
            now destruct (cpuidex _ _) as [[[? ?] ?] ?], (_ =? _)|].
    split; [apply lookup_insert_eq|].
    split; [intros f H1 H2; now rewrite !lookup_insert_ne by congruence|].
    now intros [].
  - rewrite Ev.
    assert (Hr : untouched (registers s') = untouched (registers s)
                 ∧ RSP (registers s') = RSP (registers_in s)
                 ∧ (core s' ≠ core s →
                    RCX (registers s) = VMEXIT_VMCALL_MAP_PAGE
                    ∨ RCX (registers s) = VMEXIT_VMCALL_UNMAP_PAGE)).
    { change (RCX (registers s)) with (RCX (registers_in s)).
      apply vmCallHandler_cases in Hv
        as [(_ & -> & -> & _)|[(Ec & _ & rax & _ & ->)
           |[(Ec & _ & rax & _ & ->)|(_ & _ & _ & -> & -> & _)]]];
        repeat split; auto; now intros []. }
    destruct Hr as (H1 & H2 & H3).
    split; [assumption|]. split; [assumption|].
    split; [apply lookup_insert_eq|].
    split; [intros f Hf1 Hf2; now rewrite !lookup_insert_ne by congruence|].
    intros Hc. right. auto.
  - rewrite Ev, Er. split; [reflexivity|]. split; [reflexivity|].
    split; [apply lookup_insert_eq|].
    split; [intros f H1 H2; now rewrite !lookup_insert_ne by congruence|].
    intros _. now left.
Qed.

Lemma VMEXIT_handler_preserves_witness :
  untouched
    (registers
       (state_after (demo_state 1 0 VMEXIT_CPUID demo_core)
          (VMEXIT_handler demo_cpuidex constLocal_stored (demo_state 1 0 VMEXIT_CPUID demo_core))))
  = untouched (demo_registers 1 0).
Proof.
  refine (proj1 (VMEXIT_handler_preserves demo_cpuidex constLocal_stored
                   (demo_state 1 0 VMEXIT_CPUID demo_core) _ false _)).
  vm_compute. reflexivity.
Defined.

(** X5: a VMCALL whose RCX is none of the three hypercall codes is ignored
    without a status: RAX, RBX, RCX and RDX and the context of the core are
    as the guest left them and nothing asks for a shutdown.  The guest's
    instruction pointer is written as after every VMCALL exit, with the sum
    of what the dispatcher reads from its two [const] locals. *)
Theorem VMEXIT_handler_unknown_hypercall (cpuidex : N → N → N * N * N * N)
    (constLocal : ConstLocal) (s : VMEXIT_State) :
  basicExitReason_of s = VMEXIT_VMCALL →
  RCX (registers s) ≠ VMEXIT_VMCALL_INITIATE_SHUTDOWN →
  RCX (registers s) ≠ VMEXIT_VMCALL_MAP_PAGE →
  RCX (registers s) ≠ VMEXIT_VMCALL_UNMAP_PAGE →
  ∃ s', VMEXIT_handler cpuidex constLocal s = Returns (false, s')
        ∧ RAX (registers s') = RAX (registers s)
        ∧ RBX (registers s') = RBX (registers s)
        ∧ RCX (registers s') = RCX (registers s)
        ∧ RDX (registers s') = RDX (registers s)
        ∧ core s' = core s
        ∧ vmcs s' !! VMCS_GUEST_RIP
          = Some ((constLocal 0 (vmread (vmcs s) VMCS_GUEST_RIP 0)
                   + constLocal 0 (vmread (vmcs s) VMCS_VM_EXIT_INSTRUCTION_LENGTH 0))
                  mod 2 ^ 64).
Proof.
  intros E N1 N2 N3. unfold VMEXIT_handler.
  fold (basicExitReason_of s). fold (registers_in s). rewrite E.
  change (VMEXIT_VMCALL =? VMEXIT_CPUID) with false.
  change (VMEXIT_VMCALL =? VMEXIT_VMCALL) with true. cbv iota.
  unfold vmCallHandler.
  change (RCX (registers_in s)) with (RCX (registers s)).
  destruct (N.eqb_spec (RCX (registers s)) VMEXIT_VMCALL_INITIATE_SHUTDOWN);
    [contradiction|].
  destruct (N.eqb_spec (RCX (registers s)) VMEXIT_VMCALL_MAP_PAGE);
    [contradiction|].
  destruct (N.eqb_spec (RCX (registers s)) VMEXIT_VMCALL_UNMAP_PAGE);
    [contradiction|].
  eexists. split; [reflexivity|]. simpl.
  repeat split. rewrite lookup_insert_ne by discriminate. apply lookup_insert_eq.
Qed.

Lemma VMEXIT_handler_unknown_hypercall_witness :
  ∃ s', VMEXIT_handler demo_cpuidex constLocal_initial
          (demo_state 7 0xF0000 VMEXIT_VMCALL demo_core)
        = Returns (false, s')
        ∧ RAX (registers s') = 7
        ∧ vmcs s' !! VMCS_GUEST_RIP = Some 0.
Proof.
  destruct (VMEXIT_handler_unknown_hypercall demo_cpuidex constLocal_initial
              (demo_state 7 0xF0000 VMEXIT_VMCALL demo_core))
    as (s' & H & Hrax & _ & _ & _ & _ & Hrip); [reflexivity|discriminate..|].
  exists s'. split; [exact H|]. split; [exact Hrax|]. rewrite Hrip. reflexivity.
Defined.

(** ** The CPUID handler *)

Lemma high_half_testbit (i : N) :
  N.testbit 0xFFFFFFFF00000000 i = (32 <=? i) && (i <? 64).
Proof. change 0xFFFFFFFF00000000 with (N.shiftl (N.ones 32) 32). apply mask_testbit. Qed.

Lemma testbit_above_32 (x i : N) : x < 2 ^ 32 → 32 <= i → N.testbit x i = false.
Proof.
  intros Hx Hi. destruct (N.eq_dec x 0) as [->|Hne]; [apply N.bits_0|].
  apply N.bits_above_log2. apply N.log2_lt_pow2; [lia|].
  eapply N.lt_le_trans; [exact Hx|]. apply N.pow_le_mono_r; lia.
Qed.

Lemma INT32_to_UINT64_testbit (x i : N) :
  x < 2 ^ 32 →
  N.testbit (INT32_to_UINT64 x) i
  = if i <? 32 then N.testbit x i else (i <? 64) && N.testbit x 31.
Proof.
  intros Hx. unfold INT32_to_UINT64.
  destruct (N.ltb_spec i 32) as [Hi|Hi].
  - destruct (N.testbit x 31); [|reflexivity].
    rewrite N.lor_spec, high_half_testbit.
    replace (32 <=? i) with false by (symmetry; apply N.leb_gt; lia).
    apply Bool.orb_false_r.
  - destruct (N.testbit x 31) eqn:E.
    + rewrite N.lor_spec, high_half_testbit, testbit_above_32 by assumption.
      replace (32 <=? i) with true by (symmetry; apply N.leb_le; lia).
      simpl. now rewrite Bool.andb_true_r.
    + rewrite testbit_above_32 by assumption. now rewrite Bool.andb_false_r.
Qed.

(** Storing an [INT32] into a 64-bit register keeps its 32 bits. *)
Lemma INT32_to_UINT64_low (x : N) : x < 2 ^ 32 → INT32_to_UINT64 x mod 2 ^ 32 = x.
Proof.
  intros Hx. apply N.bits_inj; intro i.
  destruct (N.ltb_spec i 32) as [Hi|Hi].
  - rewrite N.mod_pow2_bits_low by assumption.
    rewrite INT32_to_UINT64_testbit by assumption.
    now replace (i <? 32) with true by (symmetry; apply N.ltb_lt; lia).
  - rewrite N.mod_pow2_bits_high by assumption.
    now rewrite testbit_above_32.
Qed.

(** The upper half is a copy of the sign bit. *)
Lemma INT32_to_UINT64_high (x : N) :
  x < 2 ^ 32 →
  INT32_to_UINT64 x / 2 ^ 32 = if N.testbit x 31 then 0xFFFFFFFF else 0.
Proof.
  intros Hx. rewrite <- N.shiftr_div_pow2. apply N.bits_inj; intro i.
  rewrite N.shiftr_spec', INT32_to_UINT64_testbit by assumption.
  replace (i + 32 <? 32) with false by (symmetry; apply N.ltb_ge; lia).
  destruct (N.testbit x 31).
  - rewrite Bool.andb_true_r. change 0xFFFFFFFF with (N.ones 32).
    rewrite ones_testbit.
    destruct (N.ltb_spec (i + 32) 64), (N.ltb_spec i 32); trivial; lia.
  - now rewrite Bool.andb_false_r, N.bits_0.
Qed.

Lemma set_hypervisor_bit (x : N) :
  x < 2 ^ 32 →
  set_bitfield 31 1 1 x < 2 ^ 32
  ∧ N.testbit (set_bitfield 31 1 1 x) 31 = true
  ∧ ∀ i, i ≠ 31 → N.testbit (set_bitfield 31 1 1 x) i = N.testbit x i.
Proof.
  intros Hx.
  assert (Hbits : ∀ i, N.testbit (set_bitfield 31 1 1 x) i
                       = if i =? 31 then true else N.testbit x i).
  { intros i. rewrite set_bitfield_testbit.
    destruct (N.eqb_spec i 31) as [->|Hne]; [reflexivity|].
    destruct (N.leb_spec 31 i), (N.ltb_spec i (31 + 1)); simpl; trivial; lia. }
  split; [|split].
  - destruct (N.eq_dec (set_bitfield 31 1 1 x) 0) as [->|Hne]; [reflexivity|].
    apply N.log2_lt_pow2; [lia|].
    destruct (N.lt_ge_cases (N.log2 (set_bitfield 31 1 1 x)) 32) as [|Hge];
      [assumption|exfalso].
    pose proof (N.bit_log2 _ Hne) as Hb. rewrite Hbits in Hb.
    destruct (N.eqb_spec (N.log2 (set_bitfield 31 1 1 x)) 31) as [E|_]; [lia|].
    rewrite testbit_above_32 in Hb by assumption. discriminate.
  - now rewrite Hbits.
  - intros i Hi. rewrite Hbits. now destruct (N.eqb_spec i 31).
Qed.

(** X6: for CPUID leaf 0 the guest reads the identification string
    "AvocadoIntel" from EBX, EDX and ECX whatever the processor reports,
    and the highest basic leaf of the processor in EAX. *)
Theorem cpuidHandler_vendor (cpuidex : N → N → N * N * N * N)
    (r : VMEXIT_Registers) :
  UINT64_to_INT32 (RAX r) = IA32_CPUID_BASIC_INFORMATION_0 →
  (cpuidex 0 (UINT64_to_INT32 (RCX r))).1.1.1 < 2 ^ 32 →
  vendorString (cpuidHandler cpuidex r)
  = [65; 118; 111; 99; 97; 100; 111; 73; 110; 116; 101; 108]
  ∧ RAX (cpuidHandler cpuidex r) mod 2 ^ 32
    = (cpuidex 0 (UINT64_to_INT32 (RCX r))).1.1.1.
Proof.
  intros E Hlt. unfold cpuidHandler. rewrite E.
  change (IA32_CPUID_BASIC_INFORMATION_0) with 0 in *.
  destruct (cpuidex 0 (UINT64_to_INT32 (RCX r))) as [[[a b] c] d].
  split; [reflexivity|]. simpl in *. now apply INT32_to_UINT64_low.
Qed.

Lemma cpuidHandler_vendor_witness :
  vendorString (cpuidHandler demo_cpuidex (demo_registers 0 0))
  = [65; 118; 111; 99; 97; 100; 111; 73; 110; 116; 101; 108]
  ∧ RAX (cpuidHandler demo_cpuidex (demo_registers 0 0)) mod 2 ^ 32 = 0x16.
Proof.
  apply (cpuidHandler_vendor demo_cpuidex (demo_registers 0 0));
    reflexivity.
Defined.

Lemma demo_cpuidex_32bit : cpuid_32bit demo_cpuidex.
Proof.
  intros function subleaf. unfold demo_cpuidex.
  destruct (function =? 0); [repeat split; reflexivity|].
  destruct (function =? 1); repeat split; reflexivity.
Qed.

(** X7: for every leaf but 0 the guest reads in the low halves of RAX, RBX
    and RDX what the processor reports, and in ECX the same but for bit 31,
    the hypervisor-present bit, which is set for leaf 1 and only there. *)
Theorem cpuidHandler_passthrough (cpuidex : N → N → N * N * N * N)
    (r : VMEXIT_Registers) (eax ebx ecx edx : N) :
  cpuid_32bit cpuidex →
  UINT64_to_INT32 (RAX r) ≠ IA32_CPUID_BASIC_INFORMATION_0 →
  cpuidex (UINT64_to_INT32 (RAX r)) (UINT64_to_INT32 (RCX r))
  = (eax, ebx, ecx, edx) →
  RAX (cpuidHandler cpuidex r) mod 2 ^ 32 = eax
  ∧ RBX (cpuidHandler cpuidex r) mod 2 ^ 32 = ebx
  ∧ RDX (cpuidHandler cpuidex r) mod 2 ^ 32 = edx
  ∧ (∀ i, i < 31 →
       N.testbit (RCX (cpuidHandler cpuidex r)) i = N.testbit ecx i)
  ∧ N.testbit (RCX (cpuidHandler cpuidex r)) 31
    = if UINT64_to_INT32 (RAX r) =? IA32_CPUID_BASIC_INFORMATION_1
      then true else N.testbit ecx 31.
Proof.
  intros H32 Hleaf Hcpuid.
  pose proof (H32 (UINT64_to_INT32 (RAX r)) (UINT64_to_INT32 (RCX r))) as Hlt.
  unfold cpuidHandler. rewrite Hcpuid in *. destruct Hlt as (Ha & Hb & Hc & Hd).
  destruct (N.eqb_spec (UINT64_to_INT32 (RAX r)) IA32_CPUID_BASIC_INFORMATION_0);
    [contradiction|].
  simpl. rewrite !INT32_to_UINT64_low by assumption.
  do 3 (split; [reflexivity|]).
  destruct (set_hypervisor_bit ecx Hc) as (Hs & Hs31 & Hsi).
  destruct (UINT64_to_INT32 (RAX r) =? IA32_CPUID_BASIC_INFORMATION_1).
  - split.
    + intros i Hi. rewrite INT32_to_UINT64_testbit by assumption.
      replace (i <? 32) with true by (symmetry; apply N.ltb_lt; lia).
      apply Hsi. lia.
    + now rewrite INT32_to_UINT64_testbit by assumption.
  - split.
    + intros i Hi. rewrite INT32_to_UINT64_testbit by assumption.
      now replace (i <? 32) with true by (symmetry; apply N.ltb_lt; lia).
    + now rewrite INT32_to_UINT64_testbit by assumption.
Qed.

Lemma cpuidHandler_passthrough_witness :
  RAX (cpuidHandler demo_cpuidex (demo_registers 1 0)) mod 2 ^ 32 = 0x906EA
  ∧ N.testbit (RCX (cpuidHandler demo_cpuidex (demo_registers 1 0))) 31 = true.
Proof.
  destruct (cpuidHandler_passthrough demo_cpuidex (demo_registers 1 0)
              0x906EA 0x100800 0x7FFAFBFF 0xBFEBFBFF demo_cpuidex_32bit)
    as (H1 & _ & _ & _ & H5); [discriminate|reflexivity|].
  split; [exact H1|exact H5].
Defined.

(** X8: the handler stores the four 32-bit results with their sign bit
    extended: the upper half of each of RAX, RBX, RCX and RDX is all ones
    when bit 31 of the result is set and zero otherwise.  After leaf 1 the
    upper half of RCX is therefore always all ones. *)
Theorem cpuidHandler_sign_extends (cpuidex : N → N → N * N * N * N)
    (r : VMEXIT_Registers) :
  cpuid_32bit cpuidex →
  Forall (λ x, x / 2 ^ 32 = if N.testbit x 31 then 0xFFFFFFFF else 0)
    [RAX (cpuidHandler cpuidex r); RBX (cpuidHandler cpuidex r);
     RCX (cpuidHandler cpuidex r); RDX (cpuidHandler cpuidex r)]
  ∧ (UINT64_to_INT32 (RAX r) = IA32_CPUID_BASIC_INFORMATION_1 →
     RCX (cpuidHandler cpuidex r) / 2 ^ 32 = 0xFFFFFFFF).
Proof.
  intros H32.
  pose proof (H32 (UINT64_to_INT32 (RAX r)) (UINT64_to_INT32 (RCX r))) as Hlt.
  assert (Hext : ∀ x, x < 2 ^ 32 →
            INT32_to_UINT64 x / 2 ^ 32
            = if N.testbit (INT32_to_UINT64 x) 31 then 0xFFFFFFFF else 0).
  { intros x Hx. rewrite INT32_to_UINT64_high by assumption.
    now rewrite INT32_to_UINT64_testbit by assumption. }
  unfold cpuidHandler.
  destruct (cpuidex _ _) as [[[a b] c] d]. destruct Hlt as (Ha & Hb & Hc & Hd).
  destruct (set_hypervisor_bit c Hc) as (Hs & Hs31 & _).
  assert (Hv1 : vendor_covA < 2 ^ 32) by reflexivity.
  assert (Hv2 : vendor_letn < 2 ^ 32) by reflexivity.
  assert (Hv3 : vendor_Ioda < 2 ^ 32) by reflexivity.
  destruct (set_hypervisor_bit vendor_letn Hv2) as (Hs' & Hs31' & _).
  split.
  - destruct (_ =? IA32_CPUID_BASIC_INFORMATION_0),
      (_ =? IA32_CPUID_BASIC_INFORMATION_1); cbn [RAX RBX RCX RDX];
      repeat (constructor; [apply Hext; assumption|]); constructor.
  - intros ->.
    change (IA32_CPUID_BASIC_INFORMATION_1 =? IA32_CPUID_BASIC_INFORMATION_0)
      with false.
    change (IA32_CPUID_BASIC_INFORMATION_1 =? IA32_CPUID_BASIC_INFORMATION_1)
      with true.
    simpl. rewrite INT32_to_UINT64_high by assumption. now rewrite Hs31.
Qed.

Lemma cpuidHandler_sign_extends_witness :
  RCX (cpuidHandler demo_cpuidex (demo_registers 1 0)) / 2 ^ 32 = 0xFFFFFFFF.
Proof.
  apply (cpuidHandler_sign_extends demo_cpuidex (demo_registers 1 0)
           demo_cpuidex_32bit).
  reflexivity.
Defined.

(** ** When the hypercalls succeed *)

Lemma selectIndex_is_Some (l : list Context_EptChangedMapping) :
  is_Some (selectIndex l)
  ↔ ∃ i m, (i < 32)%nat ∧ l !! i = Some m ∧ valid m = false.
Proof.
  unfold selectIndex. change (N.to_nat CONTEXT_EPT_MAX_MAPPINGS) with 32%nat.
  split.
  - intros [[i m] H]. apply list_find_Some in H as (Hi & Hv & _).
    apply lookup_take_Some in Hi as [Hi Hlt]. now exists i, m.
  - intros (i & m & Hlt & Hi & Hv).
    apply (list_find_elem_of _ _ m); [|assumption].
    apply list_elem_of_lookup. exists i. now rewrite lookup_take_lt.
Qed.

Lemma findMapping_hasRecord (l : list Context_EptChangedMapping) (address : N) :
  is_Some (findMapping l address) ↔ hasRecord l address.
Proof.
  split.
  - intros [[i m] H]. apply findMapping_Some in H as (Hi & Hm & Hv & Hg).
    now exists i, m.
  - intros (i & m & Hi & Hm & Hv & <-). now apply (findMapping_is_Some l i m).
Qed.

Lemma findMapping_None_hasRecord (l : list Context_EptChangedMapping) (address : N) :
  findMapping l address = None ↔ ¬ hasRecord l address.
Proof.
  rewrite <- findMapping_hasRecord. destruct (findMapping l address).
  - split; [discriminate|]. intros H. exfalso. apply H. eauto.
  - split; [|reflexivity]. intros _ [x Hx]. discriminate.
Qed.

(** [EPT_changeMapping] where the walk reaches a page directory: it fails
    exactly when it would have to split and the arena is used up. *)
Lemma EPT_changeMapping_outcome (pdpts pds pts : list N) (c : Context_LogicalCore)
    (address targetAddress : N) (rw fetch : bool) (pd : N) :
  EPT_wf pdpts pds pts c → EPT_pageDirectory c address = Returns pd →
  (EPT_PdE2MB.isLargePage (readq (memory c) pd (EPT_Address.pdEntry address)) = 1
   ∧ CONTEXT_EPT_NO_SPLITS <= noOfUsedSplits c
   ∧ EPT_changeMapping c address targetAddress rw fetch
     = Returns (STATUS_UNSUCCESSFUL, c))
  ∨ ((EPT_PdE2MB.isLargePage (readq (memory c) pd (EPT_Address.pdEntry address)) = 1 →
      noOfUsedSplits c < CONTEXT_EPT_NO_SPLITS)
     ∧ ∃ c', EPT_changeMapping c address targetAddress rw fetch
             = Returns (STATUS_SUCCESS, c')).
Proof.
  intros Hwf Hpd.
  destruct (N.eq_dec (EPT_PdE2MB.isLargePage
    (readq (memory c) pd (EPT_Address.pdEntry address))) 1) as [Hlarge|Hsmall].
  - destruct (N.lt_ge_cases (noOfUsedSplits c) CONTEXT_EPT_NO_SPLITS) as [Hfree|Hfull].
    + right. split; [now intros _|].
      pose proof (splitPage_success c pd (EPT_Address.pdEntry address) Hfree) as Hs.
      eexists. eapply (EPT_changeMapping_returns pdpts pds pts); [assumption|].
      unfold EPT_traverse. rewrite Hpd. simpl. rewrite Hlarge. simpl.
      rewrite Hs. reflexivity.
    + left. split; [assumption|]. split; [assumption|].
      unfold EPT_changeMapping, EPT_traverse. rewrite Hpd. simpl.
      rewrite Hlarge. simpl. now rewrite splitPage_failure.
  - right. split; [intros H; contradiction|].
    eexists. eapply (EPT_changeMapping_returns pdpts pds pts); [assumption|].
    unfold EPT_traverse. rewrite Hpd. simpl.
    destruct (N.eqb_spec (EPT_PdE2MB.isLargePage
      (readq (memory c) pd (EPT_Address.pdEntry address))) 1); [contradiction|].
    reflexivity.
Qed.

Lemma vmCallMapPage_outcome_succeeds (pdpts pds pts : list N)
    (c : Context_LogicalCore) (RDX R8 R9 pd : N) :
  EPT_wf pdpts pds pts c → EPT_pageDirectory c RDX = Returns pd →
  installable c RDX R8 R9 pd →
  ∃ c', vmCallMapPage c RDX R8 R9 = Returns (0, c').
Proof.
  intros Hwf Hpd (E1 & E2 & E3 & Hcol & Hslot & Hroom). unfold vmCallMapPage.
  rewrite E1, E2, E3, Hcol. simpl.
  apply selectIndex_is_Some in Hslot as [[i m0] ->].
  destruct (EPT_changeMapping_outcome pdpts pds pts c RDX RDX false false pd Hwf Hpd)
    as [(Hlarge & Hfull & _)|(_ & c' & ->)]; simpl; [|eauto].
  specialize (Hroom Hlarge). lia.
Qed.

Lemma vmCallMapPage_outcome_fails (pdpts pds pts : list N)
    (c : Context_LogicalCore) (RDX R8 R9 pd : N) :
  EPT_wf pdpts pds pts c → EPT_pageDirectory c RDX = Returns pd →
  ¬ installable c RDX R8 R9 pd →
  vmCallMapPage c RDX R8 R9 = Returns (0xFFFFFFFFC0000001, c).
Proof.
  intros Hwf Hpd Hno. unfold vmCallMapPage.
  destruct (N.eqb_spec (EPT_Address.offset RDX) 0) as [E1|N1]; simpl;
    [|reflexivity].
  destruct (N.eqb_spec (EPT_Address.offset R8) 0) as [E2|N2]; simpl;
    [|reflexivity].
  destruct (N.eqb_spec (EPT_Address.offset R9) 0) as [E3|N3]; simpl;
    [|reflexivity].
  destruct (existsb _ _) eqn:Hcol; [reflexivity|].
  destruct (selectIndex (changedMappings c)) as [[i m0]|] eqn:Hsel;
    [|reflexivity].
  destruct (EPT_changeMapping_outcome pdpts pds pts c RDX RDX false false pd Hwf Hpd)
    as [(Hlarge & Hfull & ->)|(Hroom & c' & ->)]; simpl; [reflexivity|].
  exfalso. apply Hno. unfold installable.
  do 4 (split; [assumption|]). split; [|assumption].
  apply selectIndex_is_Some. eauto.
Qed.

(** X9: on a well-formed hierarchy whose walk reaches a page directory for
    the guest address, [vmCallMapPage] reports [STATUS_SUCCESS] when the
    three addresses are page aligned, no valid record collides, a slot is
    free and the 2 MiB page is split already or the arena has a page left;
    in every other case it reports [STATUS_UNSUCCESSFUL], sign-extended to
    0xFFFFFFFFC0000001, and leaves the core as it was. *)
Theorem vmCallMapPage_outcome (pdpts pds pts : list N) (c : Context_LogicalCore)
    (RDX R8 R9 pd : N) :
  EPT_wf pdpts pds pts c → EPT_pageDirectory c RDX = Returns pd →
  (installable c RDX R8 R9 pd →
   ∃ c', vmCallMapPage c RDX R8 R9 = Returns (0, c'))
  ∧ (¬ installable c RDX R8 R9 pd →
     vmCallMapPage c RDX R8 R9 = Returns (0xFFFFFFFFC0000001, c)).
Proof.
  intros Hwf Hpd. split.
  - now apply (vmCallMapPage_outcome_succeeds pdpts pds pts).
  - now apply (vmCallMapPage_outcome_fails pdpts pds pts).
Qed.

Lemma vmCallMapPage_outcome_witness :
  ∃ c', vmCallMapPage demo_core_A 0x3000 0x4000 0x5000 = Returns (0, c').
Proof.
  apply (vmCallMapPage_outcome [2] [3] [] demo_core_A 0x3000 0x4000 0x5000 3).
  - apply demo_core_A_inv.
  - vm_compute. reflexivity.
  - unfold installable. do 4 (split; [vm_compute; reflexivity|]).
    split; [|intros H; vm_compute in H; discriminate].
    exists 1%nat, Context_EptChangedMapping_zero.
    split; [lia|]. split; vm_compute; reflexivity.
Defined.

(** X10: [vmCallUnmapPage] leaves the core as it was and reports
    [STATUS_UNSUCCESSFUL] exactly when no valid record among the 32 slots
    has the given address, bit for bit, as its guest key; otherwise, in a
    state that satisfies the invariant of the core, it reports
    [STATUS_SUCCESS] and never bug-checks. *)
Theorem vmCallUnmapPage_outcome (pdpts pds pts : list N) (c : Context_LogicalCore)
    (RDX : N) :
  Core_inv pdpts pds pts c →
  (hasRecord (changedMappings c) RDX →
   ∃ c', vmCallUnmapPage c RDX = Returns (0, c'))
  ∧ (¬ hasRecord (changedMappings c) RDX →
     vmCallUnmapPage c RDX = Returns (0xFFFFFFFFC0000001, c)).
Proof.
  intros Hinv. unfold vmCallUnmapPage. split.
  - intros Hrec. pose proof Hrec as (i & m & Hi & Hm & Hv & Hg).
    apply findMapping_hasRecord in Hrec as [[j n] Hfind]. rewrite Hfind.
    assert (Hmapped : mapped c RDX).
    { pose proof (inv_mapped _ _ _ _ Hinv) as Hall. unfold mappings_mapped in Hall.
      rewrite Forall_lookup in Hall. rewrite <- Hg. exact (Hall i m Hm Hv). }
    destruct (EPT_changeMapping_mapped pdpts pds pts c RDX RDX true true
                (inv_ept _ _ _ _ Hinv) Hmapped) as (pd & pt & _ & _ & _ & _ & ->).
    simpl. eauto.
  - intros Hno. apply findMapping_None_hasRecord in Hno. now rewrite Hno.
Qed.

Lemma vmCallUnmapPage_outcome_witness :
  ∃ c', vmCallUnmapPage demo_core_A 0x1000 = Returns (0, c').
Proof.
  apply (vmCallUnmapPage_outcome [2] [3] [] demo_core_A 0x1000 demo_core_A_inv).
  exists 0%nat, (newMapping 0x1000 0x2000 0x1000).
  split; [lia|]. repeat split.
Defined.

Lemma eptViolationHandler_found (c : Context_LogicalCore)
    (exitQualification guestPhysicalAddress : N) (i : nat)
    (m : Context_EptChangedMapping) :
  findMapping (changedMappings c) (EPT_Address.clear_offset guestPhysicalAddress)
  = Some (i, m) →
  eptViolationHandler c exitQualification guestPhysicalAddress
  = if (VMEXIT_EptViolation.dataRead exitQualification =? 1)
       || (VMEXIT_EptViolation.dataWrite exitQualification =? 1)
    then '(_, c1) ← EPT_changeMapping c (guestAddress m) (hostRwAddress m)
                      true false;
         mret c1
    else if VMEXIT_EptViolation.instructionFetch exitQualification =? 1
    then '(_, c1) ← EPT_changeMapping c (guestAddress m) (hostFetchAddress m)
                      false true;
         mret c1
    else BugCheck BSOD_VMEXIT_EPT_UNKNOWN.
Proof. unfold eptViolationHandler. now intros ->. Qed.

(** The flip of a leaf ends in no bug check but that of
    [Memory_getVirtualAddress]. *)
Lemma flip_BugCheck (c : Context_LogicalCore) (address targetAddress : N)
    (rw fetch : bool) (code : N) :
  ('(_, c1) ← EPT_changeMapping c address targetAddress rw fetch; mret c1)
  = BugCheck code →
  code = BSOD_MEMORY_VA_CONVERSION
  ∧ EPT_changeMapping c address targetAddress rw fetch = BugCheck code.
Proof.
  intros H. apply bind_BugCheck in H as [H|([st c1] & _ & H)]; [|discriminate].
  split; [|assumption]. now apply EPT_changeMapping_BugCheck in H.
Qed.

(** X11: [eptViolationHandler] bug-checks with [BSOD_VMEXIT_EPT_NO_MAPPING]
    exactly when no valid record has the page of the faulting address as
    its guest key, and with [BSOD_VMEXIT_EPT_UNKNOWN] exactly when there is
    such a record and the exit qualification reports neither a data read
    nor a data write nor an instruction fetch; in a state that satisfies
    the invariant of the core it ends in no other bug check. *)
Theorem eptViolationHandler_bug_checks (pdpts pds pts : list N)
    (c : Context_LogicalCore) (exitQualification guestPhysicalAddress : N) :
  (eptViolationHandler c exitQualification guestPhysicalAddress
   = BugCheck BSOD_VMEXIT_EPT_NO_MAPPING
   ↔ ¬ hasRecord (changedMappings c)
         (EPT_Address.clear_offset guestPhysicalAddress))
  ∧ (eptViolationHandler c exitQualification guestPhysicalAddress
     = BugCheck BSOD_VMEXIT_EPT_UNKNOWN
     ↔ hasRecord (changedMappings c)
         (EPT_Address.clear_offset guestPhysicalAddress)
       ∧ VMEXIT_EptViolation.dataRead exitQualification = 0
       ∧ VMEXIT_EptViolation.dataWrite exitQualification = 0
       ∧ VMEXIT_EptViolation.instructionFetch exitQualification = 0)
  ∧ (Core_inv pdpts pds pts c →
     ∀ code, eptViolationHandler c exitQualification guestPhysicalAddress
             = BugCheck code →
             code = BSOD_VMEXIT_EPT_NO_MAPPING ∨ code = BSOD_VMEXIT_EPT_UNKNOWN).
Proof.
  rewrite <- findMapping_None_hasRecord, <- findMapping_hasRecord.
  destruct (findMapping (changedMappings c)
              (EPT_Address.clear_offset guestPhysicalAddress))
    as [[i m]|] eqn:Hfind.
  2:{ unfold eptViolationHandler. rewrite Hfind.
      split; [now split|]. split.
      - split; [discriminate|]. intros ([x Hx] & _). discriminate.
      - intros _ code [= <-]. now left. }
  rewrite (eptViolationHandler_found _ _ _ _ _ Hfind).
  assert (Hflip : Core_inv pdpts pds pts c → ∀ t rw f code,
            ('(_, c1) ← EPT_changeMapping c (guestAddress m) t rw f; mret c1)
            ≠ BugCheck code).
  { intros Hinv t rw f code H. apply flip_BugCheck in H as [_ H].
    apply findMapping_Some in Hfind as (Hi & Hm & Hv & Hg).
    assert (Hmapped : mapped c (guestAddress m)).
    { pose proof (inv_mapped _ _ _ _ Hinv) as Hall. unfold mappings_mapped in Hall.
      rewrite Forall_lookup in Hall. exact (Hall i m Hm Hv). }
    destruct (EPT_changeMapping_mapped pdpts pds pts c (guestAddress m) t rw f
                (inv_ept _ _ _ _ Hinv) Hmapped) as (pd & pt & _ & _ & _ & _ & E).
    rewrite E in H. discriminate. }
  destruct (N.eqb_spec (VMEXIT_EptViolation.dataRead exitQualification) 1)
    as [Er|Nr]; simpl.
  { split; [split; [|discriminate]|split; [split|]].
    - intros H. apply flip_BugCheck in H as [H _]. discriminate.
    - intros H. apply flip_BugCheck in H as [H _]. discriminate.
    - intros (_ & H & _). rewrite H in Er. discriminate.
    - intros Hinv code H. exfalso. exact (Hflip Hinv _ _ _ _ H). }
  destruct (N.eqb_spec (VMEXIT_EptViolation.dataWrite exitQualification) 1)
    as [Ew|Nw]; simpl.
  { split; [split; [|discriminate]|split; [split|]].
    - intros H. apply flip_BugCheck in H as [H _]. discriminate.
    - intros H. apply flip_BugCheck in H as [H _]. discriminate.
    - intros (_ & _ & H & _). rewrite H in Ew. discriminate.
    - intros Hinv code H. exfalso. exact (Hflip Hinv _ _ _ _ H). }
  destruct (N.eqb_spec (VMEXIT_EptViolation.instructionFetch exitQualification) 1)
    as [Ef|Nf]; simpl.
  { split; [split; [|discriminate]|split; [split|]].
    - intros H. apply flip_BugCheck in H as [H _]. discriminate.
    - intros H. apply flip_BugCheck in H as [H _]. discriminate.
    - intros (_ & _ & _ & H). rewrite H in Ef. discriminate.
    - intros Hinv code H. exfalso. exact (Hflip Hinv _ _ _ _ H). }
  split; [split; discriminate|]. split.
  - split; [|reflexivity]. intros _. split; [eauto|].
    unfold VMEXIT_EptViolation.dataRead, VMEXIT_EptViolation.dataWrite,
      VMEXIT_EptViolation.instructionFetch in *.
    destruct (bitfield_bool 0 exitQualification),
      (bitfield_bool 1 exitQualification),
      (bitfield_bool 2 exitQualification); try contradiction; auto.
  - intros _ code [= <-]. now right.
Qed.

Lemma eptViolationHandler_bug_checks_witness :
  eptViolationHandler demo_core_A 1 0x5678 = BugCheck BSOD_VMEXIT_EPT_NO_MAPPING
  ∧ eptViolationHandler demo_core_A 8 0x1234 = BugCheck BSOD_VMEXIT_EPT_UNKNOWN.
Proof.
  split.
  - apply (proj1 (eptViolationHandler_bug_checks [2] [3] [] demo_core_A 1 0x5678)).
    apply findMapping_None_hasRecord. vm_compute. reflexivity.
  - apply (proj1 (proj2 (eptViolationHandler_bug_checks [2] [3] [] demo_core_A 8
                           0x1234))).
    split; [|repeat split].
    exists 0%nat, (newMapping 0x1000 0x2000 0x1000).
    split; [lia|]. repeat split.
Defined.

(** ** The split arena is never reclaimed *)

Lemma demo_core_exhausted_installs :
  installs 32 demo_core demo_core_exhausted.
Proof.
  apply (install_all_installs demo_mappings_regions).
  assert (H : is_Some (install_all demo_core demo_mappings_regions))
    by (apply (bool_decide_unpack _); vm_compute; exact I).
  unfold demo_core_exhausted. now destruct H as [c ->].
Qed.

(** X12: arena pages are never handed back.  Once the arena counter of a
    well-formed core has reached 32, in every later state (whatever is
    installed, removed or flipped in between) an install for an address in
    a 2 MiB page that is still a large page reports [STATUS_UNSUCCESSFUL]
    and changes nothing. *)
Theorem arena_never_reclaimed (pdpts pds pts : list N) (c c' : Context_LogicalCore)
    (RDX R8 R9 pd : N) :
  EPT_wf pdpts pds pts c → noOfUsedSplits c = CONTEXT_EPT_NO_SPLITS →
  rtc step c c' →
  EPT_pageDirectory c' RDX = Returns pd →
  EPT_PdE2MB.isLargePage (readq (memory c') pd (EPT_Address.pdEntry RDX)) = 1 →
  noOfUsedSplits c' = CONTEXT_EPT_NO_SPLITS
  ∧ vmCallMapPage c' RDX R8 R9 = Returns (0xFFFFFFFFC0000001, c').
Proof.
  intros Hwf Hfull Hsteps Hpd Hlarge.
  destruct (rtc_step_EPT_wf _ _ _ _ _ Hsteps Hwf) as [Hwf' Hev].
  pose proof (ev_used _ _ _ _ Hev) as Hmono.
  pose proof (wf_noOfUsedSplits _ _ _ _ Hwf') as Hmax.
  assert (Hfull' : noOfUsedSplits c' = CONTEXT_EPT_NO_SPLITS) by lia.
  split; [assumption|].
  apply (vmCallMapPage_outcome_fails pdpts pds pts c' RDX R8 R9 pd Hwf' Hpd).
  intros (_ & _ & _ & _ & _ & H). specialize (H Hlarge). lia.
Qed.

Lemma arena_never_reclaimed_witness :
  vmCallMapPage demo_core_exhausted 0x4200000 0x5000 0x6000
  = Returns (0xFFFFFFFFC0000001, demo_core_exhausted).
Proof.
  refine (proj2 (arena_never_reclaimed [2] [3] [] demo_core_exhausted
                   demo_core_exhausted 0x4200000 0x5000 0x6000 3 _ _ _ _ _)).
  - exact (proj1 (rtc_step_EPT_wf _ _ _ _ _
                    (installs_rtc _ _ _ demo_core_exhausted_installs)
                    demo_core_wf)).
  - vm_compute. reflexivity.
  - apply rtc_refl.
  - vm_compute. reflexivity.
  - vm_compute. reflexivity.
Defined.

(** ** Changing one page leaves the others alone *)


Section OtherPages.
Context (pdpts pds pts : list N) (c : Context_LogicalCore).
Hypothesis Hwf : EPT_wf pdpts pds pts c.
Hypothesis Hid : EPT_identity c.
Context (a b : N).
Hypothesis Ha : a < 2 ^ 48.
Hypothesis Hb : b < 2 ^ 48.
Hypothesis Hother : EPT_Address.clear_offset b ≠ EPT_Address.clear_offset a.


End OtherPages.



(** ** The number of PML4 entries *)

(** X14: [getPml4Count] is 1 for a processor that reports at most 39
    physical address bits (a negative value of the signed field included),
    2 for 40 bits and 4 for 41 to 70 bits: the hierarchy never spans more
    than 2 TiB, and it spans the whole physical address space exactly when
    the processor reports at most 41 bits. *)
Theorem getPml4Count_table (cpuidex : N → N → N * N * N * N) (bits : Z) :
  IA32_CpuidAddressBits.physicalAddressBits (cpuidex IA32_CPUID_ADDRESS_BITS 0)
  = bits →
  (bits < 71)%Z →
  getPml4Count cpuidex
  = (if (bits <=? 39)%Z then 1 else if (bits =? 40)%Z then 2 else 4)
  ∧ (Z.of_N (getPml4Count cpuidex) * 2 ^ 39 >= 2 ^ bits ↔ bits <= 41)%Z.
Proof.
  intros Hbits Hlt.
  assert (Hcount : getPml4Count cpuidex
            = if (bits <=? 39)%Z then 1 else if (bits =? 40)%Z then 2 else 4).
  { unfold getPml4Count. rewrite Hbits.
    destruct (Z.leb_spec bits 39) as [Hle|Hgt].
    - now replace (Z.max (bits - 39) 0) with 0%Z by lia.
    - replace (Z.max (bits - 39) 0) with (bits - 39)%Z by lia.
      assert (Hs : Z.to_N (bits - 39) < 32) by lia.
      rewrite (N.mod_small _ 32) by exact Hs.
      rewrite N.shiftl_1_l.
      assert (Hpow : 2 ^ Z.to_N (bits - 39) < 2 ^ 32)
        by (apply N.pow_lt_mono_r; lia).
      rewrite N.mod_small by exact Hpow.
      destruct (Z.eqb_spec bits 40) as [->|Hne]; [reflexivity|].
      apply N.min_r. unfold EPT_WINDOWS_MAX_PML4_COUNT.
      change 4 with (2 ^ 2). apply N.pow_le_mono_r; lia. }
  split; [exact Hcount|]. rewrite Hcount.
  destruct (Z.leb_spec bits 39) as [Hle|Hgt].
  - split; [lia|]. intros _. change (Z.of_N 1 * 2 ^ 39)%Z with (2 ^ 39)%Z.
    destruct (Z.le_gt_cases 0 bits) as [Hnn|Hneg].
    + apply Z.le_ge, Z.pow_le_mono_r; lia.
    + rewrite (Z.pow_neg_r 2 bits) by lia. lia.
  - destruct (Z.eqb_spec bits 40) as [->|Hne].
    + split; [lia|]. intros _. vm_compute. discriminate.
    + change (Z.of_N 4 * 2 ^ 39)%Z with (2 ^ 41)%Z. split.
      * intros H. apply Z.ge_le in H.
        apply (Z.pow_le_mono_r_iff 2) in H; lia.
      * intros H. apply Z.le_ge, Z.pow_le_mono_r; lia.
Qed.

Lemma getPml4Count_table_witness :
  getPml4Count (demo_cpuidex_setup 46 0) = 4
  ∧ ¬ (Z.of_N (getPml4Count (demo_cpuidex_setup 46 0)) * 2 ^ 39 >= 2 ^ 46)%Z.
Proof.
  destruct (getPml4Count_table (demo_cpuidex_setup 46 0) 46) as [H1 H2].
  - reflexivity.
  - lia.
  - split; [exact H1|]. intros H. apply H2 in H. lia.
Defined.

(** ** Pages written entry by entry *)

Lemma Memory_getPhysicalAddress_frame (frame : N) :
  frame < 2 ^ 52 →
  EPT_Address.pageFrameNumber4KB (Memory_getPhysicalAddress frame) = frame.
Proof.
  intros H. unfold EPT_Address.pageFrameNumber4KB, Memory_getPhysicalAddress,
    PAGE_SIZE.
  rewrite bitfield_div_mod. change (2 ^ 12) with 4096.
  rewrite N.div_mul by discriminate. now apply N.mod_small.
Qed.

Lemma directoryEntryFor_frame (frame : N) :
  frame < 2 ^ 40 →
  EPT_PagingStructure.pageFrameNumber (directoryEntryFor frame) = frame.
Proof.
  intros H. unfold directoryEntryFor.
  rewrite Memory_getPhysicalAddress_frame
    by (eapply N.lt_trans; [exact H|reflexivity]).
  now apply PagingStructure_make_pageFrameNumber.
Qed.

(** A loop that writes the entries 0 to [n - 1] of a page. *)
Lemma foldl_writeq_seq (g : nat → N) (frame : N) (page : list N) (n : nat)
    (mem : gmap N (list N)) :
  mem !! frame = Some page → (n ≤ length page)%nat →
  foldl (λ m index, writeq m frame (N.of_nat index) (g index)) mem (seq 0 n)
  = <[frame := (g <$> seq 0 n) ++ drop n page]> mem.
Proof.
  intros Hpage. induction n as [|n IH]; intros Hn.
  - simpl. rewrite drop_0. symmetry. now apply insert_id.
  - rewrite seq_S, foldl_app, IH by lia. simpl.
    unfold writeq. rewrite alter_insert_eq. f_equal.
    rewrite Nat2N.id, fmap_app. simpl.
    destruct (lookup_lt_is_Some_2 page n) as [x Hx]; [lia|].
    rewrite (drop_S _ _ _ Hx).
    rewrite insert_app_r_alt by (rewrite length_fmap, length_seq; lia).
    rewrite length_fmap, length_seq, Nat.sub_diag. simpl.
    now rewrite <- app_assoc.
Qed.

Lemma setupPdEntry_loop (pml4EntryIndex pdptEntryIndex pd : N) (page : list N)
    (mem : gmap N (list N)) :
  mem !! pd = Some page → length page = 512%nat →
  foldl (setupPdEntry pml4EntryIndex pdptEntryIndex pd) mem
    (seq 0 (N.to_nat EPT_PD_ENTRIES))
  = <[pd := pdPage (λ _, IA32_MTRR_DISABLED_DEFAULT_TYPE)
              pml4EntryIndex pdptEntryIndex]> mem.
Proof.
  intros Hpage Hlen.
  change (N.to_nat EPT_PD_ENTRIES) with 512%nat.
  unfold setupPdEntry.
  rewrite (foldl_writeq_seq
             (λ pdEntryIndex : nat,
                EPT_PdE2MB.make true true true true
                  IA32_MTRR_DISABLED_DEFAULT_TYPE
                  (EPT_Address.pageFrameNumber2MB
                     (EPT_Address_make pml4EntryIndex pdptEntryIndex
                        (N.of_nat pdEntryIndex))))
             pd page 512 mem Hpage) by lia.
  rewrite drop_ge by lia. now rewrite app_nil_r.
Qed.

Lemma setupPdptEntry_eq (pml4EntryIndex pdpt : N) (pdArray : list N)
    (mem : gmap N (list N)) (pdptEntryIndex : nat) (pd : N) (page : list N) :
  pdArray !! pdptEntryIndex = Some pd → pd ≠ pdpt →
  mem !! pd = Some page → length page = 512%nat →
  setupPdptEntry pml4EntryIndex pdpt pdArray mem pdptEntryIndex
  = <[pd := pdPage (λ _, IA32_MTRR_DISABLED_DEFAULT_TYPE)
              pml4EntryIndex (N.of_nat pdptEntryIndex)]>
      (writeq mem pdpt (N.of_nat pdptEntryIndex) (directoryEntryFor pd)).
Proof.
  intros Hpd Hne Hpage Hlen. unfold setupPdptEntry.
  rewrite (list_lookup_total_correct _ _ _ Hpd).
  apply (setupPdEntry_loop _ _ _ page); [|exact Hlen].
  rewrite lookup_writeq_ne by congruence. exact Hpage.
Qed.

(** The outer loop of [setupPml4Entry] after [n] rounds. *)
Lemma setupPdptEntry_loop (pml4EntryIndex pdpt : N) (pdArray : list N)
    (mem : gmap N (list N)) (page0 : list N) (n : nat) :
  NoDup (pdpt :: pdArray) → (n ≤ length pdArray)%nat →
  mem !! pdpt = Some page0 → (length pdArray ≤ length page0)%nat →
  (∀ pd, pd ∈ pdArray → ∃ page, mem !! pd = Some page ∧ length page = 512%nat) →
  let mem' := foldl (setupPdptEntry pml4EntryIndex pdpt pdArray) mem (seq 0 n) in
  mem' !! pdpt = Some ((directoryEntryFor <$> take n pdArray) ++ drop n page0)
  ∧ (∀ j pd, (j < n)%nat → pdArray !! j = Some pd →
       mem' !! pd = Some (pdPage (λ _, IA32_MTRR_DISABLED_DEFAULT_TYPE)
                            pml4EntryIndex (N.of_nat j)))
  ∧ (∀ j pd, (n ≤ j)%nat → pdArray !! j = Some pd → mem' !! pd = mem !! pd)
  ∧ (∀ frame, frame ∉ pdpt :: pdArray → mem' !! frame = mem !! frame).
Proof.
  intros Hnodup Hn Hpdpt Hlen Hpages.
  apply NoDup_cons in Hnodup as [Hnotin Hnodup].
  induction n as [|n IH].
  - simpl. rewrite drop_0. repeat split; auto. intros j pd Hj. lia.
  - destruct IH as (IH1 & IH2 & IH3 & IH4); [lia|].
    cbv zeta in *. rewrite seq_S, foldl_app. simpl.
    set (memn := foldl (setupPdptEntry pml4EntryIndex pdpt pdArray) mem (seq 0 n))
      in *.
    destruct (lookup_lt_is_Some_2 pdArray n) as [pdn Hpdn]; [lia|].
    assert (Hin : pdn ∈ pdArray) by (apply list_elem_of_lookup; eauto).
    assert (Hne : pdn ≠ pdpt) by (intros ->; contradiction).
    destruct (Hpages pdn Hin) as (page & Hpage & Hplen).
    rewrite (setupPdptEntry_eq _ _ _ memn n pdn page Hpdn Hne)
      by (rewrite ?(IH3 n pdn) by (lia || assumption); assumption).
    split; [|split; [|split]].
    + rewrite lookup_insert_ne by congruence.
      rewrite lookup_writeq. destruct (decide (pdpt = pdpt)) as [_|]; [|congruence].
      rewrite IH1. simpl. f_equal. rewrite Nat2N.id.
      rewrite (take_S_r _ _ _ Hpdn), fmap_app. simpl.
      destruct (lookup_lt_is_Some_2 page0 n) as [x Hx]; [lia|].
      rewrite (drop_S _ _ _ Hx).
      rewrite insert_app_r_alt by (rewrite length_fmap, length_take; lia).
      rewrite length_fmap, length_take.
      replace (n - n `min` length pdArray)%nat with 0%nat by lia. simpl.
      now rewrite <- app_assoc.
    + intros j pd Hj Hpd. destruct (decide (j = n)) as [->|Hjn].
      * rewrite Hpdn in Hpd. injection Hpd as <-. apply lookup_insert_eq.
      * assert (Hpdne : pdn ≠ pd).
        { intros ->. apply Hjn. eapply NoDup_lookup; eassumption. }
        rewrite lookup_insert_ne by exact Hpdne.
        rewrite lookup_writeq_ne
          by (intros <-; apply Hnotin, list_elem_of_lookup; eauto).
        apply IH2; [lia|exact Hpd].
    + intros j pd Hj Hpd.
      assert (Hpdne : pdn ≠ pd).
      { intros ->. assert (j = n) by (eapply NoDup_lookup; eassumption). lia. }
      rewrite lookup_insert_ne by exact Hpdne.
      rewrite lookup_writeq_ne
        by (intros <-; apply Hnotin, list_elem_of_lookup; eauto).
      apply (IH3 j); [lia|exact Hpd].
    + intros frame Hframe.
      rewrite lookup_insert_ne
        by (intros <-; apply Hframe; right; exact Hin).
      rewrite lookup_writeq_ne by (intros <-; apply Hframe; left).
      now apply IH4.
Qed.

(** ** The allocator *)

Lemma lookup_zeroed (frames : list N) (mem : gmap N (list N)) (frame : N) :
  foldr (λ frame, <[frame := replicate 512 0]>) mem frames !! frame
  = if decide (frame ∈ frames) then Some (replicate 512 0) else mem !! frame.
Proof.
  induction frames as [|x frames IH]; cbn [foldr].
  - destruct (decide (frame ∈ [])) as [H|_]; [|reflexivity].
    now apply elem_of_nil in H.
  - rewrite lookup_insert. destruct (decide (x = frame)) as [->|Hne].
    + destruct (decide (frame ∈ frame :: frames)) as [_|H]; [reflexivity|].
      exfalso. apply H. left.
    + rewrite IH. destruct (decide (frame ∈ frames)) as [Hin|Hnin].
      * destruct (decide (frame ∈ x :: frames)) as [_|H]; [reflexivity|].
        exfalso. apply H. now right.
      * destruct (decide (frame ∈ x :: frames)) as [H|_]; [|reflexivity].
        apply elem_of_cons in H as [->|H]; [congruence|contradiction].
Qed.

Lemma pool_frames_cons_Some (frameOf : nat → N) (pool : list (option (nat → N))) :
  pool_frames (Some frameOf :: pool) = (frameOf <$> seq 0 512) ++ pool_frames pool.
Proof. reflexivity. Qed.

Lemma pool_frames_cons_None (pool : list (option (nat → N))) :
  pool_frames (None :: pool) = pool_frames pool.
Proof. reflexivity. Qed.

(** What a call of [Memory_allocate] for [pages] pages, at most 512,
    does on a host whose allocator is sound. *)
Lemma Memory_allocate_cases (h : EPT_Host) (noOfBytes : N) (pages : nat)
    (result : option (list N)) (h' : EPT_Host) :
  Host_ok h →
  (if noOfBytes <? PAGE_SIZE then 1%nat
   else N.to_nat ((noOfBytes + PAGE_SIZE - 1) / PAGE_SIZE)) = pages →
  (0 < pages ≤ 512)%nat →
  Memory_allocate h noOfBytes true = (result, h') →
  Host_ok h'
  ∧ (∀ frame, frame ∈ pool_frames (ExAllocatePool2 h') →
       frame ∈ pool_frames (ExAllocatePool2 h))
  ∧ match result with
    | None =>
      logicalCore h' = logicalCore h ∧ allocations h' = allocations h
    | Some frames =>
      length frames = pages ∧ NoDup frames
      ∧ (∀ frame, frame ∈ frames →
           frame ∈ pool_frames (ExAllocatePool2 h)
           ∧ frame ∉ pool_frames (ExAllocatePool2 h'))
      ∧ logicalCore h'
        = set_memory (memory (logicalCore h')) (logicalCore h)
      ∧ (∀ frame, memory (logicalCore h') !! frame
           = if decide (frame ∈ frames) then Some (replicate 512 0)
             else memory (logicalCore h) !! frame)
      ∧ allocations h' = <[frames !!! 0%nat := frames]> (allocations h)
    end.
Proof.
  intros [Hdistinct Hunused] Hpages Hrange. unfold Memory_allocate.
  destruct (ExAllocatePool2 h) as [|[frameOf|] rest] eqn:Hpool.
  - intros [<- <-]%pair_equal_spec. rewrite Hpool.
    split; [split; rewrite Hpool; assumption|]. split; auto.
  - intros [<- <-]%pair_equal_spec.
    assert (Hframes : (frameOf <$> seq 0
              (N.to_nat (((if (noOfBytes <? PAGE_SIZE) && true then PAGE_SIZE
                           else noOfBytes) + PAGE_SIZE - 1) / PAGE_SIZE)))
            = frameOf <$> seq 0 pages).
    { f_equal. f_equal. rewrite andb_true_r.
      destruct (noOfBytes <? PAGE_SIZE); [subst pages; reflexivity|exact Hpages]. }
    rewrite Hframes. clear Hframes.
    rewrite pool_frames_cons_Some in Hdistinct, Hunused |- *.
    apply NoDup_app in Hdistinct as (Hblock & Hdisjoint & Hrest).
    assert (Hsub : ∀ frame, frame ∈ frameOf <$> seq 0 pages →
                     frame ∈ frameOf <$> seq 0 512).
    { intros frame Hin. apply list_elem_of_fmap in Hin as (k & -> & Hk).
      apply list_elem_of_fmap. exists k. split; [reflexivity|].
      apply elem_of_seq in Hk. apply elem_of_seq. lia. }
    assert (Hnodup : NoDup (frameOf <$> seq 0 pages)).
    { replace 512%nat with (pages + (512 - pages))%nat in Hblock by lia.
      rewrite seq_app, fmap_app in Hblock.
      now apply NoDup_app in Hblock as (H & _ & _). }
    cbn [logicalCore allocations ExAllocatePool2 memory set_memory].
    split; [split|split; [|split; [|split; [|split; [|split; [|split]]]]]].
    + exact Hrest.
    + cbn [logicalCore allocations ExAllocatePool2 memory set_memory].
      intros frame Hin.
      destruct (Hunused frame) as (Hmem & Halloc & Hlt & Hnz);
        [apply elem_of_app; now right|].
      rewrite lookup_zeroed.
      destruct (decide (frame ∈ frameOf <$> seq 0 pages)) as [Hblk|_].
      { exfalso. exact (Hdisjoint frame (Hsub _ Hblk) Hin). }
      split; [exact Hmem|]. split; [|auto].
      rewrite lookup_insert_ne; [exact Halloc|].
      intros <-. apply (Hdisjoint (frameOf 0%nat)); [|exact Hin].
      apply list_elem_of_fmap. exists 0%nat. split; [reflexivity|].
      apply elem_of_seq. lia.
    + intros frame Hin. apply elem_of_app. now right.
    + now rewrite length_fmap, length_seq.
    + exact Hnodup.
    + intros frame Hin. split; [apply elem_of_app; left; now apply Hsub|].
      intros Hin'. exact (Hdisjoint frame (Hsub _ Hin) Hin').
    + reflexivity.
    + intros frame. apply lookup_zeroed.
    + f_equal. destruct pages as [|pages]; [lia|]. reflexivity.
  - intros [<- <-]%pair_equal_spec. cbn [logicalCore allocations ExAllocatePool2].
    rewrite pool_frames_cons_None in Hdistinct, Hunused |- *.
    split; [split; assumption|]. split; [auto|]. split; reflexivity.
Qed.

(** ** One entry of the PML4 *)

Lemma hierarchy_frames_snoc (pml4 : N) (pdpts : list N)
    (pdArrays : list (list N)) (pdpt : N) (pdArray : list N) :
  hierarchy_frames pml4 (pdpts ++ [pdpt]) (pdArrays ++ [pdArray])
  ≡ₚ hierarchy_frames pml4 pdpts pdArrays ++ pdpt :: pdArray.
Proof.
  unfold hierarchy_frames. rewrite join_app. simpl. rewrite app_nil_r.
  constructor. rewrite <- !app_assoc. apply Permutation_app_head.
  simpl. rewrite Permutation_middle. reflexivity.
Qed.

Lemma hierarchy_blocks_frames (pml4 : N) (pdpts : list N)
    (pdArrays : list (list N)) (pointer : N) :
  Forall (λ pdArray : list N, length pdArray = 512%nat) pdArrays →
  pointer ∈ hierarchy_blocks pml4 pdpts pdArrays →
  pointer ∈ hierarchy_frames pml4 pdpts pdArrays.
Proof.
  intros Hlen. unfold hierarchy_blocks, hierarchy_frames.
  rewrite !elem_of_cons, !elem_of_app.
  intros [->|[H|H]]; [now left|right; now left|right; right].
  apply list_elem_of_fmap in H as (pdArray & -> & Hin).
  apply list_elem_of_join. exists pdArray. split; [|exact Hin].
  rewrite Forall_forall in Hlen. specialize (Hlen _ Hin).
  apply list_elem_of_lookup_total. exists 0%nat. split; [lia|reflexivity].
Qed.

Lemma hierarchy_blocks_snoc (pml4 : N) (pdpts : list N)
    (pdArrays : list (list N)) (pdpt : N) (pdArray : list N) (pointer : N) :
  pointer ∈ hierarchy_blocks pml4 (pdpts ++ [pdpt]) (pdArrays ++ [pdArray])
  ↔ pointer ∈ hierarchy_blocks pml4 pdpts pdArrays ∨ pointer = pdpt
    ∨ pointer = pdArray !!! 0%nat.
Proof.
  unfold hierarchy_blocks. rewrite fmap_app. simpl.
  repeat (rewrite elem_of_cons || rewrite elem_of_app || rewrite elem_of_nil).
  tauto.
Qed.

Lemma host_writeq_ok (h : EPT_Host) (page index value : N) :
  Host_ok h → Host_ok (host_writeq h page index value).
Proof.
  intros [Hdistinct Hunused]. split; [exact Hdistinct|].
  intros frame Hin. destruct (Hunused frame Hin) as (Hmem & Hrest).
  split; [|exact Hrest].
  cbn [host_writeq set_logicalCore logicalCore memory set_memory].
  rewrite lookup_writeq. destruct (decide (page = frame)); [|exact Hmem].
  now rewrite Hmem.
Qed.

Lemma Memory_free_ok (h : EPT_Host) (address : N) :
  Host_ok h → Host_ok (Memory_free h address).
Proof.
  intros [Hdistinct Hunused]. split; [exact Hdistinct|].
  intros frame Hin. destruct (Hunused frame Hin) as (Hmem & Halloc & Hrest).
  split; [exact Hmem|]. split; [|exact Hrest].
  cbn [Memory_free allocations]. rewrite lookup_delete.
  now destruct (decide (address = frame)).
Qed.

Lemma insert_snoc_replicate (entries : list N) (e : N) (n : nat) :
  <[length entries := e]> (entries ++ replicate (S n) 0)
  = (entries ++ [e]) ++ replicate n 0.
Proof.
  rewrite insert_app_r_alt by lia. rewrite Nat.sub_diag. simpl.
  now rewrite <- app_assoc.
Qed.

Lemma built_pml4_eq (page pdpts : list N) (pdpt : N) :
  page = (directoryEntryFor <$> pdpts) ++ replicate (512 - length pdpts) 0 →
  (length pdpts < 512)%nat →
  <[length pdpts := directoryEntryFor pdpt]> page
  = (directoryEntryFor <$> pdpts ++ [pdpt])
    ++ replicate (512 - length (pdpts ++ [pdpt])) 0.
Proof.
  intros -> Hlt. rewrite length_app. simpl.
  replace (512 - length pdpts)%nat with (S (512 - (length pdpts + 1)))%nat by lia.
  rewrite fmap_app. simpl.
  rewrite <- (insert_snoc_replicate (directoryEntryFor <$> pdpts)).
  now rewrite length_fmap.
Qed.

(** What [setupPml4Entry] does for the next entry of a hierarchy that is
    complete so far. *)
Lemma setupPml4Entry_spec (h : EPT_Host) (pml4 : N) (pdpts : list N)
    (pdArrays : list (list N)) (before : gmap N (list N)) (st : N)
    (h' : EPT_Host) :
  Host_ok h →
  EPT_built (memory (logicalCore h)) pml4 pdpts pdArrays
    (λ _, IA32_MTRR_DISABLED_DEFAULT_TYPE) →
  (length pdpts < 512)%nat →
  live_blocks before (allocations h) pml4 pdpts pdArrays →
  (∀ frame, frame ∈ hierarchy_frames pml4 pdpts pdArrays →
     frame ∉ pool_frames (ExAllocatePool2 h)) →
  setupPml4Entry h pml4 (N.of_nat (length pdpts)) = (st, h') →
  Host_ok h'
  ∧ logicalCore h' = set_memory (memory (logicalCore h')) (logicalCore h)
  ∧ (∀ frame, frame ∈ pool_frames (ExAllocatePool2 h') →
       frame ∈ pool_frames (ExAllocatePool2 h))
  ∧ (∀ frame, frame ∉ pool_frames (ExAllocatePool2 h) → frame ≠ pml4 →
       memory (logicalCore h') !! frame = memory (logicalCore h) !! frame)
  ∧ ((st = STATUS_SUCCESS
      ∧ ∃ pdpt pdArray,
          EPT_built (memory (logicalCore h')) pml4 (pdpts ++ [pdpt])
            (pdArrays ++ [pdArray]) (λ _, IA32_MTRR_DISABLED_DEFAULT_TYPE)
          ∧ live_blocks before (allocations h') pml4 (pdpts ++ [pdpt])
              (pdArrays ++ [pdArray])
          ∧ (∀ frame,
               frame ∈ hierarchy_frames pml4 (pdpts ++ [pdpt])
                         (pdArrays ++ [pdArray]) →
               (frame ∉ pool_frames (ExAllocatePool2 h'))
               ∧ (frame ∈ hierarchy_frames pml4 pdpts pdArrays
                  ∨ frame ∈ pool_frames (ExAllocatePool2 h))))
     ∨ (st = STATUS_UNSUCCESSFUL
        ∧ EPT_directories (memory (logicalCore h')) pml4 pdpts pdArrays
        ∧ live_blocks before (allocations h') pml4 pdpts pdArrays
        ∧ memory (logicalCore h') !! 0 = None)).
Proof.
  intros Hok Hbuilt Hcount Hlive Hpending.
  destruct Hbuilt as [Hdir Hpml4 Hpd Hzero].
  pose proof Hdir as [Hlen Hcnt Hdistinct Hfit (page & Hpage & Hplen & Hentries)
                        Hpdpt Harr Hpds].
  assert (Hpml4_pending : pml4 ∉ pool_frames (ExAllocatePool2 h))
    by (apply Hpending; left).
  unfold setupPml4Entry.
  destruct (Memory_allocate h (EPT_PDPT_ENTRIES * 8) true) as [r1 h1] eqn:E1.
  destruct (Memory_allocate_cases h (EPT_PDPT_ENTRIES * 8) 1 r1 h1 Hok eq_refl
              ltac:(lia) E1)
    as (Hok1 & Hsub1 & Hr1).
  destruct r1 as [pdptPages|]; cycle 1.
  { (* no PDPT page *)
    destruct Hr1 as [Hcore1 Halloc1]. intros [<- <-]%pair_equal_spec.
    rewrite Hcore1, Halloc1. split; [exact Hok1|].
    split; [now destruct (logicalCore h)|]. split; [exact Hsub1|].
    split; [reflexivity|]. right. auto. }
  destruct Hr1 as (Hlen1 & Hnodup1 & Hfresh1 & Hcore1 & Hmem1 & Halloc1).
  destruct pdptPages as [|pdpt [|]]; try discriminate Hlen1.
  change ([pdpt] !!! 0%nat) with pdpt in *.
  destruct (Hfresh1 pdpt ltac:(left)) as [Hpdpt_in Hpdpt_out].
  destruct (ok_unused h Hok pdpt Hpdpt_in) as (Hpdpt_mem & Hpdpt_alloc & Hpdpt_lt & Hpdpt_nz).
  assert (Hpdpt_pml4 : pdpt ≠ pml4) by congruence.
  change (EPT_PagingStructure.make true true true
            (EPT_Address.pageFrameNumber4KB (Memory_getPhysicalAddress pdpt)))
    with (directoryEntryFor pdpt).
  set (h2 := host_writeq h1 pml4 (N.of_nat (length pdpts)) (directoryEntryFor pdpt)).
  assert (Hok2 : Host_ok h2) by now apply host_writeq_ok.
  destruct (Memory_allocate h2 (EPT_PDPT_ENTRIES * (EPT_PD_ENTRIES * 8)) true)
    as [r2 h3] eqn:E2.
  destruct (Memory_allocate_cases h2 (EPT_PDPT_ENTRIES * (EPT_PD_ENTRIES * 8)) 512
              r2 h3 Hok2 eq_refl ltac:(lia) E2)
    as (Hok3 & Hsub3 & Hr2).
  change (ExAllocatePool2 h2) with (ExAllocatePool2 h1) in Hsub3.
  (* the memory after the first allocation and the write *)
  assert (Hmem2 : ∀ frame, frame ∉ pool_frames (ExAllocatePool2 h) →
            frame ≠ pml4 →
            memory (logicalCore h2) !! frame = memory (logicalCore h) !! frame).
  { intros frame Hpend Hne.
    cbn [h2 host_writeq set_logicalCore logicalCore memory set_memory].
    rewrite lookup_writeq_ne by congruence. rewrite Hmem1.
    destruct (decide (frame ∈ [pdpt])) as [Hin|_]; [|reflexivity].
    apply list_elem_of_singleton in Hin as ->. contradiction. }
  assert (Hmem2_pml4 : memory (logicalCore h2) !! pml4
            = Some (<[length pdpts := directoryEntryFor pdpt]> page)).
  { cbn [h2 host_writeq set_logicalCore logicalCore memory set_memory].
    rewrite lookup_writeq. destruct (decide (pml4 = pml4)); [|congruence].
    rewrite Hmem1.
    destruct (decide (pml4 ∈ [pdpt])) as [Hin|_].
    { apply list_elem_of_singleton in Hin. congruence. }
    rewrite Hpage. simpl. now rewrite Nat2N.id. }
  assert (Hmem2_pdpt : memory (logicalCore h2) !! pdpt = Some (replicate 512 0)).
  { cbn [h2 host_writeq set_logicalCore logicalCore memory set_memory].
    rewrite lookup_writeq_ne by congruence. rewrite Hmem1.
    destruct (decide (pdpt ∈ [pdpt])) as [_|Hn]; [reflexivity|].
    exfalso. apply Hn. left. }
  assert (Hcore2 : logicalCore h2
            = set_memory (memory (logicalCore h2)) (logicalCore h)).
  { cbn [h2 host_writeq set_logicalCore logicalCore memory set_memory].
    rewrite Hcore1. reflexivity. }
  assert (Hdir2 : EPT_directories (memory (logicalCore h2)) pml4 pdpts pdArrays).
  { split; try assumption.
    - exists (<[length pdpts := directoryEntryFor pdpt]> page).
      split; [exact Hmem2_pml4|]. split; [now rewrite length_insert|].
      intros i x Hi. rewrite list_lookup_insert_ne; [now apply Hentries|].
      apply lookup_lt_Some in Hi. lia.
    - intros i x pdArray Hi Hj.
      rewrite Hmem2; [now apply (Hpdpt i)| |].
      + apply Hpending. right. apply elem_of_app. left.
        apply list_elem_of_lookup. eauto.
      + intros ->. apply NoDup_cons in Hdistinct as [Hn _]. apply Hn.
        apply elem_of_app. left. apply list_elem_of_lookup. eauto.
    - intros pd Hin. rewrite Hmem2; [now apply Hpds| |].
      + apply Hpending. right. apply elem_of_app. now right.
      + intros ->. apply NoDup_cons in Hdistinct as [Hn _]. apply Hn.
        apply elem_of_app. now right. }
  assert (Hzero2 : memory (logicalCore h2) !! 0 = None).
  { rewrite Hmem2; [exact Hzero| |].
    - intros Hin. now destruct (ok_unused h Hok 0 Hin) as (_ & _ & _ & ?).
    - intros <-. rewrite Forall_forall in Hfit.
      now destruct (Hfit 0 ltac:(left)). }
  destruct r2 as [pdArray|]; cycle 1.
  { (* no block for the page directories *)
    destruct Hr2 as [Hcore3 Halloc3]. intros [<- <-]%pair_equal_spec.
    cbn [Memory_free logicalCore allocations ExAllocatePool2].
    rewrite Hcore3.
    split; [now apply Memory_free_ok|]. split; [exact Hcore2|].
    split; [auto|]. split; [exact Hmem2|]. right.
    split; [reflexivity|]. split; [exact Hdir2|]. split; [|exact Hzero2].
    rewrite Halloc3.
    change (allocations h2) with (allocations h1). rewrite Halloc1.
    rewrite delete_insert_eq, delete_id by exact Hpdpt_alloc. exact Hlive. }
  destruct Hr2 as (Hlen2 & Hnodup2 & Hfresh2 & Hcore3 & Hmem3 & Halloc3).
  change (ExAllocatePool2 h2) with (ExAllocatePool2 h1) in Hfresh2.
  change (allocations h2) with (allocations h1) in Halloc3.
  intros [<- <-]%pair_equal_spec.
  cbn [set_logicalCore logicalCore allocations ExAllocatePool2 memory set_memory].
  assert (Harr_pending : ∀ pd, pd ∈ pdArray →
            pd ∈ pool_frames (ExAllocatePool2 h)
            ∧ (pd ∉ pool_frames (ExAllocatePool2 h3)) ∧ pd ≠ pdpt ∧ pd ≠ pml4).
  { intros pd Hin. destruct (Hfresh2 pd Hin) as [Hin1 Hout3].
    split; [now apply Hsub1|]. split; [exact Hout3|].
    split; [intros ->; contradiction|].
    intros ->. apply Hpml4_pending. now apply Hsub1. }
  assert (Hnodup : NoDup (pdpt :: pdArray)).
  { apply NoDup_cons. split; [|exact Hnodup2].
    intros Hin. now destruct (Harr_pending pdpt Hin) as (_ & _ & ? & _). }
  assert (Hmem3_pdpt : memory (logicalCore h3) !! pdpt = Some (replicate 512 0)).
  { rewrite Hmem3. destruct (decide (pdpt ∈ pdArray)) as [Hin|_]; [|exact Hmem2_pdpt].
    now destruct (Harr_pending pdpt Hin) as (_ & _ & ? & _). }
  destruct (setupPdptEntry_loop (N.of_nat (length pdpts)) pdpt pdArray
              (memory (logicalCore h3)) (replicate 512 0) 512 Hnodup)
    as (Hloop_pdpt & Hloop_pd & _ & Hloop_other).
  { lia. }
  { exact Hmem3_pdpt. }
  { rewrite length_replicate. lia. }
  { intros pd Hin. exists (replicate 512 0). rewrite Hmem3.
    destruct (decide (pd ∈ pdArray)); [|contradiction].
    split; [reflexivity|apply length_replicate]. }
  change (N.to_nat EPT_PDPT_ENTRIES) with 512%nat.
  cbv zeta in Hloop_pdpt, Hloop_pd, Hloop_other.
  set (mem' := foldl (setupPdptEntry (N.of_nat (length pdpts)) pdpt pdArray)
                 (memory (logicalCore h3)) (seq 0 512)) in *.
  rewrite take_ge, drop_ge, app_nil_r in Hloop_pdpt
    by (rewrite ?length_replicate; lia).
  assert (Hmem' : ∀ frame, frame ∉ pool_frames (ExAllocatePool2 h) →
            frame ≠ pml4 → mem' !! frame = memory (logicalCore h) !! frame).
  { intros frame Hpend Hne.
    assert (Hnin : frame ∉ pdArray).
    { intros Hin. now destruct (Harr_pending frame Hin) as (? & _). }
    rewrite Hloop_other.
    - rewrite Hmem3. destruct (decide (frame ∈ pdArray)); [contradiction|].
      now apply Hmem2.
    - intros [->|Hin]%elem_of_cons; contradiction. }
  assert (Hmem'_pml4 : mem' !! pml4
            = Some (<[length pdpts := directoryEntryFor pdpt]> page)).
  { rewrite Hloop_other.
    - rewrite Hmem3. destruct (decide (pml4 ∈ pdArray)) as [Hin|_]; [|exact Hmem2_pml4].
      now destruct (Harr_pending pml4 Hin) as (_ & _ & _ & ?).
    - intros [->|Hin]%elem_of_cons; [congruence|].
      now destruct (Harr_pending pml4 Hin) as (_ & _ & _ & ?). }
  assert (Hnew : ∀ frame, frame ∈ pdpt :: pdArray →
            frame ∈ pool_frames (ExAllocatePool2 h)
            ∧ frame ∉ pool_frames (ExAllocatePool2 h3)).
  { intros frame [->|Hin]%elem_of_cons.
    - split; [exact Hpdpt_in|]. intros Hin. now apply Hpdpt_out, Hsub3.
    - destruct (Harr_pending frame Hin) as (? & ? & _). now split. }
  split.
  { split; [exact (ok_distinct h3 Hok3)|].
    intros frame Hin. destruct (ok_unused h3 Hok3 frame Hin) as (Hm & Hrest).
    split; [|exact Hrest].
    cbn [set_logicalCore logicalCore memory set_memory].
    rewrite Hloop_other; [exact Hm|].
    intros Hblk. now destruct (Hnew frame Hblk) as [_ ?]. }
  split; [rewrite Hcore3, Hcore2; reflexivity|].
  split; [auto|]. split; [exact Hmem'|]. left. split; [reflexivity|].
  exists pdpt, pdArray.
  assert (Hfresh : ∀ frame, frame ∈ pdpt :: pdArray →
            frame ∉ hierarchy_frames pml4 pdpts pdArrays).
  { intros frame Hin Hold. destruct (Hnew frame Hin) as [Hin' _].
    exact (Hpending frame Hold Hin'). }
  split; [split; [split|..]|split].
  - rewrite !length_app, Hlen. reflexivity.
  - rewrite length_app. simpl. lia.
  - rewrite hierarchy_frames_snoc. apply NoDup_app.
    split; [exact Hdistinct|]. split; [|exact Hnodup].
    intros frame Hold Hin. exact (Hfresh frame Hin Hold).
  - rewrite hierarchy_frames_snoc. apply Forall_app. split; [exact Hfit|].
    apply Forall_forall. intros frame Hin. destruct (Hnew frame Hin) as [Hin' _].
    destruct (ok_unused h Hok frame Hin') as (_ & _ & Hlt & Hnz).
    split; assumption.
  - exists (<[length pdpts := directoryEntryFor pdpt]> page).
    split; [exact Hmem'_pml4|]. split; [now rewrite length_insert|].
    intros i x Hi. apply lookup_app_Some in Hi as [Hi|[Hge Hi]].
    + rewrite list_lookup_insert_ne; [now apply Hentries|].
      apply lookup_lt_Some in Hi. lia.
    + apply list_lookup_singleton_Some in Hi as [Hi <-].
      replace i with (length pdpts) by lia.
      apply list_lookup_insert_eq. lia.
  - intros i x arr Hi Hj.
    apply lookup_app_Some in Hi as [Hi|[Hge Hi]].
    + apply lookup_app_Some in Hj as [Hj|[Hge' _]];
        [|apply lookup_lt_Some in Hi; lia].
      rewrite Hmem'; [now apply (Hpdpt i)| |].
      * apply Hpending. right. apply elem_of_app. left.
        apply list_elem_of_lookup. eauto.
      * intros ->. apply NoDup_cons in Hdistinct as [Hn _]. apply Hn.
        apply elem_of_app. left. apply list_elem_of_lookup. eauto.
    + apply list_lookup_singleton_Some in Hi as [Hi <-].
      apply lookup_app_Some in Hj as [Hj|[_ Hj]];
        [apply lookup_lt_Some in Hj; lia|].
      rewrite Hlen in Hj.
      apply list_lookup_singleton_Some in Hj as [_ <-]. exact Hloop_pdpt.
  - apply Forall_app. split; [exact Harr|]. now repeat constructor.
  - intros pd Hin. rewrite join_app in Hin. simpl in Hin.
    rewrite app_nil_r in Hin. apply elem_of_app in Hin as [Hin|Hin].
    + rewrite Hmem'; [now apply Hpds| |].
      * apply Hpending. right. apply elem_of_app. now right.
      * intros ->. apply NoDup_cons in Hdistinct as [Hn _]. apply Hn.
        apply elem_of_app. now right.
    + apply list_elem_of_lookup in Hin as [j Hj].
      pose proof (lookup_lt_Some _ _ _ Hj) as Hjlt.
      rewrite (Hloop_pd j pd ltac:(lia) Hj).
      eexists. split; [reflexivity|].
      unfold pdPage. rewrite length_fmap, length_seq. reflexivity.
  - rewrite Hmem'_pml4. f_equal. apply built_pml4_eq; [congruence|exact Hcount].
  - intros i j arr pd Hi Hj.
    apply lookup_app_Some in Hi as [Hi|[Hge Hi]].
    + rewrite Hmem'; [now apply (Hpd i j arr)| |].
      * apply Hpending. right. apply elem_of_app. right.
        apply list_elem_of_join. exists arr.
        split; apply list_elem_of_lookup; eauto.
      * intros ->. apply NoDup_cons in Hdistinct as [Hn _]. apply Hn.
        apply elem_of_app. right. apply list_elem_of_join. exists arr.
        split; apply list_elem_of_lookup; eauto.
    + apply list_lookup_singleton_Some in Hi as [Hi <-].
      replace i with (length pdpts) by lia.
      apply Hloop_pd; [|exact Hj]. apply lookup_lt_Some in Hj. lia.
  - rewrite Hmem'; [exact Hzero| |].
    + intros Hin. now destruct (ok_unused h Hok 0 Hin) as (_ & _ & _ & ?).
    + intros <-. rewrite Forall_forall in Hfit.
      now destruct (Hfit 0 ltac:(left)).
  - (* the live blocks *)
    assert (Hbase : pdArray !!! 0%nat ∈ pdArray).
    { apply list_elem_of_lookup_total. exists 0%nat. split; [lia|reflexivity]. }
    destruct (Harr_pending _ Hbase) as (Hbase_in & _ & Hbase_pdpt & Hbase_pml4).
    assert (Hold : ∀ pointer, pointer ∈ hierarchy_blocks pml4 pdpts pdArrays →
              pointer ≠ pdpt ∧ pointer ≠ pdArray !!! 0%nat).
    { intros pointer Hin.
      apply (hierarchy_blocks_frames _ _ _ _ Harr) in Hin.
      split; intros ->; eapply Hpending; eauto. }
    rewrite Halloc3, Halloc1. destruct Hlive as [L1 L2 L3 L4 L5]. split.
    + rewrite !lookup_insert_ne by congruence. exact L1.
    + intros x [Hin| ->%list_elem_of_singleton]%elem_of_app.
      * destruct (Hold x) as [? ?];
          [right; apply elem_of_app; now left|].
        rewrite !lookup_insert_ne by congruence. now apply L2.
      * rewrite lookup_insert_ne by congruence. apply lookup_insert_eq.
    + intros arr [Hin| ->%list_elem_of_singleton]%elem_of_app.
      * destruct (Hold (arr !!! 0%nat)) as [? ?].
        { right. apply elem_of_app. right. apply list_elem_of_fmap. eauto. }
        rewrite !lookup_insert_ne by congruence. now apply L3.
      * apply lookup_insert_eq.
    + intros pointer Hnin.
      rewrite hierarchy_blocks_snoc in Hnin.
      rewrite !lookup_insert_ne by (intros <-; apply Hnin; auto).
      apply L4. intros Hin. apply Hnin. now left.
    + intros frame Hin. rewrite hierarchy_frames_snoc in Hin.
      apply elem_of_app in Hin as [Hin|Hin]; [now apply L5|].
      destruct (Hnew frame Hin) as [Hin' _].
      destruct (ok_unused h Hok frame Hin') as (_ & Halloc & _).
      rewrite <- L4; [exact Halloc|].
      intros Hblk. apply (hierarchy_blocks_frames _ _ _ _ Harr) in Hblk.
      exact (Hpending frame Hblk Hin').
  - intros frame Hin. rewrite hierarchy_frames_snoc in Hin.
    apply elem_of_app in Hin as [Hin|Hin].
    + split; [|now left]. intros Hpend. apply (Hpending frame Hin). auto.
    + destruct (Hnew frame Hin) as [Hin' Hout]. split; [exact Hout|now right].
Qed.

(** ** Destroying a hierarchy *)

Lemma readq_directoryEntry (mem : gmap N (list N)) (frame : N) (page : list N)
    (i : nat) (target : N) :
  mem !! frame = Some page → page !! i = Some (directoryEntryFor target) →
  target < 2 ^ 40 → is_Some (mem !! target) →
  Memory_getVirtualAddress mem
    (EPT_Address.of_pageFrameNumber4KB
       (EPT_PagingStructure.pageFrameNumber (readq mem frame (N.of_nat i))))
  = Returns target.
Proof.
  intros Hpage Hentry Hlt [x Hx].
  rewrite (readq_lookup _ _ _ _ Hpage), Nat2N.id, Hentry. simpl.
  unfold EPT_PagingStructure.pageFrameNumber.
  rewrite Memory_getVirtualAddress_field.
  fold (EPT_PagingStructure.pageFrameNumber (directoryEntryFor target)).
  rewrite directoryEntryFor_frame by exact Hlt. now rewrite Hx.
Qed.

Section Directories.
Context (mem : gmap N (list N)) (pml4 : N) (pdpts : list N)
  (pdArrays : list (list N)).
Hypothesis Hdir : EPT_directories mem pml4 pdpts pdArrays.

Lemma dir_frame_fits (frame : N) :
  frame ∈ hierarchy_frames pml4 pdpts pdArrays → frame < 2 ^ 40 ∧ frame ≠ 0.
Proof.
  intros Hin. pose proof (dir_fit _ _ _ _ Hdir) as H.
  rewrite Forall_forall in H. exact (H frame Hin).
Qed.

Lemma dir_pdpt_in (i : nat) (pdpt : N) :
  pdpts !! i = Some pdpt → pdpt ∈ hierarchy_frames pml4 pdpts pdArrays.
Proof.
  intros H. right. apply elem_of_app. left. apply list_elem_of_lookup. eauto.
Qed.

Lemma dir_pd_in (i j : nat) (pdArray : list N) (pd : N) :
  pdArrays !! i = Some pdArray → pdArray !! j = Some pd →
  pd ∈ mjoin pdArrays.
Proof.
  intros Hi Hj. apply list_elem_of_join. exists pdArray.
  split; apply list_elem_of_lookup; eauto.
Qed.

Lemma dir_pdArray_length (i : nat) (pdArray : list N) :
  pdArrays !! i = Some pdArray → length pdArray = 512%nat.
Proof.
  intros Hi. pose proof (dir_pdArray _ _ _ _ Hdir) as H.
  rewrite Forall_forall in H. apply H, list_elem_of_lookup. eauto.
Qed.

Lemma dir_pdArray_lookup (i : nat) (pdpt : N) :
  pdpts !! i = Some pdpt → ∃ pdArray, pdArrays !! i = Some pdArray.
Proof.
  intros Hi. apply lookup_lt_is_Some. rewrite (dir_length _ _ _ _ Hdir).
  now apply lookup_lt_Some in Hi.
Qed.

(** The walk of the first two levels. *)
Lemma dir_walk_pml4 (i : nat) (pdpt : N) :
  pdpts !! i = Some pdpt →
  Memory_getVirtualAddress mem
    (EPT_Address.of_pageFrameNumber4KB
       (EPT_PagingStructure.pageFrameNumber (readq mem pml4 (N.of_nat i))))
  = Returns pdpt.
Proof.
  intros Hi. destruct (dir_pml4 _ _ _ _ Hdir) as (page & Hpage & _ & Hentries).
  destruct (dir_pdArray_lookup i pdpt Hi) as [pdArray Hj].
  apply (readq_directoryEntry _ _ page); [exact Hpage|now apply Hentries| |].
  - now apply dir_frame_fits, (dir_pdpt_in i).
  - rewrite (dir_pdpt _ _ _ _ Hdir i pdpt pdArray Hi Hj). eauto.
Qed.

Lemma dir_walk_pdpt (i j : nat) (pdpt : N) (pdArray : list N) (pd : N) :
  pdpts !! i = Some pdpt → pdArrays !! i = Some pdArray →
  pdArray !! j = Some pd →
  Memory_getVirtualAddress mem
    (EPT_Address.of_pageFrameNumber4KB
       (EPT_PagingStructure.pageFrameNumber (readq mem pdpt (N.of_nat j))))
  = Returns pd.
Proof.
  intros Hi Hj Hk.
  apply (readq_directoryEntry _ _ (directoryEntryFor <$> pdArray)).
  - exact (dir_pdpt _ _ _ _ Hdir i pdpt pdArray Hi Hj).
  - now rewrite list_lookup_fmap, Hk.
  - apply dir_frame_fits. right. apply elem_of_app. right.
    exact (dir_pd_in i j pdArray pd Hj Hk).
  - destruct (dir_pd _ _ _ _ Hdir pd (dir_pd_in i j pdArray pd Hj Hk))
      as (page & -> & _). eauto.
Qed.

End Directories.

Lemma destroyPml4Entry_spec (h : EPT_Host) (pml4 : N) (pdpts : list N)
    (pdArrays : list (list N)) (i : nat) (pdpt : N) (pdArray : list N) :
  EPT_directories (memory (logicalCore h)) pml4 pdpts pdArrays →
  pdpts !! i = Some pdpt → pdArrays !! i = Some pdArray →
  destroyPml4Entry pml4 h i
  = Returns (Memory_free (Memory_free h (pdArray !!! 0%nat)) pdpt).
Proof.
  intros Hdir Hi Hj. unfold destroyPml4Entry.
  rewrite (dir_walk_pml4 _ _ _ _ Hdir i pdpt Hi). cbn [mbind Outcome_bind].
  destruct (lookup_lt_is_Some_2 pdArray 0) as [base Hbase].
  { rewrite (dir_pdArray_length _ _ _ _ Hdir i pdArray Hj). lia. }
  pose proof (dir_walk_pdpt _ _ _ _ Hdir i 0 pdpt pdArray base Hi Hj Hbase)
    as Hwalk.
  change (N.of_nat 0) with 0 in Hwalk. rewrite Hwalk.
  cbn [mbind Outcome_bind]. now rewrite (list_lookup_total_correct _ _ _ Hbase).
Qed.

Lemma destroyPml4Entries_app (pml4 : N) (l1 l2 : list nat) (h : EPT_Host) :
  destroyPml4Entries pml4 h (l1 ++ l2)
  = h1 ← destroyPml4Entries pml4 h l1; destroyPml4Entries pml4 h1 l2.
Proof.
  revert h. induction l1 as [|i l1 IH]; intros h; [reflexivity|].
  simpl. destruct (destroyPml4Entry pml4 h i) as [h1|code]; [|reflexivity].
  apply IH.
Qed.

(** [destroyPml4] frees the blocks of the first [n] entries and the PML4
    page, and touches nothing else. *)
Lemma destroyPml4Entries_spec (h : EPT_Host) (pml4 : N) (pdpts : list N)
    (pdArrays : list (list N)) (n : nat) :
  EPT_directories (memory (logicalCore h)) pml4 pdpts pdArrays →
  (n ≤ length pdpts)%nat →
  ∃ h', destroyPml4Entries pml4 h (seq 0 n) = Returns h'
        ∧ logicalCore h' = logicalCore h
        ∧ ExAllocatePool2 h' = ExAllocatePool2 h
        ∧ ∀ pointer, allocations h' !! pointer
            = if decide (pointer ∈ take n pdpts
                         ++ ((λ pdArray : list N, pdArray !!! 0%nat)
                             <$> take n pdArrays))
              then None else allocations h !! pointer.
Proof.
  intros Hdir. induction n as [|n IH]; intros Hn.
  - exists h. split; [reflexivity|]. split; [reflexivity|].
    split; [reflexivity|]. intros pointer. simpl.
    destruct (decide (pointer ∈ [])) as [H|_]; [|reflexivity].
    now apply elem_of_nil in H.
  - destruct IH as (h1 & Hrun & Hcore & Hpool & Halloc); [lia|].
    destruct (lookup_lt_is_Some_2 pdpts n) as [pdpt Hi]; [lia|].
    destruct (dir_pdArray_lookup _ _ _ _ Hdir n pdpt Hi) as [pdArray Hj].
    rewrite seq_S, destroyPml4Entries_app, Hrun. cbn [mbind Outcome_bind].
    simpl. rewrite <- Hcore in Hdir.
    rewrite (destroyPml4Entry_spec h1 pml4 pdpts pdArrays n pdpt pdArray Hdir Hi Hj).
    cbn [mbind Outcome_bind]. eexists. split; [reflexivity|].
    split; [exact Hcore|]. split; [exact Hpool|].
    intros pointer. cbn [Memory_free allocations].
    rewrite !lookup_delete, Halloc.
    rewrite (take_S_r _ _ _ Hi), (take_S_r _ _ _ Hj), fmap_app. simpl.
    set (X := take n pdpts).
    set (Y := (λ pdArray : list N, pdArray !!! 0%nat) <$> take n pdArrays).
    rewrite (decide_ext (pointer ∈ (X ++ [pdpt]) ++ Y ++ [pdArray !!! 0%nat])
               (pdpt = pointer ∨ pdArray !!! 0%nat = pointer ∨ pointer ∈ X ++ Y)).
    + destruct (decide (pdpt = pointer)), (decide (pdArray !!! 0%nat = pointer)),
        (decide (pointer ∈ X ++ Y)),
        (decide (pdpt = pointer ∨ pdArray !!! 0%nat = pointer ∨ pointer ∈ X ++ Y));
        try reflexivity; tauto.
    + repeat (rewrite elem_of_app || rewrite list_elem_of_singleton).
      intuition congruence.
Qed.

Lemma destroyPml4_spec (h : EPT_Host) (pml4 : N) (pdpts : list N)
    (pdArrays : list (list N)) :
  EPT_directories (memory (logicalCore h)) pml4 pdpts pdArrays →
  ∃ h', destroyPml4 h (N.of_nat (length pdpts)) pml4 = Returns h'
        ∧ logicalCore h' = logicalCore h
        ∧ ExAllocatePool2 h' = ExAllocatePool2 h
        ∧ ∀ pointer, allocations h' !! pointer
            = if decide (pointer ∈ hierarchy_blocks pml4 pdpts pdArrays)
              then None else allocations h !! pointer.
Proof.
  intros Hdir. unfold destroyPml4. rewrite Nat2N.id.
  destruct (destroyPml4Entries_spec h pml4 pdpts pdArrays (length pdpts) Hdir)
    as (h1 & -> & Hcore & Hpool & Halloc); [lia|].
  cbn [mbind Outcome_bind mret Outcome_ret]. eexists. split; [reflexivity|].
  split; [exact Hcore|]. split; [exact Hpool|].
  intros pointer. cbn [Memory_free allocations].
  rewrite lookup_delete, Halloc.
  rewrite !take_ge by (rewrite ?(dir_length _ _ _ _ Hdir); lia).
  unfold hierarchy_blocks.
  destruct (decide (pml4 = pointer)) as [->|Hne].
  - destruct (decide (pointer ∈ pointer :: _)) as [_|H]; [reflexivity|].
    exfalso. apply H. left.
  - repeat match goal with
           | |- context [decide ?P] => destruct (decide P)
           end; try reflexivity; exfalso.
    + match goal with H : ¬ _ ∈ _ :: _ |- _ => apply H; now right end.
    + match goal with
      | H : _ ∈ _ :: _ |- _ => apply elem_of_cons in H as [->|H]
      end; [congruence|contradiction].
Qed.

(** Destroying a hierarchy whose blocks are live gives back the pool as it
    was before the hierarchy was built. *)
Lemma destroyPml4_restores (h : EPT_Host) (pml4 : N) (pdpts : list N)
    (pdArrays : list (list N)) (before : gmap N (list N)) :
  EPT_directories (memory (logicalCore h)) pml4 pdpts pdArrays →
  live_blocks before (allocations h) pml4 pdpts pdArrays →
  ∃ h', destroyPml4 h (N.of_nat (length pdpts)) pml4 = Returns h'
        ∧ logicalCore h' = logicalCore h
        ∧ ExAllocatePool2 h' = ExAllocatePool2 h
        ∧ allocations h' = before.
Proof.
  intros Hdir [_ _ _ Hothers Hnew].
  destruct (destroyPml4_spec h pml4 pdpts pdArrays Hdir)
    as (h' & Hrun & Hcore & Hpool & Halloc).
  exists h'. split; [exact Hrun|]. split; [exact Hcore|].
  split; [exact Hpool|]. apply map_eq. intros pointer. rewrite Halloc.
  destruct (decide (pointer ∈ hierarchy_blocks pml4 pdpts pdArrays)) as [Hin|Hnin].
  - symmetry. apply Hnew.
    exact (hierarchy_blocks_frames _ _ _ _ (dir_pdArray _ _ _ _ Hdir) Hin).
  - now apply Hothers.
Qed.

(** ** The first loop of [EPT_setupDefaltStructures] *)

Lemma set_memory_chain (c0 c1 c2 : Context_LogicalCore) :
  c1 = set_memory (memory c1) c0 → c2 = set_memory (memory c2) c1 →
  c2 = set_memory (memory c2) c0.
Proof. intros H1 H2. rewrite H2, H1. reflexivity. Qed.

Lemma setupPml4Entries_spec (pml4 : N) (before : gmap N (list N)) (m : nat) :
  ∀ (h : EPT_Host) (pdpts : list N) (pdArrays : list (list N)),
  Host_ok h →
  EPT_built (memory (logicalCore h)) pml4 pdpts pdArrays
    (λ _, IA32_MTRR_DISABLED_DEFAULT_TYPE) →
  (length pdpts + m ≤ 512)%nat →
  live_blocks before (allocations h) pml4 pdpts pdArrays →
  (∀ frame, frame ∈ hierarchy_frames pml4 pdpts pdArrays →
     frame ∉ pool_frames (ExAllocatePool2 h)) →
  ∃ st h',
    setupPml4Entries h pml4 (seq (length pdpts) m) = Returns (st, h')
    ∧ Host_ok h'
    ∧ logicalCore h' = set_memory (memory (logicalCore h')) (logicalCore h)
    ∧ (∀ frame, frame ∈ pool_frames (ExAllocatePool2 h') →
         frame ∈ pool_frames (ExAllocatePool2 h))
    ∧ (∀ frame, frame ∉ pool_frames (ExAllocatePool2 h) → frame ≠ pml4 →
         memory (logicalCore h') !! frame = memory (logicalCore h) !! frame)
    ∧ ((st = STATUS_SUCCESS
        ∧ ∃ pdpts' pdArrays',
            length pdpts' = (length pdpts + m)%nat
            ∧ EPT_built (memory (logicalCore h')) pml4 pdpts' pdArrays'
                (λ _, IA32_MTRR_DISABLED_DEFAULT_TYPE)
            ∧ live_blocks before (allocations h') pml4 pdpts' pdArrays'
            ∧ (∀ frame, frame ∈ hierarchy_frames pml4 pdpts' pdArrays' →
                 (frame ∉ pool_frames (ExAllocatePool2 h'))
                 ∧ (frame ∈ hierarchy_frames pml4 pdpts pdArrays
                    ∨ frame ∈ pool_frames (ExAllocatePool2 h))))
       ∨ (st = STATUS_UNSUCCESSFUL ∧ allocations h' = before)).
Proof.
  induction m as [|m IH]; intros h pdpts pdArrays Hok Hbuilt Hcount Hlive Hpending.
  - exists STATUS_SUCCESS, h. split; [reflexivity|]. split; [exact Hok|].
    split; [now destruct (logicalCore h)|]. split; [auto|]. split; [auto|].
    left. split; [reflexivity|]. exists pdpts, pdArrays.
    split; [lia|]. split; [exact Hbuilt|]. split; [exact Hlive|].
    intros frame Hin. split; [now apply Hpending|now left].
  - cbn [seq setupPml4Entries].
    destruct (setupPml4Entry h pml4 (N.of_nat (length pdpts))) as [st1 h1] eqn:E1.
    destruct (setupPml4Entry_spec h pml4 pdpts pdArrays before st1 h1 Hok Hbuilt
                ltac:(lia) Hlive Hpending E1)
      as (Hok1 & Hcore1 & Hsub1 & Hmem1 & Hcases).
    destruct Hcases as [(-> & pdpt & pdArray & Hbuilt1 & Hlive1 & Hpending1)
                       |(-> & Hdir1 & Hlive1 & _)].
    + rewrite NT_SUCCESS_STATUS_SUCCESS. cbn [negb].
      destruct (IH h1 (pdpts ++ [pdpt]) (pdArrays ++ [pdArray]) Hok1 Hbuilt1)
        as (st & h' & Hrun & Hok' & Hcore' & Hsub' & Hmem' & Hcases');
        [rewrite length_app; simpl; lia|exact Hlive1
        |intros frame Hin; exact (proj1 (Hpending1 frame Hin))|].
      rewrite length_app in Hrun. simpl in Hrun.
      rewrite Nat.add_1_r in Hrun.
      exists st, h'. split; [exact Hrun|]. split; [exact Hok'|].
      split; [exact (set_memory_chain _ _ _ Hcore1 Hcore')|].
      split; [auto|]. split.
      { intros frame Hpend Hne. rewrite Hmem'; [now apply Hmem1| |exact Hne].
        intros Hin. apply Hpend. now apply Hsub1. }
      destruct Hcases' as [(-> & pdpts' & pdArrays' & Hlen' & Hrest)|Hfail];
        [left|right; exact Hfail].
      split; [reflexivity|]. exists pdpts', pdArrays'.
      destruct Hrest as (Hb' & Hl' & Hp').
      split; [rewrite Hlen', length_app; simpl; lia|].
      split; [exact Hb'|]. split; [exact Hl'|].
      intros frame Hin. destruct (Hp' frame Hin) as [Hout [Hold|Hpool]].
      * split; [exact Hout|]. exact (proj2 (Hpending1 frame Hold)).
      * split; [exact Hout|]. right. now apply Hsub1.
    + rewrite NT_SUCCESS_STATUS_UNSUCCESSFUL. cbn [negb].
      destruct (destroyPml4_restores h1 pml4 pdpts pdArrays before Hdir1 Hlive1)
        as (h' & Hrun & Hcore' & Hpool' & Halloc').
      rewrite Hrun. cbn [mbind Outcome_bind mret Outcome_ret].
      exists STATUS_UNSUCCESSFUL, h'. split; [reflexivity|].
      split.
      { destruct Hok1 as [D U]. split; rewrite Hpool'; [exact D|].
        intros frame Hin. destruct (U frame Hin) as (Hm & Ha & Hrest).
        rewrite Hcore'. split; [exact Hm|]. split; [|exact Hrest].
        rewrite Halloc'.
        destruct Hlive1 as [_ _ _ Hothers _]. rewrite <- Hothers; [exact Ha|].
        intros Hblk.
        apply (hierarchy_blocks_frames _ _ _ _ (dir_pdArray _ _ _ _ Hdir1)) in Hblk.
        apply (Hpending frame Hblk). now apply Hsub1. }
      rewrite Hcore', Hpool'. split; [exact Hcore1|]. split; [exact Hsub1|].
      split; [exact Hmem1|]. right. split; [reflexivity|exact Halloc'].
Qed.

(** ** The address of a 2 MiB leaf *)

Ltac decide_comparisons :=
  repeat match goal with
         | |- context [?x <=? ?y] =>
           first [ replace (x <=? y) with true
                     by (symmetry; apply N.leb_le; lia)
                 | replace (x <=? y) with false
                     by (symmetry; apply N.leb_gt; lia) ]
         | |- context [?x <? ?y] =>
           first [ replace (x <? y) with true
                     by (symmetry; apply N.ltb_lt; lia)
                 | replace (x <? y) with false
                     by (symmetry; apply N.ltb_ge; lia) ]
         end;
  cbn [andb orb negb];
  rewrite ?Bool.andb_true_r, ?Bool.andb_false_r.

(** The ranges of bit positions the fields of an address occupy. *)
Lemma bit_ranges (b : N) :
  b < 21 ∨ (21 <= b < 30) ∨ (30 <= b < 39) ∨ (39 <= b < 48)
  ∨ (48 <= b < 52) ∨ (52 <= b < 64) ∨ 64 <= b.
Proof. lia. Qed.

Lemma EPT_Address_make_testbit (i j k b : N) :
  N.testbit (EPT_Address_make i j k) b
  = if (21 <=? b) && (b <? 30) then N.testbit k (b - 21)
    else if (30 <=? b) && (b <? 39) then N.testbit j (b - 30)
    else if (39 <=? b) && (b <? 48) then N.testbit i (b - 39)
    else false.
Proof.
  unfold EPT_Address_make. rewrite !set_bitfield_testbit, N.bits_0.
  change (21 + 9) with 30. change (30 + 9) with 39. change (39 + 9) with 48.
  reflexivity.
Qed.

Lemma EPT_Address_make_2MB (i j k : N) :
  EPT_Address.of_pageFrameNumber2MB
    (N.land (EPT_Address.pageFrameNumber2MB (EPT_Address_make i j k)) (N.ones 31))
  = EPT_Address_make i j k.
Proof.
  apply N.bits_inj; intro b.
  unfold EPT_Address.of_pageFrameNumber2MB, EPT_Address.pageFrameNumber2MB.
  rewrite set_bitfield_testbit, N.bits_0, N.land_spec, bitfield_testbit,
    ones_testbit, !EPT_Address_make_testbit.
  change (21 + 43) with 64.
  destruct (bit_ranges b) as [H|[H|[H|[H|[H|[H|H]]]]]];
    try replace (b - 21 + 21) with b by lia;
    decide_comparisons; reflexivity.
Qed.

Lemma EPT_Address_make_fields (a : N) :
  a < 2 ^ 48 →
  EPT_Address_make (EPT_Address.pml4Entry a) (EPT_Address.pdptEntry a)
    (EPT_Address.pdEntry a)
  = EPT_Address.of_pageFrameNumber2MB (EPT_Address.pageFrameNumber2MB a).
Proof.
  intros Ha. apply N.bits_inj; intro b.
  unfold EPT_Address.of_pageFrameNumber2MB, EPT_Address.pageFrameNumber2MB,
    EPT_Address.pml4Entry, EPT_Address.pdptEntry, EPT_Address.pdEntry.
  rewrite EPT_Address_make_testbit, set_bitfield_testbit, N.bits_0,
    !bitfield_testbit.
  change (21 + 43) with 64.
  assert (Hhigh : 48 <= b → N.testbit a b = false)
    by (intros H; exact (testbit_high a b Ha H)).
  clear Ha.
  destruct (bit_ranges b) as [H|[H|[H|[H|[H|[H|H]]]]]];
    try replace (b - 21 + 21) with b by lia;
    try replace (b - 30 + 30) with b by lia;
    try replace (b - 39 + 39) with b by lia;
    decide_comparisons; rewrite ?Hhigh by lia; reflexivity.
Qed.

Lemma set_memoryType_make (r w f large : bool) (memoryType v pfn : N) :
  EPT_PdE2MB.set_memoryType v (EPT_PdE2MB.make r w f large memoryType pfn)
  = EPT_PdE2MB.make r w f large v pfn.
Proof.
  unfold EPT_PdE2MB.set_memoryType, EPT_PdE2MB.make.
  rewrite (set_bitfield_comm 3 3 v 21 31) by (left; lia).
  rewrite (set_bitfield_comm 3 3 v 7 1) by (left; lia).
  now rewrite set_bitfield_set_bitfield.
Qed.

(** ** Memory types from the variable MTRRs *)

Lemma pdPage_lookup (memoryTypes : N → N) (i j : N) (k : nat) :
  (k < 512)%nat →
  pdPage memoryTypes i j !! k
  = Some (EPT_PdE2MB.make true true true true
            (memoryTypes (EPT_Address_make i j (N.of_nat k)))
            (EPT_Address.pageFrameNumber2MB (EPT_Address_make i j (N.of_nat k)))).
Proof.
  intros Hk. unfold pdPage. rewrite list_lookup_fmap, lookup_seq_lt by exact Hk.
  reflexivity.
Qed.

Lemma pdPage_length (memoryTypes : N → N) (i j : N) :
  length (pdPage memoryTypes i j) = 512%nat.
Proof. unfold pdPage. now rewrite length_fmap, length_seq. Qed.

Section Adjust.
Context (n : N) (l : list EPT_VariableMtrr.t) (d : N).


Lemma adjustPdEntry_leaf (mem : gmap N (list N)) (pd : N) (page : list N)
    (i j : N) (k : nat) (memoryType : N) :
  mem !! pd = Some page →
  page !! k = Some (EPT_PdE2MB.make true true true true memoryType
                      (EPT_Address.pageFrameNumber2MB
                         (EPT_Address_make i j (N.of_nat k)))) →
  adjustPdEntry n l d mem pd k
  = (STATUS_SUCCESS,
     <[pd := <[k := EPT_PdE2MB.make true true true true
                      (searchVariableMtrrs n l d (EPT_Address_make i j (N.of_nat k)))
                      (EPT_Address.pageFrameNumber2MB
                         (EPT_Address_make i j (N.of_nat k)))]> page]> mem).
Proof.
  intros Hpage Hk. unfold adjustPdEntry. rewrite memoryType_not_ERR.
  f_equal. rewrite (readq_lookup _ _ _ _ Hpage), Nat2N.id, Hk. simpl.
  rewrite (proj2 (PdE2MB_make_fields true true true true memoryType _)).
  rewrite EPT_Address_make_2MB, set_memoryType_make.
  unfold writeq. rewrite Nat2N.id.
  apply map_eq. intros frame. rewrite lookup_alter, lookup_insert.
  destruct (decide (pd = frame)) as [->|]; [|reflexivity].
  now rewrite Hpage.
Qed.

Lemma adjustPd_page (memoryTypes : N → N) (i j : N) (m : nat) :
  ∀ (s : nat) (mem : gmap N (list N)) (pd : N) (page : list N),
  mem !! pd = Some page → length page = 512%nat → (s + m ≤ 512)%nat →
  (∀ k, (s ≤ k < 512)%nat → page !! k = pdPage memoryTypes i j !! k) →
  ∃ page',
    adjustPd n l d mem pd (seq s m) = (STATUS_SUCCESS, <[pd := page']> mem)
    ∧ length page' = 512%nat
    ∧ (∀ k, (s ≤ k < s + m)%nat → page' !! k = pdPage (searchVariableMtrrs n l d) i j !! k)
    ∧ (∀ k, ¬ (s ≤ k < s + m)%nat → page' !! k = page !! k).
Proof.
  induction m as [|m IH]; intros s mem pd page Hpage Hlen Hsm Hold.
  - exists page. simpl. rewrite insert_id by exact Hpage.
    split; [reflexivity|]. split; [exact Hlen|]. split; [intros k; lia|auto].
  - cbn [seq]. rewrite adjustPd_cons.
    rewrite (adjustPdEntry_leaf mem pd page i j s
               (memoryTypes (EPT_Address_make i j (N.of_nat s))) Hpage)
      by (rewrite Hold by lia; apply pdPage_lookup; lia).
    rewrite NT_SUCCESS_STATUS_SUCCESS.
    set (page1 := <[s := _]> page).
    destruct (IH (S s) (<[pd := page1]> mem) pd page1) as (page' & Hrun & Hlen' & Hnew & Hsame).
    + apply lookup_insert_eq.
    + unfold page1. now rewrite length_insert.
    + lia.
    + intros k Hk. unfold page1. rewrite list_lookup_insert_ne by lia.
      apply Hold. lia.
    + exists page'. rewrite Hrun, insert_insert_eq.
      split; [reflexivity|]. split; [exact Hlen'|]. split.
      * intros k Hk. destruct (decide (k = s)) as [->|Hne].
        -- rewrite Hsame by lia. unfold page1.
           rewrite list_lookup_insert_eq by lia.
           symmetry. apply pdPage_lookup. lia.
        -- apply Hnew. lia.
      * intros k Hk. rewrite Hsame by lia. unfold page1.
        apply list_lookup_insert_ne. lia.
Qed.

Lemma adjustPd_pdPage (memoryTypes : N → N) (i j : N) (mem : gmap N (list N))
    (pd : N) :
  mem !! pd = Some (pdPage memoryTypes i j) →
  adjustPd n l d mem pd (seq 0 512)
  = (STATUS_SUCCESS, <[pd := pdPage (searchVariableMtrrs n l d) i j]> mem).
Proof.
  intros Hpage.
  destruct (adjustPd_page memoryTypes i j 512 0 mem pd _ Hpage)
    as (page' & -> & Hlen & Hnew & _); [apply pdPage_length|lia|auto|].
  f_equal. f_equal. apply list_eq_same_length with 512%nat;
    [apply pdPage_length|exact Hlen|].
  intros k x y Hk Hx Hy. rewrite Hnew in Hx by lia. congruence.
Qed.

Lemma adjustPdpt_pages (memoryTypes : N → N) (i pdpt : N) (pdArray : list N)
    (m : nat) :
  NoDup (pdpt :: pdArray) → Forall (λ pd, pd < 2 ^ 40) pdArray →
  ∀ (s : nat) (mem : gmap N (list N)),
  mem !! pdpt = Some (directoryEntryFor <$> pdArray) →
  (s + m ≤ length pdArray)%nat →
  (∀ j pd, (s ≤ j)%nat → pdArray !! j = Some pd →
     mem !! pd = Some (pdPage memoryTypes i (N.of_nat j))) →
  ∃ mem',
    adjustPdpt n l d mem pdpt (seq s m) = Returns (STATUS_SUCCESS, mem')
    ∧ (∀ j pd, (s ≤ j < s + m)%nat → pdArray !! j = Some pd →
         mem' !! pd = Some (pdPage (searchVariableMtrrs n l d) i (N.of_nat j)))
    ∧ (∀ frame, (∀ j, (s ≤ j < s + m)%nat → pdArray !! j ≠ Some frame) →
         mem' !! frame = mem !! frame).
Proof.
  intros Hnodup Hfit. apply NoDup_cons in Hnodup as [Hpdpt_notin Hnodup].
  rewrite Forall_forall in Hfit.
  induction m as [|m IH]; intros s mem Hpdpt Hsm Hold.
  - exists mem. split; [reflexivity|]. split; [intros j pd; lia|auto].
  - cbn [seq]. rewrite adjustPdpt_cons.
    destruct (lookup_lt_is_Some_2 pdArray s) as [pds Hs]; [lia|].
    assert (Hin : pds ∈ pdArray) by (apply list_elem_of_lookup; eauto).
    rewrite (readq_directoryEntry mem pdpt (directoryEntryFor <$> pdArray) s pds
               Hpdpt)
      by (rewrite ?list_lookup_fmap, ?Hs, ?(Hold s pds) by (lia || assumption);
          eauto).
    cbn [mbind Outcome_bind].
    rewrite (adjustPd_pdPage memoryTypes i (N.of_nat s) mem pds)
      by (apply Hold; [lia|exact Hs]).
    rewrite NT_SUCCESS_STATUS_SUCCESS.
    destruct (IH (S s) (<[pds := pdPage (searchVariableMtrrs n l d) i (N.of_nat s)]> mem))
      as (mem' & Hrun & Hnew & Hsame).
    + rewrite lookup_insert_ne by (intros ->; contradiction). exact Hpdpt.
    + lia.
    + intros j pd Hj Hpd. rewrite lookup_insert_ne; [apply Hold; [lia|exact Hpd]|].
      intros ->. assert (s = j) by (eapply NoDup_lookup; eassumption). lia.
    + exists mem'. split; [exact Hrun|]. split.
      * intros j pd Hj Hpd. destruct (decide (j = s)) as [->|Hne].
        -- rewrite Hs in Hpd. injection Hpd as <-. rewrite Hsame.
           ++ apply lookup_insert_eq.
           ++ intros j Hj' Hpd.
              assert (s = j) by (eapply NoDup_lookup; eassumption). lia.
        -- apply Hnew; [lia|exact Hpd].
      * intros frame Hframe. rewrite Hsame by (intros j Hj; apply Hframe; lia).
        apply lookup_insert_ne. intros <-. now apply (Hframe s ltac:(lia)).
Qed.

End Adjust.

(** A frame occurs in one page directory array only. *)
Lemma join_NoDup_index (pdArrays : list (list N)) (i i' j j' : nat)
    (arr arr' : list N) (pd : N) :
  NoDup (mjoin pdArrays) →
  pdArrays !! i = Some arr → arr !! j = Some pd →
  pdArrays !! i' = Some arr' → arr' !! j' = Some pd →
  i = i'.
Proof.
  revert i i'. induction pdArrays as [|x xs IH]; intros i i' Hnodup Hi Hj Hi' Hj';
    [discriminate|].
  simpl in Hnodup. apply NoDup_app in Hnodup as (_ & Hdisjoint & Hnodup).
  destruct i as [|i], i' as [|i']; simpl in Hi, Hi'.
  - reflexivity.
  - injection Hi as ->. exfalso. apply (Hdisjoint pd).
    + apply list_elem_of_lookup. eauto.
    + apply list_elem_of_join. exists arr'.
      split; apply list_elem_of_lookup; eauto.
  - injection Hi' as ->. exfalso. apply (Hdisjoint pd).
    + apply list_elem_of_lookup. eauto.
    + apply list_elem_of_join. exists arr.
      split; apply list_elem_of_lookup; eauto.
  - f_equal. eapply IH; eauto.
Qed.

(** Changing page directories only, and keeping their size, keeps the
    directory levels. *)
Lemma EPT_directories_ext (mem mem' : gmap N (list N)) (pml4 : N)
    (pdpts : list N) (pdArrays : list (list N)) :
  EPT_directories mem pml4 pdpts pdArrays →
  (∀ frame, frame ∉ mjoin pdArrays → mem' !! frame = mem !! frame) →
  (∀ pd, pd ∈ mjoin pdArrays →
     ∃ page, mem' !! pd = Some page ∧ length page = 512%nat) →
  EPT_directories mem' pml4 pdpts pdArrays.
Proof.
  intros [Hlen Hcnt Hdistinct Hfit Hpml4 Hpdpt Harr Hpds] Hsame Hpages.
  pose proof Hdistinct as Hnodup.
  apply NoDup_cons in Hnodup as [Hpml4_notin Hnodup].
  apply NoDup_app in Hnodup as (_ & Hdisjoint & _).
  split; try assumption.
  - rewrite Hsame; [exact Hpml4|].
    intros Hin. apply Hpml4_notin, elem_of_app. now right.
  - intros i pdpt pdArray Hi Hj. rewrite Hsame; [now apply (Hpdpt i)|].
    apply Hdisjoint, list_elem_of_lookup. eauto.
Qed.

Lemma adjustPml4Entries_pages (n : N) (l : list EPT_VariableMtrr.t) (d : N)
    (memoryTypes : N → N) (pml4 : N) (pdpts : list N)
    (pdArrays : list (list N)) (m : nat) :
  ∀ (s : nat) (mem : gmap N (list N)),
  EPT_directories mem pml4 pdpts pdArrays →
  (s + m ≤ length pdpts)%nat →
  (∀ i j pdArray pd, (s ≤ i)%nat → pdArrays !! i = Some pdArray →
     pdArray !! j = Some pd →
     mem !! pd = Some (pdPage memoryTypes (N.of_nat i) (N.of_nat j))) →
  ∃ mem',
    adjustPml4Entries n l d mem pml4 (seq s m) = Returns (STATUS_SUCCESS, mem')
    ∧ (∀ i j pdArray pd, (s ≤ i < s + m)%nat → pdArrays !! i = Some pdArray →
         pdArray !! j = Some pd →
         mem' !! pd = Some (pdPage (searchVariableMtrrs n l d)
                              (N.of_nat i) (N.of_nat j)))
    ∧ (∀ frame,
         (∀ i pdArray, (s ≤ i < s + m)%nat → pdArrays !! i = Some pdArray →
            frame ∉ pdArray) →
         mem' !! frame = mem !! frame).
Proof.
  induction m as [|m IH]; intros s mem Hdir Hsm Hold.
  - exists mem. split; [reflexivity|]. split; [intros i j pdArray pd; lia|auto].
  - cbn [seq adjustPml4Entries].
    destruct (lookup_lt_is_Some_2 pdpts s) as [pdpt Hs]; [lia|].
    destruct (dir_pdArray_lookup _ _ _ _ Hdir s pdpt Hs) as [pdArray Harr].
    pose proof (dir_pdArray_length _ _ _ _ Hdir s pdArray Harr) as Hlen.
    unfold adjustPml4WithVariableMtrrs.
    rewrite (dir_walk_pml4 _ _ _ _ Hdir s pdpt Hs). cbn [mbind Outcome_bind].
    pose proof (dir_distinct _ _ _ _ Hdir) as Hdistinct.
    apply NoDup_cons in Hdistinct as [Hpml4_notin Hdistinct].
    apply NoDup_app in Hdistinct as (_ & Hdisjoint & Hpds_nodup).
    assert (Hsub : ∀ pd, pd ∈ pdArray → pd ∈ mjoin pdArrays).
    { intros pd Hin. apply list_elem_of_join. exists pdArray.
      split; [exact Hin|]. apply list_elem_of_lookup. eauto. }
    destruct (adjustPdpt_pages n l d memoryTypes (N.of_nat s) pdpt pdArray 512)
      with (s := 0%nat) (mem := mem) as (mem1 & Hrun1 & Hnew1 & Hsame1).
    + apply NoDup_cons. split.
      * intros Hin. apply (Hdisjoint pdpt); [|now apply Hsub].
        apply list_elem_of_lookup. eauto.
      * clear -Hpds_nodup Harr. revert pdArrays Harr Hpds_nodup.
        induction s as [|s IHs]; intros [|x xs] Harr Hnodup; try discriminate.
        -- injection Harr as ->. simpl in Hnodup.
           now apply NoDup_app in Hnodup as (? & _).
        -- simpl in Hnodup. apply NoDup_app in Hnodup as (_ & _ & Hnodup).
           exact (IHs xs Harr Hnodup).
    + apply Forall_forall. intros pd Hin.
      apply (dir_frame_fits _ _ _ _ Hdir). right. apply elem_of_app. right.
      now apply Hsub.
    + exact (dir_pdpt _ _ _ _ Hdir s pdpt pdArray Hs Harr).
    + lia.
    + intros j pd _ Hpd. exact (Hold s j pdArray pd ltac:(lia) Harr Hpd).
    + rewrite Hrun1. cbn [mbind Outcome_bind].
      rewrite NT_SUCCESS_STATUS_SUCCESS. cbn [negb].
      assert (Hdir1 : EPT_directories mem1 pml4 pdpts pdArrays).
      { apply (EPT_directories_ext mem mem1 _ _ _ Hdir).
        - intros frame Hnin. apply Hsame1. intros j _ Hj. apply Hnin, Hsub.
          apply list_elem_of_lookup. eauto.
        - intros pd Hin.
          destruct (decide (pd ∈ pdArray)) as [Hpd|Hpd].
          + apply list_elem_of_lookup in Hpd as [j Hj].
            pose proof (lookup_lt_Some _ _ _ Hj) as Hjlt.
            rewrite (Hnew1 j pd ltac:(lia) Hj). eexists.
            split; [reflexivity|apply pdPage_length].
          + rewrite Hsame1; [exact (dir_pd _ _ _ _ Hdir pd Hin)|].
            intros j _ Hj. apply Hpd, list_elem_of_lookup. eauto. }
      destruct (IH (S s) mem1 Hdir1) as (mem' & Hrun & Hnew & Hsame); [lia| |].
      * intros i j arr pd Hi Harr' Hpd.
        rewrite Hsame1; [apply (Hold i j arr pd); [lia|assumption..]|].
        intros j' _ Hj'.
        assert (Hneq : s ≠ i) by lia. apply Hneq.
        eapply (join_NoDup_index pdArrays); eauto.
      * exists mem'. split; [exact Hrun|]. split.
        -- intros i j arr pd Hi Harr' Hpd. destruct (decide (i = s)) as [->|Hne].
           ++ rewrite Harr in Harr'. injection Harr' as <-.
              rewrite Hsame.
              ** pose proof (lookup_lt_Some _ _ _ Hpd) as Hjlt.
                 apply Hnew1; [lia|exact Hpd].
              ** intros i arr Hi' Harr' Hin.
                 apply list_elem_of_lookup in Hin as [j' Hj'].
                 assert (Hneq : s ≠ i) by lia. apply Hneq.
                 eapply (join_NoDup_index pdArrays); eauto.
           ++ apply (Hnew i j arr pd); [lia|assumption..].
        -- intros frame Hframe.
           rewrite Hsame by (intros i arr Hi; apply Hframe; lia).
           apply Hsame1. intros j _ Hj.
           apply (Hframe s pdArray ltac:(lia) Harr), list_elem_of_lookup. eauto.
Qed.

Lemma adjustPml4Entries_built (n : N) (l : list EPT_VariableMtrr.t) (d : N)
    (memoryTypes : N → N) (mem : gmap N (list N)) (pml4 : N) (pdpts : list N)
    (pdArrays : list (list N)) :
  EPT_built mem pml4 pdpts pdArrays memoryTypes →
  ∃ mem',
    adjustPml4Entries n l d mem pml4 (seq 0 (length pdpts))
    = Returns (STATUS_SUCCESS, mem')
    ∧ EPT_built mem' pml4 pdpts pdArrays (searchVariableMtrrs n l d)
    ∧ ∀ frame, frame ∉ mjoin pdArrays → mem' !! frame = mem !! frame.
Proof.
  intros [Hdir Hpml4 Hpd Hzero].
  destruct (adjustPml4Entries_pages n l d memoryTypes pml4 pdpts pdArrays
              (length pdpts) 0 mem Hdir)
    as (mem' & Hrun & Hnew & Hsame); [lia|intros i j arr pd _; apply Hpd|].
  assert (Hother : ∀ frame, frame ∉ mjoin pdArrays → mem' !! frame = mem !! frame).
  { intros frame Hnin. apply Hsame. intros i arr _ Harr Hin. apply Hnin.
    apply list_elem_of_join. exists arr. split; [exact Hin|].
    apply list_elem_of_lookup. eauto. }
  assert (Hnew' : ∀ i j arr pd, pdArrays !! i = Some arr → arr !! j = Some pd →
            mem' !! pd = Some (pdPage (searchVariableMtrrs n l d)
                                 (N.of_nat i) (N.of_nat j))).
  { intros i j arr pd Harr Hj. apply (Hnew i j arr pd); [|assumption..].
    apply lookup_lt_Some in Harr. rewrite (dir_length _ _ _ _ Hdir) in Harr. lia. }
  pose proof (dir_distinct _ _ _ _ Hdir) as Hdistinct.
  pose proof (dir_fit _ _ _ _ Hdir) as Hfit. rewrite Forall_forall in Hfit.
  apply NoDup_cons in Hdistinct as [Hpml4_notin _].
  exists mem'. split; [exact Hrun|]. split; [|exact Hother]. split.
  - apply (EPT_directories_ext mem mem' _ _ _ Hdir Hother).
    intros pd Hin. apply list_elem_of_join in Hin as (arr & Hin & Harr).
    apply list_elem_of_lookup in Hin as [j Hj].
    apply list_elem_of_lookup in Harr as [i Hi].
    rewrite (Hnew' i j arr pd Hi Hj). eexists.
    split; [reflexivity|apply pdPage_length].
  - rewrite Hother; [exact Hpml4|].
    intros Hin. apply Hpml4_notin, elem_of_app. now right.
  - exact Hnew'.
  - rewrite Hother; [exact Hzero|].
    intros Hin. destruct (Hfit 0) as [_ Hnz]; [|congruence].
    right. apply elem_of_app. now right.
Qed.

(** ** What a complete hierarchy translates *)

Lemma PdE2MB_make_access (r w f large : bool) (memoryType pfn : N) :
  EPT_PdE2MB.readAccess (EPT_PdE2MB.make r w f large memoryType pfn) = bool_to_N r
  ∧ EPT_PdE2MB.writeAccess (EPT_PdE2MB.make r w f large memoryType pfn)
    = bool_to_N w
  ∧ EPT_PdE2MB.fetchAccess (EPT_PdE2MB.make r w f large memoryType pfn)
    = bool_to_N f
  ∧ EPT_PdE2MB.memoryType (EPT_PdE2MB.make r w f large memoryType pfn)
    = N.land memoryType (N.ones 3).
Proof.
  unfold EPT_PdE2MB.readAccess, EPT_PdE2MB.writeAccess, EPT_PdE2MB.fetchAccess,
    EPT_PdE2MB.memoryType, EPT_PdE2MB.make.
  repeat split.
  - rewrite !bitfield_set_other by lia. rewrite bitfield_set_same.
    now destruct r.
  - rewrite !bitfield_set_other by lia. rewrite bitfield_set_same.
    now destruct w.
  - rewrite !bitfield_set_other by lia. rewrite bitfield_set_same.
    now destruct f.
  - rewrite !bitfield_set_other by lia. now rewrite bitfield_set_same.
Qed.

Lemma pageFrameNumber2MB_lt (a : N) :
  a < 2 ^ 48 → EPT_Address.pageFrameNumber2MB a < 2 ^ 27.
Proof.
  intros Ha. unfold EPT_Address.pageFrameNumber2MB. rewrite bitfield_div_mod.
  eapply N.le_lt_trans; [apply N.Div0.mod_le|].
  apply N.Div0.div_lt_upper_bound. exact Ha.
Qed.

Lemma pageFrameNumber2MB_round (a : N) :
  EPT_Address.pageFrameNumber2MB
    (EPT_Address.of_pageFrameNumber2MB (EPT_Address.pageFrameNumber2MB a))
  = EPT_Address.pageFrameNumber2MB a.
Proof.
  unfold EPT_Address.pageFrameNumber2MB, EPT_Address.of_pageFrameNumber2MB.
  rewrite bitfield_set_same. apply land_ones_small, bitfield_lt.
Qed.

(** The frame of a 4 KiB page from the frame of its 2 MiB page. *)
Lemma pageFrameNumber4KB_split (a : N) :
  a < 2 ^ 48 →
  EPT_PT_ENTRIES * EPT_Address.pageFrameNumber2MB a + EPT_Address.ptEntry a
  = a / PAGE_SIZE.
Proof.
  intros Ha.
  unfold EPT_Address.pageFrameNumber2MB, EPT_Address.ptEntry, EPT_PT_ENTRIES,
    PAGE_SIZE.
  rewrite !bitfield_div_mod.
  change (2 ^ 21) with (4096 * 512). change (2 ^ 12) with 4096.
  change (2 ^ 9) with 512. rewrite <- N.Div0.div_div.
  set (x := a / 4096).
  assert (Hx : x < 2 ^ 36).
  { unfold x. apply N.Div0.div_lt_upper_bound. exact Ha. }
  assert (Hq : x / 512 <= x) by (apply N.Div0.div_le_upper_bound; lia).
  assert (H43 : 2 ^ 36 < 2 ^ 43) by reflexivity.
  rewrite N.mod_small by lia.
  rewrite (N.div_mod x 512) at 3 by discriminate. reflexivity.
Qed.

Section Built.
Context (c : Context_LogicalCore) (pml4 : N) (pdpts : list N)
  (pdArrays : list (list N)) (memoryTypes : N → N).
Hypothesis Hbuilt : EPT_built (memory c) pml4 pdpts pdArrays memoryTypes.
Hypothesis Hroot : pml4Frame c = pml4.

(** The walk ends in a bug check above the entries in use, *)
Lemma built_walk_outside (a : N) :
  (length pdpts ≤ N.to_nat (EPT_Address.pml4Entry a))%nat →
  EPT_pageDirectory c a = BugCheck BSOD_MEMORY_VA_CONVERSION.
Proof.
  intros Hout. rewrite EPT_pageDirectory_walk, Hroot. unfold walk.
  rewrite (built_pml4 _ _ _ _ _ Hbuilt). cbn [mbind option_bind].
  rewrite (readq_lookup _ _ _ _ (built_pml4 _ _ _ _ _ Hbuilt)).
  rewrite lookup_app_r by (rewrite length_fmap; exact Hout).
  pose proof (index9_lt 39 a) as Hlt. fold (EPT_Address.pml4Entry a) in Hlt.
  rewrite lookup_replicate_2 by (rewrite length_fmap; lia). simpl.
  unfold EPT_PagingStructure.pageFrameNumber. rewrite bitfield_0.
  now rewrite (built_unmapped _ _ _ _ _ Hbuilt).
Qed.

(** and below them in the page directory of the 1 GiB region, at a 2 MiB
    leaf for the address. *)
Lemma built_walk_inside (a : N) :
  a < 2 ^ 48 →
  (N.to_nat (EPT_Address.pml4Entry a) < length pdpts)%nat →
  ∃ pdArray pd,
    pdArrays !! N.to_nat (EPT_Address.pml4Entry a) = Some pdArray
    ∧ pdArray !! N.to_nat (EPT_Address.pdptEntry a) = Some pd
    ∧ EPT_pageDirectory c a = Returns pd
    ∧ readq (memory c) pd (EPT_Address.pdEntry a)
      = EPT_PdE2MB.make true true true true
          (memoryTypes (EPT_Address.of_pageFrameNumber2MB
                          (EPT_Address.pageFrameNumber2MB a)))
          (EPT_Address.pageFrameNumber2MB a).
Proof.
  intros Ha Hin. pose proof (built_directories _ _ _ _ _ Hbuilt) as Hdir.
  destruct (lookup_lt_is_Some_2 pdpts _ Hin) as [pdpt Hi].
  destruct (dir_pdArray_lookup _ _ _ _ Hdir _ pdpt Hi) as [pdArray Harr].
  pose proof (dir_pdArray_length _ _ _ _ Hdir _ pdArray Harr) as Hlen.
  pose proof (index9_lt 30 a) as Hj. fold (EPT_Address.pdptEntry a) in Hj.
  destruct (lookup_lt_is_Some_2 pdArray (N.to_nat (EPT_Address.pdptEntry a)))
    as [pd Hpd]; [lia|].
  exists pdArray, pd. split; [exact Harr|]. split; [exact Hpd|].
  pose proof (dir_walk_pml4 _ _ _ _ Hdir _ pdpt Hi) as W1.
  pose proof (dir_walk_pdpt _ _ _ _ Hdir _ _ pdpt pdArray pd Hi Harr Hpd) as W2.
  rewrite !N2Nat.id in W1, W2.
  split.
  - unfold EPT_pageDirectory.
    fold (pml4Frame c). rewrite Hroot.
    destruct (dir_pml4 _ _ _ _ Hdir) as (page & Hpage & _).
    assert (Hroot_va : Memory_getVirtualAddress (memory c)
              (EPT_Address.of_pageFrameNumber4KB pml4) = Returns pml4).
    { unfold Memory_getVirtualAddress.
      rewrite pageFrameNumber4KB_of_pageFrameNumber4KB.
      - now rewrite Hpage.
      - destruct (dir_frame_fits _ _ _ _ Hdir pml4 ltac:(left)) as [Hlt _].
        eapply N.lt_trans; [exact Hlt|reflexivity]. }
    rewrite Hroot_va. cbn [mbind Outcome_bind]. rewrite W1.
    cbn [mbind Outcome_bind]. exact W2.
  - rewrite (readq_lookup _ _ _ _
               (built_pd _ _ _ _ _ Hbuilt _ _ pdArray pd Harr Hpd)).
    pose proof (index9_lt 21 a) as Hk. fold (EPT_Address.pdEntry a) in Hk.
    rewrite pdPage_lookup by exact Hk. simpl.
    rewrite !N2Nat.id, (EPT_Address_make_fields a Ha).
    now rewrite pageFrameNumber2MB_round.
Qed.

(** Every address below 2^48 under an entry in use translates to itself,
    with every access allowed and the memory type of its 2 MiB page; the
    addresses above translate to nothing. *)
Lemma built_translation (a : N) :
  a < 2 ^ 48 →
  EPT_translation c a
  = if decide (N.to_nat (EPT_Address.pml4Entry a) < length pdpts)%nat
    then Some (a / PAGE_SIZE, 1, 1, 1,
               N.land (memoryTypes (EPT_Address.of_pageFrameNumber2MB
                                      (EPT_Address.pageFrameNumber2MB a)))
                 (N.ones 3))
    else None.
Proof.
  intros Ha. unfold EPT_translation.
  destruct (decide (N.to_nat (EPT_Address.pml4Entry a) < length pdpts)%nat)
    as [Hin|Hout].
  - destruct (built_walk_inside a Ha Hin) as (pdArray & pd & _ & _ & -> & Hpde).
    cbv zeta. rewrite Hpde.
    rewrite (proj1 (PdE2MB_make_fields true true true true _ _)).
    change (bool_to_N true =? 1) with true. cbv iota.
    rewrite (proj2 (PdE2MB_make_fields true true true true _ _)).
    destruct (PdE2MB_make_access true true true true
                (memoryTypes (EPT_Address.of_pageFrameNumber2MB
                                (EPT_Address.pageFrameNumber2MB a)))
                (EPT_Address.pageFrameNumber2MB a)) as (-> & -> & -> & ->).
    rewrite land_ones_small
      by (eapply N.lt_trans; [apply pageFrameNumber2MB_lt, Ha|reflexivity]).
    now rewrite pageFrameNumber4KB_split.
  - now rewrite built_walk_outside by lia.
Qed.

End Built.

(** ** A complete hierarchy is well formed and an identity map *)

Section BuiltInvariants.
Context (c : Context_LogicalCore) (pml4 : N) (pdpts : list N)
  (pdArrays : list (list N)) (memoryTypes : N → N).
Hypothesis Hbuilt : EPT_built (memory c) pml4 pdpts pdArrays memoryTypes.
Hypothesis Hroot : pml4Frame c = pml4.

Lemma built_wf :
  Arena_ok c →
  (∀ frame, frame ∈ arenaFrames c →
     frame ∉ hierarchy_frames pml4 pdpts pdArrays) →
  EPT_wf pdpts (mjoin pdArrays) [] c.
Proof.
  intros [Alen Aused Afits Apages Adistinct] Hapart.
  pose proof (built_directories _ _ _ _ _ Hbuilt) as Hdir.
  pose proof (dir_distinct _ _ _ _ Hdir) as Hdistinct.
  split; try assumption.
  - rewrite Hroot. unfold hierarchy_frames in Hdistinct, Hapart.
    rewrite app_assoc. rewrite app_comm_cons. apply NoDup_app.
    split; [exact Hdistinct|]. split; [|exact Adistinct].
    intros frame Hin Harena. exact (Hapart frame Harena Hin).
  - rewrite Hroot. unfold page_ok. rewrite (built_pml4 _ _ _ _ _ Hbuilt).
    split.
    + rewrite length_app, length_fmap, length_replicate.
      pose proof (dir_count _ _ _ _ Hdir). lia.
    + apply Forall_app. split.
      * apply Forall_fmap, Forall_forall. intros pdpt Hin. left. simpl.
        rewrite directoryEntryFor_frame; [exact Hin|].
        apply (dir_frame_fits _ _ _ _ Hdir). right. apply elem_of_app. now left.
      * apply Forall_replicate. right.
        unfold EPT_PagingStructure.pageFrameNumber. rewrite bitfield_0.
        exact (built_unmapped _ _ _ _ _ Hbuilt).
  - apply Forall_forall. intros pdpt Hin.
    apply list_elem_of_lookup in Hin as [i Hi].
    destruct (dir_pdArray_lookup _ _ _ _ Hdir i pdpt Hi) as [pdArray Harr].
    unfold page_ok. rewrite (dir_pdpt _ _ _ _ Hdir i pdpt pdArray Hi Harr).
    split.
    + rewrite length_fmap. exact (dir_pdArray_length _ _ _ _ Hdir i _ Harr).
    + apply Forall_fmap, Forall_forall. intros pd Hpd. left. simpl.
      assert (Hjoin : pd ∈ mjoin pdArrays).
      { apply list_elem_of_join. exists pdArray. split; [exact Hpd|].
        apply list_elem_of_lookup. eauto. }
      rewrite directoryEntryFor_frame; [exact Hjoin|].
      apply (dir_frame_fits _ _ _ _ Hdir). right. apply elem_of_app. now right.
  - apply Forall_forall. intros pd Hin.
    apply list_elem_of_join in Hin as (pdArray & Hpd & Harr).
    apply list_elem_of_lookup in Hpd as [j Hj].
    apply list_elem_of_lookup in Harr as [i Hi].
    unfold page_ok. rewrite (built_pd _ _ _ _ _ Hbuilt i j pdArray pd Hi Hj).
    split; [apply pdPage_length|].
    unfold pdPage. apply Forall_fmap, Forall_forall. intros k _. left. simpl.
    exact (proj1 (PdE2MB_make_fields true true true true _ _)).
Qed.

Lemma built_large (a pd : N) :
  a < 2 ^ 48 → EPT_pageDirectory c a = Returns pd →
  (N.to_nat (EPT_Address.pml4Entry a) < length pdpts)%nat
  ∧ pdArrays !! N.to_nat (EPT_Address.pml4Entry a)
    ≫= (λ pdArray, pdArray !! N.to_nat (EPT_Address.pdptEntry a)) = Some pd
  ∧ readq (memory c) pd (EPT_Address.pdEntry a)
    = EPT_PdE2MB.make true true true true
        (memoryTypes (EPT_Address.of_pageFrameNumber2MB
                        (EPT_Address.pageFrameNumber2MB a)))
        (EPT_Address.pageFrameNumber2MB a).
Proof.
  intros Ha Hwalk.
  destruct (decide (N.to_nat (EPT_Address.pml4Entry a) < length pdpts)%nat)
    as [Hin|Hout].
  - destruct (built_walk_inside c pml4 pdpts pdArrays memoryTypes Hbuilt Hroot
                a Ha Hin) as (pdArray & pd' & Harr & Hpd & Hwalk' & Hpde).
    rewrite Hwalk in Hwalk'. injection Hwalk' as <-.
    split; [exact Hin|]. split; [|exact Hpde].
    rewrite Harr. exact Hpd.
  - rewrite (built_walk_outside c pml4 pdpts pdArrays memoryTypes Hbuilt Hroot a)
      in Hwalk by lia.
    discriminate.
Qed.

Lemma built_identity :
  keys_in_range (changedMappings c) → EPT_identity c.
Proof.
  intros Hkeys.
  pose proof (built_directories _ _ _ _ _ Hbuilt) as Hdir.
  pose proof (dir_distinct _ _ _ _ Hdir) as Hdistinct.
  apply NoDup_cons in Hdistinct as [_ Hdistinct].
  apply NoDup_app in Hdistinct as (_ & _ & Hpds).
  split; [| | | |exact Hkeys].
  - intros a b pd Ha Hb Hwa Hwb.
    destruct (built_large a pd Ha Hwa) as (_ & Hia & _).
    destruct (built_large b pd Hb Hwb) as (_ & Hib & _).
    destruct (pdArrays !! N.to_nat (EPT_Address.pml4Entry a))
      as [arra|] eqn:Ea; [|discriminate].
    destruct (pdArrays !! N.to_nat (EPT_Address.pml4Entry b))
      as [arrb|] eqn:Eb; [|discriminate].
    cbn [mbind option_bind] in Hia, Hib.
    pose proof (join_NoDup_index pdArrays _ _ _ _ arra arrb pd Hpds Ea Hia Eb Hib)
      as Hi.
    rewrite <- Hi, Ea in Eb. injection Eb as <-.
    assert (Hnodup : NoDup arra).
    { clear -Hpds Ea. revert Ea. generalize (N.to_nat (EPT_Address.pml4Entry a)).
      induction pdArrays as [|x xs IH]; intros [|i] E; try discriminate.
      - injection E as ->. simpl in Hpds. now apply NoDup_app in Hpds as (? & _).
      - simpl in Hpds. apply NoDup_app in Hpds as (_ & _ & Hpds).
        exact (IH Hpds i E). }
    pose proof (NoDup_lookup _ _ _ _ Hnodup Hia Hib) as Hj.
    split; apply N2Nat.inj; assumption.
  - intros a b pda pdb Ha Hb Hwa _ Hsa.
    destruct (built_large a pda Ha Hwa) as (_ & _ & Hpde).
    rewrite Hpde, (proj1 (PdE2MB_make_fields true true true true _ _)) in Hsa.
    now contradiction Hsa.
  - intros a pd Ha Hwa _.
    destruct (built_large a pd Ha Hwa) as (_ & _ & Hpde).
    rewrite Hpde, (proj2 (PdE2MB_make_fields true true true true _ _)).
    apply land_ones_small.
    eapply N.lt_trans; [apply pageFrameNumber2MB_lt, Ha|reflexivity].
  - intros a pte Ha Hleaf.
    destruct (EPT_leaf_Some _ _ _ Hleaf) as (pd & _ & Hwa & Hsa & _).
    destruct (built_large a pd Ha Hwa) as (_ & _ & Hpde).
    rewrite Hpde, (proj1 (PdE2MB_make_fields true true true true _ _)) in Hsa.
    now contradiction Hsa.
Qed.

End BuiltInvariants.

(** ** Memory types from the fixed-range MTRRs *)

Lemma retyped_lookup (memoryTypes page : list N) (index : nat) :
  retyped memoryTypes page !! index
  = (λ entry, match memoryTypes !! index with
              | Some memoryType => EPT_PtE.set_memoryType memoryType entry
              | None => entry
              end) <$> page !! index.
Proof. unfold retyped. apply list_lookup_imap. Qed.

Lemma retyped_length (memoryTypes page : list N) :
  length (retyped memoryTypes page) = length page.
Proof. unfold retyped. apply length_imap. Qed.

Lemma retyped_nil (page : list N) : retyped [] page = page.
Proof.
  apply list_eq. intros i. rewrite retyped_lookup.
  destruct (page !! i); reflexivity.
Qed.

Lemma retyped_snoc (memoryTypes page : list N) (memoryType : N) :
  <[length memoryTypes :=
      EPT_PtE.set_memoryType memoryType
        (default 0 (retyped memoryTypes page !! length memoryTypes))]>
    (retyped memoryTypes page)
  = retyped (memoryTypes ++ [memoryType]) page.
Proof.
  apply list_eq. intros i. rewrite list_lookup_insert, retyped_length.
  rewrite !retyped_lookup.
  destruct (decide (length memoryTypes = i ∧ (length memoryTypes < length page)%nat))
    as [[<- Hlt]|Hne].
  - destruct (lookup_lt_is_Some_2 page _ Hlt) as [e ->]. simpl.
    rewrite lookup_app_r, Nat.sub_diag by lia. simpl.
    now rewrite lookup_ge_None_2 by lia.
  - destruct (page !! i) as [e|] eqn:E; [|reflexivity]. simpl. f_equal.
    pose proof (lookup_lt_Some _ _ _ E) as Hi.
    destruct (decide (i < length memoryTypes)%nat) as [Hlt|Hge].
    + now rewrite lookup_app_l by exact Hlt.
    + rewrite (lookup_ge_None_2 memoryTypes) by lia.
      rewrite lookup_ge_None_2; [reflexivity|].
      rewrite length_app. simpl. lia.
Qed.

Lemma fillFixedMtrrPages_retyped (memoryType : N) (pt : N) (page : list N)
    (mem0 : gmap N (list N)) (mappedPages : nat) :
  ∀ memoryTypes,
  fillFixedMtrrPages memoryType mappedPages
    (<[pt := retyped memoryTypes page]> mem0) pt (length memoryTypes)
  = (<[pt := retyped (memoryTypes ++ replicate mappedPages memoryType) page]> mem0,
     length (memoryTypes ++ replicate mappedPages memoryType)).
Proof.
  induction mappedPages as [|m IH]; intros memoryTypes.
  - simpl. now rewrite app_nil_r.
  - cbn [fillFixedMtrrPages].
    rewrite (readq_lookup _ _ _ _ (lookup_insert_eq _ _ _)).
    unfold writeq. rewrite alter_insert_eq, Nat2N.id, retyped_snoc.
    replace (S (length memoryTypes)) with (length (memoryTypes ++ [memoryType]))
      by (rewrite length_app; simpl; lia).
    rewrite IH, <- app_assoc. reflexivity.
Qed.

Lemma fillFixedMtrr_retyped (readmsr : N → N) (msrIndex sizeInKBytes pt : N)
    (page : list N) (mem0 : gmap N (list N)) (memoryTypes : list N) :
  fillFixedMtrr readmsr msrIndex sizeInKBytes pt
    (<[pt := retyped memoryTypes page]> mem0, length memoryTypes)
  = (<[pt := retyped (memoryTypes ++ fixedMtrrBytes readmsr msrIndex sizeInKBytes)
                page]> mem0,
     length (memoryTypes ++ fixedMtrrBytes readmsr msrIndex sizeInKBytes)).
Proof.
  unfold fillFixedMtrr, fixedMtrrBytes.
  generalize (seq 0 8). intros bytes. revert memoryTypes.
  induction bytes as [|b bytes IH]; intros memoryTypes.
  - simpl. now rewrite app_nil_r.
  - cbn [foldl mbind list_bind fst snd]. rewrite fillFixedMtrrPages_retyped.
    rewrite IH, <- app_assoc. reflexivity.
Qed.

(** ** Replacing a page of the arena *)

Section ArenaPage.
Context (pdpts pds pts : list N) (c : Context_LogicalCore).
Hypothesis Hwf : EPT_wf pdpts pds pts c.
Context (pt : N) (page' : list N).
Hypothesis Hpt : pt ∈ tableFrames pts c.
Hypothesis Hlen : length page' = 512%nat.

Lemma arena_page_dom (frame : N) :
  <[pt := page']> (memory c) !! frame = None ↔ memory c !! frame = None.
Proof.
  rewrite lookup_insert. destruct (decide (pt = frame)) as [<-|]; [|reflexivity].
  destruct (wf_arena_page _ _ _ _ Hwf _ Hpt) as (_ & page & -> & _).
  split; discriminate.
Qed.

Lemma arena_page_readq (frame index : N) :
  frame ≠ pt →
  readq (<[pt := page']> (memory c)) frame index = readq (memory c) frame index.
Proof. intros Hne. unfold readq. now rewrite lookup_insert_ne by congruence. Qed.

Lemma arena_page_evolves :
  evolves pdpts pds c (set_memory (<[pt := page']> (memory c)) c).
Proof.
  destruct (wf_arena_separate _ _ _ _ Hwf _ Hpt) as (Hp4 & H3 & H2).
  split; simpl; try reflexivity.
  - apply arena_page_dom.
  - now apply lookup_insert_ne.
  - intros frame Hin. apply lookup_insert_ne. congruence.
  - intros pd j Hin _. apply arena_page_readq. congruence.
Qed.

Lemma arena_page_wf :
  EPT_wf pdpts pds pts (set_memory (<[pt := page']> (memory c)) c).
Proof.
  destruct (wf_arena_separate _ _ _ _ Hwf _ Hpt) as (Hp4 & H3 & H2).
  destruct Hwf as [Hl Hused Hfits Hpages Hsep Hpml4 Hpdpts Hpds].
  split; simpl; try assumption.
  - eapply Forall_impl; [exact Hpages|]. simpl. intros frame H.
    rewrite lookup_insert. destruct (decide (pt = frame)); [|exact H].
    simpl. now rewrite Hlen.
  - eapply page_ok_ext; [| |exact Hpml4].
    + now apply lookup_insert_ne.
    + intros e. apply directoryEntry_ok_ext, arena_page_dom.
  - rewrite Forall_forall in *. intros frame Hin.
    eapply page_ok_ext; [| |exact (Hpdpts _ Hin)].
    + apply lookup_insert_ne. congruence.
    + intros e. apply directoryEntry_ok_ext, arena_page_dom.
  - rewrite Forall_forall in *. intros frame Hin.
    eapply page_ok_ext; [| |exact (Hpds _ Hin)].
    + apply lookup_insert_ne. congruence.
    + auto.
Qed.

(** When the new page differs from the old one in the memory types of its
    entries only, the hierarchy stays an identity map. *)
Lemma arena_page_identity (page : list N) :
  EPT_identity c → memory c !! pt = Some page →
  (∀ index entry', page' !! index = Some entry' →
     ∃ entry, page !! index = Some entry
       ∧ EPT_PtE.pageFrameNumber entry' = EPT_PtE.pageFrameNumber entry
       ∧ EPT_PtE.readAccess entry' = EPT_PtE.readAccess entry
       ∧ EPT_PtE.writeAccess entry' = EPT_PtE.writeAccess entry
       ∧ EPT_PtE.fetchAccess entry' = EPT_PtE.fetchAccess entry) →
  EPT_identity (set_memory (<[pt := page']> (memory c)) c).
Proof.
  intros [Hdirs Htables Hlarge Hleaves Hkeys] Hpage Hsame.
  destruct (wf_arena_separate _ _ _ _ Hwf _ Hpt) as (Hp4 & H3 & H2).
  set (c' := set_memory (<[pt := page']> (memory c)) c).
  assert (Hwalk : ∀ a, EPT_pageDirectory c' a = EPT_pageDirectory c a)
    by (intros a; apply (EPT_pageDirectory_evolves pdpts pds pts c Hwf),
          arena_page_evolves).
  assert (Hpde : ∀ a pd, EPT_pageDirectory c a = Returns pd →
            readq (memory c') pd (EPT_Address.pdEntry a)
            = readq (memory c) pd (EPT_Address.pdEntry a)).
  { intros a pd Hpd. apply arena_page_readq. intros ->.
    apply H2. exact (EPT_pageDirectory_in _ _ _ _ _ _ Hwf Hpd). }
  split.
  - intros a b pd Ha Hb. rewrite !Hwalk. now apply Hdirs.
  - intros a b pda pdb Ha Hb. rewrite !Hwalk. intros Hwa Hwb.
    rewrite (Hpde a pda Hwa), (Hpde b pdb Hwb). now apply Htables.
  - intros a pd Ha. rewrite Hwalk. intros Hwa. rewrite (Hpde a pd Hwa).
    now apply Hlarge.
  - intros a pte' Ha Hleaf.
    destruct (EPT_leaf_Some _ _ _ Hleaf) as (pd & page'' & Hwa & Hsa & Hp & Hk).
    rewrite Hwalk in Hwa. rewrite (Hpde a pd Hwa) in Hsa, Hp.
    change (memory c') with (<[pt := page']> (memory c)) in Hp.
    change (changedMappings c') with (changedMappings c).
    rewrite lookup_insert in Hp.
    destruct (decide (pt = EPT_PagingStructure.pageFrameNumber
                             (readq (memory c) pd (EPT_Address.pdEntry a))))
      as [Ept|Hne].
    + injection Hp as <-.
      destruct (Hsame _ _ Hk) as (entry & Hentry & Ef & Er & Ew & Ex).
      assert (Hold : EPT_leaf c a = Some entry).
      { rewrite (EPT_leaf_unfold c a pd Hwa).
        destruct (N.eqb_spec (EPT_PdE2MB.isLargePage
                    (readq (memory c) pd (EPT_Address.pdEntry a))) 1);
          [contradiction|].
        rewrite <- Ept, Hpage. exact Hentry. }
      destruct (Hleaves a entry Ha Hold) as [(If & Ir & Iw & Ix)|Hrec];
        [left|now right].
      unfold identityLeaf. rewrite Ef, Er, Ew, Ex. auto.
    + apply (Hleaves a pte' Ha).
      rewrite (EPT_leaf_unfold c a pd Hwa).
      destruct (N.eqb_spec (EPT_PdE2MB.isLargePage
                  (readq (memory c) pd (EPT_Address.pdEntry a))) 1);
        [contradiction|].
      rewrite Hp. exact Hk.
  - exact Hkeys.
Qed.

End ArenaPage.

(** ** [overrideFirstPml4EntryWithFixedMtrrs] *)

Lemma set_memoryType_fields (memoryType entry : N) :
  EPT_PtE.pageFrameNumber (EPT_PtE.set_memoryType memoryType entry)
  = EPT_PtE.pageFrameNumber entry
  ∧ EPT_PtE.readAccess (EPT_PtE.set_memoryType memoryType entry)
    = EPT_PtE.readAccess entry
  ∧ EPT_PtE.writeAccess (EPT_PtE.set_memoryType memoryType entry)
    = EPT_PtE.writeAccess entry
  ∧ EPT_PtE.fetchAccess (EPT_PtE.set_memoryType memoryType entry)
    = EPT_PtE.fetchAccess entry
  ∧ EPT_PtE.memoryType (EPT_PtE.set_memoryType memoryType entry)
    = N.land memoryType (N.ones 3).
Proof.
  unfold EPT_PtE.pageFrameNumber, EPT_PtE.readAccess, EPT_PtE.writeAccess,
    EPT_PtE.fetchAccess, EPT_PtE.memoryType, EPT_PtE.set_memoryType.
  rewrite !bitfield_set_other by lia. now rewrite bitfield_set_same.
Qed.

Lemma fixedMtrrTypes_length (readmsr : N → N) :
  length (fixedMtrrTypes readmsr) = 256%nat.
Proof. reflexivity. Qed.

Lemma below_2MB_fields (a : N) :
  a < 2 ^ 21 →
  EPT_Address.pml4Entry a = 0 ∧ EPT_Address.pdptEntry a = 0
  ∧ EPT_Address.pdEntry a = 0 ∧ EPT_Address.pageFrameNumber2MB a = 0
  ∧ EPT_Address.ptEntry a = a / PAGE_SIZE.
Proof.
  intros Ha.
  unfold EPT_Address.pml4Entry, EPT_Address.pdptEntry, EPT_Address.pdEntry,
    EPT_Address.pageFrameNumber2MB, EPT_Address.ptEntry, PAGE_SIZE.
  rewrite !bitfield_small
    by (eapply N.lt_le_trans; [exact Ha|apply N.pow_le_mono_r; lia]).
  repeat split. rewrite bitfield_div_mod. change (2 ^ 12) with 4096.
  apply N.mod_small. change (2 ^ 9) with 512.
  apply N.Div0.div_lt_upper_bound. exact Ha.
Qed.

Lemma above_2MB_fields (a : N) :
  a < 2 ^ 48 → 2 ^ 21 <= a →
  ¬ (EPT_Address.pml4Entry a = 0 ∧ EPT_Address.pdptEntry a = 0
     ∧ EPT_Address.pdEntry a = 0).
Proof.
  intros Ha Hge (E4 & E3 & E2).
  pose proof (pageFrameNumber2MB_first a Ha E4 E3) as H. rewrite E2 in H.
  unfold EPT_Address.pageFrameNumber2MB in H. rewrite bitfield_div_mod in H.
  assert (Hq : a / 2 ^ 21 < 2 ^ 43).
  { apply N.Div0.div_lt_upper_bound.
    eapply N.lt_trans; [exact Ha|reflexivity]. }
  rewrite N.mod_small in H by exact Hq.
  assert (Hpos : 0 < a / 2 ^ 21) by (apply N.div_str_pos; lia). lia.
Qed.

Lemma set_memory_set_eptp (mem : gmap N (list N)) (eptpBits : N)
    (c : Context_LogicalCore) :
  set_memory mem (set_eptp eptpBits c) = set_eptp eptpBits (set_memory mem c).
Proof. reflexivity. Qed.

Lemma splitPage_set_eptp (eptpBits : N) (c : Context_LogicalCore)
    (pd pdEntryIndex : N) :
  splitPage (set_eptp eptpBits c) pd pdEntryIndex
  = ((splitPage c pd pdEntryIndex).1,
     set_eptp eptpBits (splitPage c pd pdEntryIndex).2).
Proof.
  unfold splitPage. cbn [set_eptp noOfUsedSplits memory splitBuffer changedMappings].
  destruct (CONTEXT_EPT_NO_SPLITS <=? noOfUsedSplits c); reflexivity.
Qed.

(** The override runs on the logical core [c] as it is; what it builds is
    read with the EPTP of the new hierarchy in place of the core's. *)
Section Override.
Context (readmsr : N → N) (c : Context_LogicalCore) (eptpBits pml4 : N)
  (pdpts : list N) (pdArrays : list (list N)) (memoryTypes : N → N).
Hypothesis Hbuilt : EPT_built (memory c) pml4 pdpts pdArrays memoryTypes.
Hypothesis Hroot : EPT_EptP.pageFrameNumber eptpBits = pml4.
Hypothesis Hcount : (0 < length pdpts)%nat.
Hypothesis Harena : Arena_ok c.
Hypothesis Hapart : ∀ frame, frame ∈ arenaFrames c →
  frame ∉ hierarchy_frames pml4 pdpts pdArrays.

Local Abbreviation cE := (set_eptp eptpBits c).

Lemma override_built : EPT_built (memory cE) pml4 pdpts pdArrays memoryTypes.
Proof. exact Hbuilt. Qed.

Lemma override_root : pml4Frame cE = pml4.
Proof. exact Hroot. Qed.

Lemma override_arena : Arena_ok cE.
Proof. destruct Harena. split; assumption. Qed.

Lemma override_wf : EPT_wf pdpts (mjoin pdArrays) [] cE.
Proof.
  exact (built_wf cE pml4 pdpts pdArrays memoryTypes override_built override_root
           override_arena Hapart).
Qed.

(** The first page directory. *)
Lemma override_walk :
  ∃ pdpt pdArray pd,
    pdpts !! 0%nat = Some pdpt ∧ pdArrays !! 0%nat = Some pdArray
    ∧ pdArray !! 0%nat = Some pd ∧ pd ∈ mjoin pdArrays
    ∧ Memory_getVirtualAddress (memory c)
        (EPT_Address.of_pageFrameNumber4KB
           (EPT_PagingStructure.pageFrameNumber (readq (memory c) pml4 0)))
      = Returns pdpt
    ∧ Memory_getVirtualAddress (memory c)
        (EPT_Address.of_pageFrameNumber4KB
           (EPT_PagingStructure.pageFrameNumber (readq (memory c) pdpt 0)))
      = Returns pd
    ∧ EPT_pageDirectory cE 0 = Returns pd
    ∧ readq (memory c) pd 0
      = EPT_PdE2MB.make true true true true (memoryTypes 0) 0.
Proof.
  pose proof (built_directories _ _ _ _ _ Hbuilt) as Hdir.
  destruct (built_walk_inside cE pml4 pdpts pdArrays memoryTypes override_built
              override_root 0)
    as (pdArray & pd & Harr & Hpd & Hwalk & Hpde); [reflexivity|exact Hcount|].
  change (N.to_nat (EPT_Address.pml4Entry 0)) with 0%nat in Harr.
  change (N.to_nat (EPT_Address.pdptEntry 0)) with 0%nat in Hpd.
  change (EPT_Address.pdEntry 0) with 0 in Hpde.
  change (EPT_Address.of_pageFrameNumber2MB (EPT_Address.pageFrameNumber2MB 0))
    with 0 in Hpde.
  change (EPT_Address.pageFrameNumber2MB 0) with 0 in Hpde.
  destruct (lookup_lt_is_Some_2 pdpts 0 Hcount) as [pdpt Hpdpt].
  exists pdpt, pdArray, pd. split; [exact Hpdpt|]. split; [exact Harr|].
  split; [exact Hpd|]. split; [exact (dir_pd_in _ _ _ _ _ Harr Hpd)|].
  split; [exact (dir_walk_pml4 _ _ _ _ Hdir 0 pdpt Hpdpt)|].
  split; [exact (dir_walk_pdpt _ _ _ _ Hdir 0 0 pdpt pdArray pd Hpdpt Harr Hpd)|].
  split; [exact Hwalk|exact Hpde].
Qed.

Lemma override_fails :
  CONTEXT_EPT_NO_SPLITS <= noOfUsedSplits c →
  overrideFirstPml4EntryWithFixedMtrrs readmsr c pml4
  = Returns (STATUS_UNSUCCESSFUL, c).
Proof.
  intros Hfull.
  destruct override_walk as (pdpt & pdArray & pd & _ & _ & _ & _ & W1 & W2 & _).
  unfold overrideFirstPml4EntryWithFixedMtrrs.
  rewrite W1. cbn [mbind Outcome_bind]. rewrite W2. cbn [mbind Outcome_bind].
  rewrite (splitPage_failure c pd 0 Hfull).
  now rewrite NT_SUCCESS_STATUS_UNSUCCESSFUL.
Qed.

Lemma override_succeeds :
  noOfUsedSplits c < CONTEXT_EPT_NO_SPLITS →
  ∃ c',
    overrideFirstPml4EntryWithFixedMtrrs readmsr c pml4
    = Returns (STATUS_SUCCESS, c')
    ∧ noOfUsedSplits c' = noOfUsedSplits c + 1
    ∧ splitBuffer c' = splitBuffer c
    ∧ changedMappings c' = changedMappings c
    ∧ eptp c' = eptp c
    ∧ EPT_wf pdpts (mjoin pdArrays) [] (set_eptp eptpBits c')
    ∧ (keys_in_range (changedMappings c) → EPT_identity (set_eptp eptpBits c'))
    ∧ (∀ frame, frame ∈ pml4 :: pdpts → memory c' !! frame = memory c !! frame)
    ∧ (∀ frame, memory c' !! frame = None ↔ memory c !! frame = None)
    ∧ (∀ a, a < 2 ^ 48 →
         EPT_translation (set_eptp eptpBits c') a
         = if decide (a < 2 ^ 20)
           then Some (a / PAGE_SIZE, 1, 1, 1,
                      N.land (fixedMtrrTypes readmsr !!! N.to_nat (a / PAGE_SIZE))
                        (N.ones 3))
           else EPT_translation cE a).
Proof.
  intros Hfree.
  pose proof override_wf as Hwf.
  pose proof override_built as HbuiltE. pose proof override_root as HrootE.
  destruct override_walk
    as (pdpt & pdArray & pd & Hpdpt & Harr & Hpd & Hpd_in & W1 & W2 & Hwalk0 & Hpde0).
  set (slot := EPT_Address.pageFrameNumber4KB
                 (splitBuffer c !!! N.to_nat (noOfUsedSplits c))).
  destruct (splitPage c pd 0) as [st c1] eqn:Hsplit.
  pose proof Hsplit as Hsplit'.
  rewrite (splitPage_success c pd 0 Hfree) in Hsplit'.
  apply pair_equal_spec in Hsplit' as [<- Hc1]. symmetry in Hc1.
  assert (Hfields : noOfUsedSplits c1 = noOfUsedSplits c + 1
                    ∧ splitBuffer c1 = splitBuffer c
                    ∧ changedMappings c1 = changedMappings c
                    ∧ eptp c1 = eptp c) by (rewrite Hc1; auto).
  destruct Hfields as (Fused & Fbuffer & Ftable & Feptp). clear Hc1.
  set (c1E := set_eptp eptpBits c1).
  assert (HsplitE : splitPage cE pd 0 = (STATUS_SUCCESS, c1E))
    by (rewrite splitPage_set_eptp, Hsplit; reflexivity).
  pose proof (split_slot_arena pdpts (mjoin pdArrays) [] cE c1E Hwf pd 0 HsplitE)
    as Hslot_arena.
  change (EPT_Address.pageFrameNumber4KB
            (splitBuffer cE !!! N.to_nat (noOfUsedSplits cE))) with slot
    in Hslot_arena.
  destruct (wf_arena_page _ _ _ _ Hwf _ Hslot_arena) as (Hslot_lt & _).
  destruct (wf_arena_separate _ _ _ _ Hwf _ Hslot_arena) as (Hs4 & Hs3 & Hs2).
  pose proof (split_wf _ _ _ _ _ Hwf pd 0 Hpd_in HsplitE) as Hwf1.
  pose proof (split_readq_new _ _ _ _ _ Hwf pd 0 Hpd_in HsplitE ltac:(reflexivity))
    as Hnew.
  change (EPT_Address.pageFrameNumber4KB
            (splitBuffer cE !!! N.to_nat (noOfUsedSplits cE))) with slot in Hnew.
  change (memory c1E) with (memory c1) in Hnew.
  pose proof (split_lookup_slot _ _ _ _ _ Hwf pd 0 Hpd_in HsplitE) as Htable.
  change (EPT_Address.pageFrameNumber4KB
            (splitBuffer cE !!! N.to_nat (noOfUsedSplits cE))) with slot in Htable.
  change (memory c1E) with (memory c1) in Htable.
  change (memory cE) with (memory c) in Htable.
  rewrite Hpde0 in Htable.
  destruct (PdE2MB_make_access true true true true (memoryTypes 0) 0)
    as (_ & _ & _ & Hty0).
  rewrite Hty0, (proj2 (PdE2MB_make_fields true true true true _ _)) in Htable.
  change (N.land 0 (N.ones 31)) with 0 in Htable.
  set (table := splitPage_table (N.land (memoryTypes 0) (N.ones 3)) 0) in *.
  assert (Harena1 : arenaFrames c1E = arenaFrames cE)
    by (unfold arenaFrames; cbn [c1E set_eptp splitBuffer]; now rewrite Fbuffer).
  set (page' := retyped (fixedMtrrTypes readmsr) table).
  set (c2 := set_memory (<[slot := page']> (memory c1)) c1).
  set (c2E := set_eptp eptpBits c2).
  assert (Hlen' : length page' = 512%nat)
    by (unfold page'; rewrite retyped_length; apply length_splitPage_table).
  assert (Hslot1 : slot ∈ arenaFrames c1E) by now rewrite Harena1.
  assert (Hrun : overrideFirstPml4EntryWithFixedMtrrs readmsr c pml4
                 = Returns (STATUS_SUCCESS, c2)).
  { unfold overrideFirstPml4EntryWithFixedMtrrs.
    rewrite W1. cbn [mbind Outcome_bind]. rewrite W2. cbn [mbind Outcome_bind].
    rewrite Hsplit, NT_SUCCESS_STATUS_SUCCESS. cbn [negb].
    assert (Hpt : Memory_getVirtualAddress (memory c1)
              (EPT_Address.of_pageFrameNumber4KB
                 (EPT_PagingStructure.pageFrameNumber (readq (memory c1) pd 0)))
            = Returns slot).
    { rewrite Hnew, PagingStructure_make_pageFrameNumber by exact Hslot_lt.
      unfold Memory_getVirtualAddress.
      rewrite pageFrameNumber4KB_of_pageFrameNumber4KB
        by (eapply N.lt_trans; [exact Hslot_lt|reflexivity]).
      now rewrite Htable. }
    rewrite Hpt. cbn [mbind Outcome_bind mret Outcome_ret].
    replace (memory c1, 0%nat)
      with (<[slot := retyped [] table]> (memory c1), length (@nil N))
      by (rewrite retyped_nil, (insert_id (memory c1) slot table Htable);
          reflexivity).
    rewrite !fillFixedMtrr_retyped. cbn [fst snd].
    rewrite app_nil_l, <- !app_assoc. reflexivity. }
  exists c2. split; [exact Hrun|].
  split; [exact Fused|]. split; [exact Fbuffer|].
  split; [exact Ftable|]. split; [exact Feptp|].
  pose proof (arena_page_wf _ _ _ _ Hwf1 slot page' Hslot1 Hlen') as Hwf2.
  change (set_memory (<[slot:=page']> (memory c1E)) c1E) with c2E in Hwf2.
  split; [exact Hwf2|].
  assert (Hid2 : keys_in_range (changedMappings c) → EPT_identity c2E).
  { intros Hkeys.
    pose proof (built_identity cE pml4 pdpts pdArrays memoryTypes HbuiltE HrootE
                  Hkeys) as Hid.
    assert (Hid1 : EPT_identity c1E).
    { apply (split_identity pdpts (mjoin pdArrays) [] cE c1E Hwf Hid 0 pd);
        [reflexivity|exact Hwalk0| |exact HsplitE].
      change (EPT_Address.pdEntry 0) with 0. change (memory cE) with (memory c).
      rewrite Hpde0.
      exact (proj1 (PdE2MB_make_fields true true true true _ _)). }
    apply (arena_page_identity _ _ _ _ Hwf1 slot page' Hslot1 table Hid1 Htable).
    intros index entry' Hentry'. unfold page' in Hentry'.
    rewrite retyped_lookup in Hentry'.
    destruct (table !! index) as [entry|]; [|discriminate].
    injection Hentry' as <-. exists entry. split; [reflexivity|].
    destruct (fixedMtrrTypes readmsr !! index) as [ty|]; [|auto].
    destruct (set_memoryType_fields ty entry) as (-> & -> & -> & -> & _). auto. }
  split; [exact Hid2|].
  assert (Hlarge0 : EPT_PdE2MB.isLargePage (readq (memory cE) pd 0) = 1).
  { change (memory cE) with (memory c). rewrite Hpde0.
    exact (proj1 (PdE2MB_make_fields true true true true _ _)). }
  pose proof (split_evolves _ _ _ _ _ Hwf pd 0 Hpd_in HsplitE Hlarge0) as Hev1.
  pose proof (arena_page_evolves _ _ _ _ Hwf1 slot page' Hslot1) as Hev2.
  change (set_memory (<[slot:=page']> (memory c1E)) c1E) with c2E in Hev2.
  assert (Hpd_pml4 : pd ≠ pml4 ∧ pd ∉ pdpts).
  { pose proof (dir_distinct _ _ _ _ (built_directories _ _ _ _ _ Hbuilt)) as Hd.
    apply NoDup_cons in Hd as [Hn Hd]. apply NoDup_app in Hd as (_ & Hdis & _).
    split.
    - intros ->. apply Hn, elem_of_app. now right.
    - intros Hin. exact (Hdis pd Hin Hpd_in). }
  split.
  { intros frame Hin.
    change (memory c2) with (<[slot := page']> (memory c1)).
    assert (Hne : frame ≠ slot).
    { intros ->. apply (Hapart slot Hslot_arena). unfold hierarchy_frames.
      apply elem_of_cons in Hin as [->|Hin]; [left|right; apply elem_of_app; now left]. }
    rewrite lookup_insert_ne by congruence.
    apply (split_lookup_ne c c1 pd 0 Hsplit); [|exact Hne].
    intros ->. destruct Hpd_pml4 as [H1 H2].
    apply elem_of_cons in Hin as [->|Hin]; [congruence|contradiction]. }
  split.
  { intros frame. change (memory c2) with (memory c2E).
    change (memory c) with (memory cE).
    rewrite (ev_dom _ _ _ _ Hev2 frame). exact (ev_dom _ _ _ _ Hev1 frame). }
  (* the translation *)
  intros a Ha. fold c2E.
  assert (Hwalk : EPT_pageDirectory c2E a = EPT_pageDirectory cE a).
  { rewrite (EPT_pageDirectory_evolves _ _ _ _ Hwf1 c2E Hev2).
    exact (EPT_pageDirectory_evolves _ _ _ _ Hwf c1E Hev1 a). }
  assert (Hreadq2 : ∀ frame index, frame ∈ mjoin pdArrays →
            readq (memory c2E) frame index = readq (memory c1) frame index).
  { intros frame index Hin. apply (arena_page_readq c1E slot page').
    intros ->. contradiction. }
  destruct (decide (a < 2 ^ 21)) as [Hlow|Hhigh].
  - destruct (below_2MB_fields a Hlow) as (E4 & E3 & E2 & Ef & Ek).
    assert (Hwa : EPT_pageDirectory cE a = Returns pd).
    { destruct (built_walk_inside cE pml4 pdpts pdArrays memoryTypes HbuiltE
                  HrootE a Ha) as (arr & pd' & Harr' & Hpd' & Hw & _).
      - rewrite E4. exact Hcount.
      - rewrite E4 in Harr'. rewrite E3 in Hpd'.
        change (N.to_nat 0) with 0%nat in Harr', Hpd'.
        rewrite Harr in Harr'. injection Harr' as <-.
        rewrite Hpd in Hpd'. injection Hpd' as <-. exact Hw. }
    assert (Hk : (N.to_nat (a / PAGE_SIZE) < 512)%nat).
    { assert (a / PAGE_SIZE < 512); [|lia].
      apply N.Div0.div_lt_upper_bound. exact Hlow. }
    rewrite (built_translation cE pml4 pdpts pdArrays memoryTypes HbuiltE HrootE
               a Ha).
    unfold EPT_translation. rewrite Hwalk, Hwa. cbv zeta.
    rewrite E2, (Hreadq2 pd 0 Hpd_in), Hnew, PagingStructure_make_isLargePage.
    change (0 =? 1) with false. cbv iota.
    unfold EPT_leaf. rewrite Hwalk, Hwa. cbv zeta.
    rewrite E2, (Hreadq2 pd 0 Hpd_in), Hnew, PagingStructure_make_isLargePage.
    change (0 =? 1) with false. cbv iota.
    rewrite PagingStructure_make_pageFrameNumber by exact Hslot_lt.
    change (memory c2E) with (<[slot := page']> (memory c1)).
    rewrite lookup_insert_eq. cbn [mbind option_bind].
    rewrite Ek. unfold page'. rewrite retyped_lookup.
    unfold table. rewrite lookup_splitPage_table by exact Hk.
    cbn [fmap option_fmap option_map mbind option_bind].
    rewrite N2Nat.id. change (EPT_PT_ENTRIES * 0 + a / PAGE_SIZE) with (a / PAGE_SIZE).
    destruct (PtE_make_fields true true true (N.land (memoryTypes 0) (N.ones 3))
                (a / PAGE_SIZE)) as (Mr & Mw & Mf & Mt & Mp).
    assert (Hframe : N.land (a / PAGE_SIZE) (N.ones 40) = a / PAGE_SIZE).
    { apply land_ones_small. change (2 ^ 40) with 1099511627776. lia. }
    destruct (decide (a < 2 ^ 20)) as [Hfix|Hnofix].
    + assert (Hk' : (N.to_nat (a / PAGE_SIZE) < 256)%nat).
      { assert (a / PAGE_SIZE < 256); [|lia].
        apply N.Div0.div_lt_upper_bound. exact Hfix. }
      destruct (lookup_lt_is_Some_2 (fixedMtrrTypes readmsr)
                  (N.to_nat (a / PAGE_SIZE))) as [ty Hty];
        [rewrite fixedMtrrTypes_length; exact Hk'|].
      rewrite Hty, (list_lookup_total_correct _ _ _ Hty).
      destruct (set_memoryType_fields ty
                  (EPT_PtE.make true true true (N.land (memoryTypes 0) (N.ones 3))
                     (a / PAGE_SIZE))) as (-> & -> & -> & -> & ->).
      rewrite Mr, Mw, Mf, Mp, Hframe. reflexivity.
    + rewrite lookup_ge_None_2.
      * rewrite Mr, Mw, Mf, Mt, Mp, Hframe.
        destruct (decide _) as [_|Hout]; [|rewrite E4 in Hout; contradiction].
        rewrite Ef. change (EPT_Address.of_pageFrameNumber2MB 0) with 0.
        f_equal. f_equal. rewrite <- N.land_assoc. f_equal.
      * rewrite fixedMtrrTypes_length.
        assert (256 <= a / PAGE_SIZE); [|lia].
        apply N.div_le_lower_bound; [discriminate|].
        change (PAGE_SIZE * 256) with (2 ^ 20). lia.
  - destruct (decide (a < 2 ^ 20)) as [Hfix|_].
    { exfalso. apply Hhigh. eapply N.lt_trans; [exact Hfix|reflexivity]. }
    unfold EPT_translation, EPT_leaf. rewrite Hwalk.
    destruct (EPT_pageDirectory cE a) as [pda|code] eqn:Hwa; [|reflexivity].
    pose proof (EPT_pageDirectory_in _ _ _ _ _ _ Hwf Hwa) as Hpda.
    assert (Hsame : readq (memory c2E) pda (EPT_Address.pdEntry a)
                    = readq (memory cE) pda (EPT_Address.pdEntry a)).
    { rewrite (Hreadq2 pda _ Hpda).
      destruct (decide (pda = pd)) as [->|Hne].
      - apply (split_readq_pde _ _ _ _ _ Hwf pd 0 Hpd_in HsplitE).
        intros E2.
        destruct (built_large cE pml4 pdpts pdArrays memoryTypes HbuiltE HrootE
                    a pd Ha Hwa) as (_ & Hidx & _).
        destruct (pdArrays !! N.to_nat (EPT_Address.pml4Entry a))
          as [arr|] eqn:Earr; [|discriminate].
        cbn [mbind option_bind] in Hidx.
        pose proof (dir_distinct _ _ _ _ (built_directories _ _ _ _ _ Hbuilt)) as Hd.
        apply NoDup_cons in Hd as [_ Hd]. apply NoDup_app in Hd as (_ & _ & Hd).
        pose proof (join_NoDup_index pdArrays _ _ _ _ arr pdArray pd Hd
                      Earr Hidx Harr Hpd) as Ei.
        rewrite Ei, Harr in Earr. injection Earr as <-.
        assert (Hnodup : NoDup pdArray).
        { clear -Hd Harr. revert Harr. generalize 0%nat.
          induction pdArrays as [|x xs IH]; intros [|i] E; try discriminate.
          - injection E as ->. simpl in Hd. now apply NoDup_app in Hd as (? & _).
          - simpl in Hd. apply NoDup_app in Hd as (_ & _ & Hd).
            exact (IH Hd i E). }
        pose proof (NoDup_lookup _ _ _ _ Hnodup Hidx Hpd) as Ej.
        apply (above_2MB_fields a Ha); [lia|].
        split; [|split; [|exact E2]]; apply N2Nat.inj; assumption.
      - unfold readq. change (memory cE) with (memory c).
        rewrite (split_lookup_ne c c1 pd 0 Hsplit); [reflexivity|exact Hne|].
        intros ->. contradiction. }
    cbv zeta. rewrite Hsame.
    destruct (built_large cE pml4 pdpts pdArrays memoryTypes HbuiltE HrootE
                a pda Ha Hwa) as (_ & _ & Hpde).
    rewrite Hpde, (proj1 (PdE2MB_make_fields true true true true _ _)).
    reflexivity.
Qed.

End Override.

(** ** The memory types of the new hierarchy *)

Lemma EPT_directories_same (mem mem' : gmap N (list N)) (pml4 : N)
    (pdpts : list N) (pdArrays : list (list N)) :
  EPT_directories mem pml4 pdpts pdArrays →
  (∀ frame, frame ∈ pml4 :: pdpts → mem' !! frame = mem !! frame) →
  (∀ pd, pd ∈ mjoin pdArrays →
     ∃ page, mem' !! pd = Some page ∧ length page = 512%nat) →
  EPT_directories mem' pml4 pdpts pdArrays.
Proof.
  intros [Hlen Hcnt Hdistinct Hfit Hpml4 Hpdpt Harr Hpds] Hsame Hpages.
  split; try assumption.
  - rewrite Hsame by left. exact Hpml4.
  - intros i pdpt pdArray Hi Hj. rewrite Hsame; [now apply (Hpdpt i)|].
    right. apply list_elem_of_lookup. eauto.
Qed.

Lemma Arena_ok_ext (c c' : Context_LogicalCore) :
  Arena_ok c → splitBuffer c' = splitBuffer c →
  noOfUsedSplits c' = noOfUsedSplits c →
  (∀ frame, frame ∈ arenaFrames c → memory c' !! frame = memory c !! frame) →
  Arena_ok c'.
Proof.
  intros [Hlen Hused Hfits Hpages Hdistinct] Hbuffer Hcounter Hsame.
  assert (Hframes : arenaFrames c' = arenaFrames c)
    by (unfold arenaFrames; now rewrite Hbuffer).
  split; rewrite ?Hframes, ?Hbuffer, ?Hcounter; try assumption.
  rewrite Forall_forall in *. intros frame Hin.
  rewrite (Hsame frame Hin). now apply Hpages.
Qed.

Lemma mtrrsEnabled_false_type (cpuidex : N → N → N * N * N * N)
    (readmsr : N → N) (a : N) :
  mtrrsEnabled cpuidex readmsr = false →
  EPT_memoryType cpuidex readmsr a = IA32_MTRR_DISABLED_DEFAULT_TYPE.
Proof. intros H. unfold EPT_memoryType. now rewrite H. Qed.

Lemma mtrrsEnabled_false_fixed (cpuidex : N → N → N * N * N * N)
    (readmsr : N → N) :
  mtrrsEnabled cpuidex readmsr = false → fixedMtrrsEnabled cpuidex readmsr = false.
Proof. intros H. unfold fixedMtrrsEnabled. now rewrite H. Qed.

(** A complete hierarchy whose leaves have the types of [memoryTypes]. *)
Lemma built_typed (cpuidex : N → N → N * N * N * N) (readmsr : N → N)
    (h h' : EPT_Host) (eptpBits pml4 : N) (pdpts : list N)
    (pdArrays : list (list N)) (memoryTypes : N → N) :
  EPT_built (memory (logicalCore h')) pml4 pdpts pdArrays memoryTypes →
  EPT_EptP.pageFrameNumber eptpBits = pml4 →
  Arena_ok (logicalCore h') →
  (∀ frame, frame ∈ arenaFrames (logicalCore h') →
     frame ∉ hierarchy_frames pml4 pdpts pdArrays) →
  allocations h' = allocations h →
  noOfUsedSplits (logicalCore h') = noOfUsedSplits (logicalCore h) →
  changedMappings (logicalCore h') = changedMappings (logicalCore h) →
  fixedMtrrsEnabled cpuidex readmsr = false →
  (∀ a, N.land (memoryTypes (EPT_Address.of_pageFrameNumber2MB
                               (EPT_Address.pageFrameNumber2MB a))) (N.ones 3)
        = N.land (EPT_memoryType cpuidex readmsr a) (N.ones 3)) →
  EPT_typed cpuidex readmsr h eptpBits pml4 pdpts pdArrays h'.
Proof.
  intros Hbuilt Hroot Harena Hapart Halloc Hused Htable Hfixed Htypes.
  set (cE := set_eptp eptpBits (logicalCore h')).
  assert (HbuiltE : EPT_built (memory cE) pml4 pdpts pdArrays memoryTypes)
    by exact Hbuilt.
  assert (HrootE : pml4Frame cE = pml4) by exact Hroot.
  split; [exact Halloc|]. split; [rewrite Hfixed, N.add_0_r; exact Hused|].
  split; [exact (built_directories _ _ _ _ _ Hbuilt)|].
  split; [exact (override_wf _ _ _ _ _ _ Hbuilt Hroot Harena Hapart)|].
  split.
  { intros Hkeys. apply (built_identity cE pml4 pdpts pdArrays memoryTypes HbuiltE HrootE).
    change (changedMappings cE) with (changedMappings (logicalCore h')).
    now rewrite Htable. }
  intros a Ha. fold cE.
  rewrite (built_translation cE pml4 pdpts pdArrays memoryTypes HbuiltE HrootE a Ha).
  destruct (decide _); [|reflexivity]. now rewrite Htypes.
Qed.

Lemma setupMemoryTypes_spec (cpuidex : N → N → N * N * N * N) (readmsr : N → N)
    (h : EPT_Host) (eptpBits pml4 : N) (pdpts : list N)
    (pdArrays : list (list N)) (before : gmap N (list N)) :
  EPT_built (memory (logicalCore h)) pml4 pdpts pdArrays
    (λ _, IA32_MTRR_DISABLED_DEFAULT_TYPE) →
  EPT_EptP.pageFrameNumber eptpBits = pml4 →
  (0 < length pdpts)%nat →
  Arena_ok (logicalCore h) →
  (∀ frame, frame ∈ arenaFrames (logicalCore h) →
     frame ∉ hierarchy_frames pml4 pdpts pdArrays) →
  live_blocks before (allocations h) pml4 pdpts pdArrays →
  ∃ st h',
    setupMemoryTypes cpuidex readmsr h pml4 (N.of_nat (length pdpts))
    = Returns (st, h')
    ∧ ExAllocatePool2 h' = ExAllocatePool2 h
    ∧ (∀ frame, memory (logicalCore h') !! frame = None
                ↔ memory (logicalCore h) !! frame = None)
    ∧ splitBuffer (logicalCore h') = splitBuffer (logicalCore h)
    ∧ changedMappings (logicalCore h') = changedMappings (logicalCore h)
    ∧ eptp (logicalCore h') = eptp (logicalCore h)
    ∧ ((st = STATUS_UNSUCCESSFUL ∧ allocations h' = before
        ∧ noOfUsedSplits (logicalCore h') = noOfUsedSplits (logicalCore h)
        ∧ fixedMtrrsEnabled cpuidex readmsr = true
        ∧ noOfUsedSplits (logicalCore h) = CONTEXT_EPT_NO_SPLITS)
       ∨ (st = STATUS_SUCCESS
          ∧ (fixedMtrrsEnabled cpuidex readmsr = true →
             noOfUsedSplits (logicalCore h) < CONTEXT_EPT_NO_SPLITS)
          ∧ EPT_typed cpuidex readmsr h eptpBits pml4 pdpts pdArrays h')).
Proof.
  intros Hbuilt Hroot Hcount Harena Hapart Hlive.
  unfold setupMemoryTypes.
  destruct (IA32_CpuidBasicInformation1.mtrr
              (cpuidex IA32_CPUID_BASIC_INFORMATION_1 0) =? 0) eqn:Em.
  { assert (Hoff : mtrrsEnabled cpuidex readmsr = false)
      by (unfold mtrrsEnabled; now rewrite Em).
    exists STATUS_SUCCESS, h. split; [reflexivity|]. split; [reflexivity|].
    split; [reflexivity|]. split; [reflexivity|]. split; [reflexivity|].
    split; [reflexivity|]. right. split; [reflexivity|].
    split; [rewrite (mtrrsEnabled_false_fixed _ _ Hoff); discriminate|].
    apply (built_typed cpuidex readmsr h h eptpBits pml4 pdpts pdArrays _ Hbuilt);
      auto using mtrrsEnabled_false_fixed.
    intros a. now rewrite (mtrrsEnabled_false_type _ _ a Hoff). }
  destruct (IA32_MtrrDefType.mtrrEnable (readmsr IA32_MTRR_DEF_TYPE) =? 0) eqn:Ee.
  { assert (Hoff : mtrrsEnabled cpuidex readmsr = false)
      by (unfold mtrrsEnabled; rewrite Em, Ee; reflexivity).
    exists STATUS_SUCCESS, h. split; [reflexivity|]. split; [reflexivity|].
    split; [reflexivity|]. split; [reflexivity|]. split; [reflexivity|].
    split; [reflexivity|]. right. split; [reflexivity|].
    split; [rewrite (mtrrsEnabled_false_fixed _ _ Hoff); discriminate|].
    apply (built_typed cpuidex readmsr h h eptpBits pml4 pdpts pdArrays _ Hbuilt);
      auto using mtrrsEnabled_false_fixed.
    intros a. now rewrite (mtrrsEnabled_false_type _ _ a Hoff). }
  assert (Hon : mtrrsEnabled cpuidex readmsr = true)
    by (unfold mtrrsEnabled; rewrite Em, Ee; reflexivity).
  fold (variableMtrrsCache readmsr).
  set (n := IA32_Mtrrcap.variableRangeRegistersCount (readmsr IA32_MTRRCAP)).
  set (d := IA32_MtrrDefType.defaultMemoryType (readmsr IA32_MTRR_DEF_TYPE)).
  destruct (adjustPml4Entries_built n (variableMtrrsCache readmsr) d _ _ _ _ _ Hbuilt)
    as (mem1 & Hrun1 & Hbuilt1 & Hsame1).
  rewrite Nat2N.id, Hrun1. cbn [mbind Outcome_bind].
  rewrite NT_SUCCESS_STATUS_SUCCESS. cbn [negb].
  set (c1 := set_memory mem1 (logicalCore h)).
  set (h1 := set_logicalCore c1 h).
  pose proof (built_directories _ _ _ _ _ Hbuilt) as Hdir.
  assert (Hout : ∀ frame, frame ∈ arenaFrames (logicalCore h) →
            frame ∉ mjoin pdArrays).
  { intros frame Hin Hjoin. apply (Hapart frame Hin). right.
    apply elem_of_app. now right. }
  assert (Harena1 : Arena_ok c1).
  { apply (Arena_ok_ext (logicalCore h)); try reflexivity; [exact Harena|].
    intros frame Hin. apply Hsame1. now apply Hout. }
  assert (Hdom1 : ∀ frame, mem1 !! frame = None
                           ↔ memory (logicalCore h) !! frame = None).
  { intros frame. destruct (decide (frame ∈ mjoin pdArrays)) as [Hin|Hnin].
    - destruct (dir_pd _ _ _ _ (built_directories _ _ _ _ _ Hbuilt1) frame Hin)
        as (p1 & -> & _).
      destruct (dir_pd _ _ _ _ Hdir frame Hin) as (p0 & -> & _).
      split; discriminate.
    - now rewrite Hsame1. }
  destruct (negb (IA32_Mtrrcap.fixedRangeRegistersSupported (readmsr IA32_MTRRCAP)
                  =? 0)
            && negb (IA32_MtrrDefType.fixedRangeMtrrEnable
                       (readmsr IA32_MTRR_DEF_TYPE) =? 0)) eqn:Ef.
  - assert (Hfixed : fixedMtrrsEnabled cpuidex readmsr = true)
      by (unfold fixedMtrrsEnabled; rewrite Hon, <- andb_assoc, Ef; reflexivity).
    destruct (N.lt_ge_cases (noOfUsedSplits (logicalCore h)) CONTEXT_EPT_NO_SPLITS)
      as [Hfree|Hfull].
    + destruct (override_succeeds readmsr c1 eptpBits pml4 pdpts pdArrays _
                  Hbuilt1 Hroot Hcount Harena1 Hapart Hfree)
        as (c2 & Hrun2 & Fused & Fbuffer & Ftable & Feptp & Hwf2 & Hid2
            & Hdirs2 & Hdom2 & Htrans2).
      change (logicalCore h1) with c1. rewrite Hrun2.
      cbn [mbind Outcome_bind]. rewrite NT_SUCCESS_STATUS_SUCCESS. cbn [negb].
      exists STATUS_SUCCESS, (set_logicalCore c2 h1).
      split; [reflexivity|]. split; [reflexivity|].
      cbn [set_logicalCore logicalCore allocations].
      split; [intros frame; rewrite Hdom2; apply Hdom1|].
      split; [exact Fbuffer|]. split; [exact Ftable|]. split; [exact Feptp|].
      right. split; [reflexivity|]. split; [auto|].
      unfold EPT_typed. cbn [set_logicalCore logicalCore allocations].
      split; [reflexivity|]. split; [rewrite Hfixed; exact Fused|].
      split.
      { apply (EPT_directories_same mem1); [exact (built_directories _ _ _ _ _ Hbuilt1)
                                           |exact Hdirs2|].
        intros pd Hin. destruct (wf_pd_page _ _ _ _ Hwf2 pd Hin) as (page & Hp & Hl & _).
        exists page. split; assumption. }
      split; [exact Hwf2|]. split; [exact Hid2|].
      intros a Ha. rewrite (Htrans2 a Ha). unfold EPT_memoryType.
      rewrite Hon, Hfixed. cbn [negb andb].
      destruct (decide (a < 2 ^ 20)) as [Hlow|Hhigh].
      * replace (a <? 2 ^ 20) with true by (symmetry; now apply N.ltb_lt).
        destruct (below_2MB_fields a) as (E4 & _);
          [eapply N.lt_trans; [exact Hlow|reflexivity]|].
        rewrite E4. destruct (decide _) as [_|Hn]; [reflexivity|].
        exfalso. apply Hn. exact Hcount.
      * replace (a <? 2 ^ 20) with false by (symmetry; apply N.ltb_ge; lia).
        apply (built_translation (set_eptp eptpBits c1) pml4 pdpts pdArrays _
                 Hbuilt1 Hroot a Ha).
    + assert (Hov : overrideFirstPml4EntryWithFixedMtrrs readmsr c1 pml4
                    = Returns (STATUS_UNSUCCESSFUL, c1))
        by (eapply (override_fails readmsr c1 eptpBits); eassumption).
      change (logicalCore h1) with c1. rewrite Hov.
      cbn [mbind Outcome_bind]. rewrite NT_SUCCESS_STATUS_UNSUCCESSFUL. cbn [negb].
      change (set_logicalCore c1 h1) with h1.
      destruct (destroyPml4_restores h1 pml4 pdpts pdArrays before
                  (built_directories _ _ _ _ _ Hbuilt1) Hlive)
        as (h' & Hrun' & Hcore' & Hpool' & Halloc').
      rewrite Hrun'. cbn [mbind Outcome_bind mret Outcome_ret].
      exists STATUS_UNSUCCESSFUL, h'. split; [reflexivity|].
      rewrite Hcore', Hpool'. split; [reflexivity|].
      split; [exact Hdom1|]. split; [reflexivity|]. split; [reflexivity|].
      split; [reflexivity|]. left. split; [reflexivity|].
      split; [exact Halloc'|]. split; [reflexivity|]. split; [exact Hfixed|].
      pose proof (arena_used _ Harena). lia.
  - assert (Hfixed : fixedMtrrsEnabled cpuidex readmsr = false)
      by (unfold fixedMtrrsEnabled; rewrite Hon, <- andb_assoc, Ef; reflexivity).
    exists STATUS_SUCCESS, h1. split; [reflexivity|]. split; [reflexivity|].
    split; [exact Hdom1|]. split; [reflexivity|]. split; [reflexivity|].
    split; [reflexivity|]. right. split; [reflexivity|].
    split; [rewrite Hfixed; discriminate|].
    apply (built_typed cpuidex readmsr h h1 eptpBits pml4 pdpts pdArrays _ Hbuilt1);
      auto.
    intros a. unfold EPT_memoryType. rewrite Hon, Hfixed. reflexivity.
Qed.

(** ** What the set-up asks of [ExAllocatePool2] *)

Lemma Memory_allocate_pool (h : EPT_Host) (noOfBytes : N) (aligned : bool) :
  match ExAllocatePool2 h with
  | Some frameOf :: rest =>
    is_Some (Memory_allocate h noOfBytes aligned).1
    ∧ ExAllocatePool2 (Memory_allocate h noOfBytes aligned).2 = rest
  | None :: rest =>
    (Memory_allocate h noOfBytes aligned).1 = None
    ∧ ExAllocatePool2 (Memory_allocate h noOfBytes aligned).2 = rest
  | [] =>
    (Memory_allocate h noOfBytes aligned).1 = None
    ∧ ExAllocatePool2 (Memory_allocate h noOfBytes aligned).2 = []
  end.
Proof.
  unfold Memory_allocate.
  destruct (ExAllocatePool2 h) as [|[frameOf|] rest] eqn:Hpool;
    cbn [fst snd ExAllocatePool2]; auto.
Qed.

Lemma setupPml4Entry_pool (h : EPT_Host) (pml4 pml4EntryIndex : N) :
  match ExAllocatePool2 h with
  | Some _ :: Some _ :: rest =>
    (setupPml4Entry h pml4 pml4EntryIndex).1 = STATUS_SUCCESS
    ∧ ExAllocatePool2 (setupPml4Entry h pml4 pml4EntryIndex).2 = rest
  | _ => (setupPml4Entry h pml4 pml4EntryIndex).1 = STATUS_UNSUCCESSFUL
  end.
Proof.
  unfold setupPml4Entry.
  pose proof (Memory_allocate_pool h (EPT_PDPT_ENTRIES * 8) true) as P1.
  destruct (Memory_allocate h (EPT_PDPT_ENTRIES * 8) true) as [r1 h1].
  cbn [fst snd] in P1.
  destruct (ExAllocatePool2 h) as [|[f1|] rest1].
  - destruct P1 as [-> _]. reflexivity.
  - destruct P1 as [[pdptPages ->] Hpool1].
    set (h2 := host_writeq h1 _ _ _).
    pose proof (Memory_allocate_pool h2 (EPT_PDPT_ENTRIES * (EPT_PD_ENTRIES * 8)) true)
      as P2.
    destruct (Memory_allocate h2 _ true) as [r2 h3]. cbn [fst snd] in P2.
    change (ExAllocatePool2 h2) with (ExAllocatePool2 h1) in P2.
    rewrite Hpool1 in P2.
    destruct rest1 as [|[f2|] rest2].
    + destruct P2 as [-> _]. reflexivity.
    + destruct P2 as [[pdArray ->] Hpool3]. split; [reflexivity|exact Hpool3].
    + destruct P2 as [-> _]. reflexivity.
  - destruct P1 as [-> _]. reflexivity.
Qed.

(** The first loop succeeds when the next two results per entry are
    blocks, and only then. *)
Lemma setupPml4Entries_served (pml4 : N) :
  ∀ (pml4Indices : list nat) (h : EPT_Host) (blocks : list (nat → N))
    (rest : list (option (nat → N))),
  ExAllocatePool2 h = (Some <$> blocks) ++ rest →
  length blocks = (2 * length pml4Indices)%nat →
  ∃ h', setupPml4Entries h pml4 pml4Indices = Returns (STATUS_SUCCESS, h')
        ∧ ExAllocatePool2 h' = rest.
Proof.
  induction pml4Indices as [|index indices IH]; intros h blocks rest Hpool Hlen.
  - destruct blocks; [|discriminate Hlen]. exists h. split; [reflexivity|exact Hpool].
  - destruct blocks as [|f1 [|f2 blocks]]; try (simpl in Hlen; lia).
    cbn [setupPml4Entries].
    pose proof (setupPml4Entry_pool h pml4 (N.of_nat index)) as P.
    rewrite Hpool in P. cbn [fmap list_fmap app] in P.
    destruct (setupPml4Entry h pml4 (N.of_nat index)) as [st h1].
    cbn [fst snd] in P. destruct P as [-> Hpool1].
    rewrite NT_SUCCESS_STATUS_SUCCESS. cbn [negb].
    apply (IH h1 blocks rest Hpool1). simpl in Hlen. lia.
Qed.

Lemma setupPml4Entries_success (pml4 : N) :
  ∀ (pml4Indices : list nat) (h h' : EPT_Host) (st : N),
  setupPml4Entries h pml4 pml4Indices = Returns (st, h') →
  NT_SUCCESS st = true →
  ∃ blocks, ExAllocatePool2 h = (Some <$> blocks) ++ ExAllocatePool2 h'
            ∧ length blocks = (2 * length pml4Indices)%nat.
Proof.
  induction pml4Indices as [|index indices IH]; intros h h' st Hrun Hst.
  - injection Hrun as <- <-. exists []. split; reflexivity.
  - cbn [setupPml4Entries] in Hrun.
    pose proof (setupPml4Entry_pool h pml4 (N.of_nat index)) as P.
    destruct (setupPml4Entry h pml4 (N.of_nat index)) as [st1 h1].
    cbn [fst snd] in P.
    destruct (NT_SUCCESS st1) eqn:E1; cbn [negb] in Hrun.
    + destruct (IH h1 h' st Hrun Hst) as (blocks & Hpool1 & Hlen).
      destruct (ExAllocatePool2 h) as [|[f1|] [|[f2|] rest]];
        try (rewrite P, NT_SUCCESS_STATUS_UNSUCCESSFUL in E1; discriminate E1).
      destruct P as [_ Hrest]. exists (f1 :: f2 :: blocks).
      split; [cbn [fmap list_fmap app]; now rewrite <- Hpool1, Hrest|].
      simpl. lia.
    + destruct (destroyPml4 h1 (N.of_nat index) pml4) as [h2|code];
        [|discriminate Hrun].
      cbn [mbind Outcome_bind mret Outcome_ret] in Hrun.
      injection Hrun as <- <-. rewrite E1 in Hst. discriminate Hst.
Qed.

(** ** The whole set-up *)

Lemma getPml4Count_range (cpuidex : N → N → N * N * N * N) :
  1 <= getPml4Count cpuidex <= EPT_WINDOWS_MAX_PML4_COUNT.
Proof.
  unfold getPml4Count. split; [|apply N.le_min_r].
  apply N.min_glb; [|discriminate].
  set (s := _ mod 32).
  assert (Hs : s < 32) by (apply N.mod_upper_bound; discriminate).
  rewrite N.shiftl_1_l.
  assert (Hpow : 2 ^ s < 2 ^ 32) by (apply N.pow_lt_mono_r; lia).
  rewrite N.mod_small by exact Hpow.
  change 1 with (2 ^ 0) at 1. apply N.pow_le_mono_r; lia.
Qed.

Lemma EPT_EptP_make_pageFrameNumber (memoryType walk frame : N) :
  frame < 2 ^ 40 →
  EPT_EptP.pageFrameNumber (EPT_EptP_make memoryType walk frame) = frame.
Proof.
  intros H. unfold EPT_EptP.pageFrameNumber, EPT_EptP_make.
  rewrite bitfield_set_same, N.land_ones. now apply N.mod_small.
Qed.

Lemma EPT_setupDefaltStructures_spec (cpuidex : N → N → N * N * N * N)
    (readmsr : N → N) (h : EPT_Host) (eptpBits : N) :
  Host_ok h →
  Arena_ok (logicalCore h) →
  memory (logicalCore h) !! 0 = None →
  ∃ st h' e',
    EPT_setupDefaltStructures cpuidex readmsr h eptpBits = Returns (st, h', e')
    ∧ splitBuffer (logicalCore h') = splitBuffer (logicalCore h)
    ∧ changedMappings (logicalCore h') = changedMappings (logicalCore h)
    ∧ eptp (logicalCore h') = eptp (logicalCore h)
    ∧ (st = STATUS_SUCCESS
       ↔ pool_serves (1 + 2 * N.to_nat (getPml4Count cpuidex)) (ExAllocatePool2 h)
         ∧ (fixedMtrrsEnabled cpuidex readmsr = true →
            noOfUsedSplits (logicalCore h) < CONTEXT_EPT_NO_SPLITS))
    ∧ ((st = STATUS_UNSUCCESSFUL ∧ e' = eptpBits
        ∧ allocations h' = allocations h
        ∧ noOfUsedSplits (logicalCore h') = noOfUsedSplits (logicalCore h))
       ∨ (st = STATUS_SUCCESS
          ∧ ∃ pml4 pdpts pdArrays h2,
              e' = EPT_EptP_make EPT_PAGING_STRUCTURE_MEMORY_TYPE_WB 3 pml4
              ∧ EPT_EptP.pageFrameNumber e' = pml4
              ∧ length pdpts = N.to_nat (getPml4Count cpuidex)
              ∧ live_blocks (allocations h) (allocations h2) pml4 pdpts pdArrays
              ∧ noOfUsedSplits (logicalCore h2) = noOfUsedSplits (logicalCore h)
              ∧ changedMappings (logicalCore h2) = changedMappings (logicalCore h)
              ∧ (fixedMtrrsEnabled cpuidex readmsr = true →
                 noOfUsedSplits (logicalCore h) < CONTEXT_EPT_NO_SPLITS)
              ∧ (∀ frame, frame ∈ hierarchy_frames pml4 pdpts pdArrays →
                   frame ∈ pool_frames (ExAllocatePool2 h))
              ∧ EPT_typed cpuidex readmsr h2 e' pml4 pdpts pdArrays h'
              ∧ Host_ok h'
              ∧ Arena_ok (logicalCore h')
              ∧ memory (logicalCore h') !! 0 = None)).
Proof.
  intros Hok Harena Hzero. unfold EPT_setupDefaltStructures.
  destruct (Memory_allocate h (EPT_PML4_ENTRIES * 8) true) as [result h1] eqn:E1.
  destruct (Memory_allocate_cases h (EPT_PML4_ENTRIES * 8) 1 result h1 Hok
              eq_refl ltac:(lia) E1) as (Hok1 & Hsub1 & Hres).
  pose proof (Memory_allocate_pool h (EPT_PML4_ENTRIES * 8) true) as P1.
  rewrite E1 in P1. cbn [fst snd] in P1.
  destruct result as [frames|].
  2: { destruct Hres as [Hcore1 Halloc1].
       exists STATUS_UNSUCCESSFUL, h1, eptpBits. rewrite Hcore1.
       split; [reflexivity|]. split; [reflexivity|]. split; [reflexivity|].
       split; [reflexivity|]. split; [|left; auto].
       split; [intros Hs; discriminate Hs|].
       intros [(blocks & rest & Hp & Hl) _].
       destruct blocks as [|b blocks]; [simpl in Hl; lia|].
       rewrite Hp in P1. cbn [fmap list_fmap app] in P1.
       destruct P1 as [[x Hx] _]. discriminate Hx. }
  assert (Hp0 : ∃ f0, ExAllocatePool2 h = Some f0 :: ExAllocatePool2 h1).
  { destruct (ExAllocatePool2 h) as [|[f0|] rest0]; destruct P1 as [HH Hrest];
      try discriminate HH. exists f0. now rewrite Hrest. }
  destruct Hp0 as [f0 Hp0]. clear P1.
  destruct Hres as (Hlen & _ & Hfresh & Hcore1 & Hmem1 & Halloc1).
  destruct frames as [|pml4 [|? ?]]; try discriminate Hlen.
  change ([pml4] !!! 0%nat) with pml4 in *.
  destruct (Hfresh pml4 ltac:(left)) as [Hpool Hgone].
  destruct (ok_unused h Hok pml4 Hpool) as (Hunmapped & Hdead & Hfit & Hnz).
  assert (Hbuilt1 : EPT_built (memory (logicalCore h1)) pml4 [] []
                      (λ _, IA32_MTRR_DISABLED_DEFAULT_TYPE)).
  { assert (Hpage : memory (logicalCore h1) !! pml4 = Some (replicate 512 0)).
    { rewrite Hmem1. destruct (decide _) as [_|Hn]; [reflexivity|].
      exfalso. apply Hn. left. }
    split.
    - split.
      + reflexivity.
      + simpl. lia.
      + apply NoDup_singleton.
      + apply Forall_singleton. split; assumption.
      + exists (replicate 512 0). split; [exact Hpage|].
        split; [apply length_replicate|]. intros i pdpt Hi. discriminate Hi.
      + intros i pdpt pdArray Hi. discriminate Hi.
      + apply Forall_nil_2.
      + intros pd Hin. cbn in Hin. now apply elem_of_nil in Hin.
    - exact Hpage.
    - intros i j pdArray pd Hi. discriminate Hi.
    - rewrite Hmem1. destruct (decide _) as [Hin|_]; [|exact Hzero].
      apply list_elem_of_singleton in Hin. congruence. }
  assert (Hlive1 : live_blocks (allocations h) (allocations h1) pml4 [] []).
  { split.
    - rewrite Halloc1. apply lookup_insert_eq.
    - intros pdpt Hin. now apply elem_of_nil in Hin.
    - intros pdArray Hin. now apply elem_of_nil in Hin.
    - intros pointer Hnin. rewrite Halloc1. apply lookup_insert_ne.
      intros <-. apply Hnin. left.
    - intros frame Hin. cbn in Hin. apply list_elem_of_singleton in Hin.
      now subst frame. }
  pose proof (getPml4Count_range cpuidex) as [Hc1 Hc4].
  unfold EPT_WINDOWS_MAX_PML4_COUNT in Hc4.
  destruct (setupPml4Entries_spec pml4 (allocations h)
              (N.to_nat (getPml4Count cpuidex)) h1 [] [] Hok1 Hbuilt1)
    as (st2 & h2 & Hrun2 & Hok2 & Hcore2 & Hsub2 & Hmem2 & Hcases2).
  { simpl. lia. }
  { exact Hlive1. }
  { intros frame Hin. cbn in Hin. apply list_elem_of_singleton in Hin.
    now subst frame. }
  change (length (@nil N)) with 0%nat in Hrun2. rewrite Hrun2.
  cbn [mbind Outcome_bind].
  assert (Hfields2 : splitBuffer (logicalCore h2) = splitBuffer (logicalCore h)
                     ∧ changedMappings (logicalCore h2)
                       = changedMappings (logicalCore h)
                     ∧ eptp (logicalCore h2) = eptp (logicalCore h)
                     ∧ noOfUsedSplits (logicalCore h2)
                       = noOfUsedSplits (logicalCore h))
    by (rewrite Hcore2, Hcore1; auto).
  destruct Hfields2 as (Fbuffer2 & Ftable2 & Feptp2 & Fused2).
  destruct Hcases2 as [(-> & pdpts & pdArrays & Hlen2 & Hbuilt2 & Hlive2 & Hframes2)
                      |(-> & Halloc2)].
  2: { rewrite NT_SUCCESS_STATUS_UNSUCCESSFUL. cbn [negb mret Outcome_ret].
       exists STATUS_UNSUCCESSFUL, h2, eptpBits.
       split; [reflexivity|]. split; [exact Fbuffer2|]. split; [exact Ftable2|].
       split; [exact Feptp2|]. split; [|left; auto].
       split; [intros Hs; discriminate Hs|].
       intros [(blocks & rest & Hp & Hl) _]. rewrite Hp0 in Hp.
       destruct blocks as [|b blocks]; [simpl in Hl; lia|].
       cbn [fmap list_fmap app] in Hp. injection Hp as _ Hp1.
       destruct (setupPml4Entries_served pml4
                   (seq 0 (N.to_nat (getPml4Count cpuidex))) h1 blocks rest Hp1)
         as (hx & Hrunx & _); [rewrite length_seq; simpl in Hl; lia|].
       rewrite Hrunx in Hrun2. discriminate Hrun2. }
  destruct (setupPml4Entries_success pml4 _ h1 h2 STATUS_SUCCESS Hrun2
              NT_SUCCESS_STATUS_SUCCESS) as (blocks2 & Hp2 & Hl2).
  rewrite length_seq in Hl2.
  rewrite NT_SUCCESS_STATUS_SUCCESS. cbn [negb].
  set (e := EPT_EptP_make EPT_PAGING_STRUCTURE_MEMORY_TYPE_WB
              (EPT_PAGE_WALK_LEN - 1)
              (EPT_Address.pageFrameNumber4KB (Memory_getPhysicalAddress pml4))).
  assert (He : e = EPT_EptP_make EPT_PAGING_STRUCTURE_MEMORY_TYPE_WB 3 pml4).
  { unfold e. rewrite Memory_getPhysicalAddress_frame; [reflexivity|].
    eapply N.lt_trans; [exact Hfit|reflexivity]. }
  assert (Hroot : EPT_EptP.pageFrameNumber e = pml4)
    by (rewrite He; now apply EPT_EptP_make_pageFrameNumber).
  assert (Horigin : ∀ frame, frame ∈ hierarchy_frames pml4 pdpts pdArrays →
            frame ∈ pool_frames (ExAllocatePool2 h)).
  { intros frame Hin. destruct (Hframes2 frame Hin) as [_ [Hold|Hnew]].
    - cbn in Hold. apply list_elem_of_singleton in Hold. now subst frame.
    - now apply Hsub1. }
  assert (Hmapped : ∀ frame, frame ∈ arenaFrames (logicalCore h) →
            frame ∉ pool_frames (ExAllocatePool2 h)).
  { intros frame Hin Hp. destruct (ok_unused h Hok frame Hp) as (Hnone & _).
    pose proof (arena_pages _ Harena) as Hpages. rewrite Forall_forall in Hpages.
    specialize (Hpages frame Hin). rewrite Hnone in Hpages. discriminate. }
  assert (Hframes : arenaFrames (logicalCore h2) = arenaFrames (logicalCore h))
    by (unfold arenaFrames; now rewrite Fbuffer2).
  assert (Harena2 : Arena_ok (logicalCore h2)).
  { apply (Arena_ok_ext (logicalCore h)); try assumption.
    intros frame Hin. rewrite Hmem2.
    - rewrite Hmem1. destruct (decide _) as [Hin1|_]; [|reflexivity].
      apply list_elem_of_singleton in Hin1. subst frame.
      now destruct (Hmapped pml4 Hin).
    - intros Hp. apply (Hmapped frame Hin). now apply Hsub1.
    - intros ->. now apply (Hmapped pml4 Hin). }
  destruct (setupMemoryTypes_spec cpuidex readmsr h2 e pml4 pdpts pdArrays
              (allocations h) Hbuilt2 Hroot)
    as (st3 & h3 & Hrun3 & Hpool3 & Hdom3 & Fbuffer3 & Ftable3 & Feptp3 & Hcases3).
  { rewrite Hlen2. simpl. lia. }
  { exact Harena2. }
  { intros frame Hin Hh. rewrite Hframes in Hin.
    apply (Hmapped frame Hin). now apply Horigin. }
  { exact Hlive2. }
  rewrite Hlen2 in Hrun3. change (length (@nil N) + ?n)%nat with n in Hrun3.
  rewrite N2Nat.id in Hrun3. rewrite Hrun3. cbn [mbind Outcome_bind].
  destruct Hcases3 as [(-> & Halloc3 & Fused3 & Hfixed3 & Hfull3)
                      |(-> & Hfree3 & Htyped3)].
  - rewrite NT_SUCCESS_STATUS_UNSUCCESSFUL. cbn [negb mret Outcome_ret].
    exists STATUS_UNSUCCESSFUL, h3, eptpBits.
    split; [reflexivity|]. split; [congruence|]. split; [congruence|].
    split; [congruence|]. split.
    { split; [intros Hs; discriminate Hs|]. intros [_ Hfree].
      specialize (Hfree Hfixed3). rewrite <- Fused2, Hfull3 in Hfree. lia. }
    left.
    split; [reflexivity|]. split; [reflexivity|]. split; [exact Halloc3|].
    congruence.
  - rewrite NT_SUCCESS_STATUS_SUCCESS. cbn [negb mret Outcome_ret]. fold e.
    exists STATUS_SUCCESS, h3, e.
    split; [reflexivity|]. split; [congruence|]. split; [congruence|].
    split; [congruence|]. split.
    { split; [intros _|reflexivity]. split; [|rewrite <- Fused2; exact Hfree3].
      exists (f0 :: blocks2), (ExAllocatePool2 h2).
      split; [rewrite Hp0, Hp2; reflexivity|]. simpl. lia. }
    right. split; [reflexivity|].
    exists pml4, pdpts, pdArrays, h2.
    split; [exact He|]. split; [exact Hroot|]. split; [exact Hlen2|].
    split; [exact Hlive2|]. split; [exact Fused2|]. split; [exact Ftable2|].
    split; [rewrite <- Fused2; exact Hfree3|].
    split; [exact Horigin|]. split; [exact Htyped3|].
    destruct Htyped3 as (Halloc3 & _ & _ & Hwf3 & _).
    split; [|split].
    + split; rewrite Hpool3; [exact (ok_distinct _ Hok2)|].
      intros frame Hin.
      destruct (ok_unused _ Hok2 frame Hin) as (Hnone3 & Hdead3 & Hbounds3).
      rewrite Halloc3. split; [now apply Hdom3|]. split; assumption.
    + split.
      * exact (wf_splitBuffer_length _ _ _ _ Hwf3).
      * exact (wf_noOfUsedSplits _ _ _ _ Hwf3).
      * exact (wf_arena_fits _ _ _ _ Hwf3).
      * exact (wf_arena_pages _ _ _ _ Hwf3).
      * pose proof (wf_separate _ _ _ _ Hwf3) as Hsep.
        apply NoDup_cons in Hsep as [_ Hsep].
        apply NoDup_app in Hsep as (_ & _ & Hsep).
        apply NoDup_app in Hsep as (_ & _ & Hsep). exact Hsep.
    + apply Hdom3. exact (built_unmapped _ _ _ _ _ Hbuilt2).
Qed.


(** What a successful set-up leaves behind. *)
Lemma EPT_setupDefaltStructures_success (cpuidex : N → N → N * N * N * N)
    (readmsr : N → N) (h : EPT_Host) (eptpBits : N) (h' : EPT_Host) (e' : N) :
  Host_ok h →
  Arena_ok (logicalCore h) →
  memory (logicalCore h) !! 0 = None →
  EPT_setupDefaltStructures cpuidex readmsr h eptpBits
  = Returns (STATUS_SUCCESS, h', e') →
  ∃ pml4 pdpts pdArrays h2,
    e' = EPT_EptP_make EPT_PAGING_STRUCTURE_MEMORY_TYPE_WB 3 pml4
    ∧ EPT_EptP.pageFrameNumber e' = pml4
    ∧ length pdpts = N.to_nat (getPml4Count cpuidex)
    ∧ live_blocks (allocations h) (allocations h2) pml4 pdpts pdArrays
    ∧ noOfUsedSplits (logicalCore h2) = noOfUsedSplits (logicalCore h)
    ∧ changedMappings (logicalCore h2) = changedMappings (logicalCore h)
    ∧ changedMappings (logicalCore h') = changedMappings (logicalCore h)
    ∧ EPT_typed cpuidex readmsr h2 e' pml4 pdpts pdArrays h'
    ∧ Host_ok h'
    ∧ Arena_ok (logicalCore h')
    ∧ memory (logicalCore h') !! 0 = None.
Proof.
  intros Hok Harena Hzero Hrun.
  destruct (EPT_setupDefaltStructures_spec cpuidex readmsr h eptpBits Hok Harena Hzero)
    as (st & hx & ex & Hrunx & _ & Ftable & _ & _ & Hcases).
  rewrite Hrun in Hrunx. injection Hrunx as <- <- <-.
  destruct Hcases as [(Hst & _)|(_ & pml4 & pdpts & pdArrays & h2 & He & Hroot & Hlen
                                 & Hlive & Fused2 & Ftable2 & _ & _ & Htyped
                                 & Hok' & Harena' & Hzero')];
    [discriminate Hst|].
  exists pml4, pdpts, pdArrays, h2. auto 12.
Qed.

Lemma pml4Entry_lt (a count : N) :
  a < 2 ^ 48 →
  (N.to_nat (EPT_Address.pml4Entry a) < N.to_nat count)%nat ↔ a < count * 2 ^ 39.
Proof.
  intros Ha. unfold EPT_Address.pml4Entry. rewrite bitfield_div_mod.
  assert (Hq : a / 2 ^ 39 < 2 ^ 9).
  { apply N.Div0.div_lt_upper_bound. now rewrite <- N.pow_add_r. }
  rewrite (N.mod_small _ _ Hq). split.
  - intros H. assert (H' : a / 2 ^ 39 < count) by lia.
    rewrite (N.div_mod a (2 ^ 39)) by discriminate.
    pose proof (N.mod_upper_bound a (2 ^ 39) ltac:(discriminate)). nia.
  - intros H. assert (H' : a / 2 ^ 39 < count)
      by (apply N.Div0.div_lt_upper_bound; lia). lia.
Qed.

(** X15: after a successful [EPT_setupDefaltStructures] the hierarchy
    under the returned EPTP translates every guest-physical address below
    [getPml4Count] * 512 GiB to itself, with read, write and fetch access
    and with the low three bits of the memory type the MTRRs give it
    ([EPT_memoryType]); the addresses above, up to 2^48, are not mapped. *)
Theorem EPT_setupDefaltStructures_translation (cpuidex : N → N → N * N * N * N)
    (readmsr : N → N) (h : EPT_Host) (eptpBits : N) (h' : EPT_Host) (e' : N) :
  Host_ok h →
  Arena_ok (logicalCore h) →
  memory (logicalCore h) !! 0 = None →
  EPT_setupDefaltStructures cpuidex readmsr h eptpBits
  = Returns (STATUS_SUCCESS, h', e') →
  ∀ a, a < 2 ^ 48 →
    EPT_translation (set_eptp e' (logicalCore h')) a
    = if decide (a < getPml4Count cpuidex * 2 ^ 39)
      then Some (a / PAGE_SIZE, 1, 1, 1,
                 N.land (EPT_memoryType cpuidex readmsr a) (N.ones 3))
      else None.
Proof.
  intros Hok Harena Hzero Hrun a Ha.
  destruct (EPT_setupDefaltStructures_success _ _ _ _ _ _ Hok Harena Hzero Hrun)
    as (pml4 & pdpts & pdArrays & h2 & _ & _ & Hlen & _ & _ & _ & _ & Htyped & _).
  destruct Htyped as (_ & _ & _ & _ & _ & Htrans).
  rewrite (Htrans a Ha), Hlen.
  pose proof (pml4Entry_lt a (getPml4Count cpuidex) Ha) as Hiff.
  destruct (decide (_ < _)%nat) as [H1|H1], (decide (a < _)) as [H2|H2];
    try reflexivity; exfalso; tauto.
Qed.

(** ** A concrete set-up *)

Lemma demo_host_ok : Host_ok demo_host.
Proof.
  split.
  - apply (bool_decide_unpack _); vm_compute; exact I.
  - apply Forall_forall. apply (bool_decide_unpack _); vm_compute; exact I.
Qed.

Lemma demo_arena_ok : Arena_ok demo_core.
Proof.
  split.
  - reflexivity.
  - vm_compute. discriminate.
  - apply (bool_decide_unpack _); vm_compute; exact I.
  - apply (bool_decide_unpack _); vm_compute; exact I.
  - apply (bool_decide_unpack _); vm_compute; exact I.
Qed.

Lemma demo_setup_returns :
  ∃ h' e',
    EPT_setupDefaltStructures (demo_cpuidex_setup 39 0x1000) demo_readmsr_setup
      demo_host 0
    = Returns (STATUS_SUCCESS, h', e').
Proof.
  destruct (EPT_setupDefaltStructures_spec (demo_cpuidex_setup 39 0x1000)
              demo_readmsr_setup demo_host 0 demo_host_ok demo_arena_ok eq_refl)
    as (st & h' & e' & Hrun & _ & _ & _ & Hiff & _).
  exists h', e'. rewrite Hrun. f_equal. f_equal. f_equal. apply Hiff. split.
  - eexists [_; _; _], []. split; reflexivity.
  - intros _. reflexivity.
Qed.

Lemma EPT_setupDefaltStructures_translation_witness :
  ∃ h' e',
    EPT_setupDefaltStructures (demo_cpuidex_setup 39 0x1000) demo_readmsr_setup
      demo_host 0
    = Returns (STATUS_SUCCESS, h', e')
    ∧ EPT_translation (set_eptp e' (logicalCore h')) 0x80001234
      = Some (0x80001, 1, 1, 1, 0)
    ∧ EPT_translation (set_eptp e' (logicalCore h')) 0xC1234
      = Some (0xC1, 1, 1, 1, 5)
    ∧ EPT_translation (set_eptp e' (logicalCore h')) 0x8000000000 = None.
Proof.
  destruct demo_setup_returns as (h' & e' & Hrun). exists h', e'.
  split; [exact Hrun|].
  pose proof (EPT_setupDefaltStructures_translation _ _ _ _ _ _
                demo_host_ok demo_arena_ok eq_refl Hrun) as H.
  split; [|split].
  - rewrite (H 0x80001234 eq_refl). vm_compute. reflexivity.
  - rewrite (H 0xC1234 eq_refl). vm_compute. reflexivity.
  - rewrite (H 0x8000000000 eq_refl). vm_compute. reflexivity.
Defined.

Lemma fresh_keys_in_range (c : Context_LogicalCore) :
  fresh c → keys_in_range (changedMappings c).
Proof.
  intros Hfresh. apply keys_in_range_lookup. intros j m _ Hm Hvalid.
  rewrite Hfresh in Hm. apply lookup_replicate in Hm as [-> _].
  discriminate Hvalid.
Qed.

Lemma pdArrays_length (pdArrays : list (list N)) :
  Forall (λ pdArray : list N, length pdArray = 512%nat) pdArrays →
  length (mjoin pdArrays) = (512 * length pdArrays)%nat.
Proof.
  induction 1 as [|pdArray pdArrays Hlen _ IH]; [reflexivity|].
  change (mjoin (pdArray :: pdArrays)) with (pdArray ++ mjoin pdArrays).
  rewrite length_app, Hlen, IH. simpl. lia.
Qed.

(** X16: a successful [EPT_setupDefaltStructures] on a core whose mapping
    table is still zeroed establishes the invariant the handlers of the
    VM exits rely on: with the returned EPTP in place the hierarchy is
    well formed over [getPml4Count] PDPT pages and 512 page directories
    for each of them, no record of the table is valid, and the hierarchy
    is the identity map. *)
Theorem EPT_setupDefaltStructures_invariant (cpuidex : N → N → N * N * N * N)
    (readmsr : N → N) (h : EPT_Host) (eptpBits : N) (h' : EPT_Host) (e' : N) :
  Host_ok h →
  Arena_ok (logicalCore h) →
  memory (logicalCore h) !! 0 = None →
  fresh (logicalCore h) →
  EPT_setupDefaltStructures cpuidex readmsr h eptpBits
  = Returns (STATUS_SUCCESS, h', e') →
  ∃ pdpts pds,
    length pdpts = N.to_nat (getPml4Count cpuidex)
    ∧ length pds = (512 * N.to_nat (getPml4Count cpuidex))%nat
    ∧ Core_inv pdpts pds [] (set_eptp e' (logicalCore h'))
    ∧ fresh (set_eptp e' (logicalCore h'))
    ∧ EPT_identity (set_eptp e' (logicalCore h')).
Proof.
  intros Hok Harena Hzero Hfresh Hrun.
  destruct (EPT_setupDefaltStructures_success _ _ _ _ _ _ Hok Harena Hzero Hrun)
    as (pml4 & pdpts & pdArrays & h2 & _ & _ & Hlen & _ & _ & Ftable2 & Ftable
        & Htyped & _).
  destruct Htyped as (_ & _ & Hdir & Hwf & Hid & _).
  assert (Hfresh' : fresh (set_eptp e' (logicalCore h')))
    by (unfold fresh in *; cbn [set_eptp changedMappings]; congruence).
  exists pdpts, (mjoin pdArrays). split; [exact Hlen|]. split.
  { rewrite (pdArrays_length _ (dir_pdArray _ _ _ _ Hdir)).
    now rewrite (dir_length _ _ _ _ Hdir), Hlen. }
  split; [now apply Core_inv_fresh|]. split; [exact Hfresh'|].
  apply Hid. rewrite Ftable2. now apply fresh_keys_in_range.
Qed.

Lemma EPT_setupDefaltStructures_invariant_witness :
  ∃ h' e',
    EPT_setupDefaltStructures (demo_cpuidex_setup 39 0x1000) demo_readmsr_setup
      demo_host 0
    = Returns (STATUS_SUCCESS, h', e')
    ∧ ∃ pdpts pds,
        length pdpts = 1%nat ∧ length pds = 512%nat
        ∧ Core_inv pdpts pds [] (set_eptp e' (logicalCore h'))
        ∧ fresh (set_eptp e' (logicalCore h'))
        ∧ EPT_identity (set_eptp e' (logicalCore h')).
Proof.
  destruct demo_setup_returns as (h' & e' & Hrun). exists h', e'.
  split; [exact Hrun|].
  exact (EPT_setupDefaltStructures_invariant _ _ _ _ _ _
           demo_host_ok demo_arena_ok eq_refl eq_refl Hrun).
Defined.

(** ** What the set-up takes *)

Lemma EPT_EptP_make_value (pml4 : N) :
  pml4 < 2 ^ 40 →
  EPT_EptP_make EPT_PAGING_STRUCTURE_MEMORY_TYPE_WB 3 pml4 = pml4 * PAGE_SIZE + 0x1E.
Proof.
  intros H. unfold EPT_EptP_make, PAGE_SIZE.
  change (set_bitfield 3 3 3 (set_bitfield 0 3 EPT_PAGING_STRUCTURE_MEMORY_TYPE_WB 0))
    with 0x1E.
  unfold set_bitfield.
  change (N.ldiff 0x1E (N.shiftl (N.ones 40) 12)) with 0x1E.
  rewrite N.land_ones, (N.mod_small _ _ H), N.shiftl_mul_pow2.
  change (2 ^ 12) with 4096.
  assert (Hdisjoint : N.land 0x1E (pml4 * 4096) = 0).
  { apply N.bits_inj. intros i. rewrite N.land_spec, N.bits_0.
    destruct (N.lt_ge_cases i 12) as [Hi|Hi].
    - change 4096 with (2 ^ 12). rewrite N.mul_pow2_bits_low by exact Hi.
      apply andb_false_r.
    - replace (N.testbit 0x1E i) with false; [reflexivity|].
      symmetry. apply N.bits_above_log2. change (N.log2 0x1E) with 4. lia. }
  rewrite <- (N.lxor_lor _ _ Hdisjoint), <- (N.add_nocarry_lxor _ _ Hdisjoint).
  apply N.add_comm.
Qed.

Lemma hierarchy_blocks_NoDup (pml4 : N) (pdpts : list N) (pdArrays : list (list N)) :
  Forall (λ pdArray : list N, length pdArray = 512%nat) pdArrays →
  NoDup (hierarchy_frames pml4 pdpts pdArrays) →
  NoDup (hierarchy_blocks pml4 pdpts pdArrays).
Proof.
  intros Hlen Hdistinct. eapply sublist_NoDup; [exact Hdistinct|].
  clear Hdistinct. unfold hierarchy_blocks, hierarchy_frames.
  apply sublist_skip, sublist_app; [reflexivity|].
  induction Hlen as [|pdArray pdArrays Hl _ IH]; [reflexivity|].
  destruct pdArray as [|pd rest]; [discriminate Hl|].
  change (mjoin ((pd :: rest) :: pdArrays)) with (pd :: (rest ++ mjoin pdArrays)).
  cbn [fmap list_fmap]. change ((pd :: rest) !!! 0%nat) with pd.
  apply sublist_skip, sublist_inserts_l, IH.
Qed.

(** X17: a successful [EPT_setupDefaltStructures] returns the EPTP
    [frame * 4096 + 0x1E] (memory type WB, walk length 4) for the frame of
    the PML4 page; it has allocated exactly 1 + 2 * [getPml4Count] blocks,
    the PML4 page among them, which are live afterwards, and has freed
    nothing; and it has taken one page table from the split arena of the
    core that runs it when the fixed-range MTRRs are enabled, none
    otherwise. *)
Theorem EPT_setupDefaltStructures_resources (cpuidex : N → N → N * N * N * N)
    (readmsr : N → N) (h : EPT_Host) (eptpBits : N) (h' : EPT_Host) (e' : N) :
  Host_ok h →
  Arena_ok (logicalCore h) →
  memory (logicalCore h) !! 0 = None →
  EPT_setupDefaltStructures cpuidex readmsr h eptpBits
  = Returns (STATUS_SUCCESS, h', e') →
  e' = EPT_EptP.pageFrameNumber e' * PAGE_SIZE + 0x1E
  ∧ noOfUsedSplits (logicalCore h')
    = noOfUsedSplits (logicalCore h)
      + (if fixedMtrrsEnabled cpuidex readmsr then 1 else 0)
  ∧ ∃ blocks,
      NoDup blocks
      ∧ length blocks = (1 + 2 * N.to_nat (getPml4Count cpuidex))%nat
      ∧ EPT_EptP.pageFrameNumber e' ∈ blocks
      ∧ (∀ pointer, pointer ∈ blocks →
           allocations h !! pointer = None ∧ is_Some (allocations h' !! pointer))
      ∧ (∀ pointer, pointer ∉ blocks →
           allocations h' !! pointer = allocations h !! pointer).
Proof.
  intros Hok Harena Hzero Hrun.
  destruct (EPT_setupDefaltStructures_success _ _ _ _ _ _ Hok Harena Hzero Hrun)
    as (pml4 & pdpts & pdArrays & h2 & He & Hroot & Hlen & Hlive & Fused2 & _ & _
        & Htyped & _).
  destruct Htyped as (Halloc & Fused & Hdir & _).
  pose proof (dir_pdArray _ _ _ _ Hdir) as Harrays.
  assert (Hfit : pml4 < 2 ^ 40).
  { pose proof (dir_fit _ _ _ _ Hdir) as Hfit. rewrite Forall_forall in Hfit.
    apply (Hfit pml4). left. }
  split; [rewrite Hroot, He; now apply EPT_EptP_make_value|].
  split; [now rewrite Fused, Fused2|].
  exists (hierarchy_blocks pml4 pdpts pdArrays).
  split; [exact (hierarchy_blocks_NoDup _ _ _ Harrays (dir_distinct _ _ _ _ Hdir))|].
  split.
  { unfold hierarchy_blocks. cbn [length].
    rewrite length_app, length_fmap, (dir_length _ _ _ _ Hdir), Hlen. lia. }
  split; [rewrite Hroot; left|]. rewrite Halloc. split.
  - intros pointer Hin. split.
    + apply (live_new _ _ _ _ _ Hlive).
      now apply hierarchy_blocks_frames.
    + unfold hierarchy_blocks in Hin.
      rewrite elem_of_cons, elem_of_app in Hin.
      destruct Hin as [->|[Hin|Hin]].
      * rewrite (live_pml4 _ _ _ _ _ Hlive). eauto.
      * rewrite (live_pdpt _ _ _ _ _ Hlive _ Hin). eauto.
      * apply list_elem_of_fmap in Hin as (pdArray & -> & Hin).
        rewrite (live_pdArray _ _ _ _ _ Hlive _ Hin). eauto.
  - intros pointer Hnin. exact (live_others _ _ _ _ _ Hlive pointer Hnin).
Qed.

Lemma EPT_setupDefaltStructures_resources_witness :
  ∃ h' e',
    EPT_setupDefaltStructures (demo_cpuidex_setup 39 0x1000) demo_readmsr_setup
      demo_host 0
    = Returns (STATUS_SUCCESS, h', e')
    ∧ e' = EPT_EptP.pageFrameNumber e' * PAGE_SIZE + 0x1E
    ∧ noOfUsedSplits (logicalCore h') = 1
    ∧ ∃ blocks,
        NoDup blocks
        ∧ length blocks = 3%nat
        ∧ EPT_EptP.pageFrameNumber e' ∈ blocks
        ∧ (∀ pointer, pointer ∈ blocks →
             allocations demo_host !! pointer = None
             ∧ is_Some (allocations h' !! pointer))
        ∧ (∀ pointer, pointer ∉ blocks →
             allocations h' !! pointer = allocations demo_host !! pointer).
Proof.
  destruct demo_setup_returns as (h' & e' & Hrun). exists h', e'.
  split; [exact Hrun|].
  exact (EPT_setupDefaltStructures_resources _ _ _ _ _ _
           demo_host_ok demo_arena_ok eq_refl Hrun).
Defined.

(** ** The fixed ranges *)

Lemma bind_replicate_lookup (f : nat → N) (m : nat) :
  ∀ (n s k j : nat), (k < n)%nat → (j < m)%nat →
  (seq s n ≫= λ i, replicate m (f i)) !! (k * m + j)%nat = Some (f (s + k)%nat).
Proof.
  induction n as [|n IH]; intros s k j Hk Hj; [lia|].
  cbn [seq mbind list_bind]. destruct k as [|k].
  - rewrite lookup_app_l by (rewrite length_replicate; simpl; lia).
    rewrite Nat.add_0_r. simpl. apply lookup_replicate_2. exact Hj.
  - rewrite lookup_app_r by (rewrite length_replicate; simpl; lia).
    rewrite length_replicate.
    replace (S k * m + j - m)%nat with (k * m + j)%nat by (simpl; lia).
    rewrite (IH (S s) k j) by lia. f_equal. f_equal. lia.
Qed.

(** The bytes of one register, inside the list of all types: byte [k]
    stands for the addresses of the [k]-th sub-range. *)
Lemma fixedMtrrBytes_at (readmsr : N → N) (msrIndex sizeInKBytes : N)
    (before after : list N) (k a : N) :
  sizeInKBytes mod 4 = 0 →
  (sizeInKBytes =? 0) = false →
  k < 8 →
  N.of_nat (length before) * PAGE_SIZE + k * (sizeInKBytes * 1024) <= a
  < N.of_nat (length before) * PAGE_SIZE + (k + 1) * (sizeInKBytes * 1024) →
  (before ++ fixedMtrrBytes readmsr msrIndex sizeInKBytes ++ after)
  !!! N.to_nat (a / PAGE_SIZE)
  = N.land (N.shiftr (readmsr msrIndex) (k * 8)) 0xFF.
Proof.
  intros Hmod Hnz Hk Ha. apply N.eqb_neq in Hnz. unfold PAGE_SIZE in *.
  pose proof (N.div_mod sizeInKBytes 4 ltac:(discriminate)) as Hsize.
  rewrite Hmod, N.add_0_r in Hsize.
  remember (sizeInKBytes / 4) as m eqn:Hm.
  pose proof (N.div_mod a 4096 ltac:(discriminate)) as Hq.
  pose proof (N.mod_upper_bound a 4096 ltac:(discriminate)) as Hr.
  remember (a / 4096) as q eqn:Eq. remember (a mod 4096) as r eqn:Er.
  assert (Hj : ∃ j, (j < N.to_nat m)%nat
                    ∧ N.to_nat q
                      = (length before + (N.to_nat k * N.to_nat m + j))%nat).
  { exists (N.to_nat q - length before - N.to_nat k * N.to_nat m)%nat.
    assert (N.of_nat (length before) + k * m <= q
            < N.of_nat (length before) + (k + 1) * m) by nia.
    split; nia. }
  destruct Hj as (j & Hj & ->). apply list_lookup_total_correct.
  rewrite lookup_app_r by lia.
  replace (length before + (N.to_nat k * N.to_nat m + j) - length before)%nat
    with (N.to_nat k * N.to_nat m + j)%nat by lia.
  assert (Hbytes : fixedMtrrBytes readmsr msrIndex sizeInKBytes
                   !! (N.to_nat k * N.to_nat m + j)%nat
                   = Some (N.land (N.shiftr (readmsr msrIndex) (k * 8)) 0xFF)).
  { unfold fixedMtrrBytes. rewrite <- Hm.
    rewrite (bind_replicate_lookup
               (λ i, N.land (N.shiftr (readmsr msrIndex) (N.of_nat i * 8)) 0xFF)
               (N.to_nat m) 8 0 (N.to_nat k) j) by lia.
    cbn [Nat.add]. now rewrite N2Nat.id. }
  apply lookup_app_l_Some. exact Hbytes.
Qed.

Lemma fixedMtrrTypes_range (readmsr : N → N) (msrIndex base sizeInKBytes k a : N) :
  (msrIndex, base, sizeInKBytes) ∈ fixedMtrrRanges →
  k < 8 →
  base + k * (sizeInKBytes * 1024) <= a < base + (k + 1) * (sizeInKBytes * 1024) →
  fixedMtrrTypes readmsr !!! N.to_nat (a / PAGE_SIZE)
  = N.land (N.shiftr (readmsr msrIndex) (k * 8)) 0xFF.
Proof.
  intros Hin Hk Ha. unfold fixedMtrrRanges in Hin.
  repeat (apply elem_of_cons in Hin as [Hin|Hin]);
    [..|now apply elem_of_nil in Hin].
  - injection Hin as -> -> ->.
    exact (fixedMtrrBytes_at readmsr IA32_MTRR_FIX64K_00000 64
             ([])
             (fixedMtrrBytes readmsr IA32_MTRR_FIX16K_80000 16 ++ fixedMtrrBytes readmsr IA32_MTRR_FIX16K_A0000 16 ++ fixedMtrrBytes readmsr IA32_MTRR_FIX4K_C0000 4 ++ fixedMtrrBytes readmsr IA32_MTRR_FIX4K_C8000 4 ++ fixedMtrrBytes readmsr IA32_MTRR_FIX4K_D0000 4 ++ fixedMtrrBytes readmsr IA32_MTRR_FIX4K_D8000 4 ++ fixedMtrrBytes readmsr IA32_MTRR_FIX4K_E0000 4 ++ fixedMtrrBytes readmsr IA32_MTRR_FIX4K_E8000 4 ++ fixedMtrrBytes readmsr IA32_MTRR_FIX4K_F0000 4 ++ fixedMtrrBytes readmsr IA32_MTRR_FIX4K_F8000 4) k a eq_refl eq_refl Hk Ha).
  - injection Hin as -> -> ->.
    exact (fixedMtrrBytes_at readmsr IA32_MTRR_FIX16K_80000 16
             (fixedMtrrBytes readmsr IA32_MTRR_FIX64K_00000 64)
             (fixedMtrrBytes readmsr IA32_MTRR_FIX16K_A0000 16 ++ fixedMtrrBytes readmsr IA32_MTRR_FIX4K_C0000 4 ++ fixedMtrrBytes readmsr IA32_MTRR_FIX4K_C8000 4 ++ fixedMtrrBytes readmsr IA32_MTRR_FIX4K_D0000 4 ++ fixedMtrrBytes readmsr IA32_MTRR_FIX4K_D8000 4 ++ fixedMtrrBytes readmsr IA32_MTRR_FIX4K_E0000 4 ++ fixedMtrrBytes readmsr IA32_MTRR_FIX4K_E8000 4 ++ fixedMtrrBytes readmsr IA32_MTRR_FIX4K_F0000 4 ++ fixedMtrrBytes readmsr IA32_MTRR_FIX4K_F8000 4) k a eq_refl eq_refl Hk Ha).
  - injection Hin as -> -> ->.
    exact (fixedMtrrBytes_at readmsr IA32_MTRR_FIX16K_A0000 16
             (fixedMtrrBytes readmsr IA32_MTRR_FIX64K_00000 64 ++ fixedMtrrBytes readmsr IA32_MTRR_FIX16K_80000 16)
             (fixedMtrrBytes readmsr IA32_MTRR_FIX4K_C0000 4 ++ fixedMtrrBytes readmsr IA32_MTRR_FIX4K_C8000 4 ++ fixedMtrrBytes readmsr IA32_MTRR_FIX4K_D0000 4 ++ fixedMtrrBytes readmsr IA32_MTRR_FIX4K_D8000 4 ++ fixedMtrrBytes readmsr IA32_MTRR_FIX4K_E0000 4 ++ fixedMtrrBytes readmsr IA32_MTRR_FIX4K_E8000 4 ++ fixedMtrrBytes readmsr IA32_MTRR_FIX4K_F0000 4 ++ fixedMtrrBytes readmsr IA32_MTRR_FIX4K_F8000 4) k a eq_refl eq_refl Hk Ha).
  - injection Hin as -> -> ->.
    exact (fixedMtrrBytes_at readmsr IA32_MTRR_FIX4K_C0000 4
             (fixedMtrrBytes readmsr IA32_MTRR_FIX64K_00000 64 ++ fixedMtrrBytes readmsr IA32_MTRR_FIX16K_80000 16 ++ fixedMtrrBytes readmsr IA32_MTRR_FIX16K_A0000 16)
             (fixedMtrrBytes readmsr IA32_MTRR_FIX4K_C8000 4 ++ fixedMtrrBytes readmsr IA32_MTRR_FIX4K_D0000 4 ++ fixedMtrrBytes readmsr IA32_MTRR_FIX4K_D8000 4 ++ fixedMtrrBytes readmsr IA32_MTRR_FIX4K_E0000 4 ++ fixedMtrrBytes readmsr IA32_MTRR_FIX4K_E8000 4 ++ fixedMtrrBytes readmsr IA32_MTRR_FIX4K_F0000 4 ++ fixedMtrrBytes readmsr IA32_MTRR_FIX4K_F8000 4) k a eq_refl eq_refl Hk Ha).
  - injection Hin as -> -> ->.
    exact (fixedMtrrBytes_at readmsr IA32_MTRR_FIX4K_C8000 4
             (fixedMtrrBytes readmsr IA32_MTRR_FIX64K_00000 64 ++ fixedMtrrBytes readmsr IA32_MTRR_FIX16K_80000 16 ++ fixedMtrrBytes readmsr IA32_MTRR_FIX16K_A0000 16 ++ fixedMtrrBytes readmsr IA32_MTRR_FIX4K_C0000 4)
             (fixedMtrrBytes readmsr IA32_MTRR_FIX4K_D0000 4 ++ fixedMtrrBytes readmsr IA32_MTRR_FIX4K_D8000 4 ++ fixedMtrrBytes readmsr IA32_MTRR_FIX4K_E0000 4 ++ fixedMtrrBytes readmsr IA32_MTRR_FIX4K_E8000 4 ++ fixedMtrrBytes readmsr IA32_MTRR_FIX4K_F0000 4 ++ fixedMtrrBytes readmsr IA32_MTRR_FIX4K_F8000 4) k a eq_refl eq_refl Hk Ha).
  - injection Hin as -> -> ->.
    exact (fixedMtrrBytes_at readmsr IA32_MTRR_FIX4K_D0000 4
             (fixedMtrrBytes readmsr IA32_MTRR_FIX64K_00000 64 ++ fixedMtrrBytes readmsr IA32_MTRR_FIX16K_80000 16 ++ fixedMtrrBytes readmsr IA32_MTRR_FIX16K_A0000 16 ++ fixedMtrrBytes readmsr IA32_MTRR_FIX4K_C0000 4 ++ fixedMtrrBytes readmsr IA32_MTRR_FIX4K_C8000 4)
             (fixedMtrrBytes readmsr IA32_MTRR_FIX4K_D8000 4 ++ fixedMtrrBytes readmsr IA32_MTRR_FIX4K_E0000 4 ++ fixedMtrrBytes readmsr IA32_MTRR_FIX4K_E8000 4 ++ fixedMtrrBytes readmsr IA32_MTRR_FIX4K_F0000 4 ++ fixedMtrrBytes readmsr IA32_MTRR_FIX4K_F8000 4) k a eq_refl eq_refl Hk Ha).
  - injection Hin as -> -> ->.
    exact (fixedMtrrBytes_at readmsr IA32_MTRR_FIX4K_D8000 4
             (fixedMtrrBytes readmsr IA32_MTRR_FIX64K_00000 64 ++ fixedMtrrBytes readmsr IA32_MTRR_FIX16K_80000 16 ++ fixedMtrrBytes readmsr IA32_MTRR_FIX16K_A0000 16 ++ fixedMtrrBytes readmsr IA32_MTRR_FIX4K_C0000 4 ++ fixedMtrrBytes readmsr IA32_MTRR_FIX4K_C8000 4 ++ fixedMtrrBytes readmsr IA32_MTRR_FIX4K_D0000 4)
             (fixedMtrrBytes readmsr IA32_MTRR_FIX4K_E0000 4 ++ fixedMtrrBytes readmsr IA32_MTRR_FIX4K_E8000 4 ++ fixedMtrrBytes readmsr IA32_MTRR_FIX4K_F0000 4 ++ fixedMtrrBytes readmsr IA32_MTRR_FIX4K_F8000 4) k a eq_refl eq_refl Hk Ha).
  - injection Hin as -> -> ->.
    exact (fixedMtrrBytes_at readmsr IA32_MTRR_FIX4K_E0000 4
             (fixedMtrrBytes readmsr IA32_MTRR_FIX64K_00000 64 ++ fixedMtrrBytes readmsr IA32_MTRR_FIX16K_80000 16 ++ fixedMtrrBytes readmsr IA32_MTRR_FIX16K_A0000 16 ++ fixedMtrrBytes readmsr IA32_MTRR_FIX4K_C0000 4 ++ fixedMtrrBytes readmsr IA32_MTRR_FIX4K_C8000 4 ++ fixedMtrrBytes readmsr IA32_MTRR_FIX4K_D0000 4 ++ fixedMtrrBytes readmsr IA32_MTRR_FIX4K_D8000 4)
             (fixedMtrrBytes readmsr IA32_MTRR_FIX4K_E8000 4 ++ fixedMtrrBytes readmsr IA32_MTRR_FIX4K_F0000 4 ++ fixedMtrrBytes readmsr IA32_MTRR_FIX4K_F8000 4) k a eq_refl eq_refl Hk Ha).
  - injection Hin as -> -> ->.
    exact (fixedMtrrBytes_at readmsr IA32_MTRR_FIX4K_E8000 4
             (fixedMtrrBytes readmsr IA32_MTRR_FIX64K_00000 64 ++ fixedMtrrBytes readmsr IA32_MTRR_FIX16K_80000 16 ++ fixedMtrrBytes readmsr IA32_MTRR_FIX16K_A0000 16 ++ fixedMtrrBytes readmsr IA32_MTRR_FIX4K_C0000 4 ++ fixedMtrrBytes readmsr IA32_MTRR_FIX4K_C8000 4 ++ fixedMtrrBytes readmsr IA32_MTRR_FIX4K_D0000 4 ++ fixedMtrrBytes readmsr IA32_MTRR_FIX4K_D8000 4 ++ fixedMtrrBytes readmsr IA32_MTRR_FIX4K_E0000 4)
             (fixedMtrrBytes readmsr IA32_MTRR_FIX4K_F0000 4 ++ fixedMtrrBytes readmsr IA32_MTRR_FIX4K_F8000 4) k a eq_refl eq_refl Hk Ha).
  - injection Hin as -> -> ->.
    exact (fixedMtrrBytes_at readmsr IA32_MTRR_FIX4K_F0000 4
             (fixedMtrrBytes readmsr IA32_MTRR_FIX64K_00000 64 ++ fixedMtrrBytes readmsr IA32_MTRR_FIX16K_80000 16 ++ fixedMtrrBytes readmsr IA32_MTRR_FIX16K_A0000 16 ++ fixedMtrrBytes readmsr IA32_MTRR_FIX4K_C0000 4 ++ fixedMtrrBytes readmsr IA32_MTRR_FIX4K_C8000 4 ++ fixedMtrrBytes readmsr IA32_MTRR_FIX4K_D0000 4 ++ fixedMtrrBytes readmsr IA32_MTRR_FIX4K_D8000 4 ++ fixedMtrrBytes readmsr IA32_MTRR_FIX4K_E0000 4 ++ fixedMtrrBytes readmsr IA32_MTRR_FIX4K_E8000 4)
             (fixedMtrrBytes readmsr IA32_MTRR_FIX4K_F8000 4) k a eq_refl eq_refl Hk Ha).
  - injection Hin as -> -> ->.
    exact (fixedMtrrBytes_at readmsr IA32_MTRR_FIX4K_F8000 4
             (fixedMtrrBytes readmsr IA32_MTRR_FIX64K_00000 64 ++ fixedMtrrBytes readmsr IA32_MTRR_FIX16K_80000 16 ++ fixedMtrrBytes readmsr IA32_MTRR_FIX16K_A0000 16 ++ fixedMtrrBytes readmsr IA32_MTRR_FIX4K_C0000 4 ++ fixedMtrrBytes readmsr IA32_MTRR_FIX4K_C8000 4 ++ fixedMtrrBytes readmsr IA32_MTRR_FIX4K_D0000 4 ++ fixedMtrrBytes readmsr IA32_MTRR_FIX4K_D8000 4 ++ fixedMtrrBytes readmsr IA32_MTRR_FIX4K_E0000 4 ++ fixedMtrrBytes readmsr IA32_MTRR_FIX4K_E8000 4 ++ fixedMtrrBytes readmsr IA32_MTRR_FIX4K_F0000 4)
             ([]) k a eq_refl eq_refl Hk Ha).
Qed.

(** X18: when the fixed-range MTRRs are enabled, a successful
    [EPT_setupDefaltStructures] gives every address of the first MiB the
    type its fixed-range register holds for it: for the register with
    first address [base] and sub-ranges of [sizeInKBytes] KiB, an address
    of the [k]-th sub-range is mapped to itself, with every access, and
    with the low three bits of byte [k] of the register as memory type. *)
Theorem EPT_setupDefaltStructures_fixed_ranges (cpuidex : N → N → N * N * N * N)
    (readmsr : N → N) (h : EPT_Host) (eptpBits : N) (h' : EPT_Host) (e' : N)
    (msrIndex base sizeInKBytes k a : N) :
  Host_ok h →
  Arena_ok (logicalCore h) →
  memory (logicalCore h) !! 0 = None →
  EPT_setupDefaltStructures cpuidex readmsr h eptpBits
  = Returns (STATUS_SUCCESS, h', e') →
  fixedMtrrsEnabled cpuidex readmsr = true →
  (msrIndex, base, sizeInKBytes) ∈ fixedMtrrRanges →
  k < 8 →
  base + k * (sizeInKBytes * 1024) <= a < base + (k + 1) * (sizeInKBytes * 1024) →
  EPT_translation (set_eptp e' (logicalCore h')) a
  = Some (a / PAGE_SIZE, 1, 1, 1, bitfield (k * 8) 3 (readmsr msrIndex)).
Proof.
  intros Hok Harena Hzero Hrun Hfixed Hin Hk Ha.
  destruct (EPT_setupDefaltStructures_success _ _ _ _ _ _ Hok Harena Hzero Hrun)
    as (pml4 & pdpts & pdArrays & h2 & _ & _ & Hlen & _ & _ & _ & _ & Htyped & _).
  destruct Htyped as (_ & _ & _ & _ & _ & Htrans).
  assert (Hlow : a < 2 ^ 20).
  { unfold fixedMtrrRanges in Hin.
    repeat (apply elem_of_cons in Hin as [Hin|Hin]);
      [..|now apply elem_of_nil in Hin];
      injection Hin as -> -> ->; change (2 ^ 20) with 1048576; lia. }
  assert (Ha48 : a < 2 ^ 48)
    by (eapply N.lt_trans; [exact Hlow|reflexivity]).
  rewrite (Htrans a Ha48).
  destruct (below_2MB_fields a) as (E4 & _);
    [eapply N.lt_trans; [exact Hlow|reflexivity]|].
  rewrite E4, Hlen. pose proof (getPml4Count_range cpuidex) as [Hc1 _].
  destruct (decide _) as [_|Hn]; [|exfalso; apply Hn; simpl; lia].
  do 2 f_equal. unfold EPT_memoryType.
  assert (Hon : mtrrsEnabled cpuidex readmsr = true).
  { unfold fixedMtrrsEnabled in Hfixed.
    destruct (mtrrsEnabled cpuidex readmsr); [reflexivity|discriminate Hfixed]. }
  rewrite Hon, Hfixed. cbn [negb andb].
  replace (a <? 2 ^ 20) with true by (symmetry; now apply N.ltb_lt).
  rewrite (fixedMtrrTypes_range readmsr msrIndex base sizeInKBytes k a Hin Hk Ha).
  unfold bitfield. now rewrite <- N.land_assoc.
Qed.

Lemma EPT_setupDefaltStructures_fixed_ranges_witness :
  ∃ h' e',
    EPT_setupDefaltStructures (demo_cpuidex_setup 39 0x1000) demo_readmsr_setup
      demo_host 0
    = Returns (STATUS_SUCCESS, h', e')
    ∧ EPT_translation (set_eptp e' (logicalCore h')) 0xC3210
      = Some (0xC3210 / PAGE_SIZE, 1, 1, 1,
              bitfield (3 * 8) 3 (demo_readmsr_setup IA32_MTRR_FIX4K_C0000)).
Proof.
  destruct demo_setup_returns as (h' & e' & Hrun). exists h', e'.
  split; [exact Hrun|].
  apply (EPT_setupDefaltStructures_fixed_ranges _ _ _ _ _ _
           IA32_MTRR_FIX4K_C0000 0xC0000 4 3 0xC3210
           demo_host_ok demo_arena_ok eq_refl Hrun eq_refl).
  - apply (bool_decide_unpack _). vm_compute. exact I.
  - reflexivity.
  - split; [apply N.leb_le|apply N.ltb_lt]; reflexivity.
Defined.

(** ** Failure and success *)

(** X19: [EPT_setupDefaltStructures] always returns, with
    [STATUS_SUCCESS] or [STATUS_UNSUCCESSFUL], and never stops the system;
    when it fails it leaves [*eptpBits] as it was, has freed every block
    it had allocated, and has taken no page from the split arena. *)
Theorem EPT_setupDefaltStructures_failure (cpuidex : N → N → N * N * N * N)
    (readmsr : N → N) (h : EPT_Host) (eptpBits : N) :
  Host_ok h →
  Arena_ok (logicalCore h) →
  memory (logicalCore h) !! 0 = None →
  ∃ st h' e',
    EPT_setupDefaltStructures cpuidex readmsr h eptpBits = Returns (st, h', e')
    ∧ (st = STATUS_SUCCESS ∨ st = STATUS_UNSUCCESSFUL)
    ∧ (st = STATUS_UNSUCCESSFUL →
       e' = eptpBits
       ∧ allocations h' = allocations h
       ∧ noOfUsedSplits (logicalCore h') = noOfUsedSplits (logicalCore h)
       ∧ splitBuffer (logicalCore h') = splitBuffer (logicalCore h)
       ∧ changedMappings (logicalCore h') = changedMappings (logicalCore h)
       ∧ eptp (logicalCore h') = eptp (logicalCore h)).
Proof.
  intros Hok Harena Hzero.
  destruct (EPT_setupDefaltStructures_spec cpuidex readmsr h eptpBits Hok Harena Hzero)
    as (st & h' & e' & Hrun & Fbuffer & Ftable & Feptp & _ & Hcases).
  exists st, h', e'. split; [exact Hrun|].
  destruct Hcases as [(-> & -> & Halloc & Fused)|(-> & _)].
  - split; [now right|]. intros _. auto 10.
  - split; [now left|]. intros Hst. discriminate Hst.
Qed.

Lemma EPT_setupDefaltStructures_failure_witness :
  ∃ st h' e',
    EPT_setupDefaltStructures (demo_cpuidex_setup 46 0x1000) demo_readmsr_setup
      demo_host 0x101E
    = Returns (st, h', e')
    ∧ (st = STATUS_SUCCESS ∨ st = STATUS_UNSUCCESSFUL)
    ∧ (st = STATUS_UNSUCCESSFUL →
       e' = 0x101E
       ∧ allocations h' = allocations demo_host
       ∧ noOfUsedSplits (logicalCore h') = noOfUsedSplits (logicalCore demo_host)
       ∧ splitBuffer (logicalCore h') = splitBuffer (logicalCore demo_host)
       ∧ changedMappings (logicalCore h') = changedMappings (logicalCore demo_host)
       ∧ eptp (logicalCore h') = eptp (logicalCore demo_host)).
Proof.
  exact (EPT_setupDefaltStructures_failure (demo_cpuidex_setup 46 0x1000)
           demo_readmsr_setup demo_host 0x101E demo_host_ok demo_arena_ok eq_refl).
Defined.

(** X20: [EPT_setupDefaltStructures] succeeds exactly when
    [ExAllocatePool2] serves its first 1 + 2 * [getPml4Count] requests
    and, if the fixed-range MTRRs are enabled, the split arena of the core
    that runs it has a page left. *)
Theorem EPT_setupDefaltStructures_succeeds_iff (cpuidex : N → N → N * N * N * N)
    (readmsr : N → N) (h : EPT_Host) (eptpBits : N) :
  Host_ok h →
  Arena_ok (logicalCore h) →
  memory (logicalCore h) !! 0 = None →
  (∃ h' e', EPT_setupDefaltStructures cpuidex readmsr h eptpBits
            = Returns (STATUS_SUCCESS, h', e'))
  ↔ pool_serves (1 + 2 * N.to_nat (getPml4Count cpuidex)) (ExAllocatePool2 h)
    ∧ (fixedMtrrsEnabled cpuidex readmsr = true →
       noOfUsedSplits (logicalCore h) < CONTEXT_EPT_NO_SPLITS).
Proof.
  intros Hok Harena Hzero.
  destruct (EPT_setupDefaltStructures_spec cpuidex readmsr h eptpBits Hok Harena Hzero)
    as (st & h' & e' & Hrun & _ & _ & _ & Hiff & _).
  rewrite <- Hiff, Hrun. split.
  - intros (hx & ex & Hx). now injection Hx as -> _ _.
  - intros ->. eauto.
Qed.

Lemma EPT_setupDefaltStructures_succeeds_iff_witness :
  (∃ h' e', EPT_setupDefaltStructures (demo_cpuidex_setup 46 0x1000)
              demo_readmsr_setup demo_host 0
            = Returns (STATUS_SUCCESS, h', e'))
  ↔ pool_serves (1 + 2 * N.to_nat (getPml4Count (demo_cpuidex_setup 46 0x1000)))
      (ExAllocatePool2 demo_host)
    ∧ (fixedMtrrsEnabled (demo_cpuidex_setup 46 0x1000) demo_readmsr_setup = true →
       noOfUsedSplits (logicalCore demo_host) < CONTEXT_EPT_NO_SPLITS).
Proof.
  exact (EPT_setupDefaltStructures_succeeds_iff (demo_cpuidex_setup 46 0x1000)
           demo_readmsr_setup demo_host 0 demo_host_ok demo_arena_ok eq_refl).
Defined.

(** ** Tearing the hierarchy down *)

(** X21: whatever hypercalls and EPT violations the core handles after a
    successful [EPT_setupDefaltStructures], [EPT_destroyEPTStructure] for
    the EPTP of the core returns and frees exactly the blocks the set-up
    had allocated: the live blocks are those from before the set-up. *)
Theorem EPT_destroyEPTStructure_after_setup (cpuidex : N → N → N * N * N * N)
    (readmsr : N → N) (h : EPT_Host) (eptpBits : N) (h' : EPT_Host) (e' : N)
    (c : Context_LogicalCore) :
  Host_ok h →
  Arena_ok (logicalCore h) →
  memory (logicalCore h) !! 0 = None →
  EPT_setupDefaltStructures cpuidex readmsr h eptpBits
  = Returns (STATUS_SUCCESS, h', e') →
  rtc step (set_eptp e' (logicalCore h')) c →
  ∃ h'',
    EPT_destroyEPTStructure cpuidex (set_logicalCore c h') (eptp c) = Returns h''
    ∧ allocations h'' = allocations h
    ∧ logicalCore h'' = c
    ∧ ExAllocatePool2 h'' = ExAllocatePool2 h'.
Proof.
  intros Hok Harena Hzero Hrun Hsteps.
  destruct (EPT_setupDefaltStructures_success _ _ _ _ _ _ Hok Harena Hzero Hrun)
    as (pml4 & pdpts & pdArrays & h2 & _ & Hroot & Hlen & Hlive & _ & _ & _
        & Htyped & _).
  destruct Htyped as (Halloc & _ & Hdir & Hwf & _).
  destruct (rtc_step_EPT_wf _ _ _ _ _ Hsteps Hwf) as [Hwf' Hev].
  assert (Heptp : eptp c = e') by exact (ev_eptp _ _ _ _ Hev).
  assert (Hdir' : EPT_directories (memory c) pml4 pdpts pdArrays).
  { apply (EPT_directories_same (memory (logicalCore h'))); [exact Hdir| |].
    - intros frame Hin. apply elem_of_cons in Hin as [->|Hin].
      + rewrite <- Hroot. exact (ev_pml4 _ _ _ _ Hev).
      + exact (ev_pdpts _ _ _ _ Hev frame Hin).
    - intros pd Hin. destruct (wf_pd_page _ _ _ _ Hwf' pd Hin) as (page & Hp & Hl & _).
      exists page. split; assumption. }
  unfold EPT_destroyEPTStructure. rewrite Heptp.
  unfold EPT_EptP.pageFrameNumber in *.
  cbn [set_logicalCore logicalCore]. rewrite Memory_getVirtualAddress_field, Hroot.
  destruct (dir_pml4 _ _ _ _ Hdir') as (page & -> & _).
  cbn [mbind Outcome_bind].
  destruct (destroyPml4_restores (set_logicalCore c h') pml4 pdpts pdArrays
              (allocations h) Hdir') as (h'' & Hrun'' & Hcore & Hpool & Hfreed).
  { cbn [set_logicalCore allocations]. now rewrite Halloc. }
  rewrite Hlen, N2Nat.id in Hrun''. exists h''. auto.
Qed.

Lemma EPT_destroyEPTStructure_after_setup_witness :
  ∃ h' e',
    EPT_setupDefaltStructures (demo_cpuidex_setup 39 0x1000) demo_readmsr_setup
      demo_host 0
    = Returns (STATUS_SUCCESS, h', e')
    ∧ ∃ h'',
        EPT_destroyEPTStructure (demo_cpuidex_setup 39 0x1000)
          (set_logicalCore (set_eptp e' (logicalCore h')) h') e'
        = Returns h''
        ∧ allocations h'' = allocations demo_host
        ∧ logicalCore h'' = set_eptp e' (logicalCore h')
        ∧ ExAllocatePool2 h'' = ExAllocatePool2 h'.
Proof.
  destruct demo_setup_returns as (h' & e' & Hrun). exists h', e'.
  split; [exact Hrun|].
  exact (EPT_destroyEPTStructure_after_setup _ _ _ _ _ _ _
           demo_host_ok demo_arena_ok eq_refl Hrun (rtc_refl _ _)).
Defined.

(** ** One set-up after the other *)

(** X22: [EPT_setupDefaltStructures] can be called again after a success,
    as [VMM_enable] does for one logical core after the other: what it
    relies on holds again.  With the fixed-range MTRRs enabled every
    success takes one more page from the split arena of the core that
    runs the calls, so after [n] successes in a row on one core that core
    has [n] pages fewer for its own splits, and [n] is at most 32 minus the
    pages that were in use. *)
Theorem EPT_setupDefaltStructures_repeated (cpuidex : N → N → N * N * N * N)
    (readmsr : N → N) (n : nat) (h h' : EPT_Host) :
  Host_ok h →
  Arena_ok (logicalCore h) →
  memory (logicalCore h) !! 0 = None →
  setups cpuidex readmsr n h h' →
  Host_ok h'
  ∧ Arena_ok (logicalCore h')
  ∧ memory (logicalCore h') !! 0 = None
  ∧ noOfUsedSplits (logicalCore h')
    = noOfUsedSplits (logicalCore h)
      + (if fixedMtrrsEnabled cpuidex readmsr then N.of_nat n else 0)
  ∧ (fixedMtrrsEnabled cpuidex readmsr = true →
     noOfUsedSplits (logicalCore h) + N.of_nat n <= CONTEXT_EPT_NO_SPLITS).
Proof.
  intros Hok Harena Hzero Hsetups.
  induction Hsetups as [h|n h eptpBits h1 e1 h2 Hrun _ IH].
  - split; [exact Hok|]. split; [exact Harena|]. split; [exact Hzero|].
    split; [destruct (fixedMtrrsEnabled cpuidex readmsr); simpl; lia|].
    intros _. pose proof (arena_used _ Harena). simpl. lia.
  - destruct (EPT_setupDefaltStructures_success _ _ _ _ _ _ Hok Harena Hzero Hrun)
      as (pml4 & pdpts & pdArrays & hx & _ & _ & _ & _ & Fused2 & _ & _ & Htyped
          & Hok1 & Harena1 & Hzero1).
    destruct Htyped as (_ & Fused & _).
    destruct (IH Hok1 Harena1 Hzero1) as (Hok2 & Harena2 & Hzero2 & Fused' & Hbound).
    split; [exact Hok2|]. split; [exact Harena2|]. split; [exact Hzero2|].
    rewrite Fused' in *. rewrite Fused, Fused2 in *.
    destruct (fixedMtrrsEnabled cpuidex readmsr).
    + split; [lia|]. intros _. specialize (Hbound eq_refl). lia.
    + split; [lia|]. discriminate.
Qed.

Lemma EPT_setupDefaltStructures_repeated_witness :
  ∃ h',
    setups (demo_cpuidex_setup 39 0x1000) demo_readmsr_setup 1 demo_host h'
    ∧ Host_ok h'
    ∧ Arena_ok (logicalCore h')
    ∧ memory (logicalCore h') !! 0 = None
    ∧ noOfUsedSplits (logicalCore h') = 0 + 1
    ∧ (fixedMtrrsEnabled (demo_cpuidex_setup 39 0x1000) demo_readmsr_setup = true →
       0 + 1 <= CONTEXT_EPT_NO_SPLITS).
Proof.
  destruct demo_setup_returns as (h' & e' & Hrun). exists h'.
  assert (Hsetups : setups (demo_cpuidex_setup 39 0x1000) demo_readmsr_setup 1
                      demo_host h')
    by (eapply setups_S; [exact Hrun|apply setups_O]).
  split; [exact Hsetups|].
  exact (EPT_setupDefaltStructures_repeated _ _ _ _ _
           demo_host_ok demo_arena_ok eq_refl Hsetups).
Defined.

(** ** The vendor check *)

Lemma Memory_compare_eq (length : nat) :
  ∀ source1 source2 : list N,
  List.length source1 = length → List.length source2 = length →
  Memory_compare source1 source2 length = true ↔ source1 = source2.
Proof.
  unfold Memory_compare.
  induction length as [|n IH]; intros [|b1 l1] [|b2 l2] H1 H2;
    try discriminate H1; try discriminate H2.
  - split; reflexivity.
  - cbn [RtlCompareMemory]. destruct (N.eqb_spec b1 b2) as [->|Hne].
    + change (Nat.eqb (S ?a) (S n)) with (Nat.eqb a n).
      rewrite (IH l1 l2) by (simpl in *; lia).
      split; [now intros ->|now intros [= ->]].
    + split; [discriminate|]. intros [= Hb _]. contradiction.
Qed.

Lemma bytes_of_INT32_eq (x b0 b1 b2 b3 : N) :
  x < 2 ^ 32 → b0 < 256 → b1 < 256 → b2 < 256 → b3 < 256 →
  bytes_of_INT32 x = [b0; b1; b2; b3]
  ↔ x = b0 + 256 * b1 + 65536 * b2 + 16777216 * b3.
Proof.
  intros Hx H0 H1 H2 H3. unfold bytes_of_INT32.
  change (2 ^ 32) with 4294967296 in Hx.
  pose proof (N.div_mod x 256 ltac:(discriminate)) as D0.
  pose proof (N.mod_upper_bound x 256 ltac:(discriminate)) as M0.
  pose proof (N.div_mod x 65536 ltac:(discriminate)) as D1.
  pose proof (N.mod_upper_bound x 65536 ltac:(discriminate)) as M1.
  pose proof (N.div_mod x 16777216 ltac:(discriminate)) as D2.
  pose proof (N.mod_upper_bound x 16777216 ltac:(discriminate)) as M2.
  pose proof (N.div_mod (x / 256) 256 ltac:(discriminate)) as E1.
  pose proof (N.mod_upper_bound (x / 256) 256 ltac:(discriminate)) as F1.
  pose proof (N.div_mod (x / 65536) 256 ltac:(discriminate)) as E2.
  pose proof (N.mod_upper_bound (x / 65536) 256 ltac:(discriminate)) as F2.
  pose proof (N.div_mod (x / 16777216) 256 ltac:(discriminate)) as E3.
  pose proof (N.mod_upper_bound (x / 16777216) 256 ltac:(discriminate)) as F3.
  revert D0 M0 D1 M1 D2 M2 E1 F1 E2 F2 E3 F3.
  generalize (x mod 256) ((x / 256) mod 256) ((x / 65536) mod 256)
    ((x / 16777216) mod 256) (x / 256 / 256) (x / 65536 / 256)
    (x / 16777216 / 256) (x mod 65536) (x mod 16777216).
  generalize (x / 256) (x / 65536) (x / 16777216).
  intros q1 q2 q3 r0 r1 r2 r3 p1 p2 p3 m1 m2 D0 M0 D1 M1 D2 M2 E1 F1 E2 F2 E3 F3.
  split.
  - intros [= -> -> -> ->]. lia.
  - intros ->. repeat f_equal; lia.
Qed.

(** X23: [isVmxCpuidSupported] answers [TRUE] exactly on a processor whose
    CPUID leaf 0 spells [GenuineIntel] in EBX, EDX and ECX, in that order
    and with the first character in the lowest byte, and whose leaf 1 has
    the VMX bit (ECX bit 5) set. *)
Theorem isVmxCpuidSupported_iff (cpuidex : N → N → N * N * N * N) :
  cpuid_32bit cpuidex →
  isVmxCpuidSupported cpuidex = true
  ↔ (cpuidex IA32_CPUID_BASIC_INFORMATION_0 0).1.1.2 = 0x756E6547
    ∧ (cpuidex IA32_CPUID_BASIC_INFORMATION_0 0).2 = 0x49656E69
    ∧ (cpuidex IA32_CPUID_BASIC_INFORMATION_0 0).1.2 = 0x6C65746E
    ∧ N.testbit (cpuidex IA32_CPUID_BASIC_INFORMATION_1 0).1.2 5 = true.
Proof.
  intros H32. unfold isVmxCpuidSupported.
  pose proof (H32 IA32_CPUID_BASIC_INFORMATION_0 0) as H0.
  destruct (cpuidex IA32_CPUID_BASIC_INFORMATION_0 0) as [[[eax ebx] ecx] edx].
  destruct H0 as (_ & Hb & Hc & Hd). cbn [fst snd].
  assert (Hvmx : negb (IA32_CpuidBasicInformation1.vmx
                         (cpuidex IA32_CPUID_BASIC_INFORMATION_1 0) =? 0) = true
                 ↔ N.testbit (cpuidex IA32_CPUID_BASIC_INFORMATION_1 0).1.2 5 = true).
  { unfold IA32_CpuidBasicInformation1.vmx.
    generalize ((cpuidex IA32_CPUID_BASIC_INFORMATION_1 0).1.2). intros r.
    assert (T : N.testbit (bitfield 5 1 r) 0 = N.testbit r 5).
    { rewrite bitfield_testbit. change (0 + 5) with 5.
      change (0 <? 1) with true. apply andb_true_r. }
    rewrite <- T.
    destruct (bitfield_bool 5 r) as [E|E]; rewrite E; split; intros H;
      first [reflexivity|discriminate H]. }
  destruct (Memory_compare _ GenuineIntel 13) eqn:Ecmp; cbn [negb].
  - apply (Memory_compare_eq 13) in Ecmp; [|reflexivity|reflexivity].
    cbn [app bytes_of_INT32] in Ecmp. unfold GenuineIntel in Ecmp.
    injection Ecmp as B0 B1 B2 B3 B4 B5 B6 B7 B8 B9 B10 B11.
    assert (E1 : bytes_of_INT32 ebx = [71; 101; 110; 117])
      by (unfold bytes_of_INT32; congruence).
    assert (E2 : bytes_of_INT32 edx = [105; 110; 101; 73])
      by (unfold bytes_of_INT32; congruence).
    assert (E3 : bytes_of_INT32 ecx = [110; 116; 101; 108])
      by (unfold bytes_of_INT32; congruence).
    apply bytes_of_INT32_eq in E1; [|assumption|reflexivity..].
    apply bytes_of_INT32_eq in E2; [|assumption|reflexivity..].
    apply bytes_of_INT32_eq in E3; [|assumption|reflexivity..].
    rewrite Hvmx. subst ebx ecx edx. tauto.
  - split; [discriminate|]. intros (-> & -> & -> & _).
    vm_compute in Ecmp. discriminate Ecmp.
Qed.

Lemma isVmxCpuidSupported_iff_witness :
  isVmxCpuidSupported demo_cpuidex = true
  ↔ (demo_cpuidex IA32_CPUID_BASIC_INFORMATION_0 0).1.1.2 = 0x756E6547
    ∧ (demo_cpuidex IA32_CPUID_BASIC_INFORMATION_0 0).2 = 0x49656E69
    ∧ (demo_cpuidex IA32_CPUID_BASIC_INFORMATION_0 0).1.2 = 0x6C65746E
    ∧ N.testbit (demo_cpuidex IA32_CPUID_BASIC_INFORMATION_1 0).1.2 5 = true.
Proof.
  exact (isVmxCpuidSupported_iff demo_cpuidex demo_cpuidex_32bit).
Defined.

(** X24: under this hypervisor the driver refuses to start a second
    time: with the CPUID results a guest gets from [cpuidHandler],
    [isVmxCpuidSupported] answers [FALSE] and [checkPrerequisites] returns
    [STATUS_UNSUCCESSFUL], whatever the processor and the MSRs are. *)
Theorem checkPrerequisites_nested (cpuidex : N → N → N * N * N * N)
    (registers : VMEXIT_Registers) (readmsr : N → N) :
  isVmxCpuidSupported (guest_cpuidex cpuidex registers) = false
  ∧ checkPrerequisites (guest_cpuidex cpuidex registers) readmsr
    = STATUS_UNSUCCESSFUL.
Proof.
  assert (H : isVmxCpuidSupported (guest_cpuidex cpuidex registers) = false).
  { unfold isVmxCpuidSupported, guest_cpuidex, cpuidHandler.
    cbn [RAX RCX RBX RDX].
    change (UINT64_to_INT32 IA32_CPUID_BASIC_INFORMATION_0) with 0.
    change (UINT64_to_INT32 0) with 0.
    destruct (cpuidex 0 0) as [[[eax ebx] ecx] edx].
    change (0 =? IA32_CPUID_BASIC_INFORMATION_0) with true.
    change (0 =? IA32_CPUID_BASIC_INFORMATION_1) with false.
    cbn [RAX RCX RBX RDX]. reflexivity. }
  split; [exact H|]. unfold checkPrerequisites. now rewrite H.
Qed.

(** ** The control registers *)

Lemma bit_field_1 (lo bits : N) : bitfield lo 1 bits = 1 ↔ N.testbit bits lo = true.
Proof.
  assert (T : N.testbit (bitfield lo 1 bits) 0 = N.testbit bits lo).
  { rewrite bitfield_testbit. change (0 + lo) with lo.
    change (0 <? 1) with true. apply andb_true_r. }
  rewrite <- T. destruct (bitfield_bool lo bits) as [E|E]; rewrite E; split;
    intros H; first [reflexivity|discriminate H].
Qed.

Lemma setControlRegisterBits_cases (s : VMM_Registers) :
  let featureControl := msrs s IA32_FEATURE_CONTROL in
  (N.testbit featureControl 0 = true ∧ N.testbit featureControl 2 = false
   ∧ setControlRegisterBits s = (STATUS_UNSUCCESSFUL, s))
  ∨ (¬ (N.testbit featureControl 0 = true ∧ N.testbit featureControl 2 = false)
     ∧ ∃ value,
         (∀ i, N.testbit value i
               = N.testbit featureControl i || (i =? 0) || (i =? 2))
         ∧ (N.testbit featureControl 0 = true → value = featureControl)
         ∧ setControlRegisterBits s
           = (STATUS_SUCCESS,
              {| msrs := λ index,
                   if N.testbit featureControl 0 then msrs s index
                   else if index =? IA32_FEATURE_CONTROL then value
                        else msrs s index;
                 cr0 := N.land (N.lor (cr0 s) (msrs s IA32_VMX_CR0_FIXED0))
                          (msrs s IA32_VMX_CR0_FIXED1);
                 cr4 := N.land
                          (N.lor (IA32_Cr4.set_vmxEnableBit 1 (cr4 s))
                             (msrs s IA32_VMX_CR4_FIXED0))
                          (msrs s IA32_VMX_CR4_FIXED1);
                 wrmsr := if N.testbit featureControl 0 then wrmsr s
                          else wrmsr s ++ [(IA32_FEATURE_CONTROL, value)] |})).
Proof.
  intros featureControl. unfold setControlRegisterBits. fold featureControl.
  unfold IA32_FeatureControl.lockBit, IA32_FeatureControl.enableVmxOutsideSmx.
  pose proof (bit_field_1 0 featureControl) as L.
  pose proof (bit_field_1 2 featureControl) as E.
  destruct (bitfield_bool 0 featureControl) as [HL|HL],
           (bitfield_bool 2 featureControl) as [HE|HE];
    rewrite HL, HE in *; cbn [N.eqb negb andb].
  - right. split; [intros [H _]; apply L in H; discriminate H|].
    destruct (N.testbit featureControl 0) eqn:T0;
      [destruct L as [_ L]; specialize (L eq_refl); discriminate L|].
    eexists. split; [|split; [discriminate|reflexivity]].
    intros i. unfold IA32_FeatureControl.set_lockBit,
      IA32_FeatureControl.set_enableVmxOutsideSmx.
    rewrite !set_bitfield_testbit.
    destruct (N.eqb_spec i 0) as [->|H0]; [cbn; now rewrite orb_true_r|].
    destruct (N.eqb_spec i 2) as [->|H2]; [cbn; now rewrite orb_true_r|].
    rewrite !orb_false_r.
    replace ((0 <=? i) && (i <? 0 + 1)) with false
      by (symmetry; apply andb_false_iff; right; apply N.ltb_ge; lia).
    replace ((2 <=? i) && (i <? 2 + 1)) with false; [reflexivity|].
    symmetry. apply andb_false_iff.
    destruct (N.lt_ge_cases i 2); [left; apply N.leb_gt|right; apply N.ltb_ge]; lia.
  - right. split; [intros [H _]; apply L in H; discriminate H|].
    destruct (N.testbit featureControl 0) eqn:T0;
      [destruct L as [_ L]; specialize (L eq_refl); discriminate L|].
    eexists. split; [|split; [discriminate|reflexivity]].
    intros i. unfold IA32_FeatureControl.set_lockBit,
      IA32_FeatureControl.set_enableVmxOutsideSmx.
    rewrite !set_bitfield_testbit.
    destruct (N.eqb_spec i 0) as [->|H0]; [cbn; now rewrite orb_true_r|].
    destruct (N.eqb_spec i 2) as [->|H2]; [cbn; now rewrite orb_true_r|].
    rewrite !orb_false_r.
    replace ((0 <=? i) && (i <? 0 + 1)) with false
      by (symmetry; apply andb_false_iff; right; apply N.ltb_ge; lia).
    replace ((2 <=? i) && (i <? 2 + 1)) with false; [reflexivity|].
    symmetry. apply andb_false_iff.
    destruct (N.lt_ge_cases i 2); [left; apply N.leb_gt|right; apply N.ltb_ge]; lia.
  - left. split; [now apply L|]. split; [|reflexivity].
    destruct (N.testbit featureControl 2) eqn:T2; [|reflexivity].
    destruct E as [_ E]. specialize (E eq_refl). discriminate E.
  - right. assert (T0 : N.testbit featureControl 0 = true) by now apply L.
    assert (T2 : N.testbit featureControl 2 = true) by now apply E.
    split; [intros [_ H]; congruence|].
    exists featureControl. rewrite T0. split; [|split; reflexivity].
    intros i.
    destruct (N.eqb_spec i 0) as [->|H0]; [now rewrite T0|].
    destruct (N.eqb_spec i 2) as [->|H2]; [now rewrite T2|].
    now rewrite !orb_false_r.
Qed.

(** X25: [setControlRegisterBits] fails exactly when IA32_FEATURE_CONTROL
    is locked with VMX outside SMX disabled, and then executes no WRMSR
    and changes nothing.  When it succeeds on a locked
    IA32_FEATURE_CONTROL it executes no WRMSR either; on an unlocked one
    it executes exactly one, which writes IA32_FEATURE_CONTROL with the
    lock bit and VMX outside SMX set and the other bits as they were.  No
    other MSR is ever written. *)
Theorem setControlRegisterBits_feature_control (s : VMM_Registers) :
  let featureControl := msrs s IA32_FEATURE_CONTROL in
  let status := (setControlRegisterBits s).1 in
  let s' := (setControlRegisterBits s).2 in
  (status = STATUS_UNSUCCESSFUL
   ∧ IA32_FeatureControl.lockBit featureControl = 1
   ∧ IA32_FeatureControl.enableVmxOutsideSmx featureControl = 0
   ∧ s' = s)
  ∨ (status = STATUS_SUCCESS
     ∧ ¬ (IA32_FeatureControl.lockBit featureControl = 1
          ∧ IA32_FeatureControl.enableVmxOutsideSmx featureControl = 0)
     ∧ (IA32_FeatureControl.lockBit featureControl = 1 →
        wrmsr s' = wrmsr s ∧ ∀ msr, msrs s' msr = msrs s msr)
     ∧ (IA32_FeatureControl.lockBit featureControl = 0 →
        wrmsr s' = wrmsr s ++ [(IA32_FEATURE_CONTROL, msrs s' IA32_FEATURE_CONTROL)])
     ∧ (∀ i, N.testbit (msrs s' IA32_FEATURE_CONTROL) i
             = N.testbit featureControl i || (i =? 0) || (i =? 2))
     ∧ (∀ msr, msr ≠ IA32_FEATURE_CONTROL → msrs s' msr = msrs s msr)).
Proof.
  cbv zeta. set (featureControl := msrs s IA32_FEATURE_CONTROL).
  unfold IA32_FeatureControl.lockBit, IA32_FeatureControl.enableVmxOutsideSmx.
  pose proof (bit_field_1 0 featureControl) as L.
  pose proof (bit_field_1 2 featureControl) as E.
  assert (E0 : bitfield 2 1 featureControl = 0
               ↔ N.testbit featureControl 2 = false).
  { destruct (bitfield_bool 2 featureControl) as [H|H]; rewrite H in *.
    - split; [intros _|reflexivity].
      destruct (N.testbit featureControl 2); [|reflexivity].
      destruct E as [_ E]. specialize (E eq_refl). discriminate E.
    - split; [discriminate|]. intros H2. destruct E as [E _].
      rewrite (E eq_refl) in H2. discriminate H2. }
  pose proof (setControlRegisterBits_cases s) as Hcases. cbv zeta in Hcases.
  fold featureControl in Hcases.
  destruct Hcases as [(T0 & T2 & ->)|(Hnot & value & Hbits & Hlocked & ->)];
    cbn [fst snd msrs wrmsr].
  - left. split; [reflexivity|]. split; [now apply L|]. split; [now apply E0|].
    reflexivity.
  - right. split; [reflexivity|]. split; [rewrite L, E0; exact Hnot|].
    split; [|split; [|split]].
    + intros H. apply L in H. now rewrite H.
    + intros H. destruct (N.testbit featureControl 0) eqn:T0.
      * destruct L as [_ L]. rewrite (L eq_refl) in H. discriminate H.
      * change (IA32_FEATURE_CONTROL =? IA32_FEATURE_CONTROL) with true.
        reflexivity.
    + destruct (N.testbit featureControl 0) eqn:T0.
      * intros i. rewrite <- Hbits. now rewrite (Hlocked eq_refl).
      * change (IA32_FEATURE_CONTROL =? IA32_FEATURE_CONTROL) with true.
        exact Hbits.
    + intros msr Hne. destruct (N.testbit featureControl 0); [reflexivity|].
      apply N.eqb_neq in Hne. now rewrite Hne.
Qed.

(** X26: when [setControlRegisterBits] succeeds, CR0 and CR4 meet the
    fixed-bit requirements of VMX operation: no bit that IA32_VMX_CRx_FIXED1
    reports as 0 is set, every bit that FIXED0 reports as 1 is set unless
    FIXED1 forbids it, every other bit keeps its value, except CR4.VMXE
    (bit 13), which is set exactly when FIXED1 allows it. *)
Theorem setControlRegisterBits_fixed_bits (s s' : VMM_Registers) (i : N) :
  setControlRegisterBits s = (STATUS_SUCCESS, s') →
  N.testbit (cr0 s') i
  = (if N.testbit (msrs s IA32_VMX_CR0_FIXED1) i
     then N.testbit (msrs s IA32_VMX_CR0_FIXED0) i || N.testbit (cr0 s) i
     else false)
  ∧ N.testbit (cr4 s') i
    = (if N.testbit (msrs s IA32_VMX_CR4_FIXED1) i
       then N.testbit (msrs s IA32_VMX_CR4_FIXED0) i || (i =? 13)
            || N.testbit (cr4 s) i
       else false).
Proof.
  intros Hrun.
  destruct (setControlRegisterBits_cases s)
    as [(_ & _ & Hfail)|(_ & value & _ & _ & Hok)].
  { rewrite Hfail in Hrun. discriminate Hrun. }
  rewrite Hok in Hrun. injection Hrun as <-. cbn [cr0 cr4].
  rewrite !N.land_spec, !N.lor_spec. unfold IA32_Cr4.set_vmxEnableBit.
  rewrite set_bitfield_testbit. split.
  - destruct (N.testbit (msrs s IA32_VMX_CR0_FIXED1) i);
      [rewrite andb_true_r; apply orb_comm|apply andb_false_r].
  - assert (Hbit : (if (13 <=? i) && (i <? 13 + 1) then N.testbit 1 (i - 13)
                    else N.testbit (cr4 s) i)
                   = (i =? 13) || N.testbit (cr4 s) i).
    { destruct (N.eqb_spec i 13) as [->|Hne]; [reflexivity|].
      replace ((13 <=? i) && (i <? 13 + 1)) with false; [reflexivity|].
      symmetry. apply andb_false_iff.
      destruct (N.lt_ge_cases i 13);
        [left; apply N.leb_gt|right; apply N.ltb_ge]; lia. }
    rewrite Hbit.
    destruct (N.testbit (msrs s IA32_VMX_CR4_FIXED1) i);
      [rewrite andb_true_r|apply andb_false_r].
    destruct (N.testbit (msrs s IA32_VMX_CR4_FIXED0) i), (i =? 13),
      (N.testbit (cr4 s) i); reflexivity.
Qed.

Lemma setControlRegisterBits_fixed_bits_witness :
  N.testbit (cr0 (setControlRegisterBits demo_registers_vmm).2) 5
  = (if N.testbit (msrs demo_registers_vmm IA32_VMX_CR0_FIXED1) 5
     then N.testbit (msrs demo_registers_vmm IA32_VMX_CR0_FIXED0) 5
          || N.testbit (cr0 demo_registers_vmm) 5
     else false)
  ∧ N.testbit (cr4 (setControlRegisterBits demo_registers_vmm).2) 5
    = (if N.testbit (msrs demo_registers_vmm IA32_VMX_CR4_FIXED1) 5
       then N.testbit (msrs demo_registers_vmm IA32_VMX_CR4_FIXED0) 5 || (5 =? 13)
            || N.testbit (cr4 demo_registers_vmm) 5
       else false).
Proof.
  apply (setControlRegisterBits_fixed_bits demo_registers_vmm
           (setControlRegisterBits demo_registers_vmm).2 5).
  reflexivity.
Defined.
